(** * LangChain codemods: edit planning over a parsed syntax tree

    A shallow embedding of the migration scripts of the repository
    ([codemods/*/scripts/codemod.ts]).  Every script receives a parsed Python
    file (an ast-grep [SgRoot]), walks the tree with [find] and [findAll],
    pushes [Edit] values and hands them to [commitEdits].

    - The parser belongs to the host: a parsed file is a buffer together
      with its tree, and offsets index the buffer.
    - A [for] loop that pushes edits is the [flat_map] of its body over the
      nodes it visits, in the order of the traversal; [continue] is a body
      that pushes nothing, and an early [return] from nested loops is the
      first result found.
    - [null] is the outcome [Unchanged]; [console.warn] adds to the list of
      warnings of a visit.
    - [commitEdits] and the semantic analysis ([definition]) belong to the
      host as well: the first is modelled on the committer of the
      specification, the second is a parameter.
    - A string is a sequence of 8-bit characters and an offset counts
      them.  The parser's offsets count bytes, while a script indexes a
      JavaScript string, whose units are 16 bits wide: the two agree on a
      buffer of ASCII characters ([asciiOnly]), and the scripts read the
      characters the model reads on such buffers only.
    - A script indexes [rootNode.text()] with offsets of the buffer; the
      two coincide when the root node starts at offset 0 ([wellFormed]). *)

From Stdlib Require Import String Ascii List Arith ZArith Lia Bool.
Import ListNotations.
Open Scope string_scope.
Open Scope list_scope.
Open Scope nat_scope.

Set Warnings "-register-all".

Infix "+++" := String.append (right associativity, at level 60).

(** ** JavaScript string primitives used by the scripts *)

Module Js.

(** [s[i]]: [None] stands for [undefined]. *)
Definition charAt (s : string) (i : nat) : option ascii := String.get i s.

(** [s.slice(a, b)] and [s.substring(a, b)] for [0 <= a]. *)
Definition slice (s : string) (a b : nat) : string := String.substring a (b - a) s.

(** [s.slice(a)]. *)
Definition sliceFrom (s : string) (a : nat) : string :=
  String.substring a (String.length s - a) s.

(** [s.includes(sub)]. *)
Definition includes (s sub : string) : bool :=
  match String.index 0 sub s with Some _ => true | None => false end.

(** [s.startsWith(p)]. *)
Definition startsWith (s p : string) : bool := String.prefix p s.

(** [s.endsWith(p)]. *)
Definition endsWith (s p : string) : bool :=
  (String.length p <=? String.length s) &&
  (sliceFrom s (String.length s - String.length p) =? p)%string.

(** [s[i] === c]. *)
Definition charIs (s : string) (i : nat) (c : ascii) : bool :=
  match charAt s i with Some d => Ascii.eqb d c | None => false end.

(** White space of [trim()] and of the regex class [\s], for the code
    units below 256: TAB, LF, VT, FF, CR, SPACE and NBSP. *)
Definition isSpace (c : ascii) : bool :=
  let n := nat_of_ascii c in
  ((9 <=? n) && (n <=? 13)) || (n =? 32) || (n =? 160).

Fixpoint trimStart (s : string) : string :=
  match s with
  | String c r => if isSpace c then trimStart r else s
  | EmptyString => EmptyString
  end.

(** [trimEnd] keeps a character when it is not white space or when
    something is kept after it. *)
Fixpoint trimEnd (s : string) : string :=
  match s with
  | String c r =>
      match trimEnd r with
      | EmptyString => if isSpace c then EmptyString else String c EmptyString
      | r' => String c r'
      end
  | EmptyString => EmptyString
  end.

Definition trim (s : string) : string := trimEnd (trimStart s).

End Js.

Definition LF : ascii := "010"%char.
Definition SPACE : ascii := " "%char.
Definition COMMA : ascii := ","%char.
Definition DQUOTE : ascii := "034"%char.
Definition nl : string := String LF EmptyString.
Definition dq : string := String DQUOTE EmptyString.

(** ** Syntax trees

    A tree-sitter node: its identity, its kind, whether it is a named node,
    the field of its parent it sits in, its span in the buffer and its
    children in source order. *)

Inductive Node : Type :=
  mkNode {
    id : nat;
    kind : string;
    named : bool;
    fieldName : option string;
    startIndex : nat;
    endIndex : nat;
    children : list Node
  }.

(** An ast-grep node handle: the node, the buffer it was parsed from and the
    chain of its ancestors, innermost first. *)
Record SgNode : Type :=
  mkSg {
    source : string;
    node : Node;
    parents : list Node
  }.

Record Edit : Type :=
  mkEdit {
    startPos : nat;
    endPos : nat;
    insertedText : string
  }.

(** Pre-order traversal of a subtree; every node comes with its ancestors. *)
Fixpoint preorder (src : string) (ps : list Node) (n : Node) : list SgNode :=
  {| source := src; node := n; parents := ps |}
    :: flat_map (preorder src (n :: ps)) (children n).

Module Sg.

Definition root (src : string) (n : Node) : SgNode :=
  {| source := src; node := n; parents := [] |}.

(** [n.id()], [n.kind()], [n.isNamed()] and [n.is(k)]. *)
Definition id (n : SgNode) : nat := id (node n).
Definition kind (n : SgNode) : string := kind (node n).
Definition isNamed (n : SgNode) : bool := named (node n).
Definition isKind (n : SgNode) (k : string) : bool := (kind n =? k)%string.

(** [n.range().start.index] and [n.range().end.index]. *)
Definition rangeStart (n : SgNode) : nat := startIndex (node n).
Definition rangeEnd (n : SgNode) : nat := endIndex (node n).

(** [n.text()]: the verbatim slice of the buffer. *)
Definition text (n : SgNode) : string :=
  Js.slice (source n) (rangeStart n) (rangeEnd n).

(** [n.children()]. *)
Definition child (n : SgNode) (c : Node) : SgNode :=
  {| source := source n; node := c; parents := node n :: parents n |}.

Definition children (n : SgNode) : list SgNode :=
  map (child n) (children (node n)).

Definition inField (f : string) (n : SgNode) : bool :=
  match fieldName (node n) with
  | Some g => (g =? f)%string
  | None => false
  end.

(** [n.fieldChildren(f)] and [n.field(f)]. *)
Definition fieldChildren (n : SgNode) (f : string) : list SgNode :=
  filter (inField f) (children n).

Definition field (n : SgNode) (f : string) : option SgNode :=
  hd_error (fieldChildren n f).

(** [n.ancestors()], innermost first. *)
Fixpoint ancestorsOf (src : string) (ps : list Node) : list SgNode :=
  match ps with
  | [] => []
  | p :: r => {| source := src; node := p; parents := r |} :: ancestorsOf src r
  end.

Definition ancestors (n : SgNode) : list SgNode := ancestorsOf (source n) (parents n).

Definition parent (n : SgNode) : option SgNode := hd_error (ancestors n).

(** [n.dfs()]: the node itself first, then its descendants in pre-order. *)
Definition dfs (n : SgNode) : list SgNode := preorder (source n) (parents n) (node n).

(** [n.replace(t)]. *)
Definition replace (n : SgNode) (t : string) : Edit :=
  {| startPos := rangeStart n; endPos := rangeEnd n; insertedText := t |}.

(** *** Rules

    The rule objects passed to [find] and [findAll].  A [regex] of the
    scripts is always an anchored alternation of literals,
    [^(a|b)$], and is given by the list of its literals.  A relational
    rule ([has], [inside]) stops at the neighbour, as ast-grep does when
    no [stopBy] is given. *)

Definition Rule : Type := SgNode -> bool.

Definition kindIs (k : string) : Rule := fun n => isKind n k.

Definition regex (alts : list string) : Rule :=
  fun n => existsb (String.eqb (text n)) alts.

Definition all (rs : list Rule) : Rule := fun n => forallb (fun r => r n) rs.

Definition any (rs : list Rule) : Rule := fun n => existsb (fun r => r n) rs.

Definition has (r : Rule) : Rule := fun n => existsb r (children n).

Definition hasField (f : string) (r : Rule) : Rule :=
  fun n => existsb r (fieldChildren n f).

Definition inside (r : Rule) : Rule :=
  fun n => match parent n with Some p => r p | None => false end.

Definition insideField (f : string) (r : Rule) : Rule :=
  fun n => inField f n && inside r n.

(** [n.findAll({ rule })] and [n.find({ rule })]. *)
Definition findAll (n : SgNode) (r : Rule) : list SgNode := filter r (dfs n).

Definition find (n : SgNode) (r : Rule) : option SgNode := List.find r (dfs n).

(** The method [n.inside({ rule })] of a node: some ancestor, at any
    distance, matches. *)
Definition isInside (n : SgNode) (r : Rule) : bool := existsb r (ancestors n).

End Sg.

(** ** The committer

    Modelled from the spec: [commitEdits] is a method of the host runtime and
    is not part of the scripts.  The edits are sorted by start offset; two
    neighbours that overlap, or a span outside the buffer, make the commit
    fail; otherwise the buffer is copied in one pass with each span replaced
    by its text.  The offsets of an edit index the source buffer, and the
    buffer is what the committer copies. *)

Inductive Outcome : Type :=
| Unchanged
| Rewritten (text : string)
| CommitFailed.

Module Committer.

Fixpoint insertByStart (e : Edit) (es : list Edit) : list Edit :=
  match es with
  | [] => [e]
  | x :: r => if startPos e <=? startPos x then e :: x :: r else x :: insertByStart e r
  end.

Definition sortByStart (es : list Edit) : list Edit := fold_right insertByStart [] es.

Fixpoint disjoint (es : list Edit) : bool :=
  match es with
  | e :: ((f :: _) as r) => (endPos e <=? startPos f) && disjoint r
  | _ => true
  end.

Definition inBounds (src : string) (e : Edit) : bool :=
  (startPos e <=? endPos e) && (endPos e <=? String.length src).

Fixpoint walk (src : string) (cursor : nat) (es : list Edit) : string :=
  match es with
  | [] => Js.sliceFrom src cursor
  | e :: r => Js.slice src cursor (startPos e) +++ insertedText e +++ walk src (endPos e) r
  end.

Definition apply (src : string) (es : list Edit) : Outcome :=
  match es with
  | [] => Unchanged
  | _ =>
      let sorted := sortByStart es in
      if forallb (inBounds src) sorted && disjoint sorted
      then Rewritten (walk src 0 sorted)
      else CommitFailed
  end.

End Committer.

(** [rootNode.commitEdits(edits)], on the buffer the root was parsed from. *)
Definition commitEdits (rootNode : SgNode) (edits : list Edit) : Outcome :=
  Committer.apply (source rootNode) edits.

(** What a script returns: [null] when it pushed no edit, the committed
    buffer otherwise. *)
Definition finish (rootNode : SgNode) (edits : list Edit) : Outcome :=
  match edits with
  | [] => Unchanged
  | _ => commitEdits rootNode edits
  end.

(** A parsed file as a script receives it. *)
Record SgRoot : Type :=
  mkRoot {
    buffer : string;
    tree : Node;
    filename : string
  }.

(** [root.root()]. *)
Definition rootOf (root : SgRoot) : SgNode := Sg.root (buffer root) (tree root).

(** What one turn of a script's main loop does: the edits it pushes and the
    warnings it prints. *)
Record Visit : Type :=
  mkVisit {
    pushed : list Edit;
    warned : list string
  }.

Definition skip : Visit := {| pushed := []; warned := [] |}.
Definition push (es : list Edit) : Visit := {| pushed := es; warned := [] |}.
Definition warn (w : string) : Visit := {| pushed := []; warned := [w] |}.

Fixpoint firstSome {A B : Type} (f : A -> option B) (l : list A) : option B :=
  match l with
  | [] => None
  | x :: r => match f x with Some y => Some y | None => firstSome f r end
  end.

Definition isEmpty {A : Type} (l : list A) : bool :=
  match l with [] => true | _ => false end.

(** ** text-method-to-property: [X.text()] becomes [X.text]

    [codemods/text-method-to-property/scripts/codemod.ts]. *)

Module TextMethodToProperty.

Definition textMethodCall : Sg.Rule :=
  Sg.all [Sg.kindIs "call";
          Sg.hasField "function"
            (Sg.all [Sg.kindIs "attribute";
                     Sg.hasField "attribute"
                       (Sg.all [Sg.kindIs "identifier"; Sg.regex ["text"]])])].

(** The body of the loop over [textMethodCalls]. *)
Definition visit (callNode : SgNode) : list Edit :=
  match Sg.field callNode "arguments" with
  | None => []
  | Some argsNode =>
      let args := filter Sg.isNamed (Sg.children argsNode) in
      if 0 <? length args then []
      else
        match Sg.field callNode "function" with
        | None => []
        | Some attrNode => [Sg.replace callNode (Sg.text attrNode)]
        end
  end.

Definition edits (rootNode : SgNode) : list Edit :=
  flat_map visit (Sg.findAll rootNode textMethodCall).

Definition transform (root : SgRoot) : Outcome :=
  let rootNode := rootOf root in
  finish rootNode (edits rootNode).

End TextMethodToProperty.

(** ** response-format-tool-strategy: [response_format=X] becomes
    [response_format=ToolStrategy(X)]

    [codemods/response-format-tool-strategy/scripts/codemod.ts]. *)

Module ResponseFormatToolStrategy.

Definition TOOL_STRATEGY_IMPORT : string :=
  "from langchain.agents.structured_output import ToolStrategy".

Definition hasToolStrategyImport (rootNode : SgNode) : bool :=
  let imports := Sg.findAll rootNode (Sg.kindIs "import_from_statement") in
  existsb
    (fun importNode =>
       let text := Sg.text importNode in
       Js.includes text "langchain.agents.structured_output"
       && Js.includes text "ToolStrategy")
    imports.

Definition anyImport : Sg.Rule :=
  Sg.any [Sg.kindIs "import_statement"; Sg.kindIs "import_from_statement"].

Definition findImportInsertPosition (rootNode : SgNode) : nat :=
  let imports := Sg.findAll rootNode anyImport in
  if length imports =? 0 then 0
  else
    fold_left
      (fun lastImportEnd imp =>
         let endPos := Sg.rangeEnd imp in
         if lastImportEnd <? endPos then endPos else lastImportEnd)
      imports 0.

Definition isAlreadyWrapped (n : SgNode) : bool :=
  if negb (Sg.isKind n "call") then false
  else
    match Sg.field n "function" with
    | None => false
    | Some funcNode =>
        let funcText := Sg.text funcNode in
        (funcText =? "ToolStrategy")%string || (funcText =? "ProviderStrategy")%string
    end.

Definition isTupleForm (n : SgNode) : bool := Sg.isKind n "tuple".

Definition createAgentCall : Sg.Rule :=
  Sg.all [Sg.kindIs "call";
          Sg.hasField "function"
            (Sg.all [Sg.kindIs "identifier"; Sg.regex ["create_agent"]])].

Definition responseFormatKeyword : Sg.Rule :=
  Sg.all [Sg.kindIs "keyword_argument";
          Sg.hasField "name"
            (Sg.all [Sg.kindIs "identifier"; Sg.regex ["response_format"]])].

Definition tupleWarning (file : string) : string :=
  "Warning: Tuple form response_format=(prompt, schema) found at " +++ file +++ ". "
  +++ "This requires manual migration as prompted output has been removed.".

(** The body of the loop over [createAgentCalls]. *)
Definition visit (file : string) (callNode : SgNode) : Visit :=
  match Sg.field callNode "arguments" with
  | None => skip
  | Some argsNode =>
      match Sg.find argsNode responseFormatKeyword with
      | None => skip
      | Some responseFormatArg =>
          match Sg.field responseFormatArg "value" with
          | None => skip
          | Some valueNode =>
              if isTupleForm valueNode then warn (tupleWarning file)
              else if isAlreadyWrapped valueNode then skip
              else
                let valueText := Sg.text valueNode in
                let newValue := "ToolStrategy(" +++ valueText +++ ")" in
                push [Sg.replace valueNode newValue]
          end
      end
  end.

Definition visits (root : SgRoot) : list Visit :=
  map (visit (filename root)) (Sg.findAll (rootOf root) createAgentCall).

(** The edits of the loop; [needsImport] is set exactly where one is pushed. *)
Definition wrapEdits (root : SgRoot) : list Edit := flat_map pushed (visits root).
Definition warnings (root : SgRoot) : list string := flat_map warned (visits root).
Definition needsImport (root : SgRoot) : bool := negb (isEmpty (wrapEdits root)).

(** The edit pushed by the block "Add import if needed". *)
Definition importEdits (root : SgRoot) : list Edit :=
  let rootNode := rootOf root in
  if needsImport root && negb (hasToolStrategyImport rootNode) then
    let insertPos := findImportInsertPosition rootNode in
    if insertPos =? 0 then
      [{| startPos := 0; endPos := 0;
          insertedText := TOOL_STRATEGY_IMPORT +++ nl +++ nl |}]
    else
      [{| startPos := insertPos; endPos := insertPos;
          insertedText := nl +++ TOOL_STRATEGY_IMPORT |}]
  else [].

Definition edits (root : SgRoot) : list Edit :=
  match wrapEdits root with
  | [] => []
  | _ => wrapEdits root ++ importEdits root
  end.

Definition transform (root : SgRoot) : Outcome :=
  match wrapEdits root with
  | [] => Unchanged
  | _ => commitEdits (rootOf root) (wrapEdits root ++ importEdits root)
  end.

End ResponseFormatToolStrategy.

(** ** prompt-to-system-prompt: the keyword [prompt=] becomes [system_prompt=]

    The script printed after [codemods/prompt-to-system-prompt/README.md]. *)

(** What [funcNode.definition()] of the host's semantic analysis answers. *)
Record DefinitionInfo : Type :=
  mkDefinition {
    defKind : string;
    defNode : SgNode
  }.

Module PromptToSystemPrompt.

Section WithSemanticAnalysis.

(** The host's symbol resolution, [None] for [null]. *)
Variable definition : SgNode -> option DefinitionInfo.

Definition agentCall : Sg.Rule :=
  Sg.all [Sg.kindIs "call";
          Sg.hasField "function"
            (Sg.all [Sg.kindIs "identifier";
                     Sg.regex ["create_agent"; "create_react_agent"]])].

(** The check "verify it's from the right package": [true] when the
    loop goes on to the next call. *)
Definition fromOtherModule (funcNode : SgNode) : bool :=
  match definition funcNode with
  | None => false
  | Some def =>
      if (defKind def =? "import")%string || (defKind def =? "external")%string then
        match List.find (fun a => Sg.isKind a "import_from_statement")
                        (Sg.ancestors (defNode def)) with
        | None => false
        | Some importStmt =>
            match Sg.field importStmt "module_name" with
            | None => false
            | Some moduleName =>
                let moduleText := Sg.text moduleName in
                negb ((moduleText =? "langchain.agents")%string
                      || (moduleText =? "langgraph.prebuilt")%string)
            end
        end
      else false
  end.

(** The loop over [keywordArgs]: the last [prompt=] argument and whether
    a [system_prompt=] argument was seen. *)
Definition scanKeywords (keywordArgs : list SgNode) : option SgNode * bool :=
  fold_left
    (fun (st : option SgNode * bool) kwArg =>
       let '(promptArg, hasSystemPrompt) := st in
       match Sg.field kwArg "name" with
       | None => st
       | Some nameNode =>
           let argName := Sg.text nameNode in
           if (argName =? "prompt")%string then (Some kwArg, hasSystemPrompt)
           else if (argName =? "system_prompt")%string then (promptArg, true)
           else st
       end)
    keywordArgs (None, false).

Definition bothWarning (file : string) : string :=
  "Warning: Both 'prompt=' and 'system_prompt=' found in call at " +++ file
  +++ ". Skipping transformation.".

(** The body of the loop over [calls]. *)
Definition visit (file : string) (call : SgNode) : Visit :=
  match Sg.field call "function" with
  | None => skip
  | Some funcNode =>
      if fromOtherModule funcNode then skip
      else
        match Sg.field call "arguments" with
        | None => skip
        | Some argList =>
            if negb (Sg.kind argList =? "argument_list")%string then skip
            else
              let keywordArgs := Sg.findAll argList (Sg.kindIs "keyword_argument") in
              match scanKeywords keywordArgs with
              | (Some promptArg, true) => warn (bothWarning file)
              | (Some promptArg, false) =>
                  match Sg.field promptArg "name" with
                  | Some nameNode => push [Sg.replace nameNode "system_prompt"]
                  | None => skip
                  end
              | (None, _) => skip
              end
        end
  end.

Definition visits (root : SgRoot) : list Visit :=
  map (visit (filename root)) (Sg.findAll (rootOf root) agentCall).

Definition edits (root : SgRoot) : list Edit := flat_map pushed (visits root).
Definition warnings (root : SgRoot) : list string := flat_map warned (visits root).

Definition transform (root : SgRoot) : Outcome :=
  finish (rootOf root) (edits root).

End WithSemanticAnalysis.

End PromptToSystemPrompt.

(** ** aimessage-example-to-kwargs: [example=E] moves into [additional_kwargs]

    The script printed after [codemods/aimessage-example-to-kwargs/README.md]. *)

(** [l.findIndex(p)], which answers [-1] when nothing is found, and [l[i]]
    for an index that may be negative. *)
Fixpoint findIndexFrom {A : Type} (p : A -> bool) (l : list A) (i : Z) : Z :=
  match l with
  | [] => (-1)%Z
  | x :: r => if p x then i else findIndexFrom p r (i + 1)%Z
  end.

Definition findIndex {A : Type} (p : A -> bool) (l : list A) : Z := findIndexFrom p l 0%Z.

Definition at_ {A : Type} (l : list A) (i : Z) : option A :=
  if (i <? 0)%Z then None else nth_error l (Z.to_nat i).

Module AIMessageExampleToKwargs.

Definition aiMessageCall : Sg.Rule :=
  Sg.all [Sg.kindIs "call";
          Sg.hasField "function"
            (Sg.all [Sg.kindIs "identifier"; Sg.regex ["AIMessage"]])].

Definition keywordNamed (name : string) : Sg.Rule :=
  Sg.all [Sg.kindIs "keyword_argument";
          Sg.has (Sg.all [Sg.kindIs "identifier"; Sg.regex [name]])].

Definition examplePair : Sg.Rule :=
  Sg.all [Sg.kindIs "pair";
          Sg.has (Sg.all [Sg.kindIs "string";
                          Sg.has (Sg.all [Sg.kindIs "string_content";
                                          Sg.regex ["example"]])])].

(** The child after the first child whose text is [=]. *)
Fixpoint childAfterEquals (cs : list SgNode) : option SgNode :=
  match cs with
  | [] => None
  | c :: r => if (Sg.text c =? "=")%string then hd_error r else childAfterEquals r
  end.

Definition getKeywordArgumentValue (keywordArg : SgNode) : option SgNode :=
  childAfterEquals (Sg.children keywordArg).

Definition removeArgumentWithComma (arg argList : SgNode) : Edit :=
  let allChildren := Sg.children argList in
  let argIndex := findIndex (fun child => Sg.id child =? Sg.id arg) allChildren in
  let startPos := Sg.rangeStart arg in
  let endPos := Sg.rangeEnd arg in
  let leading :=
    match at_ allChildren (argIndex - 1)%Z with
    | Some prevChild =>
        if (Sg.text prevChild =? ",")%string
        then {| startPos := Sg.rangeStart prevChild; endPos := endPos; insertedText := "" |}
        else {| startPos := startPos; endPos := endPos; insertedText := "" |}
    | None => {| startPos := startPos; endPos := endPos; insertedText := "" |}
    end in
  match at_ allChildren (argIndex + 1)%Z with
  | Some nextChild =>
      if (Sg.text nextChild =? ",")%string then
        match at_ allChildren (argIndex + 2)%Z with
        | Some afterComma =>
            {| startPos := startPos; endPos := Sg.rangeStart afterComma; insertedText := "" |}
        | None =>
            {| startPos := startPos; endPos := Sg.rangeEnd nextChild; insertedText := "" |}
        end
      else leading
  | None => leading
  end.

(** The text that replaces a dictionary literal [dictText]. *)
Definition mergeIntoDict (dictText exampleValue : string) : string :=
  let dictContent := Js.trim (Js.slice dictText 1 (String.length dictText - 1)) in
  if (dictContent =? "")%string
  then "{" +++ dq +++ "example" +++ dq +++ ": " +++ exampleValue +++ "}"
  else "{" +++ dq +++ "example" +++ dq +++ ": " +++ exampleValue +++ ", "
           +++ dictContent +++ "}".

(** The body of the loop over [calls]. *)
Definition visit (call : SgNode) : list Edit :=
  match Sg.field call "arguments" with
  | None => []
  | Some argList =>
      match Sg.find argList (keywordNamed "example") with
      | None => []
      | Some exampleArg =>
          match Sg.find exampleArg (Sg.all [Sg.kindIs "identifier"; Sg.regex ["example"]]) with
          | None => []
          | Some exampleNameNode =>
              match getKeywordArgumentValue exampleArg with
              | None => []
              | Some exampleValueNode =>
                  let exampleValue := Sg.text exampleValueNode in
                  match Sg.find argList (keywordNamed "additional_kwargs") with
                  | Some additionalKwargsArg =>
                      match getKeywordArgumentValue additionalKwargsArg with
                      | None => []
                      | Some additionalKwargsValue =>
                          if (Sg.kind additionalKwargsValue =? "dictionary")%string then
                            match Sg.find additionalKwargsValue examplePair with
                            | Some existingExampleKey => []
                            | None =>
                                let dictText := Sg.text additionalKwargsValue in
                                let newDictText := mergeIntoDict dictText exampleValue in
                                [Sg.replace additionalKwargsValue newDictText;
                                 removeArgumentWithComma exampleArg argList]
                            end
                          else
                            let varText := Sg.text additionalKwargsValue in
                            let newValue :=
                              "{**" +++ varText +++ ", " +++ dq +++ "example" +++ dq
                                    +++ ": " +++ exampleValue +++ "}" in
                            [Sg.replace additionalKwargsValue newValue;
                             removeArgumentWithComma exampleArg argList]
                      end
                  | None =>
                      [Sg.replace exampleArg
                         ("additional_kwargs={" +++ dq +++ "example" +++ dq +++ ": "
                            +++ exampleValue +++ "}")]
                  end
              end
          end
      end
  end.

Definition edits (rootNode : SgNode) : list Edit :=
  flat_map visit (Sg.findAll rootNode aiMessageCall).

Definition transform (root : SgRoot) : Outcome :=
  let rootNode := rootOf root in
  finish rootNode (edits rootNode).

End AIMessageExampleToKwargs.

(** ** unwrap-tool-node-in-agent: [tools=ToolNode(ARG)] becomes [tools=ARG]

    [codemods/unwrap-tool-node-in-agent/scripts/codemod.ts]. *)

Module UnwrapToolNodeInAgent.

Definition isToolNodeCall (callNode : SgNode) : bool :=
  match Sg.field callNode "function" with
  | None => false
  | Some func =>
      if Sg.isKind func "identifier" && (Sg.text func =? "ToolNode")%string then true
      else if Sg.isKind func "attribute" then
        match Sg.field func "attribute" with
        | Some attrName => (Sg.text attrName =? "ToolNode")%string
        | None => false
        end
      else false
  end.

Definition targetFunctions : list string := ["create_agent"; "create_react_agent"].

Definition isAgentCreationCall (callNode : SgNode) : bool :=
  match Sg.field callNode "function" with
  | None => false
  | Some func =>
      if Sg.isKind func "identifier" && existsb (String.eqb (Sg.text func)) targetFunctions
      then true
      else if Sg.isKind func "attribute" then
        match Sg.field func "attribute" with
        | Some attrName => existsb (String.eqb (Sg.text attrName)) targetFunctions
        | None => false
        end
      else false
  end.

Definition notPunctuation (child : SgNode) : bool :=
  let kind := Sg.kind child in
  negb (kind =? "(")%string && negb (kind =? ")")%string && negb (kind =? ",")%string.

Definition hasSingleArgument (toolNodeCall : SgNode) : bool :=
  match Sg.field toolNodeCall "arguments" with
  | None => false
  | Some argList =>
      match filter notPunctuation (Sg.children argList) with
      | [singleArg] => negb (Sg.isKind singleArg "keyword_argument")
      | _ => false
      end
  end.

Definition getSingleArgument (toolNodeCall : SgNode) : option SgNode :=
  match Sg.field toolNodeCall "arguments" with
  | None => None
  | Some argList =>
      match filter notPunctuation (Sg.children argList) with
      | [singleArg] => Some singleArg
      | _ => None
      end
  end.

Definition toolsKeyword : Sg.Rule :=
  Sg.all [Sg.kindIs "keyword_argument";
          Sg.hasField "name" (Sg.all [Sg.kindIs "identifier"; Sg.regex ["tools"]])].

(** The pair [{ kwArg, toolNodeCall }]. *)
Definition findToolsArgWithToolNode (agentCall : SgNode) : option (SgNode * SgNode) :=
  match Sg.field agentCall "arguments" with
  | None => None
  | Some argList =>
      firstSome
        (fun kwArg =>
           match Sg.field kwArg "value" with
           | None => None
           | Some value =>
               if negb (Sg.isKind value "call") then None
               else if isToolNodeCall value && hasSingleArgument value
                    then Some (kwArg, value)
                    else None
           end)
        (Sg.findAll argList toolsKeyword)
  end.

Definition directToolNodeCall : Sg.Rule :=
  Sg.all [Sg.kindIs "call";
          Sg.hasField "function" (Sg.all [Sg.kindIs "identifier"; Sg.regex ["ToolNode"]])].

Definition countToolNodeUsages (rootNode : SgNode) : nat :=
  length (Sg.findAll rootNode directToolNodeCall).

Definition toolNodeName : Sg.Rule :=
  Sg.all [Sg.kindIs "dotted_name";
          Sg.has (Sg.all [Sg.kindIs "identifier"; Sg.regex ["ToolNode"]])].

Definition moduleName : Sg.Rule :=
  Sg.all [Sg.kindIs "dotted_name";
          Sg.insideField "module_name" (Sg.kindIs "import_from_statement")].

(** The loop "Count all imported names in this statement". *)
Fixpoint importedNamesFrom (foundImportKeyword : bool) (cs : list SgNode) : list SgNode :=
  match cs with
  | [] => []
  | child :: r =>
      if (Sg.kind child =? "import")%string then importedNamesFrom true r
      else if foundImportKeyword && (Sg.kind child =? "dotted_name")%string
           then child :: importedNamesFrom foundImportKeyword r
           else importedNamesFrom foundImportKeyword r
  end.

(** [while (i < fullText.length && fullText[i] === " ") i++], with as many
    turns as there are characters left. *)
Fixpoint skipSpaces (fuel : nat) (fullText : string) (i : nat) : nat :=
  match fuel with
  | 0 => i
  | S fuel' =>
      if (i <? String.length fullText) && Js.charIs fullText i SPACE
      then skipSpaces fuel' fullText (S i)
      else i
  end.

Definition skipSpacesFrom (fullText : string) (i : nat) : nat :=
  skipSpaces (String.length fullText - i) fullText i.

(** [while (i >= 0 && fullText[i] === " ") i--], [None] standing for [-1]. *)
Fixpoint skipSpacesBack (fullText : string) (i : nat) : option nat :=
  if Js.charIs fullText i SPACE then
    match i with
    | 0 => None
    | S j => skipSpacesBack fullText j
    end
  else Some i.

(** The branch "Only ToolNode is imported - remove entire import statement". *)
Definition removeStatement (fullText : string) (importStmt : SgNode) : Edit :=
  let startPos := Sg.rangeStart importStmt in
  let endPos := Sg.rangeEnd importStmt in
  let endPos :=
    if (endPos <? String.length fullText) && Js.charIs fullText endPos LF then
      let endPos := S endPos in
      if (endPos <? String.length fullText) && Js.charIs fullText endPos LF
      then S endPos
      else endPos
    else endPos in
  {| startPos := startPos; endPos := endPos; insertedText := "" |}.

(** The branch "Multiple imports - remove just ToolNode and associated comma". *)
Definition removeName (fullText : string) (nameNode : SgNode) : Edit :=
  let startPos := Sg.rangeStart nameNode in
  let endPos := Sg.rangeEnd nameNode in
  let lookBehind :=
    match startPos with
    | 0 => None
    | S i => skipSpacesBack fullText i
    end in
  let commaBefore :=
    match lookBehind with
    | Some i => if Js.charIs fullText i COMMA then Some i else None
    | None => None
    end in
  match commaBefore with
  | Some i => {| startPos := i; endPos := endPos; insertedText := "" |}
  | None =>
      let lookAhead := skipSpacesFrom fullText endPos in
      if (lookAhead <? String.length fullText) && Js.charIs fullText lookAhead COMMA
      then {| startPos := startPos;
              endPos := skipSpacesFrom fullText (lookAhead + 1);
              insertedText := "" |}
      else {| startPos := startPos; endPos := endPos; insertedText := "" |}
  end.

Definition createImportRemovalEdit (rootNode : SgNode) (remainingToolNodeUsages : Z)
  : option Edit :=
  if (0 <? remainingToolNodeUsages)%Z then None
  else
    let imports := Sg.findAll rootNode (Sg.kindIs "import_from_statement") in
    firstSome
      (fun importStmt =>
         let importText := Sg.text importStmt in
         if negb (Js.includes importText "ToolNode") then None
         else
           let importedNames := Sg.findAll importStmt toolNodeName in
           firstSome
             (fun nameNode =>
                let moduleNameNode := Sg.find importStmt moduleName in
                let isModule :=
                  match moduleNameNode with
                  | Some m => Sg.id m =? Sg.id nameNode
                  | None => false
                  end in
                if isModule then None
                else
                  let allImportedNames :=
                    importedNamesFrom false (Sg.children importStmt) in
                  if length allImportedNames =? 1 then
                    Some (removeStatement (Sg.text rootNode) importStmt)
                  else
                    match Sg.find nameNode
                            (Sg.all [Sg.kindIs "identifier"; Sg.regex ["ToolNode"]]) with
                    | None => None
                    | Some toolNodeIdentifier =>
                        Some (removeName (Sg.text rootNode) nameNode)
                    end)
             importedNames)
      imports.

(** The body of the loop over [agentCalls]. *)
Definition visit (call : SgNode) : list Edit :=
  if negb (isAgentCreationCall call) then []
  else
    match findToolsArgWithToolNode call with
    | None => []
    | Some (_, toolNodeCall) =>
        match getSingleArgument toolNodeCall with
        | None => []
        | Some innerArg => [Sg.replace toolNodeCall (Sg.text innerArg)]
        end
    end.

(** The edits of the loop; [transformedToolNodeCount] is incremented
    exactly where one is pushed. *)
Definition unwrapEdits (rootNode : SgNode) : list Edit :=
  flat_map visit (Sg.findAll rootNode (Sg.kindIs "call")).

Definition transformedToolNodeCount (rootNode : SgNode) : nat :=
  length (unwrapEdits rootNode).

Definition remainingUsages (rootNode : SgNode) : Z :=
  (Z.of_nat (countToolNodeUsages rootNode) - Z.of_nat (transformedToolNodeCount rootNode))%Z.

Definition importEdits (rootNode : SgNode) : list Edit :=
  match createImportRemovalEdit rootNode (remainingUsages rootNode) with
  | Some importEdit => [importEdit]
  | None => []
  end.

Definition transform (root : SgRoot) : Outcome :=
  let rootNode := rootOf root in
  match unwrapEdits rootNode with
  | [] => Unchanged
  | _ => commitEdits rootNode (unwrapEdits rootNode ++ importEdits rootNode)
  end.

End UnwrapToolNodeInAgent.

(** ** system-message-to-prompt: [prompt=SystemMessage(content=X)] becomes
    [system_prompt=X]

    [codemods/system-message-to-prompt/scripts/codemod.ts]. *)

Module SystemMessageToPrompt.

Record TransformInfo : Type :=
  mkTransformInfo {
    keywordArg : SgNode;
    keywordName : SgNode;
    systemMessageCall : SgNode;
    contentExpr : SgNode;
    needsRename : bool
  }.

Definition fromLangchainMessages (impText : string) : bool :=
  Js.includes impText "langchain.messages"
  || Js.includes impText "langchain_core.messages"
  || Js.includes impText "langchain.core.messages".

Definition hasLangchainSystemMessageImport (rootNode : SgNode) : bool :=
  existsb
    (fun imp =>
       let impText := Sg.text imp in
       fromLangchainMessages impText && Js.includes impText "SystemMessage")
    (Sg.findAll rootNode (Sg.kindIs "import_from_statement")).

(** The pair [{ contentExpr, systemMessageCall }]. *)
Definition findSystemMessageContentArg (callNode : SgNode) : option (SgNode * SgNode) :=
  match Sg.field callNode "function" with
  | None => None
  | Some funcNode =>
      let funcText := Sg.text funcNode in
      if negb (funcText =? "SystemMessage")%string
         && negb (Js.endsWith funcText ".SystemMessage")
      then None
      else
        match Sg.field callNode "arguments" with
        | None => None
        | Some argList =>
            firstSome
              (fun kwarg =>
                 match Sg.field kwarg "name" with
                 | Some nameNode =>
                     if (Sg.text nameNode =? "content")%string then
                       match Sg.field kwarg "value" with
                       | Some valueNode => Some (valueNode, callNode)
                       | None => None
                       end
                     else None
                 | None => None
                 end)
              (Sg.findAll argList (Sg.kindIs "keyword_argument"))
        end
  end.

Definition agentCall : Sg.Rule :=
  Sg.all [Sg.kindIs "call";
          Sg.hasField "function"
            (Sg.all [Sg.kindIs "identifier";
                     Sg.regex ["create_agent"; "create_react_agent"]])].

(** The body of the loop over [keywordArgs] of one agent call. *)
Definition targetOf (kwarg : SgNode) : list TransformInfo :=
  match Sg.field kwarg "name" with
  | None => []
  | Some nameNode =>
      let kwName := Sg.text nameNode in
      if negb (kwName =? "prompt")%string && negb (kwName =? "system_prompt")%string then []
      else
        match Sg.field kwarg "value" with
        | None => []
        | Some valueNode =>
            if negb (Sg.kind valueNode =? "call")%string then []
            else
              match findSystemMessageContentArg valueNode with
              | None => []
              | Some (content, call) =>
                  [{| keywordArg := kwarg;
                      keywordName := nameNode;
                      systemMessageCall := call;
                      contentExpr := content;
                      needsRename := (kwName =? "prompt")%string |}]
              end
        end
  end.

Definition findTransformTargets (rootNode : SgNode) : list TransformInfo :=
  if negb (hasLangchainSystemMessageImport rootNode) then []
  else
    flat_map
      (fun agentCallNode =>
         match Sg.field agentCallNode "arguments" with
         | None => []
         | Some argList =>
             flat_map targetOf (Sg.findAll argList (Sg.kindIs "keyword_argument"))
         end)
      (Sg.findAll rootNode agentCall).

(** [transformedCalls] is the set of the ids of the rewritten calls. *)
Definition isSystemMessageUsedElsewhere (rootNode : SgNode) (transformedCalls : list nat)
  : bool :=
  let allSystemMessageRefs :=
    Sg.findAll rootNode (Sg.all [Sg.kindIs "identifier"; Sg.regex ["SystemMessage"]]) in
  existsb
    (fun ref =>
       let inImport :=
         existsb (fun n => (Sg.kind n =? "import_from_statement")%string) (Sg.ancestors ref) in
       if inImport then false
       else
         match List.find (fun n => (Sg.kind n =? "call")%string) (Sg.ancestors ref) with
         | Some parentCall =>
             if existsb (Nat.eqb (Sg.id parentCall)) transformedCalls then false else true
         | None => true
         end)
    allSystemMessageRefs.

(** The loop "Count imported names that aren't SystemMessage". *)
Definition countOtherImports (dottedNames : list SgNode) : nat :=
  match dottedNames with
  | [] => 0
  | _module :: names =>
      length (filter (fun dn => negb (Sg.text dn =? "SystemMessage")%string) names)
  end.

(** The pair [{ importStmt, otherImportsExist }]. *)
Definition findSystemMessageImport (rootNode : SgNode) : option SgNode * bool :=
  match
    List.find
      (fun imp =>
         let impText := Sg.text imp in
         fromLangchainMessages impText && Js.includes impText "SystemMessage")
      (Sg.findAll rootNode (Sg.kindIs "import_from_statement"))
  with
  | Some imp =>
      let dottedNames := Sg.findAll imp (Sg.kindIs "dotted_name") in
      (Some imp, 0 <? countOtherImports dottedNames)
  | None => (None, false)
  end.

(** [s.replace(/SystemMessage,\s*/, "")]. *)
Definition dropNameComma (s : string) : string :=
  match String.index 0 "SystemMessage," s with
  | Some i => Js.slice s 0 i +++ Js.trimStart (Js.sliceFrom s (i + 14))
  | None => s
  end.

(** [s.replace(/,\s*SystemMessage/, "")]: the leftmost comma that is
    followed, after white space, by the name. *)
Fixpoint dropCommaName (s : string) : string :=
  match s with
  | EmptyString => EmptyString
  | String c r =>
      if Ascii.eqb c COMMA && String.prefix "SystemMessage" (Js.trimStart r)
      then Js.sliceFrom (Js.trimStart r) 13
      else String c (dropCommaName r)
  end.

(** [s.replace(/SystemMessage/, "")]. *)
Definition dropName (s : string) : string :=
  match String.index 0 "SystemMessage" s with
  | Some i => Js.slice s 0 i +++ Js.sliceFrom s (i + 13)
  | None => s
  end.

Definition buildImportEdit (importStmt : SgNode) (otherImportsExist : bool)
  (rootNode : SgNode) : option Edit :=
  if negb otherImportsExist then
    let sourceText := Sg.text rootNode in
    let endPos := Sg.rangeEnd importStmt in
    let endPos :=
      if (endPos <? String.length sourceText) && Js.charIs sourceText endPos LF
      then S endPos
      else endPos in
    Some {| startPos := Sg.rangeStart importStmt; endPos := endPos; insertedText := "" |}
  else
    let importText := Sg.text importStmt in
    let newImportText := dropNameComma importText in
    let newImportText :=
      if (newImportText =? importText)%string then dropCommaName importText
      else newImportText in
    let newImportText :=
      if (newImportText =? importText)%string then dropName importText
      else newImportText in
    if (newImportText =? importText)%string then None
    else Some {| startPos := Sg.rangeStart importStmt;
                 endPos := Sg.rangeEnd importStmt;
                 insertedText := newImportText |}.

Definition targetEdit (target : TransformInfo) : Edit :=
  if needsRename target then
    Sg.replace (keywordArg target) ("system_prompt=" +++ Sg.text (contentExpr target))
  else
    Sg.replace (systemMessageCall target) (Sg.text (contentExpr target)).

Definition importEdits (rootNode : SgNode) (transformedCallIds : list nat) : list Edit :=
  if negb (isSystemMessageUsedElsewhere rootNode transformedCallIds) then
    match findSystemMessageImport rootNode with
    | (Some importStmt, otherImportsExist) =>
        match buildImportEdit importStmt otherImportsExist rootNode with
        | Some importEdit => [importEdit]
        | None => []
        end
    | (None, _) => []
    end
  else [].

Definition edits (rootNode : SgNode) : list Edit :=
  let targets := findTransformTargets rootNode in
  match targets with
  | [] => []
  | _ =>
      let transformedCallIds := map (fun t => Sg.id (systemMessageCall t)) targets in
      map targetEdit targets ++ importEdits rootNode transformedCallIds
  end.

Definition transform (root : SgRoot) : Outcome :=
  let rootNode := rootOf root in
  finish rootNode (edits rootNode).

End SystemMessageToPrompt.

(** ** langchain-classic-imports: legacy modules move to [langchain_classic]

    The script printed after [codemods/langchain-classic-imports/README.md]. *)

Module LangchainClassicImports.

Definition LEGACY_MODULES : list string := ["retrievers"; "indexes"].

Definition isHubImport (n : SgNode) : bool :=
  match Sg.field n "module_name" with
  | None => false
  | Some moduleNameNode =>
      let moduleText := Sg.text moduleNameNode in
      if negb (moduleText =? "langchain")%string then false
      else
        existsb
          (fun nameNode =>
             let text := Sg.text nameNode in
             (text =? "hub")%string || Js.startsWith text "hub ")
          (Sg.fieldChildren n "name")
  end.

Definition isLegacyModuleImport (n : SgNode) : bool :=
  match Sg.field n "module_name" with
  | None => false
  | Some moduleNameNode =>
      let moduleText := Sg.text moduleNameNode in
      existsb
        (fun legacyModule =>
           (moduleText =? "langchain." +++ legacyModule)%string
           || Js.startsWith moduleText ("langchain." +++ legacyModule +++ "."))
        LEGACY_MODULES
  end.

Definition isAlreadyMigrated (n : SgNode) : bool :=
  match Sg.field n "module_name" with
  | None => false
  | Some moduleNameNode =>
      let moduleText := Sg.text moduleNameNode in
      Js.startsWith moduleText "langchain_classic."
      || (moduleText =? "langchain_classic")%string
  end.

(** [moduleText.replace(/^langchain\./, "langchain_classic.")], then the
    special case of the bare package. *)
Definition finalModuleName (moduleText : string) : string :=
  let newModuleName :=
    if Js.startsWith moduleText "langchain."
    then "langchain_classic." +++ Js.sliceFrom moduleText 10
    else moduleText in
  if (moduleText =? "langchain")%string then "langchain_classic" else newModuleName.

Definition createImportEdit (n : SgNode) : option Edit :=
  match Sg.field n "module_name" with
  | None => None
  | Some moduleNameNode =>
      Some {| startPos := Sg.rangeStart moduleNameNode;
              endPos := Sg.rangeEnd moduleNameNode;
              insertedText := finalModuleName (Sg.text moduleNameNode) |}
  end.

(** The body of the loop over [importStatements]. *)
Definition visit (importNode : SgNode) : list Edit :=
  if isAlreadyMigrated importNode then []
  else if isHubImport importNode || isLegacyModuleImport importNode then
    match createImportEdit importNode with
    | Some edit => [edit]
    | None => []
    end
  else [].

Definition edits (rootNode : SgNode) : list Edit :=
  flat_map visit (Sg.findAll rootNode (Sg.kindIs "import_from_statement")).

Definition transform (root : SgRoot) : Outcome :=
  let rootNode := rootOf root in
  finish rootNode (edits rootNode).

End LangchainClassicImports.

(** ** create-react-agent-to-create-agent: [create_react_agent] of
    [langgraph.prebuilt] becomes [create_agent] of [langchain.agents]

    [codemods/create-react-agent-to-create-agent/scripts/codemod.ts]. *)

Module CreateReactAgentToCreateAgent.

Definition OLD_MODULE : string := "langgraph.prebuilt".
Definition OLD_FUNCTION : string := "create_react_agent".
Definition NEW_MODULE : string := "langchain.agents".
Definition NEW_FUNCTION : string := "create_agent".

(** [namesToRename], a [Map] from the name used in the code to [isAlias]:
    the entries in the order of their first insertion. *)
Definition NameMap : Type := list (string * bool).

(** [m.set(k, v)]: a key that is there keeps its place and takes the value. *)
Fixpoint mapSet (k : string) (v : bool) (m : NameMap) : NameMap :=
  match m with
  | [] => [(k, v)]
  | (k', v') :: r =>
      if (k' =? k)%string then (k, v) :: r else (k', v') :: mapSet k v r
  end.

Definition prebuiltImport : Sg.Rule :=
  Sg.all [Sg.kindIs "import_from_statement";
          Sg.hasField "module_name"
            (Sg.all [Sg.kindIs "dotted_name"; Sg.regex [OLD_MODULE]])].

Definition directImport : Sg.Rule :=
  Sg.all [Sg.kindIs "dotted_name";
          Sg.inside (Sg.kindIs "import_from_statement");
          Sg.regex [OLD_FUNCTION]].

Definition aliasedImport : Sg.Rule :=
  Sg.all [Sg.kindIs "aliased_import";
          Sg.has (Sg.all [Sg.kindIs "dotted_name"; Sg.regex [OLD_FUNCTION]])].

(** The state of the loop over [importStatements]. *)
Record Scan : Type :=
  mkScan {
    namesToRename : NameMap;
    importEdits : list Edit
  }.

(** The body of the loop over [importStatements]. *)
Definition importStep (st : Scan) (importStmt : SgNode) : Scan :=
  match Sg.find importStmt directImport with
  | Some _ =>
      let newImport := "from " +++ NEW_MODULE +++ " import " +++ NEW_FUNCTION in
      {| namesToRename := mapSet OLD_FUNCTION false (namesToRename st);
         importEdits :=
           importEdits st ++
           [{| startPos := Sg.rangeStart importStmt;
               endPos := Sg.rangeEnd importStmt;
               insertedText := newImport |}] |}
  | None =>
      match Sg.find importStmt aliasedImport with
      | Some aliased =>
          match Sg.field aliased "alias" with
          | Some aliasNode =>
              let aliasName := Sg.text aliasNode in
              let newImport :=
                "from " +++ NEW_MODULE +++ " import " +++ NEW_FUNCTION
                        +++ " as " +++ aliasName in
              {| namesToRename := mapSet aliasName true (namesToRename st);
                 importEdits :=
                   importEdits st ++
                   [{| startPos := Sg.rangeStart importStmt;
                       endPos := Sg.rangeEnd importStmt;
                       insertedText := newImport |}] |}
          | None => st
          end
      | None => st
      end
  end.

Definition scanImports (rootNode : SgNode) : Scan :=
  fold_left importStep (Sg.findAll rootNode prebuiltImport)
    {| namesToRename := []; importEdits := [] |}.

(** The calls of one tracked name.  The name is [create_react_agent] or an
    alias, an identifier: the regex built from it is a literal. *)
Definition callOf (nameToFind : string) : Sg.Rule :=
  Sg.all [Sg.kindIs "call";
          Sg.hasField "function"
            (Sg.all [Sg.kindIs "identifier"; Sg.regex [nameToFind]])].

(** The body of the loop over [calls]. *)
Definition renameCall (nameToFind : string) (isAlias : bool) (call : SgNode) : list Edit :=
  match Sg.field call "function" with
  | Some funcNode =>
      let newName := if isAlias then nameToFind else NEW_FUNCTION in
      if negb (Sg.text funcNode =? newName)%string
      then [Sg.replace funcNode newName]
      else []
  | None => []
  end.

(** The loop over [namesToRename]. *)
Definition callEdits (rootNode : SgNode) (names : NameMap) : list Edit :=
  flat_map
    (fun entry : string * bool =>
       let (nameToFind, isAlias) := entry in
       flat_map (renameCall nameToFind isAlias)
         (Sg.findAll rootNode (callOf nameToFind)))
    names.

Definition edits (rootNode : SgNode) : list Edit :=
  let st := scanImports rootNode in
  importEdits st ++ callEdits rootNode (namesToRename st).

Definition transform (root : SgRoot) : Outcome :=
  let rootNode := rootOf root in
  if isEmpty (namesToRename (scanImports rootNode)) then Unchanged
  else finish rootNode (edits rootNode).

End CreateReactAgentToCreateAgent.

(** ** langchain-stream-event-agent-to-model: the node name ["agent"]
    becomes ["model"] where a stream event is filtered by name

    The script printed after
    [codemods/langchain-stream-event-agent-to-model/README.md]. *)

Module StreamEventAgentToModel.

Definition isAgentString (n : SgNode) : bool :=
  match Sg.find n (Sg.kindIs "string_content") with
  | Some content => (Sg.text content =? "agent")%string
  | None => false
  end.

Definition isNameString (n : SgNode) : bool :=
  match Sg.find n (Sg.kindIs "string_content") with
  | Some content => (Sg.text content =? "name")%string
  | None => false
  end.

(** The first loop of [findAgentStringInComparison]: [hasNameContext] and
    [agentStringNode] after the strings of the comparison. *)
Definition scanStrings (strings : list SgNode) : bool * option SgNode :=
  fold_left
    (fun (st : bool * option SgNode) str =>
       let '(hasNameContext, agentStringNode) := st in
       let hasNameContext := if isNameString str then true else hasNameContext in
       let agentStringNode := if isAgentString str then Some str else agentStringNode in
       (hasNameContext, agentStringNode))
    strings (false, None).

(** The test of the loop over [calls]: a [.get(...)] call with a ["name"]
    string among its arguments. *)
Definition getsName (call : SgNode) : bool :=
  match Sg.field call "function" with
  | Some attr =>
      if Sg.isKind attr "attribute" then
        match Sg.field attr "attribute" with
        | Some methodName =>
            if (Sg.text methodName =? "get")%string then
              match Sg.field call "arguments" with
              | Some args => existsb isNameString (Sg.findAll args (Sg.kindIs "string"))
              | None => false
              end
            else false
        | None => false
        end
      else false
  | None => false
  end.

Definition findAgentStringInComparison (comparison : SgNode) : option SgNode :=
  let strings := Sg.findAll comparison (Sg.kindIs "string") in
  let '(hasNameContext, agentStringNode) := scanStrings strings in
  match hasNameContext, agentStringNode with
  | true, Some agent => Some agent
  | _, _ =>
      let subscripts := Sg.findAll comparison (Sg.kindIs "subscript") in
      let hasNameContext :=
        hasNameContext
        || existsb
             (fun sub => existsb isNameString (Sg.findAll sub (Sg.kindIs "string")))
             subscripts in
      let calls := Sg.findAll comparison (Sg.kindIs "call") in
      let hasNameContext := hasNameContext || existsb getsName calls in
      match agentStringNode with
      | Some agent => if hasNameContext then Some agent else None
      | None => None
      end
  end.

(** [text.replace(/agent/g, "model")]: every occurrence, from the left;
    [skip] counts the characters of a match that are still to be passed. *)
Fixpoint replaceAgent (skip : nat) (text : string) : string :=
  match text with
  | EmptyString => EmptyString
  | String c r =>
      match skip with
      | S k => replaceAgent k r
      | 0 =>
          if String.prefix "agent" text
          then "model" +++ replaceAgent 4 r
          else String c (replaceAgent 0 r)
      end
  end.

Definition createReplacement (agentNode : SgNode) : Edit :=
  let text := Sg.text agentNode in
  let newText := replaceAgent 0 text in
  Sg.replace agentNode newText.

(** The state of the loop over [comparisons]. *)
Record Pass : Type :=
  mkPass {
    processedNodeIds : list nat;
    edits : list Edit
  }.

(** The body of the loop over [comparisons]. *)
Definition step (st : Pass) (comparison : SgNode) : Pass :=
  match findAgentStringInComparison comparison with
  | Some agentString =>
      if negb (existsb (Nat.eqb (Sg.id agentString)) (processedNodeIds st)) then
        {| processedNodeIds := processedNodeIds st ++ [Sg.id agentString];
           edits := edits st ++ [createReplacement agentString] |}
      else st
  | None => st
  end.

Definition pass (rootNode : SgNode) : Pass :=
  fold_left step (Sg.findAll rootNode (Sg.kindIs "comparison_operator"))
    {| processedNodeIds := []; edits := [] |}.

Definition transform (root : SgRoot) : Outcome :=
  let rootNode := rootOf root in
  finish rootNode (edits (pass rootNode)).

End StreamEventAgentToModel.

(** ** bind-tools-return-type: the return type of [bind_tools] goes from
    [BaseMessage] to [AIMessage]

    The script printed after [codemods/system-message-to-prompt/README.md]. *)

Module BindToolsReturnType.

Definition bindToolsFunction : Sg.Rule :=
  Sg.all [Sg.kindIs "function_definition";
          Sg.hasField "name" (Sg.all [Sg.kindIs "identifier"; Sg.regex ["bind_tools"]])].

Definition runnableGeneric : Sg.Rule :=
  Sg.all [Sg.kindIs "generic_type";
          Sg.has (Sg.all [Sg.kindIs "identifier"; Sg.regex ["Runnable"]])].

Definition baseMessageIdentifier : Sg.Rule :=
  Sg.all [Sg.kindIs "identifier"; Sg.regex ["BaseMessage"]].

(** The body of the loop over [bindToolsFunctions]. *)
Definition visit (funcNode : SgNode) : list Edit :=
  match Sg.find funcNode runnableGeneric with
  | None => []
  | Some runnableType =>
      match Sg.find runnableType (Sg.kindIs "type_parameter") with
      | None => []
      | Some typeParam =>
          let typeChildren := Sg.findAll typeParam (Sg.kindIs "type") in
          if length typeChildren <? 2 then []
          else
            match nth_error typeChildren 1 with
            | None => []
            | Some outputType =>
                match Sg.find outputType baseMessageIdentifier with
                | None => []
                | Some baseMessageNode => [Sg.replace baseMessageNode "AIMessage"]
                end
            end
      end
  end.

Definition checkHasImport (rootNode : SgNode) (name : string) : bool :=
  let imports :=
    Sg.findAll rootNode
      (Sg.all [Sg.kindIs "import_from_statement";
               Sg.has (Sg.all [Sg.kindIs "dotted_name";
                               Sg.has (Sg.all [Sg.kindIs "identifier"; Sg.regex [name]])])]) in
  0 <? length imports.

(** The pair [{ statement, nameNode }]. *)
Definition findBaseMessageImport (rootNode : SgNode) : option (SgNode * SgNode) :=
  firstSome
    (fun stmt =>
       firstSome
         (fun nameNode =>
            if (Sg.text nameNode =? "BaseMessage")%string then Some (stmt, nameNode)
            else None)
         (Sg.findAll stmt (Sg.kindIs "dotted_name")))
    (Sg.findAll rootNode (Sg.kindIs "import_from_statement")).

(** [l[l.length - 1]]. *)
Definition lastOf {A : Type} (l : list A) : option A :=
  match length l with
  | 0 => None
  | S n => nth_error l n
  end.

Definition createAIMessageImportEdit (rootNode : SgNode)
  (baseMessageImport : option (SgNode * SgNode)) : option Edit :=
  match baseMessageImport with
  | Some (_, nameNode) =>
      let endPos := Sg.rangeEnd nameNode in
      Some {| startPos := endPos; endPos := endPos; insertedText := ", AIMessage" |}
  | None =>
      let messageImports := Sg.findAll rootNode (Sg.kindIs "import_from_statement") in
      match
        firstSome
          (fun stmt =>
             let moduleNames := Sg.findAll stmt (Sg.kindIs "dotted_name") in
             let isMessagesImport :=
               existsb
                 (fun n =>
                    Js.includes (Sg.text n) "langchain" && Js.includes (Sg.text n) "messages")
                 moduleNames in
             if isMessagesImport then
               let importedNames :=
                 filter (fun n => negb (Js.includes (Sg.text n) ".")) moduleNames in
               match lastOf importedNames with
               | Some lastName =>
                   let endPos := Sg.rangeEnd lastName in
                   Some {| startPos := endPos; endPos := endPos;
                           insertedText := ", AIMessage" |}
               | None => None
               end
             else None)
          messageImports
      with
      | Some edit => Some edit
      | None =>
          let allImports :=
            Sg.findAll rootNode
              (Sg.any [Sg.kindIs "import_statement"; Sg.kindIs "import_from_statement"]) in
          match (if 0 <? length allImports then lastOf allImports else None) with
          | Some lastImport =>
              let endPos := Sg.rangeEnd lastImport in
              Some {| startPos := endPos; endPos := endPos;
                      insertedText := nl +++ "from langchain_core.messages import AIMessage" |}
          | None =>
              Some {| startPos := 0; endPos := 0;
                      insertedText :=
                        "from langchain_core.messages import AIMessage" +++ nl +++ nl |}
          end
      end
  end.

(** [while (source[endPos] === " ") endPos++], with as many turns as there
    are characters left. *)
Fixpoint skipBlanks (fuel : nat) (source : string) (endPos : nat) : nat :=
  match fuel with
  | 0 => endPos
  | S fuel' =>
      if Js.charIs source endPos SPACE then skipBlanks fuel' source (S endPos)
      else endPos
  end.

(** The branch "Multiple imports, remove just BaseMessage and its
    surrounding comma/space". *)
Definition removeName (source : string) (nameNode : SgNode) : Edit :=
  let nameStart := Sg.rangeStart nameNode in
  let nameEnd := Sg.rangeEnd nameNode in
  let startPos := nameStart in
  let endPos := nameEnd in
  if (Js.slice source endPos (endPos + 2) =? ", ")%string then
    {| startPos := startPos; endPos := endPos + 2; insertedText := "" |}
  else if Js.charIs source endPos COMMA then
    {| startPos := startPos;
       endPos := skipBlanks (String.length source - (endPos + 1)) source (endPos + 1);
       insertedText := "" |}
  else if (Js.slice source (startPos - 2) startPos =? ", ")%string then
    {| startPos := startPos - 2; endPos := endPos; insertedText := "" |}
  else if match startPos with
          | 0 => false
          | S before => Js.charIs source before COMMA
          end then
    {| startPos := startPos - 1; endPos := endPos; insertedText := "" |}
  else
    {| startPos := startPos; endPos := endPos; insertedText := "" |}.

Definition createRemoveBaseMessageImportEdit (rootNode : SgNode)
  (baseMessageImport : SgNode * SgNode) : option Edit :=
  let (stmt, nameNode) := baseMessageImport in
  let allDottedNames := Sg.findAll stmt (Sg.kindIs "dotted_name") in
  let importedNames :=
    filter (fun n => negb (Js.includes (Sg.text n) ".")) allDottedNames in
  if length importedNames =? 1 then
    let stmtStart := Sg.rangeStart stmt in
    let stmtEnd := Sg.rangeEnd stmt in
    let source := Sg.text rootNode in
    let stmtEnd := if Js.charIs source stmtEnd LF then S stmtEnd else stmtEnd in
    Some {| startPos := stmtStart; endPos := stmtEnd; insertedText := "" |}
  else
    Some (removeName (Sg.text rootNode) nameNode).

(** The edits of the loop over [bindToolsFunctions]; [madeReturnTypeChanges]
    is set exactly where one is pushed. *)
Definition returnTypeEdits (rootNode : SgNode) : list Edit :=
  flat_map visit (Sg.findAll rootNode bindToolsFunction).

Definition hasOtherBaseMessageUsages (rootNode : SgNode) : bool :=
  let baseMessageUsages := Sg.findAll rootNode baseMessageIdentifier in
  let nonImportUsages :=
    filter (fun n => negb (Sg.isInside n (Sg.kindIs "import_from_statement")))
      baseMessageUsages in
  let bindToolsCount := length (Sg.findAll rootNode bindToolsFunction) in
  bindToolsCount <? length nonImportUsages.

Definition optionToList {A : Type} (o : option A) : list A :=
  match o with Some x => [x] | None => [] end.

(** The block "Handle import modifications". *)
Definition importEdits (rootNode : SgNode) : list Edit :=
  let hasAIMessageImport := checkHasImport rootNode "AIMessage" in
  let baseMessageImport := findBaseMessageImport rootNode in
  let hasOther := hasOtherBaseMessageUsages rootNode in
  let otherwise :=
    (if negb hasAIMessageImport
     then optionToList (createAIMessageImportEdit rootNode baseMessageImport)
     else [])
    ++
    (match baseMessageImport with
     | Some found =>
         if negb hasOther
         then optionToList (createRemoveBaseMessageImportEdit rootNode found)
         else []
     | None => []
     end) in
  match baseMessageImport with
  | Some (_, nameNode) =>
      if negb hasOther && negb hasAIMessageImport
      then [Sg.replace nameNode "AIMessage"]
      else otherwise
  | None => otherwise
  end.

Definition transform (root : SgRoot) : Outcome :=
  let rootNode := rootOf root in
  match returnTypeEdits rootNode with
  | [] => Unchanged
  | _ => commitEdits rootNode (returnTypeEdits rootNode ++ importEdits rootNode)
  end.

End BindToolsReturnType.


(** * Sites, shapes and sample files

    The vocabulary of the statements below, and the parsed files they are
    tried on. *)

(** Does a keyword argument carry this name? *)
Definition keywordIs (name : string) (kwArg : SgNode) : bool :=
  match Sg.field kwArg "name" with
  | Some nameNode => (Sg.text nameNode =? name)%string
  | None => false
  end.

(** The keyword arguments found below the argument list of a call. *)
Definition keywordsOf (call : SgNode) : list SgNode :=
  match Sg.field call "arguments" with
  | Some argList => Sg.findAll argList (Sg.kindIs "keyword_argument")
  | None => []
  end.

(** The ambiguous site of prompt-to-system-prompt: a call that carries
    [prompt=] and [system_prompt=] at once. *)
Definition carriesBothNames (call : SgNode) : bool :=
  existsb (keywordIs "prompt") (keywordsOf call)
  && existsb (keywordIs "system_prompt") (keywordsOf call).

(** The ambiguous site of response-format-tool-strategy: the value of
    [response_format=] is a tuple. *)
Definition tupleShaped (callNode : SgNode) : bool :=
  match Sg.field callNode "arguments" with
  | Some argsNode =>
      match Sg.find argsNode ResponseFormatToolStrategy.responseFormatKeyword with
      | Some responseFormatArg =>
          match Sg.field responseFormatArg "value" with
          | Some valueNode => ResponseFormatToolStrategy.isTupleForm valueNode
          | None => false
          end
      | None => false
      end
  | None => false
  end.

Definition isSome {A : Type} (o : option A) : bool :=
  match o with Some _ => true | None => false end.

(** Leaves of sample trees: an anonymous token and a named leaf. *)
Definition tok (i : nat) (k : string) (s e : nat) : Node := mkNode i k false None s e [].
Definition leaf (i : nat) (k : string) (f : option string) (s e : nat) : Node :=
  mkNode i k true f s e [].

Definition parsed (file src : string) (t : Node) : SgRoot :=
  {| buffer := src; tree := t; filename := file |}.

(** A semantic analysis that resolves nothing. *)
Definition unresolved : SgNode -> option DefinitionInfo := fun _ => None.

Definition twoPrompts_src : string :=
  "a = create_agent(m, prompt=" +++ dq +++ "x" +++ dq +++ ", system_prompt=" +++ dq +++ "y" +++ dq +++ ")" +++ nl +++ "b = create_agent(m, prompt=" +++ dq +++ "z" +++ dq +++ ")" +++ nl.

Definition twoPrompts_tree : Node :=
  mkNode 0 "module" true None 0 83
    [mkNode 1 "expression_statement" true None 0 50
       [mkNode 2 "assignment" true None 0 50
          [leaf 3 "identifier" (Some "left") 0 1;
           tok 4 "=" 2 3;
           mkNode 5 "call" true (Some "right") 4 50
             [leaf 6 "identifier" (Some "function") 4 16;
              mkNode 7 "argument_list" true (Some "arguments") 16 50
                [tok 8 "(" 16 17;
                 leaf 9 "identifier" None 17 18;
                 tok 10 "," 18 19;
                 mkNode 11 "keyword_argument" true None 20 30
                   [leaf 12 "identifier" (Some "name") 20 26;
                    tok 13 "=" 26 27;
                    mkNode 14 "string" true (Some "value") 27 30
                      [leaf 15 "string_start" None 27 28;
                       leaf 16 "string_content" None 28 29;
                       leaf 17 "string_end" None 29 30]];
                 tok 18 "," 30 31;
                 mkNode 19 "keyword_argument" true None 32 49
                   [leaf 20 "identifier" (Some "name") 32 45;
                    tok 21 "=" 45 46;
                    mkNode 22 "string" true (Some "value") 46 49
                      [leaf 23 "string_start" None 46 47;
                       leaf 24 "string_content" None 47 48;
                       leaf 25 "string_end" None 48 49]];
                 tok 26 ")" 49 50]]]];
     mkNode 27 "expression_statement" true None 51 82
       [mkNode 28 "assignment" true None 51 82
          [leaf 29 "identifier" (Some "left") 51 52;
           tok 30 "=" 53 54;
           mkNode 31 "call" true (Some "right") 55 82
             [leaf 32 "identifier" (Some "function") 55 67;
              mkNode 33 "argument_list" true (Some "arguments") 67 82
                [tok 34 "(" 67 68;
                 leaf 35 "identifier" None 68 69;
                 tok 36 "," 69 70;
                 mkNode 37 "keyword_argument" true None 71 81
                   [leaf 38 "identifier" (Some "name") 71 77;
                    tok 39 "=" 77 78;
                    mkNode 40 "string" true (Some "value") 78 81
                      [leaf 41 "string_start" None 78 79;
                       leaf 42 "string_content" None 79 80;
                       leaf 43 "string_end" None 80 81]];
                 tok 44 ")" 81 82]]]]].

Definition tupleAndPlain_src : string :=
  "a = create_agent(m, response_format=(p, S))" +++ nl +++ "b = create_agent(m, response_format=S)" +++ nl.

Definition tupleAndPlain_tree : Node :=
  mkNode 0 "module" true None 0 83
    [mkNode 1 "expression_statement" true None 0 43
       [mkNode 2 "assignment" true None 0 43
          [leaf 3 "identifier" (Some "left") 0 1;
           tok 4 "=" 2 3;
           mkNode 5 "call" true (Some "right") 4 43
             [leaf 6 "identifier" (Some "function") 4 16;
              mkNode 7 "argument_list" true (Some "arguments") 16 43
                [tok 8 "(" 16 17;
                 leaf 9 "identifier" None 17 18;
                 tok 10 "," 18 19;
                 mkNode 11 "keyword_argument" true None 20 42
                   [leaf 12 "identifier" (Some "name") 20 35;
                    tok 13 "=" 35 36;
                    mkNode 14 "tuple" true (Some "value") 36 42
                      [tok 15 "(" 36 37;
                       leaf 16 "identifier" None 37 38;
                       tok 17 "," 38 39;
                       leaf 18 "identifier" None 40 41;
                       tok 19 ")" 41 42]];
                 tok 20 ")" 42 43]]]];
     mkNode 21 "expression_statement" true None 44 82
       [mkNode 22 "assignment" true None 44 82
          [leaf 23 "identifier" (Some "left") 44 45;
           tok 24 "=" 46 47;
           mkNode 25 "call" true (Some "right") 48 82
             [leaf 26 "identifier" (Some "function") 48 60;
              mkNode 27 "argument_list" true (Some "arguments") 60 82
                [tok 28 "(" 60 61;
                 leaf 29 "identifier" None 61 62;
                 tok 30 "," 62 63;
                 mkNode 31 "keyword_argument" true None 64 81
                   [leaf 32 "identifier" (Some "name") 64 79;
                    tok 33 "=" 79 80;
                    leaf 34 "identifier" (Some "value") 80 81];
                 tok 35 ")" 81 82]]]]].

Definition onePrompt_src : string :=
  "agent = create_agent(model, prompt=" +++ dq +++ "hi" +++ dq +++ ", tools=tools)" +++ nl.

Definition onePrompt_tree : Node :=
  mkNode 0 "module" true None 0 54
    [mkNode 1 "expression_statement" true None 0 53
       [mkNode 2 "assignment" true None 0 53
          [leaf 3 "identifier" (Some "left") 0 5;
           tok 4 "=" 6 7;
           mkNode 5 "call" true (Some "right") 8 53
             [leaf 6 "identifier" (Some "function") 8 20;
              mkNode 7 "argument_list" true (Some "arguments") 20 53
                [tok 8 "(" 20 21;
                 leaf 9 "identifier" None 21 26;
                 tok 10 "," 26 27;
                 mkNode 11 "keyword_argument" true None 28 39
                   [leaf 12 "identifier" (Some "name") 28 34;
                    tok 13 "=" 34 35;
                    mkNode 14 "string" true (Some "value") 35 39
                      [leaf 15 "string_start" None 35 36;
                       leaf 16 "string_content" None 36 38;
                       leaf 17 "string_end" None 38 39]];
                 tok 18 "," 39 40;
                 mkNode 19 "keyword_argument" true None 41 52
                   [leaf 20 "identifier" (Some "name") 41 46;
                    tok 21 "=" 46 47;
                    leaf 22 "identifier" (Some "value") 47 52];
                 tok 23 ")" 52 53]]]]].

Definition withImports_src : string :=
  "import os" +++ nl +++ "from schemas import Schema" +++ nl +++ "agent = create_agent(m, response_format=Schema)" +++ nl.

Definition withImports_tree : Node :=
  mkNode 0 "module" true None 0 85
    [mkNode 1 "import_statement" true None 0 9
       [tok 2 "import" 0 6;
        mkNode 3 "dotted_name" true (Some "name") 7 9
          [leaf 4 "identifier" None 7 9]];
     mkNode 5 "import_from_statement" true None 10 36
       [tok 6 "from" 10 14;
        mkNode 7 "dotted_name" true (Some "module_name") 15 22
          [leaf 8 "identifier" None 15 22];
        tok 9 "import" 23 29;
        mkNode 10 "dotted_name" true (Some "name") 30 36
          [leaf 11 "identifier" None 30 36]];
     mkNode 12 "expression_statement" true None 37 84
       [mkNode 13 "assignment" true None 37 84
          [leaf 14 "identifier" (Some "left") 37 42;
           tok 15 "=" 43 44;
           mkNode 16 "call" true (Some "right") 45 84
             [leaf 17 "identifier" (Some "function") 45 57;
              mkNode 18 "argument_list" true (Some "arguments") 57 84
                [tok 19 "(" 57 58;
                 leaf 20 "identifier" None 58 59;
                 tok 21 "," 59 60;
                 mkNode 22 "keyword_argument" true None 61 83
                   [leaf 23 "identifier" (Some "name") 61 76;
                    tok 24 "=" 76 77;
                    leaf 25 "identifier" (Some "value") 77 83];
                 tok 26 ")" 83 84]]]]].

Definition noImports_src : string :=
  "agent = create_agent(m, response_format=Schema)" +++ nl.

Definition noImports_tree : Node :=
  mkNode 0 "module" true None 0 48
    [mkNode 1 "expression_statement" true None 0 47
       [mkNode 2 "assignment" true None 0 47
          [leaf 3 "identifier" (Some "left") 0 5;
           tok 4 "=" 6 7;
           mkNode 5 "call" true (Some "right") 8 47
             [leaf 6 "identifier" (Some "function") 8 20;
              mkNode 7 "argument_list" true (Some "arguments") 20 47
                [tok 8 "(" 20 21;
                 leaf 9 "identifier" None 21 22;
                 tok 10 "," 22 23;
                 mkNode 11 "keyword_argument" true None 24 46
                   [leaf 12 "identifier" (Some "name") 24 39;
                    tok 13 "=" 39 40;
                    leaf 14 "identifier" (Some "value") 40 46];
                 tok 15 ")" 46 47]]]]].

(** ** Well-formed files

    The root node spans the buffer, and every node lies inside the buffer
    with its start before its end. *)

Fixpoint within (len : nat) (n : Node) : bool :=
  (startIndex n <=? endIndex n) && (endIndex n <=? len)
  && forallb (within len) (children n).

Definition wellFormed (root : SgRoot) : bool :=
  (startIndex (tree root) =? 0)
  && (endIndex (tree root) =? String.length (buffer root))
  && within (String.length (buffer root)) (tree root).

(** The agent call of [onePrompt_src] and the edit the script pushes there. *)
Definition onePrompt_call : SgNode :=
  nth 0 (Sg.findAll (rootOf (parsed "agent.py" onePrompt_src onePrompt_tree))
           PromptToSystemPrompt.agentCall)
        (rootOf (parsed "agent.py" onePrompt_src onePrompt_tree)).

Definition onePrompt_edit : Edit :=
  {| startPos := 28; endPos := 34; insertedText := "system_prompt" |}.

(** ** Sites of aimessage-example-to-kwargs *)

(** The dictionary literal that a call passes as [additional_kwargs=], as
    the script looks it up. *)
Definition existingDict (call : SgNode) : option SgNode :=
  match Sg.field call "arguments" with
  | Some argList =>
      match Sg.find argList (AIMessageExampleToKwargs.keywordNamed "additional_kwargs") with
      | Some additionalKwargsArg =>
          match AIMessageExampleToKwargs.getKeywordArgumentValue additionalKwargsArg with
          | Some value => if (Sg.kind value =? "dictionary")%string then Some value else None
          | None => None
          end
      | None => None
      end
  | None => None
  end.

(** A string literal whose content is [example]. *)
Definition isExampleString (key : SgNode) : bool :=
  Sg.isKind key "string"
  && existsb
       (fun content => Sg.isKind content "string_content"
                       && (Sg.text content =? "example")%string)
       (Sg.children key).

(** The literal has an entry whose key is the string [example]. *)
Definition hasExampleKey (dict : SgNode) : bool :=
  existsb
    (fun entry =>
       Sg.isKind entry "pair"
       && match Sg.field entry "key" with
          | Some key => isExampleString key
          | None => false
          end)
    (Sg.children dict).

(** The mapping that would receive the key contains it already. *)
Definition keyAlreadyThere (call : SgNode) : bool :=
  match existingDict call with
  | Some dict => hasExampleKey dict
  | None => false
  end.

(** Text made of white space only; text that starts, and text that ends,
    with something else. *)
Fixpoint blank (s : string) : bool :=
  match s with
  | EmptyString => true
  | String c r => Js.isSpace c && blank r
  end.

Definition startsSolid (s : string) : bool :=
  match s with
  | EmptyString => false
  | String c _ => negb (Js.isSpace c)
  end.

Fixpoint endsSolid (s : string) : bool :=
  match s with
  | EmptyString => false
  | String c EmptyString => negb (Js.isSpace c)
  | String _ r => endsSolid r
  end.

Definition orElse {A : Type} (o : option A) (d : A) : A :=
  match o with Some x => x | None => d end.

Definition keyPresent_src : string :=
  "m = AIMessage(content=" +++ dq +++ "hi" +++ dq +++ ", example=True, additional_kwargs={" +++ dq +++ "example" +++ dq +++ ": False})" +++ nl.

Definition keyPresent_tree : Node :=
  mkNode 0 "module" true None 0 80
    [mkNode 1 "expression_statement" true None 0 79
       [mkNode 2 "assignment" true None 0 79
          [leaf 3 "identifier" (Some "left") 0 1;
           tok 4 "=" 2 3;
           mkNode 5 "call" true (Some "right") 4 79
             [leaf 6 "identifier" (Some "function") 4 13;
              mkNode 7 "argument_list" true (Some "arguments") 13 79
                [tok 8 "(" 13 14;
                 mkNode 9 "keyword_argument" true None 14 26
                   [leaf 10 "identifier" (Some "name") 14 21;
                    tok 11 "=" 21 22;
                    mkNode 12 "string" true (Some "value") 22 26
                      [leaf 13 "string_start" None 22 23;
                       leaf 14 "string_content" None 23 25;
                       leaf 15 "string_end" None 25 26]];
                 tok 16 "," 26 27;
                 mkNode 17 "keyword_argument" true None 28 40
                   [leaf 18 "identifier" (Some "name") 28 35;
                    tok 19 "=" 35 36;
                    leaf 20 "true" (Some "value") 36 40];
                 tok 21 "," 40 41;
                 mkNode 22 "keyword_argument" true None 42 78
                   [leaf 23 "identifier" (Some "name") 42 59;
                    tok 24 "=" 59 60;
                    mkNode 25 "dictionary" true (Some "value") 60 78
                      [tok 26 "{" 60 61;
                       mkNode 27 "pair" true None 61 77
                         [mkNode 28 "string" true (Some "key") 61 70
                            [leaf 29 "string_start" None 61 62;
                             leaf 30 "string_content" None 62 69;
                             leaf 31 "string_end" None 69 70];
                          tok 32 ":" 70 71;
                          leaf 33 "false" (Some "value") 72 77];
                       tok 34 "}" 77 78]];
                 tok 35 ")" 78 79]]]]].

Definition keyAbsent_src : string :=
  "m = AIMessage(content=" +++ dq +++ "hi" +++ dq +++ ", example=True, additional_kwargs={ " +++ dq +++ "foo" +++ dq +++ ": 1, " +++ dq +++ "bar" +++ dq +++ ": 2 })" +++ nl.

Definition keyAbsent_tree : Node :=
  mkNode 0 "module" true None 0 84
    [mkNode 1 "expression_statement" true None 0 83
       [mkNode 2 "assignment" true None 0 83
          [leaf 3 "identifier" (Some "left") 0 1;
           tok 4 "=" 2 3;
           mkNode 5 "call" true (Some "right") 4 83
             [leaf 6 "identifier" (Some "function") 4 13;
              mkNode 7 "argument_list" true (Some "arguments") 13 83
                [tok 8 "(" 13 14;
                 mkNode 9 "keyword_argument" true None 14 26
                   [leaf 10 "identifier" (Some "name") 14 21;
                    tok 11 "=" 21 22;
                    mkNode 12 "string" true (Some "value") 22 26
                      [leaf 13 "string_start" None 22 23;
                       leaf 14 "string_content" None 23 25;
                       leaf 15 "string_end" None 25 26]];
                 tok 16 "," 26 27;
                 mkNode 17 "keyword_argument" true None 28 40
                   [leaf 18 "identifier" (Some "name") 28 35;
                    tok 19 "=" 35 36;
                    leaf 20 "true" (Some "value") 36 40];
                 tok 21 "," 40 41;
                 mkNode 22 "keyword_argument" true None 42 82
                   [leaf 23 "identifier" (Some "name") 42 59;
                    tok 24 "=" 59 60;
                    mkNode 25 "dictionary" true (Some "value") 60 82
                      [tok 26 "{" 60 61;
                       mkNode 27 "pair" true None 62 70
                         [mkNode 28 "string" true (Some "key") 62 67
                            [leaf 29 "string_start" None 62 63;
                             leaf 30 "string_content" None 63 66;
                             leaf 31 "string_end" None 66 67];
                          tok 32 ":" 67 68;
                          leaf 33 "integer" (Some "value") 69 70];
                       tok 34 "," 70 71;
                       mkNode 35 "pair" true None 72 80
                         [mkNode 36 "string" true (Some "key") 72 77
                            [leaf 37 "string_start" None 72 73;
                             leaf 38 "string_content" None 73 76;
                             leaf 39 "string_end" None 76 77];
                          tok 40 ":" 77 78;
                          leaf 41 "integer" (Some "value") 79 80];
                       tok 42 "}" 81 82]];
                 tok 43 ")" 82 83]]]]].

Definition emptyDict_src : string :=
  "m = AIMessage(content=" +++ dq +++ "hi" +++ dq +++ ", additional_kwargs={}, example=True)" +++ nl.

Definition emptyDict_tree : Node :=
  mkNode 0 "module" true None 0 64
    [mkNode 1 "expression_statement" true None 0 63
       [mkNode 2 "assignment" true None 0 63
          [leaf 3 "identifier" (Some "left") 0 1;
           tok 4 "=" 2 3;
           mkNode 5 "call" true (Some "right") 4 63
             [leaf 6 "identifier" (Some "function") 4 13;
              mkNode 7 "argument_list" true (Some "arguments") 13 63
                [tok 8 "(" 13 14;
                 mkNode 9 "keyword_argument" true None 14 26
                   [leaf 10 "identifier" (Some "name") 14 21;
                    tok 11 "=" 21 22;
                    mkNode 12 "string" true (Some "value") 22 26
                      [leaf 13 "string_start" None 22 23;
                       leaf 14 "string_content" None 23 25;
                       leaf 15 "string_end" None 25 26]];
                 tok 16 "," 26 27;
                 mkNode 17 "keyword_argument" true None 28 48
                   [leaf 18 "identifier" (Some "name") 28 45;
                    tok 19 "=" 45 46;
                    mkNode 20 "dictionary" true (Some "value") 46 48
                      [tok 21 "{" 46 47;
                       tok 22 "}" 47 48]];
                 tok 23 "," 48 49;
                 mkNode 24 "keyword_argument" true None 50 62
                   [leaf 25 "identifier" (Some "name") 50 57;
                    tok 26 "=" 57 58;
                    leaf 27 "true" (Some "value") 58 62];
                 tok 28 ")" 62 63]]]]].


(** The nodes of the merge site of [keyAbsent_src]. *)
Definition keyAbsent_root : SgNode := rootOf (parsed "msg.py" keyAbsent_src keyAbsent_tree).
Definition keyAbsent_call : SgNode :=
  nth 0 (Sg.findAll keyAbsent_root AIMessageExampleToKwargs.aiMessageCall) keyAbsent_root.
Definition keyAbsent_argList : SgNode :=
  orElse (Sg.field keyAbsent_call "arguments") keyAbsent_root.
Definition keyAbsent_exampleArg : SgNode :=
  orElse (Sg.find keyAbsent_argList (AIMessageExampleToKwargs.keywordNamed "example"))
    keyAbsent_root.
Definition keyAbsent_exampleName : SgNode :=
  orElse (Sg.field keyAbsent_exampleArg "name") keyAbsent_root.
Definition keyAbsent_exampleValue : SgNode :=
  orElse (Sg.field keyAbsent_exampleArg "value") keyAbsent_root.
Definition keyAbsent_dict : SgNode :=
  orElse (existingDict keyAbsent_call) keyAbsent_root.

(** ** Import pruning *)

(** The references to a symbol outside import statements: what the sibling
    script (system-message-to-prompt) counts as usages. *)
Definition referencesOutsideImports (name : string) (rootNode : SgNode) : list SgNode :=
  filter
    (fun ref =>
       negb (existsb (fun n => (Sg.kind n =? "import_from_statement")%string)
               (Sg.ancestors ref)))
    (Sg.findAll rootNode (Sg.all [Sg.kindIs "identifier"; Sg.regex [name]])).

(** The number of line feeds that follow each other from offset [i] on,
    counted up to [cap]. *)
Fixpoint lineFeedsAt (s : string) (i cap : nat) : nat :=
  match cap with
  | 0 => 0
  | S cap' => if Js.charIs s i LF then S (lineFeedsAt s (S i) cap') else 0
  end.

(** A sample tree agrees with its buffer: children lie inside their parent,
    in order and without overlap, and an anonymous token reads as its kind. *)
Fixpoint inOrder (from upto : nat) (cs : list Node) : bool :=
  match cs with
  | [] => from <=? upto
  | c :: r => (from <=? startIndex c) && inOrder (endIndex c) upto r
  end.

Fixpoint tidy (src : string) (n : Node) : bool :=
  (startIndex n <=? endIndex n)
  && inOrder (startIndex n) (endIndex n) (children n)
  && (named n || (Js.slice src (startIndex n) (endIndex n) =? kind n)%string)
  && forallb (tidy src) (children n).

Definition faithful (root : SgRoot) : bool :=
  wellFormed root && tidy (buffer root) (tree root).

Definition stillUsed_src : string :=
  "from langgraph.prebuilt import ToolNode" +++ nl +++ "agent = create_agent(model, tools=ToolNode(tools))" +++ nl +++ "ok = isinstance(agent, ToolNode)".

Definition stillUsed_tree : Node :=
  mkNode 0 "module" true None 0 123
    [mkNode 1 "import_from_statement" true None 0 39
       [tok 2 "from" 0 4;
        mkNode 3 "dotted_name" true (Some "module_name") 5 23
          [leaf 4 "identifier" None 5 14;
           tok 5 "." 14 15;
           leaf 6 "identifier" None 15 23];
        tok 7 "import" 24 30;
        mkNode 8 "dotted_name" true (Some "name") 31 39
          [leaf 9 "identifier" None 31 39]];
     mkNode 10 "expression_statement" true None 40 90
       [mkNode 11 "assignment" true None 40 90
          [leaf 12 "identifier" (Some "left") 40 45;
           tok 13 "=" 46 47;
           mkNode 14 "call" true (Some "right") 48 90
             [leaf 15 "identifier" (Some "function") 48 60;
              mkNode 16 "argument_list" true (Some "arguments") 60 90
                [tok 17 "(" 60 61;
                 leaf 18 "identifier" None 61 66;
                 tok 19 "," 66 67;
                 mkNode 20 "keyword_argument" true None 68 89
                   [leaf 21 "identifier" (Some "name") 68 73;
                    tok 22 "=" 73 74;
                    mkNode 23 "call" true (Some "value") 74 89
                      [leaf 24 "identifier" (Some "function") 74 82;
                       mkNode 25 "argument_list" true (Some "arguments") 82 89
                         [tok 26 "(" 82 83;
                          leaf 27 "identifier" None 83 88;
                          tok 28 ")" 88 89]]];
                 tok 29 ")" 89 90]]]];
     mkNode 30 "expression_statement" true None 91 123
       [mkNode 31 "assignment" true None 91 123
          [leaf 32 "identifier" (Some "left") 91 93;
           tok 33 "=" 94 95;
           mkNode 34 "call" true (Some "right") 96 123
             [leaf 35 "identifier" (Some "function") 96 106;
              mkNode 36 "argument_list" true (Some "arguments") 106 123
                [tok 37 "(" 106 107;
                 leaf 38 "identifier" None 107 112;
                 tok 39 "," 112 113;
                 leaf 40 "identifier" None 114 122;
                 tok 41 ")" 122 123]]]]].

Definition blankLine_src : string :=
  "from langgraph.prebuilt import ToolNode" +++ nl +++ nl +++ "agent = create_agent(model, tools=ToolNode(tools))" +++ nl.

Definition blankLine_tree : Node :=
  mkNode 0 "module" true None 0 92
    [mkNode 1 "import_from_statement" true None 0 39
       [tok 2 "from" 0 4;
        mkNode 3 "dotted_name" true (Some "module_name") 5 23
          [leaf 4 "identifier" None 5 14;
           tok 5 "." 14 15;
           leaf 6 "identifier" None 15 23];
        tok 7 "import" 24 30;
        mkNode 8 "dotted_name" true (Some "name") 31 39
          [leaf 9 "identifier" None 31 39]];
     mkNode 10 "expression_statement" true None 41 91
       [mkNode 11 "assignment" true None 41 91
          [leaf 12 "identifier" (Some "left") 41 46;
           tok 13 "=" 47 48;
           mkNode 14 "call" true (Some "right") 49 91
             [leaf 15 "identifier" (Some "function") 49 61;
              mkNode 16 "argument_list" true (Some "arguments") 61 91
                [tok 17 "(" 61 62;
                 leaf 18 "identifier" None 62 67;
                 tok 19 "," 67 68;
                 mkNode 20 "keyword_argument" true None 69 90
                   [leaf 21 "identifier" (Some "name") 69 74;
                    tok 22 "=" 74 75;
                    mkNode 23 "call" true (Some "value") 75 90
                      [leaf 24 "identifier" (Some "function") 75 83;
                       mkNode 25 "argument_list" true (Some "arguments") 83 90
                         [tok 26 "(" 83 84;
                          leaf 27 "identifier" None 84 89;
                          tok 28 ")" 89 90]]];
                 tok 29 ")" 90 91]]]]].

Definition middleName_src : string :=
  "from langgraph.prebuilt import create_react_agent, ToolNode, InjectedState" +++ nl +++ "agent = create_react_agent(model, tools=ToolNode(tools))" +++ nl.

Definition middleName_tree : Node :=
  mkNode 0 "module" true None 0 132
    [mkNode 1 "import_from_statement" true None 0 74
       [tok 2 "from" 0 4;
        mkNode 3 "dotted_name" true (Some "module_name") 5 23
          [leaf 4 "identifier" None 5 14;
           tok 5 "." 14 15;
           leaf 6 "identifier" None 15 23];
        tok 7 "import" 24 30;
        mkNode 8 "dotted_name" true (Some "name") 31 49
          [leaf 9 "identifier" None 31 49];
        tok 10 "," 49 50;
        mkNode 11 "dotted_name" true (Some "name") 51 59
          [leaf 12 "identifier" None 51 59];
        tok 13 "," 59 60;
        mkNode 14 "dotted_name" true (Some "name") 61 74
          [leaf 15 "identifier" None 61 74]];
     mkNode 16 "expression_statement" true None 75 131
       [mkNode 17 "assignment" true None 75 131
          [leaf 18 "identifier" (Some "left") 75 80;
           tok 19 "=" 81 82;
           mkNode 20 "call" true (Some "right") 83 131
             [leaf 21 "identifier" (Some "function") 83 101;
              mkNode 22 "argument_list" true (Some "arguments") 101 131
                [tok 23 "(" 101 102;
                 leaf 24 "identifier" None 102 107;
                 tok 25 "," 107 108;
                 mkNode 26 "keyword_argument" true None 109 130
                   [leaf 27 "identifier" (Some "name") 109 114;
                    tok 28 "=" 114 115;
                    mkNode 29 "call" true (Some "value") 115 130
                      [leaf 30 "identifier" (Some "function") 115 123;
                       mkNode 31 "argument_list" true (Some "arguments") 123 130
                         [tok 32 "(" 123 124;
                          leaf 33 "identifier" None 124 129;
                          tok 34 ")" 129 130]]];
                 tok 35 ")" 130 131]]]]].

Definition ownLine_src : string :=
  "from langgraph.prebuilt import (" +++ nl +++ "    create_react_agent," +++ nl +++ "    ToolNode" +++ nl +++ ")" +++ nl +++ "agent = create_react_agent(model, tools=ToolNode(tools))" +++ nl.

Definition ownLine_tree : Node :=
  mkNode 0 "module" true None 0 129
    [mkNode 1 "import_from_statement" true None 0 71
       [tok 2 "from" 0 4;
        mkNode 3 "dotted_name" true (Some "module_name") 5 23
          [leaf 4 "identifier" None 5 14;
           tok 5 "." 14 15;
           leaf 6 "identifier" None 15 23];
        tok 7 "import" 24 30;
        tok 8 "(" 31 32;
        mkNode 9 "dotted_name" true (Some "name") 37 55
          [leaf 10 "identifier" None 37 55];
        tok 11 "," 55 56;
        mkNode 12 "dotted_name" true (Some "name") 61 69
          [leaf 13 "identifier" None 61 69];
        tok 14 ")" 70 71];
     mkNode 15 "expression_statement" true None 72 128
       [mkNode 16 "assignment" true None 72 128
          [leaf 17 "identifier" (Some "left") 72 77;
           tok 18 "=" 78 79;
           mkNode 19 "call" true (Some "right") 80 128
             [leaf 20 "identifier" (Some "function") 80 98;
              mkNode 21 "argument_list" true (Some "arguments") 98 128
                [tok 22 "(" 98 99;
                 leaf 23 "identifier" None 99 104;
                 tok 24 "," 104 105;
                 mkNode 25 "keyword_argument" true None 106 127
                   [leaf 26 "identifier" (Some "name") 106 111;
                    tok 27 "=" 111 112;
                    mkNode 28 "call" true (Some "value") 112 127
                      [leaf 29 "identifier" (Some "function") 112 120;
                       mkNode 30 "argument_list" true (Some "arguments") 120 127
                         [tok 31 "(" 120 121;
                          leaf 32 "identifier" None 121 126;
                          tok 33 ")" 126 127]]];
                 tok 34 ")" 127 128]]]]].

Definition calledTwice_src : string :=
  "x.text()()".

Definition calledTwice_tree : Node :=
  mkNode 0 "module" true None 0 10
    [mkNode 1 "expression_statement" true None 0 10
       [mkNode 2 "call" true None 0 10
          [mkNode 3 "call" true (Some "function") 0 8
             [mkNode 4 "attribute" true (Some "function") 0 6
                [leaf 5 "identifier" (Some "object") 0 1;
                 tok 6 "." 1 2;
                 leaf 7 "identifier" (Some "attribute") 2 6];
              mkNode 8 "argument_list" true (Some "arguments") 6 8
                [tok 9 "(" 6 7;
                 tok 10 ")" 7 8]];
           mkNode 11 "argument_list" true (Some "arguments") 8 10
             [tok 12 "(" 8 9;
              tok 13 ")" 9 10]]]].

Definition calledOnce_src : string :=
  "x.text()".

Definition calledOnce_tree : Node :=
  mkNode 0 "module" true None 0 8
    [mkNode 1 "expression_statement" true None 0 8
       [mkNode 2 "call" true None 0 8
          [mkNode 3 "attribute" true (Some "function") 0 6
             [leaf 4 "identifier" (Some "object") 0 1;
              tok 5 "." 1 2;
              leaf 6 "identifier" (Some "attribute") 2 6];
           mkNode 7 "argument_list" true (Some "arguments") 6 8
             [tok 8 "(" 6 7;
              tok 9 ")" 7 8]]]].

Definition wrapped_src : string :=
  "from langchain.agents.structured_output import ToolStrategy" +++ nl +++ nl +++ "agent = create_agent(m, response_format=ToolStrategy(Schema))" +++ nl.

Definition wrapped_tree : Node :=
  mkNode 0 "module" true None 0 123
    [mkNode 1 "import_from_statement" true None 0 59
       [tok 2 "from" 0 4;
        mkNode 3 "dotted_name" true (Some "module_name") 5 39
          [leaf 4 "identifier" None 5 14;
           tok 5 "." 14 15;
           leaf 6 "identifier" None 15 21;
           tok 7 "." 21 22;
           leaf 8 "identifier" None 22 39];
        tok 9 "import" 40 46;
        mkNode 10 "dotted_name" true (Some "name") 47 59
          [leaf 11 "identifier" None 47 59]];
     mkNode 12 "expression_statement" true None 61 122
       [mkNode 13 "assignment" true None 61 122
          [leaf 14 "identifier" (Some "left") 61 66;
           tok 15 "=" 67 68;
           mkNode 16 "call" true (Some "right") 69 122
             [leaf 17 "identifier" (Some "function") 69 81;
              mkNode 18 "argument_list" true (Some "arguments") 81 122
                [tok 19 "(" 81 82;
                 leaf 20 "identifier" None 82 83;
                 tok 21 "," 83 84;
                 mkNode 22 "keyword_argument" true None 85 121
                   [leaf 23 "identifier" (Some "name") 85 100;
                    tok 24 "=" 100 101;
                    mkNode 25 "call" true (Some "value") 101 121
                      [leaf 26 "identifier" (Some "function") 101 113;
                       mkNode 27 "argument_list" true (Some "arguments") 113 121
                         [tok 28 "(" 113 114;
                          leaf 29 "identifier" None 114 120;
                          tok 30 ")" 120 121]]];
                 tok 31 ")" 121 122]]]]].

Definition legacy_src : string :=
  "from langchain.retrievers import MultiQueryRetriever" +++ nl.

Definition legacy_tree : Node :=
  mkNode 0 "module" true None 0 53
    [mkNode 1 "import_from_statement" true None 0 52
       [tok 2 "from" 0 4;
        mkNode 3 "dotted_name" true (Some "module_name") 5 25
          [leaf 4 "identifier" None 5 14;
           tok 5 "." 14 15;
           leaf 6 "identifier" None 15 25];
        tok 7 "import" 26 32;
        mkNode 8 "dotted_name" true (Some "name") 33 52
          [leaf 9 "identifier" None 33 52]]].

Definition migrated_src : string :=
  "from langchain_classic.retrievers import MultiQueryRetriever" +++ nl.

Definition migrated_tree : Node :=
  mkNode 0 "module" true None 0 61
    [mkNode 1 "import_from_statement" true None 0 60
       [tok 2 "from" 0 4;
        mkNode 3 "dotted_name" true (Some "module_name") 5 33
          [leaf 4 "identifier" None 5 22;
           tok 5 "." 22 23;
           leaf 6 "identifier" None 23 33];
        tok 7 "import" 34 40;
        mkNode 8 "dotted_name" true (Some "name") 41 60
          [leaf 9 "identifier" None 41 60]]].

Definition contentRef_src : string :=
  "from langchain.messages import SystemMessage" +++ nl +++ nl +++ "agent = create_agent(model, system_prompt=SystemMessage(content=SystemMessage))" +++ nl.

Definition contentRef_tree : Node :=
  mkNode 0 "module" true None 0 126
    [mkNode 1 "import_from_statement" true None 0 44
       [tok 2 "from" 0 4;
        mkNode 3 "dotted_name" true (Some "module_name") 5 23
          [leaf 4 "identifier" None 5 14;
           tok 5 "." 14 15;
           leaf 6 "identifier" None 15 23];
        tok 7 "import" 24 30;
        mkNode 8 "dotted_name" true (Some "name") 31 44
          [leaf 9 "identifier" None 31 44]];
     mkNode 10 "expression_statement" true None 46 125
       [mkNode 11 "assignment" true None 46 125
          [leaf 12 "identifier" (Some "left") 46 51;
           tok 13 "=" 52 53;
           mkNode 14 "call" true (Some "right") 54 125
             [leaf 15 "identifier" (Some "function") 54 66;
              mkNode 16 "argument_list" true (Some "arguments") 66 125
                [tok 17 "(" 66 67;
                 leaf 18 "identifier" None 67 72;
                 tok 19 "," 72 73;
                 mkNode 20 "keyword_argument" true None 74 124
                   [leaf 21 "identifier" (Some "name") 74 87;
                    tok 22 "=" 87 88;
                    mkNode 23 "call" true (Some "value") 88 124
                      [leaf 24 "identifier" (Some "function") 88 101;
                       mkNode 25 "argument_list" true (Some "arguments") 101 124
                         [tok 26 "(" 101 102;
                          mkNode 27 "keyword_argument" true None 102 123
                            [leaf 28 "identifier" (Some "name") 102 109;
                             tok 29 "=" 109 110;
                             leaf 30 "identifier" (Some "value") 110 123];
                          tok 31 ")" 123 124]]];
                 tok 32 ")" 124 125]]]]].

(** The test [isAlreadyMigrated] applies to the text of a module name. *)
Definition migratedName (moduleText : string) : bool :=
  Js.startsWith moduleText "langchain_classic."
  || (moduleText =? "langchain_classic")%string.

(** ** Comma-delimited lists

    A list as text: the first element, then for every further element a
    comma, some spaces and the element.  It has one comma per element of
    [rest]. *)

Fixpoint spaces (n : nat) : string :=
  match n with
  | 0 => EmptyString
  | S m => String SPACE (spaces m)
  end.

Fixpoint renderRest (rest : list (nat * string)) : string :=
  match rest with
  | [] => EmptyString
  | (gap, element) :: r => "," +++ spaces gap +++ element +++ renderRest r
  end.

Definition render (first : string) (rest : list (nat * string)) : string :=
  first +++ renderRest rest.

(** The last character of a text that is not a space. *)
Fixpoint lastSolid (s : string) : option ascii :=
  match s with
  | EmptyString => None
  | String c r =>
      match lastSolid r with
      | Some d => Some d
      | None => if Ascii.eqb c SPACE then None else Some c
      end
  end.

(** No comma stands, across spaces, before what follows [s]. *)
Definition noCommaBefore (s : string) : bool :=
  match lastSolid s with
  | Some c => negb (Ascii.eqb c COMMA)
  | None => true
  end.

(** The text starts with a character that is not a space. *)
Definition startsWithName (s : string) : bool :=
  match s with
  | EmptyString => false
  | String c _ => negb (Ascii.eqb c SPACE)
  end.

(** A node handle for the span [from, upto) of a buffer; the removal of a
    name from an import list reads nothing else of the node. *)
Definition spanNode (src : string) (from upto : nat) : SgNode :=
  {| source := src;
     node := mkNode 0 "dotted_name" true (Some "name") from upto [];
     parents := [] |}.

(** The children of an argument list whose text is [(], a rendered list and
    [)], laid out from offset [o] with ids counting up from [i]: the
    parenthesis, the first element, and for every further element the comma
    and the element. *)
Fixpoint restNodes (i o : nat) (rest : list (nat * string)) : list Node :=
  match rest with
  | [] => [tok i ")" o (o + 1)]
  | (gap, element) :: r =>
      tok i "," o (o + 1)
      :: leaf (i + 1) "identifier" None (o + 1 + gap) (o + 1 + gap + String.length element)
      :: restNodes (i + 2) (o + 1 + gap + String.length element) r
  end.

Definition listNodes (i o : nat) (first : string) (rest : list (nat * string)) : list Node :=
  tok i "(" o (o + 1)
  :: leaf (i + 1) "identifier" None (o + 1) (o + 1 + String.length first)
  :: restNodes (i + 2) (o + 1 + String.length first) rest.

Definition argumentList (src : string) (i o : nat) (first : string)
  (rest : list (nat * string)) : SgNode :=
  {| source := src;
     node := mkNode i "argument_list" true (Some "arguments") o
               (o + 2 + String.length (render first rest))
               (listNodes (i + 1) o first rest);
     parents := [] |}.

(** The [n]-th child of a node, the node itself when there is none. *)
Definition childAt (n : nat) (parent : SgNode) : SgNode :=
  nth n (Sg.children parent) parent.

(** ** Buffers the scripts read as the model does *)

(** Every character is an ASCII character: a byte offset and an index of
    the JavaScript string are then the same number. *)
Fixpoint asciiOnly (s : string) : bool :=
  match s with
  | EmptyString => true
  | String c r => (nat_of_ascii c <? 128) && asciiOnly r
  end.

Definition CR : ascii := "013"%char.
Definition cr : string := String CR EmptyString.

(** ** A mapping that names [example] somewhere

    What the merge of aimessage-example-to-kwargs tests before it writes:
    some entry below the literal, at any depth, has a string child, key or
    value, whose content is [example]. *)
Definition mentionsExample (dict : SgNode) : bool :=
  existsb
    (fun entry => Sg.isKind entry "pair" && existsb isExampleString (Sg.children entry))
    (Sg.dfs dict).

(** ** A second pass

    The parser is outside the scripts: a second pass runs on a tree of the
    text the first pass returned.  What follows says how such a tree reads
    a site, without saying what the detector answers there. *)

(** The characters of an identifier. *)
Definition identChar (c : ascii) : bool :=
  let n := nat_of_ascii c in
  ((48 <=? n) && (n <=? 57)) || ((65 <=? n) && (n <=? 90)) || (n =? 95)
  || ((97 <=? n) && (n <=? 122)).

Fixpoint identifierText (s : string) : bool :=
  match s with
  | EmptyString => true
  | String c r => identChar c && identifierText r
  end.

(** A call node as a parser reads it off a text that starts with a name and
    a parenthesis: the function child starts where the call starts, lies
    inside it, is made of identifier characters and takes all of them (the
    character after it is not one). *)
Definition callOnLeadingIdentifier (v : SgNode) : bool :=
  Sg.isKind v "call"
  && match Sg.field v "function" with
     | Some f =>
         (Sg.rangeStart f =? Sg.rangeStart v) && (Sg.rangeEnd f <=? Sg.rangeEnd v)
         && identifierText (Sg.text f)
         && match Js.charAt (Sg.text v) (String.length (Sg.text f)) with
            | Some c => negb (identChar c)
            | None => true
            end
     | None => false
     end.

(** The value of [response_format=] at a call, as
    response-format-tool-strategy looks it up. *)
Definition responseFormatValue (callNode : SgNode) : option SgNode :=
  match Sg.field callNode "arguments" with
  | None => None
  | Some argsNode =>
      match Sg.find argsNode ResponseFormatToolStrategy.responseFormatKeyword with
      | None => None
      | Some responseFormatArg => Sg.field responseFormatArg "value"
      end
  end.

(** Two values that read alike: the same kind of node and the same text in
    the function position. *)
Definition readsAlike (v1 v2 : SgNode) : Prop :=
  Sg.kind v1 = Sg.kind v2
  /\ option_map Sg.text (Sg.field v1 "function")
     = option_map Sg.text (Sg.field v2 "function").

(** Two import statements that read alike: the same module name and the
    same imported names. *)
Definition sameImport (i1 i2 : SgNode) : Prop :=
  option_map Sg.text (Sg.field i1 "module_name")
  = option_map Sg.text (Sg.field i2 "module_name")
  /\ map Sg.text (Sg.fieldChildren i1 "name") = map Sg.text (Sg.fieldChildren i2 "name").

(** [second] is a parse of what response-format-tool-strategy returned for
    [first]: the buffer is the returned text, and every [response_format=]
    value of the second tree is either a text the first pass wrote, read as
    a call on its leading identifier, or a value the first pass left alone,
    read as before. *)
Definition reparsedAfterWrapping (first second : SgRoot) : Prop :=
  ResponseFormatToolStrategy.transform first = Rewritten (buffer second)
  /\ forall call2 v2,
       In call2 (Sg.findAll (rootOf second) ResponseFormatToolStrategy.createAgentCall) ->
       responseFormatValue call2 = Some v2 ->
       (exists e,
           In e (ResponseFormatToolStrategy.wrapEdits first)
           /\ Sg.text v2 = insertedText e
           /\ callOnLeadingIdentifier v2 = true)
       \/ (exists call1 v1,
              In call1 (Sg.findAll (rootOf first) ResponseFormatToolStrategy.createAgentCall)
              /\ responseFormatValue call1 = Some v1
              /\ pushed (ResponseFormatToolStrategy.visit (filename first) call1) = []
              /\ readsAlike v1 v2).

(** [second] is a parse of what langchain-classic-imports returned for
    [first]: every import statement of the second tree has a module name the
    first pass wrote, or is a statement the first pass left alone. *)
Definition reparsedAfterMigration (first second : SgRoot) : Prop :=
  LangchainClassicImports.transform first = Rewritten (buffer second)
  /\ forall import2,
       In import2 (Sg.findAll (rootOf second) (Sg.kindIs "import_from_statement")) ->
       (exists e m2,
           In e (LangchainClassicImports.edits (rootOf first))
           /\ Sg.field import2 "module_name" = Some m2
           /\ Sg.text m2 = insertedText e)
       \/ (exists import1,
              In import1 (Sg.findAll (rootOf first) (Sg.kindIs "import_from_statement"))
              /\ LangchainClassicImports.visit import1 = []
              /\ sameImport import1 import2).

(** ** More sample files *)

Definition valueExample_src : string :=
  "m = AIMessage(content=" +++ dq +++ "hi" +++ dq +++ ", example=True, additional_kwargs={" +++ dq +++ "kind" +++ dq +++ ": " +++ dq +++ "example" +++ dq +++ "})" +++ nl.

Definition valueExample_tree : Node :=
  mkNode 0 "module" true None 0 81
    [mkNode 1 "expression_statement" true None 0 80
       [mkNode 2 "assignment" true None 0 80
          [leaf 3 "identifier" (Some "left") 0 1;
           tok 4 "=" 2 3;
           mkNode 5 "call" true (Some "right") 4 80
             [leaf 6 "identifier" (Some "function") 4 13;
              mkNode 7 "argument_list" true (Some "arguments") 13 80
                [tok 8 "(" 13 14;
                 mkNode 9 "keyword_argument" true None 14 26
                   [leaf 10 "identifier" (Some "name") 14 21;
                    tok 11 "=" 21 22;
                    mkNode 12 "string" true (Some "value") 22 26
                      [leaf 13 "string_start" None 22 23;
                       leaf 14 "string_content" None 23 25;
                       leaf 15 "string_end" None 25 26]];
                 tok 16 "," 26 27;
                 mkNode 17 "keyword_argument" true None 28 40
                   [leaf 18 "identifier" (Some "name") 28 35;
                    tok 19 "=" 35 36;
                    leaf 20 "true" (Some "value") 36 40];
                 tok 21 "," 40 41;
                 mkNode 22 "keyword_argument" true None 42 79
                   [leaf 23 "identifier" (Some "name") 42 59;
                    tok 24 "=" 59 60;
                    mkNode 25 "dictionary" true (Some "value") 60 79
                      [tok 26 "{" 60 61;
                       mkNode 27 "pair" true None 61 78
                         [mkNode 28 "string" true (Some "key") 61 67
                            [leaf 29 "string_start" None 61 62;
                             leaf 30 "string_content" None 62 66;
                             leaf 31 "string_end" None 66 67];
                          tok 32 ":" 67 68;
                          mkNode 33 "string" true (Some "value") 69 78
                            [leaf 34 "string_start" None 69 70;
                             leaf 35 "string_content" None 70 77;
                             leaf 36 "string_end" None 77 78]];
                       tok 37 "}" 78 79]];
                 tok 38 ")" 79 80]]]]].

Definition aliasedSibling_src : string :=
  "from langgraph.prebuilt import ToolNode, InjectedState as State" +++ nl +++ "agent = create_agent(model, tools=ToolNode(tools))" +++ nl.

Definition aliasedSibling_tree : Node :=
  mkNode 0 "module" true None 0 115
    [mkNode 1 "import_from_statement" true None 0 63
       [tok 2 "from" 0 4;
        mkNode 3 "dotted_name" true (Some "module_name") 5 23
          [leaf 4 "identifier" None 5 14;
           tok 5 "." 14 15;
           leaf 6 "identifier" None 15 23];
        tok 7 "import" 24 30;
        mkNode 8 "dotted_name" true (Some "name") 31 39
          [leaf 9 "identifier" None 31 39];
        tok 10 "," 39 40;
        mkNode 11 "aliased_import" true (Some "name") 41 63
          [mkNode 12 "dotted_name" true (Some "name") 41 54
             [leaf 13 "identifier" None 41 54];
           tok 14 "as" 55 57;
           leaf 15 "identifier" (Some "alias") 58 63]];
     mkNode 16 "expression_statement" true None 64 114
       [mkNode 17 "assignment" true None 64 114
          [leaf 18 "identifier" (Some "left") 64 69;
           tok 19 "=" 70 71;
           mkNode 20 "call" true (Some "right") 72 114
             [leaf 21 "identifier" (Some "function") 72 84;
              mkNode 22 "argument_list" true (Some "arguments") 84 114
                [tok 23 "(" 84 85;
                 leaf 24 "identifier" None 85 90;
                 tok 25 "," 90 91;
                 mkNode 26 "keyword_argument" true None 92 113
                   [leaf 27 "identifier" (Some "name") 92 97;
                    tok 28 "=" 97 98;
                    mkNode 29 "call" true (Some "value") 98 113
                      [leaf 30 "identifier" (Some "function") 98 106;
                       mkNode 31 "argument_list" true (Some "arguments") 106 113
                         [tok 32 "(" 106 107;
                          leaf 33 "identifier" None 107 112;
                          tok 34 ")" 112 113]]];
                 tok 35 ")" 113 114]]]]].

Definition carriageReturn_src : string :=
  "from langgraph.prebuilt import ToolNode" +++ cr +++ nl +++ "agent = create_agent(model, tools=ToolNode(tools))" +++ cr +++ nl.

Definition carriageReturn_tree : Node :=
  mkNode 0 "module" true None 0 93
    [mkNode 1 "import_from_statement" true None 0 39
       [tok 2 "from" 0 4;
        mkNode 3 "dotted_name" true (Some "module_name") 5 23
          [leaf 4 "identifier" None 5 14;
           tok 5 "." 14 15;
           leaf 6 "identifier" None 15 23];
        tok 7 "import" 24 30;
        mkNode 8 "dotted_name" true (Some "name") 31 39
          [leaf 9 "identifier" None 31 39]];
     mkNode 10 "expression_statement" true None 41 91
       [mkNode 11 "assignment" true None 41 91
          [leaf 12 "identifier" (Some "left") 41 46;
           tok 13 "=" 47 48;
           mkNode 14 "call" true (Some "right") 49 91
             [leaf 15 "identifier" (Some "function") 49 61;
              mkNode 16 "argument_list" true (Some "arguments") 61 91
                [tok 17 "(" 61 62;
                 leaf 18 "identifier" None 62 67;
                 tok 19 "," 67 68;
                 mkNode 20 "keyword_argument" true None 69 90
                   [leaf 21 "identifier" (Some "name") 69 74;
                    tok 22 "=" 74 75;
                    mkNode 23 "call" true (Some "value") 75 90
                      [leaf 24 "identifier" (Some "function") 75 83;
                       mkNode 25 "argument_list" true (Some "arguments") 83 90
                         [tok 26 "(" 83 84;
                          leaf 27 "identifier" None 84 89;
                          tok 28 ")" 89 90]]];
                 tok 29 ")" 90 91]]]]].


(** A file that starts with two empty lines: the root node starts at the
    first statement. *)
Definition leadingBlank_src : string :=
  nl +++ nl +++ "from langgraph.prebuilt import ToolNode" +++ nl +++ "agent = create_agent(model, tools=ToolNode(tools))" +++ nl.

Definition leadingBlank_tree : Node :=
  mkNode 0 "module" true None 2 93
    [mkNode 1 "import_from_statement" true None 2 41
       [tok 2 "from" 2 6;
        mkNode 3 "dotted_name" true (Some "module_name") 7 25
          [leaf 4 "identifier" None 7 16;
           tok 5 "." 16 17;
           leaf 6 "identifier" None 17 25];
        tok 7 "import" 26 32;
        mkNode 8 "dotted_name" true (Some "name") 33 41
          [leaf 9 "identifier" None 33 41]];
     mkNode 10 "expression_statement" true None 42 92
       [mkNode 11 "assignment" true None 42 92
          [leaf 12 "identifier" (Some "left") 42 47;
           tok 13 "=" 48 49;
           mkNode 14 "call" true (Some "right") 50 92
             [leaf 15 "identifier" (Some "function") 50 62;
              mkNode 16 "argument_list" true (Some "arguments") 62 92
                [tok 17 "(" 62 63;
                 leaf 18 "identifier" None 63 68;
                 tok 19 "," 68 69;
                 mkNode 20 "keyword_argument" true None 70 91
                   [leaf 21 "identifier" (Some "name") 70 75;
                    tok 22 "=" 75 76;
                    mkNode 23 "call" true (Some "value") 76 91
                      [leaf 24 "identifier" (Some "function") 76 84;
                       mkNode 25 "argument_list" true (Some "arguments") 84 91
                         [tok 26 "(" 84 85;
                          leaf 27 "identifier" None 85 90;
                          tok 28 ")" 90 91]]];
                 tok 29 ")" 91 92]]]]].


(** The merge site of [valueExample_src]. *)
Definition valueExample_root : SgNode :=
  rootOf (parsed "msg.py" valueExample_src valueExample_tree).
Definition valueExample_call : SgNode :=
  nth 0 (Sg.findAll valueExample_root AIMessageExampleToKwargs.aiMessageCall)
    valueExample_root.
Definition valueExample_dict : SgNode :=
  orElse (existingDict valueExample_call) valueExample_root.
(** ** More vocabulary *)

(** Does an import statement bring in [create_react_agent], under its own
    name or under an alias? *)
Definition importsTheFunction (importStmt : SgNode) : bool :=
  match Sg.find importStmt CreateReactAgentToCreateAgent.directImport with
  | Some _ => true
  | None =>
      match Sg.find importStmt CreateReactAgentToCreateAgent.aliasedImport with
      | Some aliased => isSome (Sg.field aliased "alias")
      | None => false
      end
  end.

(** A node with at most one child in field [f], as the grammar has it for
    the function of a call. *)
Definition singleField (f : string) (n : SgNode) : bool :=
  length (Sg.fieldChildren n f) <=? 1.

(** An edit that rewrites one of the import statements [stmts] to an import
    of [create_agent]. *)
Definition rewritesImport (stmts : list SgNode) (e : Edit) : Prop :=
  exists importStmt,
    In importStmt stmts
    /\ importsTheFunction importStmt = true
    /\ startPos e = Sg.rangeStart importStmt
    /\ endPos e = Sg.rangeEnd importStmt
    /\ Js.startsWith (insertedText e) "from langchain.agents import create_agent" = true.

(** What the loop over the import statements keeps. *)
Definition scanInvariant (stmts : list SgNode) (st : CreateReactAgentToCreateAgent.Scan)
  : Prop :=
  NoDup (map fst (CreateReactAgentToCreateAgent.namesToRename st))
  /\ (forall k, In (k, false) (CreateReactAgentToCreateAgent.namesToRename st) ->
                k = CreateReactAgentToCreateAgent.OLD_FUNCTION)
  /\ (forall e, In e (CreateReactAgentToCreateAgent.importEdits st) ->
                rewritesImport stmts e).

Definition reactDirect_src : string :=
  "from langgraph.prebuilt import create_react_agent" +++ nl +++ "agent = create_react_agent(model, tools)" +++ nl.

Definition reactDirect_tree : Node :=
  mkNode 0 "module" true None 0 91
    [mkNode 1 "import_from_statement" true None 0 49
       [tok 2 "from" 0 4;
        mkNode 3 "dotted_name" true (Some "module_name") 5 23
          [leaf 4 "identifier" None 5 14;
           tok 5 "." 14 15;
           leaf 6 "identifier" None 15 23];
        tok 7 "import" 24 30;
        mkNode 8 "dotted_name" true (Some "name") 31 49
          [leaf 9 "identifier" None 31 49]];
     mkNode 10 "expression_statement" true None 50 90
       [mkNode 11 "assignment" true None 50 90
          [leaf 12 "identifier" (Some "left") 50 55;
           tok 13 "=" 56 57;
           mkNode 14 "call" true (Some "right") 58 90
             [leaf 15 "identifier" (Some "function") 58 76;
              mkNode 16 "argument_list" true (Some "arguments") 76 90
                [tok 17 "(" 76 77;
                 leaf 18 "identifier" None 77 82;
                 tok 19 "," 82 83;
                 leaf 20 "identifier" None 84 89;
                 tok 21 ")" 89 90]]]]].

Definition reactAliased_src : string :=
  "from langgraph.prebuilt import create_react_agent as make" +++ nl +++ "agent = make(model, tools)" +++ nl.

Definition reactAliased_tree : Node :=
  mkNode 0 "module" true None 0 85
    [mkNode 1 "import_from_statement" true None 0 57
       [tok 2 "from" 0 4;
        mkNode 3 "dotted_name" true (Some "module_name") 5 23
          [leaf 4 "identifier" None 5 14;
           tok 5 "." 14 15;
           leaf 6 "identifier" None 15 23];
        tok 7 "import" 24 30;
        mkNode 8 "aliased_import" true (Some "name") 31 57
          [mkNode 9 "dotted_name" true (Some "name") 31 49
             [leaf 10 "identifier" None 31 49];
           tok 11 "as" 50 52;
           leaf 12 "identifier" (Some "alias") 53 57]];
     mkNode 13 "expression_statement" true None 58 84
       [mkNode 14 "assignment" true None 58 84
          [leaf 15 "identifier" (Some "left") 58 63;
           tok 16 "=" 64 65;
           mkNode 17 "call" true (Some "right") 66 84
             [leaf 18 "identifier" (Some "function") 66 70;
              mkNode 19 "argument_list" true (Some "arguments") 70 84
                [tok 20 "(" 70 71;
                 leaf 21 "identifier" None 71 76;
                 tok 22 "," 76 77;
                 leaf 23 "identifier" None 78 83;
                 tok 24 ")" 83 84]]]]].

(** The context of stream-event: some string below the comparison reads
    [name], and the last string below it that reads [agent]. *)
Definition hasNameString (comparison : SgNode) : bool :=
  existsb StreamEventAgentToModel.isNameString
    (Sg.findAll comparison (Sg.kindIs "string")).

Definition lastAgentString (comparison : SgNode) : option SgNode :=
  List.find StreamEventAgentToModel.isAgentString
    (rev (Sg.findAll comparison (Sg.kindIs "string"))).

(** A text without the character [c]. *)
Fixpoint lacks (c : ascii) (s : string) : bool :=
  match s with
  | EmptyString => true
  | String d r => negb (Ascii.eqb d c) && lacks c r
  end.

Definition streamEvent_src : string :=
  "ok = event[" +++ dq +++ "name" +++ dq +++ "] == 'agent'" +++ nl.

Definition streamEvent_tree : Node :=
  mkNode 0 "module" true None 0 30
    [mkNode 1 "expression_statement" true None 0 29
       [mkNode 2 "assignment" true None 0 29
          [leaf 3 "identifier" (Some "left") 0 2;
           tok 4 "=" 3 4;
           mkNode 5 "comparison_operator" true (Some "right") 5 29
             [mkNode 6 "subscript" true None 5 18
                [leaf 7 "identifier" (Some "value") 5 10;
                 tok 8 "[" 10 11;
                 mkNode 9 "string" true (Some "subscript") 11 17
                   [leaf 10 "string_start" None 11 12;
                    leaf 11 "string_content" None 12 16;
                    leaf 12 "string_end" None 16 17];
                 tok 13 "]" 17 18];
              mkNode 14 "==" false (Some "operators") 19 21 [];
              mkNode 15 "string" true None 22 29
                [leaf 16 "string_start" None 22 23;
                 leaf 17 "string_content" None 23 28;
                 leaf 18 "string_end" None 28 29]]]]].

Definition bindTools_src : string :=
  "from langchain_core.messages import BaseMessage" +++ nl +++ "def bind_tools(self, tools) -> Runnable[LanguageModelInput, BaseMessage]:" +++ nl +++ "    pass" +++ nl.

Definition bindTools_tree : Node :=
  mkNode 0 "module" true None 0 131
    [mkNode 1 "import_from_statement" true None 0 47
       [tok 2 "from" 0 4;
        mkNode 3 "dotted_name" true (Some "module_name") 5 28
          [leaf 4 "identifier" None 5 19;
           tok 5 "." 19 20;
           leaf 6 "identifier" None 20 28];
        tok 7 "import" 29 35;
        mkNode 8 "dotted_name" true (Some "name") 36 47
          [leaf 9 "identifier" None 36 47]];
     mkNode 10 "function_definition" true None 48 130
       [tok 11 "def" 48 51;
        leaf 12 "identifier" (Some "name") 52 62;
        mkNode 13 "parameters" true (Some "parameters") 62 75
          [tok 14 "(" 62 63;
           leaf 15 "identifier" None 63 67;
           tok 16 "," 67 68;
           leaf 17 "identifier" None 69 74;
           tok 18 ")" 74 75];
        tok 19 "->" 76 78;
        mkNode 20 "type" true (Some "return_type") 79 120
          [mkNode 21 "generic_type" true None 79 120
             [leaf 22 "identifier" None 79 87;
              mkNode 23 "type_parameter" true None 87 120
                [tok 24 "[" 87 88;
                 mkNode 25 "type" true None 88 106
                   [leaf 26 "identifier" None 88 106];
                 tok 27 "," 106 107;
                 mkNode 28 "type" true None 108 119
                   [leaf 29 "identifier" None 108 119];
                 tok 30 "]" 119 120]]];
        tok 31 ":" 120 121;
        mkNode 32 "block" true (Some "body") 126 130
          [mkNode 33 "pass_statement" true None 126 130
             [tok 34 "pass" 126 130]]]].

Definition bindToolsBoth_src : string :=
  "from langchain_core.messages import AIMessage, BaseMessage" +++ nl +++ "def bind_tools(self, tools) -> Runnable[LanguageModelInput, BaseMessage]:" +++ nl +++ "    pass" +++ nl.

Definition bindToolsBoth_tree : Node :=
  mkNode 0 "module" true None 0 142
    [mkNode 1 "import_from_statement" true None 0 58
       [tok 2 "from" 0 4;
        mkNode 3 "dotted_name" true (Some "module_name") 5 28
          [leaf 4 "identifier" None 5 19;
           tok 5 "." 19 20;
           leaf 6 "identifier" None 20 28];
        tok 7 "import" 29 35;
        mkNode 8 "dotted_name" true (Some "name") 36 45
          [leaf 9 "identifier" None 36 45];
        tok 10 "," 45 46;
        mkNode 11 "dotted_name" true (Some "name") 47 58
          [leaf 12 "identifier" None 47 58]];
     mkNode 13 "function_definition" true None 59 141
       [tok 14 "def" 59 62;
        leaf 15 "identifier" (Some "name") 63 73;
        mkNode 16 "parameters" true (Some "parameters") 73 86
          [tok 17 "(" 73 74;
           leaf 18 "identifier" None 74 78;
           tok 19 "," 78 79;
           leaf 20 "identifier" None 80 85;
           tok 21 ")" 85 86];
        tok 22 "->" 87 89;
        mkNode 23 "type" true (Some "return_type") 90 131
          [mkNode 24 "generic_type" true None 90 131
             [leaf 25 "identifier" None 90 98;
              mkNode 26 "type_parameter" true None 98 131
                [tok 27 "[" 98 99;
                 mkNode 28 "type" true None 99 117
                   [leaf 29 "identifier" None 99 117];
                 tok 30 "," 117 118;
                 mkNode 31 "type" true None 119 130
                   [leaf 32 "identifier" None 119 130];
                 tok 33 "]" 130 131]]];
        tok 34 ":" 131 132;
        mkNode 35 "block" true (Some "body") 137 141
          [mkNode 36 "pass_statement" true None 137 141
             [tok 37 "pass" 137 141]]]].

(** A buffer with one edit carried out. *)
Definition spliced (src : string) (e : Edit) : string :=
  Js.slice src 0 (startPos e) +++ insertedText e +++ Js.sliceFrom src (endPos e).

(** An edit that types nothing new: what it writes is a part of what it
    replaces. *)
Definition keepsPartOf (src : string) (e : Edit) : Prop :=
  exists a b,
    startPos e <= a /\ a <= b /\ b <= endPos e /\ insertedText e = Js.slice src a b.

(** A call that unwrap-tool-node-in-agent rewrites: an agent creation call
    with a [tools=ToolNode(ARG)] argument. *)
Definition unwrappable (call : SgNode) : bool :=
  UnwrapToolNodeInAgent.isAgentCreationCall call
  && isSome (UnwrapToolNodeInAgent.findToolsArgWithToolNode call).

Definition nestedPrompt_src : string :=
  "agent = create_agent(m, tools=make(prompt=" +++ dq +++ "x" +++ dq +++ "))" +++ nl.

Definition nestedPrompt_tree : Node :=
  mkNode 0 "module" true None 0 48
    [mkNode 1 "expression_statement" true None 0 47
       [mkNode 2 "assignment" true None 0 47
          [leaf 3 "identifier" (Some "left") 0 5;
           tok 4 "=" 6 7;
           mkNode 5 "call" true (Some "right") 8 47
             [leaf 6 "identifier" (Some "function") 8 20;
              mkNode 7 "argument_list" true (Some "arguments") 20 47
                [tok 8 "(" 20 21;
                 leaf 9 "identifier" None 21 22;
                 tok 10 "," 22 23;
                 mkNode 11 "keyword_argument" true None 24 46
                   [leaf 12 "identifier" (Some "name") 24 29;
                    tok 13 "=" 29 30;
                    mkNode 14 "call" true (Some "value") 30 46
                      [leaf 15 "identifier" (Some "function") 30 34;
                       mkNode 16 "argument_list" true (Some "arguments") 34 46
                         [tok 17 "(" 34 35;
                          mkNode 18 "keyword_argument" true None 35 45
                            [leaf 19 "identifier" (Some "name") 35 41;
                             tok 20 "=" 41 42;
                             mkNode 21 "string" true (Some "value") 42 45
                               [leaf 22 "string_start" None 42 43;
                                leaf 23 "string_content" None 43 44;
                                leaf 24 "string_end" None 44 45]];
                          tok 25 ")" 45 46]]];
                 tok 26 ")" 46 47]]]]].

Definition mixedImport_src : string :=
  "from langchain.messages import HumanMessage, SystemMessage" +++ nl +++ nl +++ "agent = create_agent(model, prompt=SystemMessage(content=" +++ dq +++ "hi" +++ dq +++ "))" +++ nl.

Definition mixedImport_tree : Node :=
  mkNode 0 "module" true None 0 124
    [mkNode 1 "import_from_statement" true None 0 58
       [tok 2 "from" 0 4;
        mkNode 3 "dotted_name" true (Some "module_name") 5 23
          [leaf 4 "identifier" None 5 14;
           tok 5 "." 14 15;
           leaf 6 "identifier" None 15 23];
        tok 7 "import" 24 30;
        mkNode 8 "dotted_name" true (Some "name") 31 43
          [leaf 9 "identifier" None 31 43];
        tok 10 "," 43 44;
        mkNode 11 "dotted_name" true (Some "name") 45 58
          [leaf 12 "identifier" None 45 58]];
     mkNode 13 "expression_statement" true None 60 123
       [mkNode 14 "assignment" true None 60 123
          [leaf 15 "identifier" (Some "left") 60 65;
           tok 16 "=" 66 67;
           mkNode 17 "call" true (Some "right") 68 123
             [leaf 18 "identifier" (Some "function") 68 80;
              mkNode 19 "argument_list" true (Some "arguments") 80 123
                [tok 20 "(" 80 81;
                 leaf 21 "identifier" None 81 86;
                 tok 22 "," 86 87;
                 mkNode 23 "keyword_argument" true None 88 122
                   [leaf 24 "identifier" (Some "name") 88 94;
                    tok 25 "=" 94 95;
                    mkNode 26 "call" true (Some "value") 95 122
                      [leaf 27 "identifier" (Some "function") 95 108;
                       mkNode 28 "argument_list" true (Some "arguments") 108 122
                         [tok 29 "(" 108 109;
                          mkNode 30 "keyword_argument" true None 109 121
                            [leaf 31 "identifier" (Some "name") 109 116;
                             tok 32 "=" 116 117;
                             mkNode 33 "string" true (Some "value") 117 121
                               [leaf 34 "string_start" None 117 118;
                                leaf 35 "string_content" None 118 120;
                                leaf 36 "string_end" None 120 121]];
                          tok 37 ")" 121 122]]];
                 tok 38 ")" 122 123]]]]].

(** A span that the committer can take: ordered and inside the buffer. *)
Definition inBuffer (root : SgRoot) (e : Edit) : Prop :=
  startPos e <= endPos e /\ endPos e <= String.length (buffer root).

Definition valueNamedExample_src : string :=
  "m = AIMessage(content=example)" +++ nl.

Definition valueNamedExample_tree : Node :=
  mkNode 0 "module" true None 0 31
    [mkNode 1 "expression_statement" true None 0 30
       [mkNode 2 "assignment" true None 0 30
          [leaf 3 "identifier" (Some "left") 0 1;
           tok 4 "=" 2 3;
           mkNode 5 "call" true (Some "right") 4 30
             [leaf 6 "identifier" (Some "function") 4 13;
              mkNode 7 "argument_list" true (Some "arguments") 13 30
                [tok 8 "(" 13 14;
                 mkNode 9 "keyword_argument" true None 14 29
                   [leaf 10 "identifier" (Some "name") 14 21;
                    tok 11 "=" 21 22;
                    leaf 12 "identifier" (Some "value") 22 29];
                 tok 13 ")" 29 30]]]]].

(** * Properties *)

(** ** Lists, traversals and loops *)

Lemma flat_map_nil_iff {A B : Type} (f : A -> list B) (l : list A) :
  flat_map f l = [] <-> forall x, In x l -> f x = [].
Proof.
  induction l as [|a l IH]; simpl.
  - split; [intros _ x [] | reflexivity].
  - split.
    + intros H. apply app_eq_nil in H. destruct H as [Ha Hl].
      intros x [<-|Hx]; [exact Ha | now apply IH].
    + intros H. rewrite (H a (or_introl eq_refl)). simpl.
      apply IH. intros x Hx. apply H. now right.
Qed.

(** Sites that push nothing can be left out of the loop. *)
Lemma flat_map_filter_silent {A B : Type} (f : A -> list B) (keep : A -> bool) (l : list A) :
  (forall x, In x l -> keep x = false -> f x = []) ->
  flat_map f l = flat_map f (filter keep l).
Proof.
  induction l as [|a l IH]; simpl; intros H; [reflexivity|].
  rewrite IH by (intros x Hx; apply H; now right).
  destruct (keep a) eqn:Ka; simpl; [reflexivity|].
  now rewrite (H a (or_introl eq_refl) Ka).
Qed.

Lemma flat_map_map {A B C : Type} (f : A -> B) (g : B -> list C) (l : list A) :
  flat_map g (map f l) = flat_map (fun x => g (f x)) l.
Proof. induction l as [|a l IH]; simpl; [reflexivity | now rewrite IH]. Qed.

Lemma find_found {A : Type} (p : A -> bool) (l : list A) (x : A) :
  In x l -> p x = true -> exists y, List.find p l = Some y.
Proof.
  intros Hin Hp. destruct (List.find p l) as [y|] eqn:F; [now exists y|].
  rewrite (find_none p l F x Hin) in Hp. discriminate.
Qed.

Lemma child_in_dfs (n c : SgNode) : In c (Sg.children n) -> In c (Sg.dfs n).
Proof.
  unfold Sg.children, Sg.dfs. intros H. apply in_map_iff in H.
  destruct H as [c0 [<- Hc0]].
  destruct n as [src nd ps]. destruct nd as [i k nm f s e cs]. simpl in *. right.
  apply in_flat_map. exists c0. split; [exact Hc0|].
  destruct c0; simpl. left. reflexivity.
Qed.

Lemma field_is_child (n c : SgNode) (f : string) :
  Sg.field n f = Some c -> In c (Sg.children n) /\ Sg.inField f c = true.
Proof.
  unfold Sg.field, Sg.fieldChildren. intros H.
  destruct (filter (Sg.inField f) (Sg.children n)) as [|x r] eqn:E; [discriminate|].
  injection H as ->.
  assert (Hin : In c (filter (Sg.inField f) (Sg.children n))) by (rewrite E; now left).
  apply filter_In in Hin. exact Hin.
Qed.

(** ** Induction on trees and facts about descendants *)

Lemma Node_forall_ind (P : Node -> Prop)
  (step : forall i k nm f s e cs, Forall P cs -> P (mkNode i k nm f s e cs)) :
  forall n, P n.
Proof.
  fix IH 1. intros [i k nm f s e cs]. apply step.
  induction cs as [|c cs IHcs]; constructor; [apply IH | exact IHcs].
Qed.

Lemma preorder_unfold (src : string) (ps : list Node) (n : Node) :
  preorder src ps n =
  {| source := src; node := n; parents := ps |}
    :: flat_map (preorder src (n :: ps)) (children n).
Proof. destruct n; reflexivity. Qed.

Lemma preorder_source (t : Node) :
  forall src ps n, In n (preorder src ps t) -> source n = src.
Proof.
  induction t as [i k nm f s e cs IH] using Node_forall_ind.
  intros src ps n. rewrite preorder_unfold. simpl. intros [<-|H]; [reflexivity|].
  apply in_flat_map in H. destruct H as [c [Hc Hn]].
  rewrite Forall_forall in IH. exact (IH c Hc _ _ _ Hn).
Qed.

Lemma preorder_within (len : nat) (t : Node) :
  within len t = true ->
  forall src ps n, In n (preorder src ps t) ->
    startIndex (node n) <= endIndex (node n) /\ endIndex (node n) <= len.
Proof.
  induction t as [i k nm f s e cs IH] using Node_forall_ind.
  intros W src ps n. rewrite preorder_unfold. simpl in *.
  apply andb_prop in W. destruct W as [W1 W2].
  apply andb_prop in W1. destruct W1 as [Wa Wb].
  apply Nat.leb_le in Wa. apply Nat.leb_le in Wb.
  intros [<-|H]; [simpl; lia|].
  apply in_flat_map in H. destruct H as [c [Hc Hn]].
  rewrite Forall_forall in IH. rewrite forallb_forall in W2.
  exact (IH c Hc (W2 c Hc) _ _ _ Hn).
Qed.

Lemma preorder_trans (t : Node) :
  forall src ps c d,
    In c (preorder src ps t) ->
    In d (preorder (source c) (parents c) (node c)) ->
    In d (preorder src ps t).
Proof.
  induction t as [i k nm f s e cs IH] using Node_forall_ind.
  intros src ps c d. rewrite (preorder_unfold src ps). simpl.
  intros [<-|H] Hd.
  - simpl in Hd. exact Hd.
  - right. apply in_flat_map in H. destruct H as [x [Hx Hc]].
    apply in_flat_map. exists x. split; [exact Hx|].
    rewrite Forall_forall in IH. exact (IH x Hx _ _ _ _ Hc Hd).
Qed.

Lemma dfs_trans (n c d : SgNode) : In c (Sg.dfs n) -> In d (Sg.dfs c) -> In d (Sg.dfs n).
Proof. unfold Sg.dfs. apply preorder_trans. Qed.

Lemma dfs_refl (n : SgNode) : In n (Sg.dfs n).
Proof.
  unfold Sg.dfs. rewrite preorder_unfold. left. destruct n; reflexivity.
Qed.

Lemma findAll_in_dfs (n c : SgNode) (r : Sg.Rule) :
  In c (Sg.findAll n r) -> In c (Sg.dfs n) /\ r c = true.
Proof. unfold Sg.findAll. apply filter_In. Qed.

Lemma find_in_dfs (n c : SgNode) (r : Sg.Rule) :
  Sg.find n r = Some c -> In c (Sg.dfs n) /\ r c = true.
Proof. unfold Sg.find. apply find_some. Qed.

Lemma field_in_dfs (n c : SgNode) (f : string) :
  Sg.field n f = Some c -> In c (Sg.dfs n).
Proof. intros H. apply child_in_dfs. now apply field_is_child in H. Qed.

Lemma root_descendant_source (root : SgRoot) (n : SgNode) :
  In n (Sg.dfs (rootOf root)) -> source n = buffer root.
Proof. unfold Sg.dfs, rootOf, Sg.root. simpl. apply preorder_source. Qed.

Lemma root_descendant_within (root : SgRoot) (n : SgNode) :
  wellFormed root = true ->
  In n (Sg.dfs (rootOf root)) ->
  Sg.rangeStart n <= Sg.rangeEnd n /\ Sg.rangeEnd n <= String.length (buffer root).
Proof.
  unfold wellFormed, Sg.dfs, rootOf, Sg.root. simpl. intros W.
  apply andb_prop in W. destruct W as [_ W]. now apply preorder_within.
Qed.

(** ** Slices of a buffer *)

Lemma substring_all (s : string) : String.substring 0 (String.length s) s = s.
Proof. induction s as [|c s IH]; simpl; [reflexivity | now rewrite IH]. Qed.

Lemma substring_none (n : nat) (s : string) : String.substring n 0 s = EmptyString.
Proof.
  revert n. induction s as [|c s IH]; intros [|n]; simpl; try reflexivity. apply IH.
Qed.

Lemma append_length (s t : string) :
  String.length (s +++ t) = String.length s + String.length t.
Proof. induction s as [|c s IH]; simpl; [reflexivity | now rewrite IH]. Qed.

Lemma append_assoc (s t u : string) : (s +++ t) +++ u = s +++ t +++ u.
Proof. induction s as [|c s IH]; simpl; [reflexivity | now rewrite IH]. Qed.

Lemma append_empty_r (s : string) : s +++ "" = s.
Proof. induction s as [|c s IH]; simpl; [reflexivity | now rewrite IH]. Qed.

Lemma substring_prefix (s t : string) :
  String.substring 0 (String.length s) (s +++ t) = s.
Proof. induction s as [|c s IH]; simpl; [apply substring_none | now rewrite IH]. Qed.

Lemma substring_skip (s t : string) (m : nat) :
  String.substring (String.length s) m (s +++ t) = String.substring 0 m t.
Proof. induction s as [|c s IH]; simpl; [reflexivity | exact IH]. Qed.

Lemma substring_split (s : string) :
  forall a b, a <= b -> b <= String.length s ->
    String.substring a (String.length s - a) s =
    String.substring a (b - a) s +++ String.substring b (String.length s - b) s.
Proof.
  induction s as [|c s IH]; intros a b Hab Hb.
  - simpl in Hb. assert (b = 0) by lia. assert (a = 0) by lia. subst. reflexivity.
  - destruct a as [|a].
    + destruct b as [|b].
      * simpl. reflexivity.
      * simpl in Hb. simpl String.length. rewrite !Nat.sub_0_r.
        change (String.substring 0 (S (String.length s)) (String c s))
          with (String c (String.substring 0 (String.length s) s)).
        change (String.substring 0 (S b) (String c s))
          with (String c (String.substring 0 b s)).
        change (String.substring (S b) (S (String.length s) - S b) (String c s))
          with (String.substring b (String.length s - b) s).
        simpl. f_equal.
        specialize (IH 0 b (Nat.le_0_l b) ltac:(lia)).
        rewrite !Nat.sub_0_r in IH. exact IH.
    + destruct b as [|b]; [lia|].
      simpl in Hb. simpl. apply IH; lia.
Qed.

Lemma buffer_split3 (s : string) (a b : nat) :
  a <= b -> b <= String.length s ->
  s = Js.slice s 0 a +++ Js.slice s a b +++ Js.sliceFrom s b.
Proof.
  intros Hab Hb. unfold Js.slice, Js.sliceFrom.
  rewrite <- (substring_split s a b Hab Hb).
  pose proof (substring_split s 0 a (Nat.le_0_l a) ltac:(lia)) as H.
  rewrite !Nat.sub_0_r in H. rewrite Nat.sub_0_r, <- H. symmetry. apply substring_all.
Qed.

Lemma root_text (root : SgRoot) :
  wellFormed root = true -> Sg.text (rootOf root) = buffer root.
Proof.
  unfold wellFormed, Sg.text, Sg.rangeStart, Sg.rangeEnd, rootOf, Sg.root, Js.slice. simpl.
  intros W. apply andb_prop in W. destruct W as [W _].
  apply andb_prop in W. destruct W as [W0 W1].
  apply Nat.eqb_eq in W0. apply Nat.eqb_eq in W1.
  rewrite W0, W1, Nat.sub_0_r. apply substring_all.
Qed.

Lemma apply_single (src : string) (e : Edit) :
  startPos e <= endPos e -> endPos e <= String.length src ->
  Committer.apply src [e] =
  Rewritten (Js.slice src 0 (startPos e) +++ insertedText e +++ Js.sliceFrom src (endPos e)).
Proof.
  intros H1 H2. unfold Committer.apply, Committer.inBounds. simpl.
  apply Nat.leb_le in H1. apply Nat.leb_le in H2. rewrite H1, H2. reflexivity.
Qed.

(** ** The committer never answers [Unchanged] for a non-empty edit list *)

Lemma apply_nonempty (src : string) (e : Edit) (es : list Edit) :
  Committer.apply src (e :: es) <> Unchanged.
Proof.
  unfold Committer.apply.
  destruct (forallb _ _ && _); discriminate.
Qed.

Lemma finish_unchanged_iff (rootNode : SgNode) (es : list Edit) :
  finish rootNode es = Unchanged <-> es = [].
Proof.
  destruct es as [|e es]; simpl; [tauto|].
  split; [|discriminate]. intros H. now apply apply_nonempty in H.
Qed.

(** ** C8: nothing to do is answered by the [Unchanged] sentinel *)

Lemma wrap_edits_nil_iff (root : SgRoot) :
  ResponseFormatToolStrategy.wrapEdits root = [] <->
  forall callNode,
    In callNode (Sg.findAll (rootOf root) ResponseFormatToolStrategy.createAgentCall) ->
    pushed (ResponseFormatToolStrategy.visit (filename root) callNode) = [].
Proof.
  unfold ResponseFormatToolStrategy.wrapEdits, ResponseFormatToolStrategy.visits.
  rewrite flat_map_map. apply flat_map_nil_iff.
Qed.

(** C8. A script that pushes no edit, because its detector finds no site or
    because every site it finds is disqualified, returns the unchanged
    sentinel ([null]); and it returns the sentinel in no other case, so
    "nothing to do" is told apart from a rewrite and from a failed commit.
    Stated site by site for text-method-to-property and
    response-format-tool-strategy, and on the list of edits (or of targets)
    for the other scripts. *)
Theorem C8_no_edit_returns_unchanged (root : SgRoot) :
  (TextMethodToProperty.transform root = Unchanged <->
   forall callNode,
     In callNode (Sg.findAll (rootOf root) TextMethodToProperty.textMethodCall) ->
     TextMethodToProperty.visit callNode = [])
  /\
  (ResponseFormatToolStrategy.transform root = Unchanged <->
   forall callNode,
     In callNode (Sg.findAll (rootOf root) ResponseFormatToolStrategy.createAgentCall) ->
     pushed (ResponseFormatToolStrategy.visit (filename root) callNode) = [])
  /\
  (forall definition,
     PromptToSystemPrompt.transform definition root = Unchanged <->
     PromptToSystemPrompt.edits definition root = [])
  /\
  (AIMessageExampleToKwargs.transform root = Unchanged <->
   AIMessageExampleToKwargs.edits (rootOf root) = [])
  /\
  (UnwrapToolNodeInAgent.transform root = Unchanged <->
   UnwrapToolNodeInAgent.unwrapEdits (rootOf root) = [])
  /\
  (SystemMessageToPrompt.transform root = Unchanged <->
   SystemMessageToPrompt.findTransformTargets (rootOf root) = [])
  /\
  (LangchainClassicImports.transform root = Unchanged <->
   LangchainClassicImports.edits (rootOf root) = []).
Proof.
  split; [|split; [|split; [|split; [|split; [|split]]]]];
    [| | intros definition; apply finish_unchanged_iff
       | apply finish_unchanged_iff
       |
       |
       | apply finish_unchanged_iff].
  3:{ unfold UnwrapToolNodeInAgent.transform. cbv zeta.
      destruct (UnwrapToolNodeInAgent.unwrapEdits (rootOf root)) as [|e es].
      - split; reflexivity.
      - split; [|discriminate]. intros H. exfalso. unfold commitEdits in H. simpl in H.
        now apply apply_nonempty in H. }
  3:{ unfold SystemMessageToPrompt.transform. cbv zeta.
      rewrite finish_unchanged_iff. unfold SystemMessageToPrompt.edits. cbv zeta.
      destruct (SystemMessageToPrompt.findTransformTargets (rootOf root)) as [|t ts].
      - split; reflexivity.
      - split; discriminate. }
  - unfold TextMethodToProperty.transform. cbv zeta.
    rewrite finish_unchanged_iff. unfold TextMethodToProperty.edits.
    apply flat_map_nil_iff.
  - unfold ResponseFormatToolStrategy.transform.
    pose proof (wrap_edits_nil_iff root) as E.
    destruct (ResponseFormatToolStrategy.wrapEdits root) as [|e es] eqn:W.
    + split; [intros _; now apply E | reflexivity].
    + split.
      * intros H. exfalso. unfold commitEdits in H. simpl in H.
        now apply apply_nonempty in H.
      * intros H. apply E in H. discriminate.
Qed.

(** ** C7: an ambiguous site is skipped, the others are processed *)

Lemma scanKeywords_from (kws : list SgNode) (st : option SgNode * bool) :
  let r :=
    fold_left
      (fun (st : option SgNode * bool) kwArg =>
         let '(promptArg, hasSystemPrompt) := st in
         match Sg.field kwArg "name" with
         | None => st
         | Some nameNode =>
             let argName := Sg.text nameNode in
             if (argName =? "prompt")%string then (Some kwArg, hasSystemPrompt)
             else if (argName =? "system_prompt")%string then (promptArg, true)
             else st
         end)
      kws st in
  isSome (fst r) = isSome (fst st) || existsb (keywordIs "prompt") kws
  /\ snd r = snd st || existsb (keywordIs "system_prompt") kws.
Proof.
  revert st. induction kws as [|k kws IH]; intros [p h]; cbv zeta.
  - simpl. now rewrite !orb_false_r.
  - simpl fold_left. simpl existsb. unfold keywordIs at 1 3.
    destruct (Sg.field k "name") as [nameNode|].
    + destruct (Sg.text nameNode =? "prompt")%string eqn:E1.
      * apply String.eqb_eq in E1. rewrite E1. simpl.
        specialize (IH (Some k, h)). cbv zeta in IH. simpl in IH.
        destruct IH as [IH1 IH2]. rewrite IH1, IH2.
        split; [now rewrite orb_true_r | reflexivity].
      * destruct (Sg.text nameNode =? "system_prompt")%string eqn:E2.
        -- specialize (IH (p, true)). cbv zeta in IH. simpl in IH.
           destruct IH as [IH1 IH2]. rewrite IH1, IH2. simpl.
           split; [reflexivity | now rewrite orb_true_r].
        -- specialize (IH (p, h)). cbv zeta in IH. simpl in IH. exact IH.
    + specialize (IH (p, h)). cbv zeta in IH. simpl in IH. exact IH.
Qed.

Lemma scanKeywords_spec (kws : list SgNode) :
  isSome (fst (PromptToSystemPrompt.scanKeywords kws)) = existsb (keywordIs "prompt") kws
  /\ snd (PromptToSystemPrompt.scanKeywords kws) = existsb (keywordIs "system_prompt") kws.
Proof. exact (scanKeywords_from kws (None, false)). Qed.

Lemma both_names_site_is_silent definition file call :
  carriesBothNames call = true ->
  pushed (PromptToSystemPrompt.visit definition file call) = [].
Proof.
  unfold carriesBothNames, keywordsOf, PromptToSystemPrompt.visit. intros H.
  destruct (Sg.field call "function"); [|reflexivity].
  destruct (PromptToSystemPrompt.fromOtherModule definition s); [reflexivity|].
  destruct (Sg.field call "arguments") as [argList|]; [|reflexivity].
  destruct (negb (Sg.kind argList =? "argument_list")%string); [reflexivity|].
  destruct (scanKeywords_spec (Sg.findAll argList (Sg.kindIs "keyword_argument"))) as [P Q].
  apply andb_prop in H. destruct H as [Hp Hs]. rewrite Hp in P. rewrite Hs in Q.
  destruct (PromptToSystemPrompt.scanKeywords _) as [[p|] h]; simpl in *;
    [subst h; reflexivity | discriminate].
Qed.

Lemma tuple_site_is_silent file callNode :
  tupleShaped callNode = true ->
  pushed (ResponseFormatToolStrategy.visit file callNode) = [].
Proof.
  unfold tupleShaped, ResponseFormatToolStrategy.visit. intros H.
  destruct (Sg.field callNode "arguments") as [argsNode|]; [|reflexivity].
  destruct (Sg.find argsNode _) as [arg|]; [|reflexivity].
  destruct (Sg.field arg "value") as [v|]; [|reflexivity].
  now rewrite H.
Qed.

(** C7. A call that carries both [prompt=] and [system_prompt=]
    (prompt-to-system-prompt), or whose [response_format=] value is a tuple
    (response-format-tool-strategy), pushes no edit; the edits of the file
    are those of its other calls, as if the ambiguous ones were not there,
    and the script commits them. *)
Theorem C7_ambiguous_site_skipped_others_processed
  (definition : SgNode -> option DefinitionInfo) (root : SgRoot) :
  (forall call,
     carriesBothNames call = true ->
     pushed (PromptToSystemPrompt.visit definition (filename root) call) = [])
  /\ PromptToSystemPrompt.transform definition root =
     finish (rootOf root)
       (flat_map
          (fun call => pushed (PromptToSystemPrompt.visit definition (filename root) call))
          (filter (fun call => negb (carriesBothNames call))
             (Sg.findAll (rootOf root) PromptToSystemPrompt.agentCall)))
  /\ (forall callNode,
        tupleShaped callNode = true ->
        pushed (ResponseFormatToolStrategy.visit (filename root) callNode) = [])
  /\ ResponseFormatToolStrategy.wrapEdits root =
     flat_map
       (fun callNode => pushed (ResponseFormatToolStrategy.visit (filename root) callNode))
       (filter (fun callNode => negb (tupleShaped callNode))
          (Sg.findAll (rootOf root) ResponseFormatToolStrategy.createAgentCall)).
Proof.
  split; [|split; [|split]].
  - intros call. apply both_names_site_is_silent.
  - unfold PromptToSystemPrompt.transform, PromptToSystemPrompt.edits,
      PromptToSystemPrompt.visits.
    rewrite flat_map_map. f_equal.
    apply flat_map_filter_silent. intros call _ H.
    apply both_names_site_is_silent. now apply negb_false_iff.
  - intros callNode. apply tuple_site_is_silent.
  - unfold ResponseFormatToolStrategy.wrapEdits, ResponseFormatToolStrategy.visits.
    rewrite flat_map_map.
    apply flat_map_filter_silent. intros callNode _ H.
    apply tuple_site_is_silent. now apply negb_false_iff.
Qed.

(** On a file with an ambiguous call and a plain one, the plain one is
    rewritten and the ambiguous one is left as it was. *)
Lemma C7_two_calls_example :
  PromptToSystemPrompt.transform unresolved (parsed "agent.py" twoPrompts_src twoPrompts_tree)
  = finish (rootOf (parsed "agent.py" twoPrompts_src twoPrompts_tree))
      [{| startPos := 71; endPos := 77; insertedText := "system_prompt" |}]
  /\ ResponseFormatToolStrategy.wrapEdits (parsed "agent.py" tupleAndPlain_src tupleAndPlain_tree)
     = [{| startPos := 80; endPos := 81; insertedText := "ToolStrategy(S)" |}].
Proof.
  destruct (C7_ambiguous_site_skipped_others_processed unresolved
              (parsed "agent.py" twoPrompts_src twoPrompts_tree)) as [_ [H _]].
  destruct (C7_ambiguous_site_skipped_others_processed unresolved
              (parsed "agent.py" tupleAndPlain_src tupleAndPlain_tree)) as [_ [_ [_ K]]].
  split; [rewrite H | rewrite K]; vm_compute; reflexivity.
Defined.

(** ** C9: the rename touches the keyword name and nothing else *)

Lemma scanKeywords_prompt_from (kws : list SgNode) (st : option SgNode * bool) (p : SgNode) :
  fst
    (fold_left
       (fun (st : option SgNode * bool) kwArg =>
          let '(promptArg, hasSystemPrompt) := st in
          match Sg.field kwArg "name" with
          | None => st
          | Some nameNode =>
              let argName := Sg.text nameNode in
              if (argName =? "prompt")%string then (Some kwArg, hasSystemPrompt)
              else if (argName =? "system_prompt")%string then (promptArg, true)
              else st
          end)
       kws st) = Some p ->
  fst st = Some p \/ (In p kws /\ keywordIs "prompt" p = true).
Proof.
  revert st. induction kws as [|k kws IH]; intros [q h]; simpl; [now left|].
  intros H. apply IH in H. clear IH.
  destruct (Sg.field k "name") as [nameNode|] eqn:F.
  - destruct (Sg.text nameNode =? "prompt")%string eqn:E1.
    + destruct H as [H|[H1 H2]]; [|right; split; [now right | exact H2]].
      simpl in H. injection H as <-. right. split; [now left|].
      unfold keywordIs. now rewrite F.
    + destruct (Sg.text nameNode =? "system_prompt")%string;
        (destruct H as [H|[H1 H2]]; [now left | right; split; [now right | exact H2]]).
  - destruct H as [H|[H1 H2]]; [now left | right; split; [now right | exact H2]].
Qed.

Lemma scanKeywords_prompt (kws : list SgNode) (p : SgNode) (h : bool) :
  PromptToSystemPrompt.scanKeywords kws = (Some p, h) ->
  In p kws /\ keywordIs "prompt" p = true.
Proof.
  intros H.
  destruct (scanKeywords_prompt_from kws (None, false) p) as [K|K].
  - change (fst (PromptToSystemPrompt.scanKeywords kws) = Some p). now rewrite H.
  - discriminate.
  - exact K.
Qed.

(** C9. Every edit that prompt-to-system-prompt pushes for an agent call
    spans exactly the name node of a [prompt=] keyword argument of that call
    and writes [system_prompt] there; the bytes before the span and the
    bytes after it (the [=], the value expression, the sibling arguments,
    the rest of the file) are those of the buffer, copied through by the
    commit. *)
Theorem C9_rename_covers_only_the_keyword_name
  (definition : SgNode -> option DefinitionInfo) (root : SgRoot) (call : SgNode) (e : Edit) :
  wellFormed root = true ->
  In call (Sg.findAll (rootOf root) PromptToSystemPrompt.agentCall) ->
  In e (pushed (PromptToSystemPrompt.visit definition (filename root) call)) ->
  exists kwArg nameNode,
    In kwArg (keywordsOf call)
    /\ Sg.field kwArg "name" = Some nameNode
    /\ e = Sg.replace nameNode "system_prompt"
    /\ buffer root =
       Js.slice (buffer root) 0 (startPos e) +++ "prompt" +++ Js.sliceFrom (buffer root) (endPos e)
    /\ commitEdits (rootOf root) [e] =
       Rewritten (Js.slice (buffer root) 0 (startPos e) +++ "system_prompt"
                    +++ Js.sliceFrom (buffer root) (endPos e)).
Proof.
  intros W Hcall He.
  apply findAll_in_dfs in Hcall. destruct Hcall as [Hcall _].
  unfold PromptToSystemPrompt.visit in He.
  destruct (Sg.field call "function") as [funcNode|]; [|destruct He].
  destruct (PromptToSystemPrompt.fromOtherModule definition funcNode); [destruct He|].
  destruct (Sg.field call "arguments") as [argList|] eqn:FA; [|destruct He].
  destruct (negb (Sg.kind argList =? "argument_list")%string); [destruct He|].
  destruct (PromptToSystemPrompt.scanKeywords _) as [[promptArg|] [|]] eqn:SK;
    try (destruct He; fail).
  apply scanKeywords_prompt in SK. destruct SK as [Hin Hkw].
  destruct (Sg.field promptArg "name") as [nameNode|] eqn:FN; [|destruct He].
  simpl in He. destruct He as [<-|[]].
  exists promptArg, nameNode.
  assert (Hname : In nameNode (Sg.dfs (rootOf root))).
  { apply (dfs_trans _ call); [exact Hcall|].
    apply (dfs_trans _ argList); [now apply field_in_dfs in FA|].
    apply (dfs_trans _ promptArg); [now apply findAll_in_dfs in Hin|].
    now apply field_in_dfs in FN. }
  pose proof (root_descendant_source root nameNode Hname) as Hsrc.
  destruct (root_descendant_within root nameNode W Hname) as [Hle Hlen].
  assert (Htext : Js.slice (buffer root) (Sg.rangeStart nameNode) (Sg.rangeEnd nameNode)
                  = "prompt").
  { unfold keywordIs in Hkw. rewrite FN in Hkw. apply String.eqb_eq in Hkw.
    unfold Sg.text in Hkw. now rewrite Hsrc in Hkw. }
  split; [unfold keywordsOf; now rewrite FA|].
  split; [exact FN|]. split; [reflexivity|].
  unfold Sg.replace; cbn [startPos endPos insertedText]. split.
  - rewrite <- Htext. now apply buffer_split3.
  - unfold commitEdits. change (source (rootOf root)) with (buffer root).
    now apply (apply_single (buffer root)
                 {| startPos := Sg.rangeStart nameNode; endPos := Sg.rangeEnd nameNode;
                    insertedText := "system_prompt" |}).
Qed.

Lemma C9_rename_example :
  commitEdits (rootOf (parsed "agent.py" onePrompt_src onePrompt_tree)) [onePrompt_edit]
  = Rewritten
      (Js.slice onePrompt_src 0 28 +++ "system_prompt" +++ Js.sliceFrom onePrompt_src 34).
Proof.
  destruct (C9_rename_covers_only_the_keyword_name unresolved
              (parsed "agent.py" onePrompt_src onePrompt_tree) onePrompt_call onePrompt_edit)
    as [kwArg [nameNode [_ [_ [_ [_ H]]]]]].
  - vm_compute. reflexivity.
  - vm_compute. left. reflexivity.
  - vm_compute. left. reflexivity.
  - exact H.
Defined.

(** ** The text of a node inside the text of an ancestor *)

Lemma substring_split_at (s : string) :
  forall a c b, a <= c -> c <= b -> b <= String.length s ->
    String.substring a (b - a) s =
    String.substring a (c - a) s +++ String.substring c (b - c) s.
Proof.
  induction s as [|x r IH]; intros a c b Hac Hcb Hb.
  - simpl in Hb. assert (b = 0) by lia. assert (c = 0) by lia. assert (a = 0) by lia.
    subst. reflexivity.
  - destruct a as [|a].
    + destruct c as [|c].
      * rewrite !Nat.sub_0_r. rewrite substring_none. reflexivity.
      * destruct b as [|b]; [lia|]. simpl in Hb.
        rewrite !Nat.sub_0_r.
        change (String.substring 0 (S b) (String x r))
          with (String x (String.substring 0 b r)).
        change (String.substring 0 (S c) (String x r))
          with (String x (String.substring 0 c r)).
        change (String.substring (S c) (S b - S c) (String x r))
          with (String.substring c (b - c) r).
        simpl. f_equal.
        specialize (IH 0 c b (Nat.le_0_l c) ltac:(lia) ltac:(lia)).
        rewrite !Nat.sub_0_r in IH. exact IH.
    + destruct c as [|c]; [lia|]. destruct b as [|b]; [lia|].
      simpl in Hb. simpl. apply IH; lia.
Qed.

Lemma slice_inside (s : string) (a c d b : nat) :
  a <= c -> c <= d -> d <= b -> b <= String.length s ->
  Js.slice s a b = Js.slice s a c +++ Js.slice s c d +++ Js.slice s d b.
Proof.
  intros H1 H2 H3 H4. unfold Js.slice.
  rewrite (substring_split_at s a c b) by lia.
  rewrite (substring_split_at s c d b) by lia. reflexivity.
Qed.

Lemma includes_mid (x t y : string) :
  t <> EmptyString -> Js.includes (x +++ t +++ y) t = true.
Proof.
  intros Ht. unfold Js.includes.
  destruct (String.index 0 t (x +++ t +++ y)) eqn:E; [reflexivity|].
  exfalso.
  apply (String.index_correct3 0 (String.length x) t (x +++ t +++ y) E Ht (Nat.le_0_l _)).
  rewrite substring_skip. apply substring_prefix.
Qed.

Lemma inOrder_inside (upto : nat) (cs : list Node) :
  forall from c,
    inOrder from upto cs = true ->
    (forall x, In x cs -> startIndex x <= endIndex x) ->
    In c cs -> from <= startIndex c /\ endIndex c <= upto.
Proof.
  induction cs as [|x cs IH]; intros from c H Hle Hin; [destruct Hin|].
  simpl in H. apply andb_prop in H. destruct H as [Hx Hr]. apply Nat.leb_le in Hx.
  assert (Hend : forall from', inOrder from' upto cs = true -> from' <= upto).
  { clear - Hle. induction cs as [|y cs IHc]; intros from' H; simpl in H.
    - now apply Nat.leb_le.
    - apply andb_prop in H. destruct H as [Hy Hr]. apply Nat.leb_le in Hy.
      pose proof (Hle y (or_intror (or_introl eq_refl))).
      assert (endIndex y <= upto).
      { apply IHc; [|exact Hr]. intros z [<-|Hz]; apply Hle; [now left|right; now right]. }
      lia. }
  destruct Hin as [<-|Hin].
  - split; [exact Hx|]. now apply Hend.
  - pose proof (Hle x (or_introl eq_refl)).
    destruct (IH (endIndex x) c Hr (fun y Hy => Hle y (or_intror Hy)) Hin) as [A B].
    split; [lia | exact B].
Qed.

Lemma tidy_child_inside (src : string) (n c : Node) :
  tidy src n = true -> In c (children n) ->
  startIndex n <= startIndex c /\ endIndex c <= endIndex n.
Proof.
  destruct n as [i k nm f s e cs]. simpl. intros H Hin.
  apply andb_prop in H. destruct H as [H Hkids].
  apply andb_prop in H. destruct H as [H _].
  apply andb_prop in H. destruct H as [_ Hord].
  apply (inOrder_inside e cs s c Hord); [|exact Hin].
  intros x Hx. rewrite forallb_forall in Hkids. specialize (Hkids x Hx).
  destruct x as [i' k' nm' f' s' e' cs']. simpl in *.
  apply andb_prop in Hkids. destruct Hkids as [Hk _].
  apply andb_prop in Hk. destruct Hk as [Hk _].
  apply andb_prop in Hk. destruct Hk as [Hk _]. now apply Nat.leb_le.
Qed.

Lemma preorder_tidy (src0 : string) (t : Node) :
  tidy src0 t = true ->
  forall src ps n, In n (preorder src ps t) -> tidy src0 (node n) = true.
Proof.
  induction t as [i k nm f s e cs IH] using Node_forall_ind.
  intros W src ps n. rewrite preorder_unfold. simpl children.
  intros [<-|H]; [exact W|].
  apply in_flat_map in H. destruct H as [c [Hc Hn]].
  rewrite Forall_forall in IH. apply (IH c Hc) with (src := src) (ps := mkNode i k nm f s e cs :: ps);
    [|exact Hn].
  simpl in W. apply andb_prop in W. destruct W as [_ W].
  rewrite forallb_forall in W. now apply W.
Qed.

(** The text of a child is part of the text of its parent. *)
Lemma parent_text_includes_child (root : SgRoot) (parent c : SgNode) :
  faithful root = true ->
  In parent (Sg.dfs (rootOf root)) ->
  In c (Sg.children parent) ->
  Sg.text c <> EmptyString ->
  Js.includes (Sg.text parent) (Sg.text c) = true.
Proof.
  intros F Hp Hc Hne. unfold faithful in F. apply andb_prop in F. destruct F as [W T].
  pose proof (root_descendant_source root parent Hp) as Sp.
  destruct (root_descendant_within root parent W Hp) as [_ Hlen].
  assert (Tp : tidy (buffer root) (node parent) = true).
  { unfold Sg.dfs, rootOf, Sg.root in Hp. simpl in Hp.
    exact (preorder_tidy (buffer root) (tree root) T _ _ _ Hp). }
  unfold Sg.children in Hc. apply in_map_iff in Hc. destruct Hc as [c0 [<- Hc0]].
  destruct (tidy_child_inside _ _ _ Tp Hc0) as [A B].
  assert (Tc : startIndex c0 <= endIndex c0).
  { destruct (node parent) as [i k nm f s e cs]. simpl in Tp, Hc0.
    apply andb_prop in Tp. destruct Tp as [_ Tk]. rewrite forallb_forall in Tk.
    specialize (Tk c0 Hc0). destruct c0 as [i' k' nm' f' s' e' cs']. simpl in *.
    apply andb_prop in Tk. destruct Tk as [Tk _].
    apply andb_prop in Tk. destruct Tk as [Tk _].
    apply andb_prop in Tk. destruct Tk as [Tk _]. now apply Nat.leb_le. }
  unfold Sg.text, Sg.rangeStart, Sg.rangeEnd, Sg.child in *. simpl in *.
  rewrite Sp in *.
  rewrite (slice_inside (buffer root) (startIndex (node parent)) (startIndex c0)
             (endIndex c0) (endIndex (node parent))) by (unfold Sg.rangeEnd in Hlen; lia).
  now apply includes_mid.
Qed.

(** ** C10: where and when the ToolStrategy import is inserted *)

Lemma last_end_spec (imports : list SgNode) (start : nat) :
  let r :=
    fold_left
      (fun lastImportEnd imp =>
         let endPos := Sg.rangeEnd imp in
         if lastImportEnd <? endPos then endPos else lastImportEnd)
      imports start in
  start <= r
  /\ (forall imp, In imp imports -> Sg.rangeEnd imp <= r)
  /\ (r = start \/ exists imp, In imp imports /\ Sg.rangeEnd imp = r).
Proof.
  revert start. induction imports as [|x l IH]; intros start; cbv zeta; simpl.
  - split; [lia|]. split; [intros imp []|now left].
  - destruct (start <? Sg.rangeEnd x) eqn:C.
    + apply Nat.ltb_lt in C.
      destruct (IH (Sg.rangeEnd x)) as [A [B D]]. cbv zeta in *.
      split; [lia|]. split.
      * intros imp [<-|Hi]; [exact A | now apply B].
      * right. destruct D as [D|[imp [Hi D]]].
        -- exists x. split; [now left | now rewrite D].
        -- exists imp. split; [now right | exact D].
    + apply Nat.ltb_ge in C.
      destruct (IH start) as [A [B D]]. cbv zeta in *.
      split; [exact A|]. split.
      * intros imp [<-|Hi]; [lia | now apply B].
      * destruct D as [D|[imp [Hi D]]]; [now left|].
        right. exists imp. split; [now right | exact D].
Qed.

Lemma and5_snoc (A B C D E F : Prop) :
  A /\ B /\ C /\ D /\ E -> F -> A /\ B /\ C /\ D /\ E /\ F.
Proof. tauto. Qed.

(** An import-from statement with the module and the name as children
    passes the script's textual test. *)
Lemma import_statement_is_seen (root : SgRoot) :
  faithful root = true ->
  forall importNode moduleNameNode nameNode,
    In importNode (Sg.findAll (rootOf root) (Sg.kindIs "import_from_statement")) ->
    Sg.field importNode "module_name" = Some moduleNameNode ->
    Sg.text moduleNameNode = "langchain.agents.structured_output" ->
    In nameNode (Sg.fieldChildren importNode "name") ->
    Sg.text nameNode = "ToolStrategy" ->
    ResponseFormatToolStrategy.hasToolStrategyImport (rootOf root) = true.
Proof.
  intros F importNode m n Hi Hm Tm Hn Tn.
  unfold ResponseFormatToolStrategy.hasToolStrategyImport. cbv zeta.
  apply existsb_exists. exists importNode. split; [exact Hi|].
  apply findAll_in_dfs in Hi. destruct Hi as [Hi _].
  apply field_is_child in Hm. destruct Hm as [Hm _].
  unfold Sg.fieldChildren in Hn. apply filter_In in Hn. destruct Hn as [Hn _].
  rewrite <- Tm, <- Tn.
  rewrite (parent_text_includes_child root importNode m F Hi Hm)
    by (rewrite Tm; discriminate).
  rewrite (parent_text_includes_child root importNode n F Hi Hn)
    by (rewrite Tn; discriminate).
  reflexivity.
Qed.

(** C10. response-format-tool-strategy pushes the import line at most once
    per file, and exactly when a wrapping edit was pushed and no
    import-from statement of the file mentions both
    [langchain.agents.structured_output] and [ToolStrategy] in its text, as
    a statement that imports that name from that module does.  In a file
    without import statements the line goes to offset 0, followed by two
    line feeds; otherwise it goes, preceded by one line feed, to the end of
    the import statement that ends last. *)
Theorem C10_import_line_inserted_once (root : SgRoot) :
  ResponseFormatToolStrategy.edits root =
    ResponseFormatToolStrategy.wrapEdits root ++ ResponseFormatToolStrategy.importEdits root
  /\ length (ResponseFormatToolStrategy.importEdits root) <= 1
  /\ (ResponseFormatToolStrategy.importEdits root <> [] <->
      ResponseFormatToolStrategy.wrapEdits root <> []
      /\ ResponseFormatToolStrategy.hasToolStrategyImport (rootOf root) = false)
  /\ (Sg.findAll (rootOf root) ResponseFormatToolStrategy.anyImport = [] ->
      forall e, In e (ResponseFormatToolStrategy.importEdits root) ->
        e = {| startPos := 0; endPos := 0;
               insertedText := ResponseFormatToolStrategy.TOOL_STRATEGY_IMPORT +++ nl +++ nl |})
  /\ (Sg.findAll (rootOf root) ResponseFormatToolStrategy.anyImport <> [] ->
      (forall imp, In imp (Sg.findAll (rootOf root) ResponseFormatToolStrategy.anyImport) ->
                   0 < Sg.rangeEnd imp) ->
      forall e, In e (ResponseFormatToolStrategy.importEdits root) ->
        exists lastImport,
          In lastImport (Sg.findAll (rootOf root) ResponseFormatToolStrategy.anyImport)
          /\ (forall imp, In imp (Sg.findAll (rootOf root) ResponseFormatToolStrategy.anyImport) ->
                          Sg.rangeEnd imp <= Sg.rangeEnd lastImport)
          /\ e = {| startPos := Sg.rangeEnd lastImport; endPos := Sg.rangeEnd lastImport;
                    insertedText := nl +++ ResponseFormatToolStrategy.TOOL_STRATEGY_IMPORT |})
  /\ (faithful root = true ->
      forall importNode moduleNameNode nameNode,
        In importNode (Sg.findAll (rootOf root) (Sg.kindIs "import_from_statement")) ->
        Sg.field importNode "module_name" = Some moduleNameNode ->
        Sg.text moduleNameNode = "langchain.agents.structured_output" ->
        In nameNode (Sg.fieldChildren importNode "name") ->
        Sg.text nameNode = "ToolStrategy" ->
        ResponseFormatToolStrategy.hasToolStrategyImport (rootOf root) = true).
Proof.
  apply and5_snoc; [|apply import_statement_is_seen].
  unfold ResponseFormatToolStrategy.edits, ResponseFormatToolStrategy.importEdits,
    ResponseFormatToolStrategy.needsImport, ResponseFormatToolStrategy.findImportInsertPosition.
  cbv zeta.
  set (imports := Sg.findAll (rootOf root) ResponseFormatToolStrategy.anyImport).
  destruct (last_end_spec imports 0) as [_ [Hmax Hhit]]. cbv zeta in Hmax, Hhit.
  set (lastEnd := fold_left _ imports 0) in *.
  destruct (ResponseFormatToolStrategy.wrapEdits root) as [|w ws] eqn:W; simpl.
  - split; [reflexivity|]. split; [lia|]. split; [|split].
    + split; [intros H; now elim H | intros [H _]; now elim H].
    + intros _ e [].
    + intros _ _ e [].
  - destruct (ResponseFormatToolStrategy.hasToolStrategyImport (rootOf root)); simpl.
    + split; [reflexivity|]. split; [lia|]. split; [|split].
      * split; [intros H; now elim H | intros [_ H]; discriminate].
      * intros _ e [].
      * intros _ _ e [].
    + split; [reflexivity|]. split.
      { destruct (length imports =? 0); [simpl; lia|].
        destruct (lastEnd =? 0); simpl; lia. }
      split.
      { split; [intros _; split; [discriminate | reflexivity]|].
        intros _. destruct (length imports =? 0); [discriminate|].
        destruct (lastEnd =? 0); discriminate. }
      split.
      * intros E e. rewrite E. simpl. intros [<-|[]]. reflexivity.
      * intros NE Pos e.
        destruct (length imports =? 0) eqn:L.
        { apply Nat.eqb_eq in L. apply length_zero_iff_nil in L. contradiction. }
        destruct Hhit as [Z|[imp [Hi Hr]]].
        { destruct imports as [|x l]; [contradiction|].
          pose proof (Hmax x (or_introl eq_refl)). pose proof (Pos x (or_introl eq_refl)). lia. }
        assert (P : 0 < lastEnd) by (rewrite <- Hr; now apply Pos).
        destruct (lastEnd =? 0) eqn:Z; [apply Nat.eqb_eq in Z; lia|].
        simpl. intros [<-|[]].
        exists imp. split; [exact Hi|]. split; [intros j Hj; rewrite Hr; now apply Hmax|].
        now rewrite Hr.
Qed.

(** The two placements, on a file with imports and on one without. *)
Lemma C10_import_line_example :
  ResponseFormatToolStrategy.edits (parsed "agent.py" withImports_src withImports_tree)
  = [{| startPos := 77; endPos := 83; insertedText := "ToolStrategy(Schema)" |};
     {| startPos := 36; endPos := 36;
        insertedText := nl +++ ResponseFormatToolStrategy.TOOL_STRATEGY_IMPORT |}]
  /\ ResponseFormatToolStrategy.edits (parsed "agent.py" noImports_src noImports_tree)
     = [{| startPos := 40; endPos := 46; insertedText := "ToolStrategy(Schema)" |};
        {| startPos := 0; endPos := 0;
           insertedText := ResponseFormatToolStrategy.TOOL_STRATEGY_IMPORT +++ nl +++ nl |}].
Proof.
  destruct (C10_import_line_inserted_once (parsed "agent.py" withImports_src withImports_tree))
    as [H _].
  destruct (C10_import_line_inserted_once (parsed "agent.py" noImports_src noImports_tree))
    as [K _].
  split; [rewrite H | rewrite K]; vm_compute; reflexivity.
Defined.

(** ** C4: a mapping that already has the key is left alone *)

Lemma existsb_weaken {A : Type} (f g : A -> bool) (l : list A) :
  (forall x, f x = true -> g x = true) -> existsb f l = true -> existsb g l = true.
Proof.
  intros H E. apply existsb_exists in E. destruct E as [x [Hx Fx]].
  apply existsb_exists. exists x. split; [exact Hx | now apply H].
Qed.

Lemma example_key_is_found (dict : SgNode) :
  hasExampleKey dict = true ->
  exists entry, Sg.find dict AIMessageExampleToKwargs.examplePair = Some entry.
Proof.
  unfold hasExampleKey. intros H.
  apply existsb_exists in H. destruct H as [entry [Hin H]].
  apply andb_prop in H. destruct H as [Hk H].
  destruct (Sg.field entry "key") as [key|] eqn:F; [|discriminate].
  apply field_is_child in F. destruct F as [Hkey _].
  unfold isExampleString in H. apply andb_prop in H. destruct H as [Hs Hc].
  unfold Sg.find. apply (find_found _ _ entry); [now apply child_in_dfs|].
  unfold AIMessageExampleToKwargs.examplePair, Sg.all, Sg.kindIs. simpl.
  rewrite Hk. simpl. rewrite andb_true_r.
  unfold Sg.has at 1. apply existsb_exists. exists key. split; [exact Hkey|].
  rewrite Hs. simpl. rewrite andb_true_r.
  unfold Sg.has. revert Hc. apply existsb_weaken.
  intros c Hc. apply andb_prop in Hc. destruct Hc as [H1 H2].
  unfold Sg.regex. simpl. rewrite H1, H2. reflexivity.
Qed.

Lemma key_already_there_is_silent (call : SgNode) :
  keyAlreadyThere call = true -> AIMessageExampleToKwargs.visit call = [].
Proof.
  unfold keyAlreadyThere, existingDict, AIMessageExampleToKwargs.visit. intros H.
  destruct (Sg.field call "arguments") as [argList|]; [|discriminate].
  destruct (Sg.find argList (AIMessageExampleToKwargs.keywordNamed "example"))
    as [exampleArg|]; [|reflexivity].
  destruct (Sg.find exampleArg _) as [exampleNameNode|]; [|reflexivity].
  destruct (AIMessageExampleToKwargs.getKeywordArgumentValue exampleArg)
    as [exampleValueNode|]; [|reflexivity].
  destruct (Sg.find argList (AIMessageExampleToKwargs.keywordNamed "additional_kwargs"))
    as [additionalKwargsArg|]; [|discriminate].
  destruct (AIMessageExampleToKwargs.getKeywordArgumentValue additionalKwargsArg)
    as [value|]; [|discriminate].
  destruct (Sg.kind value =? "dictionary")%string; [|discriminate].
  destruct (example_key_is_found value H) as [entry ->]. reflexivity.
Qed.

(** C4. When the dictionary literal passed as [additional_kwargs=] already
    has an entry whose key is the string [example], the script pushes no
    edit for that call; the edits of the file are those of its other calls,
    and when every call is of that kind the script returns the unchanged
    sentinel. *)
Theorem C4_merge_declined_when_key_present (root : SgRoot) :
  (forall call, keyAlreadyThere call = true -> AIMessageExampleToKwargs.visit call = [])
  /\ AIMessageExampleToKwargs.edits (rootOf root) =
     flat_map AIMessageExampleToKwargs.visit
       (filter (fun call => negb (keyAlreadyThere call))
          (Sg.findAll (rootOf root) AIMessageExampleToKwargs.aiMessageCall))
  /\ ((forall call,
         In call (Sg.findAll (rootOf root) AIMessageExampleToKwargs.aiMessageCall) ->
         keyAlreadyThere call = true) ->
      AIMessageExampleToKwargs.transform root = Unchanged).
Proof.
  split; [exact key_already_there_is_silent|]. split.
  - unfold AIMessageExampleToKwargs.edits. apply flat_map_filter_silent.
    intros call _ H. apply key_already_there_is_silent. now apply negb_false_iff.
  - intros H. unfold AIMessageExampleToKwargs.transform. cbv zeta.
    apply finish_unchanged_iff. unfold AIMessageExampleToKwargs.edits.
    apply flat_map_nil_iff. intros call Hc.
    apply key_already_there_is_silent. now apply H.
Qed.

(** [AIMessage(content="hi", example=True, additional_kwargs={"example": False})]
    is left as it is. *)
Lemma C4_key_present_example :
  AIMessageExampleToKwargs.transform (parsed "msg.py" keyPresent_src keyPresent_tree)
  = Unchanged.
Proof.
  destruct (C4_merge_declined_when_key_present (parsed "msg.py" keyPresent_src keyPresent_tree))
    as [_ [_ H]].
  apply H. vm_compute. intros call [<-|[]]. reflexivity.
Defined.

(** ** C5: merging into a mapping that lacks the key *)

(** [text.slice(1, -1)] takes the braces off. *)
Lemma slice_braces (x : string) :
  Js.slice ("{" +++ x +++ "}") 1 (String.length ("{" +++ x +++ "}") - 1) = x.
Proof.
  unfold Js.slice. simpl. rewrite append_length. simpl.
  replace (String.length x + 1 - 0 - 1) with (String.length x) by lia.
  apply substring_prefix.
Qed.

Lemma trimStart_blank (ws s : string) :
  blank ws = true -> Js.trimStart (ws +++ s) = Js.trimStart s.
Proof.
  induction ws as [|c ws IH]; simpl; [reflexivity|].
  intros H. apply andb_prop in H. destruct H as [Hc Hw]. rewrite Hc. now apply IH.
Qed.

Lemma trimStart_solid (s : string) : startsSolid s = true -> Js.trimStart s = s.
Proof.
  destruct s as [|c s]; simpl; [discriminate|].
  intros H. apply negb_true_iff in H. now rewrite H.
Qed.

Lemma trimEnd_blank (ws : string) : blank ws = true -> Js.trimEnd ws = "".
Proof.
  induction ws as [|c ws IH]; simpl; [reflexivity|].
  intros H. apply andb_prop in H. destruct H as [Hc Hw]. now rewrite (IH Hw), Hc.
Qed.

Lemma trimEnd_solid (s : string) : endsSolid s = true -> Js.trimEnd s = s.
Proof.
  induction s as [|c s IH]; [discriminate|].
  destruct s as [|d s].
  - simpl. intros H. apply negb_true_iff in H. now rewrite H.
  - intros H. change (endsSolid (String c (String d s))) with (endsSolid (String d s)) in H.
    specialize (IH H).
    change (Js.trimEnd (String c (String d s)))
      with (match Js.trimEnd (String d s) with
            | EmptyString => if Js.isSpace c then EmptyString else String c EmptyString
            | r' => String c r'
            end).
    now rewrite IH.
Qed.

Lemma trimEnd_solid_blank (s ws : string) :
  endsSolid s = true -> blank ws = true -> Js.trimEnd (s +++ ws) = s.
Proof.
  induction s as [|c s IH]; [discriminate|].
  intros Hs Hw. destruct s as [|d s].
  - simpl in Hs. apply negb_true_iff in Hs. simpl.
    now rewrite (trimEnd_blank ws Hw), Hs.
  - change (endsSolid (String c (String d s))) with (endsSolid (String d s)) in Hs.
    specialize (IH Hs Hw).
    change (Js.trimEnd (String c (String d s) +++ ws))
      with (match Js.trimEnd (String d s +++ ws) with
            | EmptyString => if Js.isSpace c then EmptyString else String c EmptyString
            | r' => String c r'
            end).
    now rewrite IH.
Qed.

Lemma trim_blank (ws : string) : blank ws = true -> Js.trim ws = "".
Proof.
  intros H. unfold Js.trim.
  pose proof (trimStart_blank ws "" H) as T. rewrite append_empty_r in T.
  now rewrite T.
Qed.

Lemma trim_padded (ws1 body ws2 : string) :
  blank ws1 = true -> blank ws2 = true ->
  startsSolid body = true -> endsSolid body = true ->
  Js.trim (ws1 +++ body +++ ws2) = body.
Proof.
  intros H1 H2 Hs He. unfold Js.trim.
  rewrite (trimStart_blank ws1 _ H1).
  rewrite trimStart_solid.
  - now apply trimEnd_solid_blank.
  - destruct body; [discriminate | exact Hs].
Qed.

Lemma find_none_existsb {A : Type} (p : A -> bool) (l : list A) :
  List.find p l = None <-> existsb p l = false.
Proof.
  induction l as [|x l IH]; simpl; [tauto|].
  destruct (p x); simpl; [split; discriminate | exact IH].
Qed.

Lemma existsb_same {A : Type} (f g : A -> bool) (l : list A) :
  (forall x, f x = g x) -> existsb f l = existsb g l.
Proof.
  intros H. induction l as [|x l IH]; simpl; [reflexivity|]. now rewrite H, IH.
Qed.

(** The rule [examplePair] of the script, read as a test on a node. *)
Lemma example_pair_reads (entry : SgNode) :
  AIMessageExampleToKwargs.examplePair entry
  = Sg.isKind entry "pair" && existsb isExampleString (Sg.children entry).
Proof.
  unfold AIMessageExampleToKwargs.examplePair, Sg.all, Sg.kindIs, Sg.has. simpl.
  rewrite andb_true_r. f_equal. apply existsb_same. intros key.
  unfold isExampleString. rewrite andb_true_r. f_equal.
  apply existsb_same. intros content.
  unfold Sg.regex. simpl. now rewrite andb_true_r, orb_false_r.
Qed.

Lemma example_test_reads (dict : SgNode) :
  Sg.find dict AIMessageExampleToKwargs.examplePair = None <-> mentionsExample dict = false.
Proof.
  unfold Sg.find, mentionsExample. rewrite find_none_existsb.
  now rewrite (existsb_same _ _ (Sg.dfs dict) example_pair_reads).
Qed.




(** ** The sample files *)

Lemma samples_are_faithful :
  forallb faithful
    [parsed "agent.py" twoPrompts_src twoPrompts_tree;
     parsed "agent.py" tupleAndPlain_src tupleAndPlain_tree;
     parsed "agent.py" onePrompt_src onePrompt_tree;
     parsed "agent.py" withImports_src withImports_tree;
     parsed "agent.py" noImports_src noImports_tree;
     parsed "msg.py" keyPresent_src keyPresent_tree;
     parsed "msg.py" keyAbsent_src keyAbsent_tree;
     parsed "msg.py" emptyDict_src emptyDict_tree;
     parsed "agent.py" stillUsed_src stillUsed_tree;
     parsed "agent.py" blankLine_src blankLine_tree;
     parsed "agent.py" middleName_src middleName_tree;
     parsed "agent.py" ownLine_src ownLine_tree;
     parsed "reply.py" calledTwice_src calledTwice_tree;
     parsed "reply.py" calledOnce_src calledOnce_tree;
     parsed "agent.py" wrapped_src wrapped_tree;
     parsed "rag.py" legacy_src legacy_tree;
     parsed "rag.py" migrated_src migrated_tree;
     parsed "agent.py" contentRef_src contentRef_tree;
     parsed "msg.py" valueExample_src valueExample_tree;
     parsed "agent.py" aliasedSibling_src aliasedSibling_tree;
     parsed "agent.py" carriageReturn_src carriageReturn_tree] = true
  /\ forallb (fun root => asciiOnly (buffer root))
       [parsed "agent.py" stillUsed_src stillUsed_tree;
        parsed "agent.py" blankLine_src blankLine_tree;
        parsed "agent.py" middleName_src middleName_tree;
        parsed "agent.py" ownLine_src ownLine_tree;
        parsed "agent.py" aliasedSibling_src aliasedSibling_tree;
        parsed "agent.py" carriageReturn_src carriageReturn_tree;
        parsed "agent.py" leadingBlank_src leadingBlank_tree] = true
  /\ wellFormed (parsed "agent.py" leadingBlank_src leadingBlank_tree) = false.
Proof. vm_compute. repeat split; reflexivity. Qed.

(** ** C1: the import of a symbol that is still referenced *)

Lemma import_kept_while_calls_remain (rootNode : SgNode) (remaining : Z) :
  (0 < remaining)%Z ->
  UnwrapToolNodeInAgent.createImportRemovalEdit rootNode remaining = None.
Proof.
  intros H. unfold UnwrapToolNodeInAgent.createImportRemovalEdit.
  apply Z.ltb_lt in H. now rewrite H.
Qed.

(** C1, at a file where the claim and the script part ways.  The file
    imports [ToolNode], wraps the tools of one agent in it and names it once
    more in [isinstance(agent, ToolNode)]: two references outside the import,
    one of them rewritten away.  [countToolNodeUsages] sees only the direct
    call, so no usage seems to remain, and the script deletes the import
    line while the rewritten file still refers to [ToolNode]. *)
Theorem C1_import_removed_while_symbol_still_used :
  length (referencesOutsideImports "ToolNode"
            (rootOf (parsed "agent.py" stillUsed_src stillUsed_tree))) = 2
  /\ UnwrapToolNodeInAgent.transformedToolNodeCount
       (rootOf (parsed "agent.py" stillUsed_src stillUsed_tree)) = 1
  /\ UnwrapToolNodeInAgent.countToolNodeUsages
       (rootOf (parsed "agent.py" stillUsed_src stillUsed_tree)) = 1
  /\ UnwrapToolNodeInAgent.importEdits
       (rootOf (parsed "agent.py" stillUsed_src stillUsed_tree))
     = [{| startPos := 0; endPos := 40; insertedText := "" |}]
  /\ UnwrapToolNodeInAgent.transform (parsed "agent.py" stillUsed_src stillUsed_tree)
     = Rewritten ("agent = create_agent(model, tools=tools)" +++ nl
                    +++ "ok = isinstance(agent, ToolNode)").
Proof. vm_compute. repeat split; reflexivity. Qed.

(** With one usage left the import stays. *)
Lemma import_kept_example :
  UnwrapToolNodeInAgent.createImportRemovalEdit
    (rootOf (parsed "agent.py" stillUsed_src stillUsed_tree)) 1 = None.
Proof.
  apply (import_kept_while_calls_remain
           (rootOf (parsed "agent.py" stillUsed_src stillUsed_tree)) 1).
  vm_compute. reflexivity.
Defined.

(** system-message-to-prompt counts every identifier outside imports, but it
    takes a reference below a rewritten call for rewritten away, also when
    it sits in the content expression that the rewrite keeps. *)
Lemma content_reference_loses_its_import :
  SystemMessageToPrompt.transform (parsed "agent.py" contentRef_src contentRef_tree)
  = Rewritten (nl +++ "agent = create_agent(model, system_prompt=SystemMessage)" +++ nl).
Proof. vm_compute. reflexivity. Qed.

(** ** C6: a second pass *)

(** text-method-to-property is not idempotent: the call of a call
    [x.text()()] loses one pair of parentheses per pass.  The second tree is
    the parse of the text the first pass returns. *)
Lemma C6_second_pass_rewrites_again :
  TextMethodToProperty.transform (parsed "reply.py" calledTwice_src calledTwice_tree)
  = Rewritten calledOnce_src
  /\ TextMethodToProperty.transform (parsed "reply.py" calledOnce_src calledOnce_tree)
     = Rewritten "x.text".
Proof. vm_compute. split; reflexivity. Qed.

Lemma prefix_app (a b s : string) : String.prefix (a +++ b) s = true -> String.prefix a s = true.
Proof.
  revert s. induction a as [|c a IH]; intros s; [destruct s; reflexivity|].
  destruct s as [|d s]; simpl; [discriminate|].
  destruct (ascii_dec c d); [apply IH | discriminate].
Qed.

Lemma prefix_append (p x : string) : String.prefix p (p +++ x) = true.
Proof.
  induction p as [|c p IH]; simpl; [destruct x; reflexivity|].
  destruct (ascii_dec c c); [exact IH | contradiction].
Qed.

Lemma final_name_of_legacy (moduleText legacyModule : string) :
  In legacyModule LangchainClassicImports.LEGACY_MODULES ->
  (moduleText =? "langchain." +++ legacyModule)%string
  || Js.startsWith moduleText ("langchain." +++ legacyModule +++ ".") = true ->
  migratedName (LangchainClassicImports.finalModuleName moduleText) = true.
Proof.
  intros Hl H.
  assert (P : String.prefix "langchain." moduleText = true).
  { apply orb_prop in H. destruct H as [H|H].
    - apply String.eqb_eq in H. subst moduleText.
      destruct Hl as [<-|[<-|[]]]; reflexivity.
    - unfold Js.startsWith in H. exact (prefix_app "langchain." _ _ H). }
  unfold LangchainClassicImports.finalModuleName, Js.startsWith. rewrite P.
  destruct (moduleText =? "langchain")%string eqn:E.
  - apply String.eqb_eq in E. subst. discriminate.
  - unfold migratedName, Js.startsWith. now rewrite prefix_append.
Qed.

Lemma written_module_is_migrated (importNode : SgNode) (e : Edit) :
  LangchainClassicImports.isHubImport importNode
  || LangchainClassicImports.isLegacyModuleImport importNode = true ->
  LangchainClassicImports.createImportEdit importNode = Some e ->
  migratedName (insertedText e) = true.
Proof.
  unfold LangchainClassicImports.isHubImport, LangchainClassicImports.isLegacyModuleImport,
    LangchainClassicImports.createImportEdit.
  destruct (Sg.field importNode "module_name") as [m|]; [|discriminate].
  intros H E. injection E as <-. simpl.
  apply orb_prop in H. destruct H as [H|H].
  - destruct (Sg.text m =? "langchain")%string eqn:T; [|discriminate].
    apply String.eqb_eq in T. rewrite T. reflexivity.
  - apply existsb_exists in H. destruct H as [legacyModule [Hl H]].
    now apply (final_name_of_legacy _ legacyModule).
Qed.

Lemma wrap_edit_shape (file : string) (callNode : SgNode) (e : Edit) :
  In e (pushed (ResponseFormatToolStrategy.visit file callNode)) ->
  exists valueNode,
    e = Sg.replace valueNode ("ToolStrategy(" +++ Sg.text valueNode +++ ")").
Proof.
  unfold ResponseFormatToolStrategy.visit.
  destruct (Sg.field callNode "arguments") as [argsNode|]; [|intros []].
  destruct (Sg.find argsNode _) as [arg|]; [|intros []].
  destruct (Sg.field arg "value") as [v|]; [|intros []].
  destruct (ResponseFormatToolStrategy.isTupleForm v); [intros []|].
  destruct (ResponseFormatToolStrategy.isAlreadyWrapped v); [intros []|].
  simpl. intros [<-|[]]. now exists v.
Qed.

(** *** What a second tree reads where the first pass wrote *)

Lemma prefix_of_substring (s : string) :
  forall n m m', m <= m' ->
    String.prefix (String.substring n m s) (String.substring n m' s) = true.
Proof.
  induction s as [|c s IH]; intros n m m' H.
  - destruct n, m, m'; reflexivity.
  - destruct n as [|n].
    + destruct m as [|m]; [destruct m'; reflexivity|].
      destruct m' as [|m']; [lia|]. simpl.
      destruct (ascii_dec c c); [apply IH; lia | contradiction].
    + simpl. now apply IH.
Qed.

(** The identifier a text starts with: a prefix made of identifier
    characters that stops before a character that is not one is the whole
    leading name. *)
Lemma leading_identifier (w : string) (c : ascii) (r : string) :
  identChar c = false ->
  forall p,
    identifierText w = true ->
    String.prefix p (w +++ String c r) = true ->
    identifierText p = true ->
    match String.get (String.length p) (w +++ String c r) with
    | Some d => negb (identChar d)
    | None => true
    end = true ->
    p = w.
Proof.
  intros Hc. induction w as [|a w IH]; intros p Hw Hp Hi Hn.
  - destruct p as [|b p]; [reflexivity|]. simpl in Hp.
    destruct (ascii_dec b c) as [->|]; [|discriminate].
    simpl in Hi. rewrite Hc in Hi. discriminate.
  - simpl in Hw. apply andb_prop in Hw. destruct Hw as [Ha Hw].
    destruct p as [|b p].
    + simpl in Hn. rewrite Ha in Hn. discriminate.
    + simpl in Hp. destruct (ascii_dec b a) as [->|]; [|discriminate].
      simpl in Hi. apply andb_prop in Hi. destruct Hi as [_ Hi].
      f_equal. apply IH; [exact Hw | exact Hp | exact Hi | exact Hn].
Qed.

Lemma field_source (n c : SgNode) (f : string) :
  Sg.field n f = Some c -> source c = source n.
Proof.
  intros H. apply field_is_child in H. destruct H as [H _].
  unfold Sg.children in H. apply in_map_iff in H. destruct H as [x [<- _]]. reflexivity.
Qed.

(** A value written as [ToolStrategy(...)] and read as a call on its leading
    identifier is a value the detector takes for wrapped. *)
Lemma written_value_is_wrapped (v2 : SgNode) (X : string) :
  Sg.text v2 = "ToolStrategy(" +++ X +++ ")" ->
  callOnLeadingIdentifier v2 = true ->
  ResponseFormatToolStrategy.isAlreadyWrapped v2 = true.
Proof.
  intros T H. unfold callOnLeadingIdentifier in H.
  apply andb_prop in H. destruct H as [K H].
  unfold ResponseFormatToolStrategy.isAlreadyWrapped. rewrite K. simpl.
  destruct (Sg.field v2 "function") as [f|] eqn:F; [|discriminate].
  apply andb_prop in H. destruct H as [H Hn].
  apply andb_prop in H. destruct H as [H Hi].
  apply andb_prop in H. destruct H as [Hs He].
  apply Nat.eqb_eq in Hs. apply Nat.leb_le in He.
  assert (P : String.prefix (Sg.text f) (Sg.text v2) = true).
  { unfold Sg.text, Js.slice. rewrite (field_source v2 f "function" F), Hs.
    apply prefix_of_substring. lia. }
  unfold Js.charAt in Hn. rewrite T in P, Hn.
  change ("ToolStrategy(" +++ X +++ ")")
    with ("ToolStrategy" +++ String "("%char (X +++ ")")) in P, Hn.
  rewrite (leading_identifier "ToolStrategy" "("%char (X +++ ")") eq_refl (Sg.text f)
             eq_refl P Hi Hn).
  reflexivity.
Qed.

(** Two values that read alike get the same answer from both detectors. *)
Lemma alike_values_are_judged_alike (v1 v2 : SgNode) :
  readsAlike v1 v2 ->
  ResponseFormatToolStrategy.isTupleForm v1 = ResponseFormatToolStrategy.isTupleForm v2
  /\ ResponseFormatToolStrategy.isAlreadyWrapped v1
     = ResponseFormatToolStrategy.isAlreadyWrapped v2.
Proof.
  intros [K F].
  unfold ResponseFormatToolStrategy.isTupleForm,
    ResponseFormatToolStrategy.isAlreadyWrapped, Sg.isKind.
  rewrite K. split; [reflexivity|].
  destruct (negb (Sg.kind v2 =? "call")%string); [reflexivity|].
  destruct (Sg.field v1 "function") as [f1|], (Sg.field v2 "function") as [f2|];
    simpl in F; try discriminate; [|reflexivity].
  injection F as ->. reflexivity.
Qed.

(** The body of the loop, on the value it looks up. *)
Lemma visit_on_the_value (file : string) (callNode : SgNode) :
  ResponseFormatToolStrategy.visit file callNode
  = match responseFormatValue callNode with
    | None => skip
    | Some valueNode =>
        if ResponseFormatToolStrategy.isTupleForm valueNode
        then warn (ResponseFormatToolStrategy.tupleWarning file)
        else if ResponseFormatToolStrategy.isAlreadyWrapped valueNode then skip
        else push [Sg.replace valueNode ("ToolStrategy(" +++ Sg.text valueNode +++ ")")]
    end.
Proof.
  unfold ResponseFormatToolStrategy.visit, responseFormatValue.
  destruct (Sg.field callNode "arguments") as [argsNode|]; [|reflexivity].
  destruct (Sg.find argsNode _) as [arg|]; reflexivity.
Qed.

Lemma existsb_through_map {A B : Type} (h : A -> B) (g : B -> bool) (l : list A) :
  existsb (fun x => g (h x)) l = existsb g (map h l).
Proof. induction l as [|x l IH]; simpl; [reflexivity | now rewrite IH]. Qed.

(** Two import statements that read alike are both rewritten or both left
    alone. *)
Lemma alike_imports_are_judged_alike (i1 i2 : SgNode) :
  sameImport i1 i2 ->
  LangchainClassicImports.visit i1 = [] -> LangchainClassicImports.visit i2 = [].
Proof.
  intros [M N].
  unfold LangchainClassicImports.visit, LangchainClassicImports.isAlreadyMigrated,
    LangchainClassicImports.isHubImport, LangchainClassicImports.isLegacyModuleImport,
    LangchainClassicImports.createImportEdit.
  destruct (Sg.field i1 "module_name") as [m1|], (Sg.field i2 "module_name") as [m2|];
    simpl in M; try discriminate; [|reflexivity].
  injection M as M. rewrite <- M.
  rewrite (existsb_through_map Sg.text
             (fun text => (text =? "hub")%string || Js.startsWith text "hub ")
             (Sg.fieldChildren i1 "name")).
  rewrite (existsb_through_map Sg.text
             (fun text => (text =? "hub")%string || Js.startsWith text "hub ")
             (Sg.fieldChildren i2 "name")).
  rewrite <- N.
  destruct (Js.startsWith (Sg.text m1) "langchain_classic."
            || (Sg.text m1 =? "langchain_classic")%string); [reflexivity|].
  match goal with
  | |- (if ?c then _ else _) = [] -> (if ?c then _ else _) = [] => destruct c
  end; [discriminate | reflexivity].
Qed.

(** C6, as far as it holds.  What response-format-tool-strategy writes at a
    site is the text [ToolStrategy(...)]; a parser reads it as a call whose
    function is the identifier the text starts with, and such a value is one
    the detector skips.  What langchain-classic-imports writes as a module
    name passes the already-migrated test wherever a second tree reads that
    text as a module name.  Hence a second pass, over a tree of the text the
    first pass returned that reads the written sites in this way and the
    other sites as before, returns the unchanged sentinel. *)
Theorem C6_detectors_skip_what_a_pass_writes (first second : SgRoot) :
  (forall e, In e (ResponseFormatToolStrategy.wrapEdits first) ->
     exists valueNode,
       e = Sg.replace valueNode ("ToolStrategy(" +++ Sg.text valueNode +++ ")"))
  /\ (forall e v2,
        In e (ResponseFormatToolStrategy.wrapEdits first) ->
        Sg.text v2 = insertedText e ->
        callOnLeadingIdentifier v2 = true ->
        ResponseFormatToolStrategy.isAlreadyWrapped v2 = true)
  /\ (reparsedAfterWrapping first second ->
      ResponseFormatToolStrategy.transform second = Unchanged)
  /\ (forall e import2 m2,
        In e (LangchainClassicImports.edits (rootOf first)) ->
        Sg.field import2 "module_name" = Some m2 ->
        Sg.text m2 = insertedText e ->
        LangchainClassicImports.isAlreadyMigrated import2 = true)
  /\ (reparsedAfterMigration first second ->
      LangchainClassicImports.transform second = Unchanged).
Proof.
  assert (Shape : forall e, In e (ResponseFormatToolStrategy.wrapEdits first) ->
            exists valueNode,
              e = Sg.replace valueNode ("ToolStrategy(" +++ Sg.text valueNode +++ ")")).
  { intros e He. unfold ResponseFormatToolStrategy.wrapEdits in He.
    apply in_flat_map in He. destruct He as [v [Hv He]].
    unfold ResponseFormatToolStrategy.visits in Hv. apply in_map_iff in Hv.
    destruct Hv as [callNode [<- _]]. exact (wrap_edit_shape _ _ _ He). }
  assert (Wrapped : forall e v2,
            In e (ResponseFormatToolStrategy.wrapEdits first) ->
            Sg.text v2 = insertedText e ->
            callOnLeadingIdentifier v2 = true ->
            ResponseFormatToolStrategy.isAlreadyWrapped v2 = true).
  { intros e v2 He T L. destruct (Shape e He) as [v1 ->]. simpl in T.
    exact (written_value_is_wrapped v2 (Sg.text v1) T L). }
  assert (Migrated : forall e import2 m2,
            In e (LangchainClassicImports.edits (rootOf first)) ->
            Sg.field import2 "module_name" = Some m2 ->
            Sg.text m2 = insertedText e ->
            LangchainClassicImports.isAlreadyMigrated import2 = true).
  { intros e import2 m2 He F T. unfold LangchainClassicImports.edits in He.
    apply in_flat_map in He. destruct He as [importNode [_ He]].
    unfold LangchainClassicImports.visit in He.
    destruct (LangchainClassicImports.isAlreadyMigrated importNode); [destruct He|].
    destruct (LangchainClassicImports.isHubImport importNode
              || LangchainClassicImports.isLegacyModuleImport importNode) eqn:D;
      [|destruct He].
    destruct (LangchainClassicImports.createImportEdit importNode) as [e'|] eqn:C;
      [|destruct He].
    destruct He as [<-|[]].
    pose proof (written_module_is_migrated importNode e' D C) as W.
    unfold LangchainClassicImports.isAlreadyMigrated. rewrite F, T. exact W. }
  split; [exact Shape|]. split; [exact Wrapped|]. split; [|split; [exact Migrated|]].
  - intros [_ Sites]. unfold ResponseFormatToolStrategy.transform.
    replace (ResponseFormatToolStrategy.wrapEdits second) with (@nil Edit); [reflexivity|].
    symmetry. apply wrap_edits_nil_iff. intros call2 Hc.
    rewrite visit_on_the_value.
    destruct (responseFormatValue call2) as [v2|] eqn:V; [|reflexivity].
    destruct (Sites call2 v2 Hc V) as [[e [He [T L]]]|[call1 [v1 [_ [V1 [P A]]]]]].
    + rewrite (Wrapped e v2 He T L).
      destruct (ResponseFormatToolStrategy.isTupleForm v2); reflexivity.
    + rewrite visit_on_the_value, V1 in P.
      destruct (alike_values_are_judged_alike v1 v2 A) as [<- <-].
      destruct (ResponseFormatToolStrategy.isTupleForm v1); [reflexivity|].
      destruct (ResponseFormatToolStrategy.isAlreadyWrapped v1); [reflexivity|].
      discriminate P.
  - intros [_ Sites]. unfold LangchainClassicImports.transform. cbv zeta.
    apply finish_unchanged_iff. unfold LangchainClassicImports.edits.
    apply flat_map_nil_iff. intros import2 Hi.
    destruct (Sites import2 Hi) as [[e [m2 [He [F T]]]]|[import1 [_ [P A]]]].
    + unfold LangchainClassicImports.visit. now rewrite (Migrated e import2 m2 He F T).
    + exact (alike_imports_are_judged_alike import1 import2 A P).
Qed.

(** The text written by a first pass over [noImports_src], parsed again,
    and a migrated import: both are left as they are. *)
Lemma C6_second_pass_example :
  ResponseFormatToolStrategy.transform (parsed "agent.py" noImports_src noImports_tree)
  = Rewritten wrapped_src
  /\ ResponseFormatToolStrategy.transform (parsed "agent.py" wrapped_src wrapped_tree)
     = Unchanged
  /\ LangchainClassicImports.transform (parsed "rag.py" legacy_src legacy_tree)
     = Rewritten migrated_src
  /\ LangchainClassicImports.transform (parsed "rag.py" migrated_src migrated_tree)
     = Unchanged.
Proof.
  split; [vm_compute; reflexivity|]. split; [|split; [vm_compute; reflexivity|]].
  - destruct (C6_detectors_skip_what_a_pass_writes
                (parsed "agent.py" noImports_src noImports_tree)
                (parsed "agent.py" wrapped_src wrapped_tree))
      as [_ [_ [H _]]].
    apply H. clear H. split; [vm_compute; reflexivity|].
    intros call2 v2 Hc V.
    vm_compute in Hc. destruct Hc as [<-|[]].
    vm_compute in V. injection V as <-.
    left. eexists. split; [vm_compute; left; reflexivity|].
    split; vm_compute; reflexivity.
  - destruct (C6_detectors_skip_what_a_pass_writes
                (parsed "rag.py" legacy_src legacy_tree)
                (parsed "rag.py" migrated_src migrated_tree))
      as [_ [_ [_ [_ H]]]].
    apply H. clear H. split; [vm_compute; reflexivity|].
    intros import2 Hi. vm_compute in Hi. destruct Hi as [<-|[]].
    left. eexists. eexists. split; [vm_compute; left; reflexivity|].
    split; vm_compute; reflexivity.
Defined.

(** ** C2: removing a whole import statement *)

Lemma get_some_lt (s : string) :
  forall i c, String.get i s = Some c -> i < String.length s.
Proof.
  induction s as [|d s IH]; intros i c; simpl; [discriminate|].
  destruct i as [|i]; [lia|]. intros H. apply IH in H. lia.
Qed.

Lemma charIs_in_bounds (s : string) (i : nat) (c : ascii) :
  (i <? String.length s) && Js.charIs s i c = Js.charIs s i c.
Proof.
  destruct (Js.charIs s i c) eqn:E; [|apply andb_false_r].
  unfold Js.charIs, Js.charAt in E.
  destruct (String.get i s) as [d|] eqn:G; [|discriminate].
  apply get_some_lt in G. apply Nat.ltb_lt in G. now rewrite G.
Qed.

Lemma firstSome_some {A B : Type} (f : A -> option B) (l : list A) (y : B) :
  firstSome f l = Some y -> exists x, In x l /\ f x = Some y.
Proof.
  induction l as [|a l IH]; simpl; [discriminate|].
  destruct (f a) as [b|] eqn:F.
  - intros H. injection H as <-. exists a. split; [now left | exact F].
  - intros H. destruct (IH H) as [x [Hx Fx]]. exists x. split; [now right | exact Fx].
Qed.


(** Only the line feed is looked for.  In a file whose lines end in a
    carriage return and a line feed, the removal stops at the statement's
    end and the emptied line stays. *)
Lemma carriage_return_leaves_an_empty_line :
  UnwrapToolNodeInAgent.importEdits
    (rootOf (parsed "agent.py" carriageReturn_src carriageReturn_tree))
  = [{| startPos := 0; endPos := 39; insertedText := "" |}]
  /\ UnwrapToolNodeInAgent.transform (parsed "agent.py" carriageReturn_src carriageReturn_tree)
     = Rewritten (cr +++ nl +++ "agent = create_agent(model, tools=tools)" +++ cr +++ nl).
Proof. vm_compute. split; reflexivity. Qed.

(** The statement goes as a whole when one plain name follows the [import]
    keyword, whatever else the statement binds: an aliased name beside
    [ToolNode] is not counted and goes with it. *)
Lemma aliased_sibling_goes_with_the_statement :
  map Sg.text
    (Sg.findAll (rootOf (parsed "agent.py" aliasedSibling_src aliasedSibling_tree))
       (Sg.kindIs "import_from_statement"))
  = ["from langgraph.prebuilt import ToolNode, InjectedState as State"]
  /\ UnwrapToolNodeInAgent.importEdits
       (rootOf (parsed "agent.py" aliasedSibling_src aliasedSibling_tree))
     = [{| startPos := 0; endPos := 64; insertedText := "" |}]
  /\ UnwrapToolNodeInAgent.transform (parsed "agent.py" aliasedSibling_src aliasedSibling_tree)
     = Rewritten ("agent = create_agent(model, tools=tools)" +++ nl).
Proof. vm_compute. repeat split; reflexivity. Qed.

(** The script indexes the text of the root node with offsets of the
    buffer.  Behind two empty lines the root starts at offset 2: the script
    tests the character two places after the statement's end, finds no line
    feed there and leaves the line's terminator in place. *)
Lemma leading_blank_lines_shift_the_reading :
  Sg.rangeStart (rootOf (parsed "agent.py" leadingBlank_src leadingBlank_tree)) = 2
  /\ Js.charIs leadingBlank_src 41 LF = true
  /\ Js.charIs (Sg.text (rootOf (parsed "agent.py" leadingBlank_src leadingBlank_tree))) 41 LF
     = false
  /\ UnwrapToolNodeInAgent.importEdits
       (rootOf (parsed "agent.py" leadingBlank_src leadingBlank_tree))
     = [{| startPos := 2; endPos := 41; insertedText := "" |}]
  /\ UnwrapToolNodeInAgent.transform (parsed "agent.py" leadingBlank_src leadingBlank_tree)
     = Rewritten (nl +++ nl +++ nl +++ "agent = create_agent(model, tools=tools)" +++ nl).
Proof. vm_compute. repeat split; reflexivity. Qed.

(** What [lineFeedsAt] counts: the line feeds that follow each other from
    the offset on, and no more of them than the cap. *)
Lemma lineFeedsAt_spec (s : string) (cap : nat) :
  forall i,
    lineFeedsAt s i cap <= cap
    /\ (forall k, k < lineFeedsAt s i cap -> Js.charIs s (i + k) LF = true)
    /\ (lineFeedsAt s i cap < cap -> Js.charIs s (i + lineFeedsAt s i cap) LF = false).
Proof.
  induction cap as [|cap IH]; intros i; simpl.
  - split; [lia|]. split; intros; lia.
  - destruct (Js.charIs s i LF) eqn:C.
    + destruct (IH (S i)) as [A [B D]]. split; [lia|]. split.
      * intros k Hk. destruct k as [|k]; [now rewrite Nat.add_0_r|].
        replace (i + S k) with (S i + k) by lia. apply B. lia.
      * intros H. replace (i + S (lineFeedsAt s (S i) cap))
          with (S i + lineFeedsAt s (S i) cap) by lia.
        apply D. lia.
    + split; [lia|]. split; [intros k Hk; lia|]. intros _. now rewrite Nat.add_0_r.
Qed.

Lemma lineFeedsAt_in_buffer (s : string) (i cap : nat) :
  i <= String.length s -> i + lineFeedsAt s i cap <= String.length s.
Proof.
  intros H. destruct (lineFeedsAt_spec s cap i) as [_ [B _]].
  destruct (lineFeedsAt s i cap) as [|n]; [lia|].
  specialize (B n (Nat.lt_succ_diag_r n)).
  unfold Js.charIs, Js.charAt in B.
  destruct (String.get (i + n) s) as [c|] eqn:G; [|discriminate].
  apply get_some_lt in G. lia.
Qed.

(** The dispatch of [createImportRemovalEdit]: the statement and the name it
    settles on, and which of the two removals it plans. *)
Lemma import_removal_dispatch (rootNode : SgNode) (remaining : Z) (e : Edit) :
  UnwrapToolNodeInAgent.createImportRemovalEdit rootNode remaining = Some e ->
  (remaining <= 0)%Z
  /\ exists stmt nameNode,
       In stmt (Sg.findAll rootNode (Sg.kindIs "import_from_statement"))
       /\ Js.includes (Sg.text stmt) "ToolNode" = true
       /\ In nameNode (Sg.findAll stmt UnwrapToolNodeInAgent.toolNodeName)
       /\ ((length (UnwrapToolNodeInAgent.importedNamesFrom false (Sg.children stmt)) = 1
            /\ e = UnwrapToolNodeInAgent.removeStatement (Sg.text rootNode) stmt)
           \/ (length (UnwrapToolNodeInAgent.importedNamesFrom false (Sg.children stmt)) <> 1
               /\ e = UnwrapToolNodeInAgent.removeName (Sg.text rootNode) nameNode)).
Proof.
  unfold UnwrapToolNodeInAgent.createImportRemovalEdit. cbv zeta.
  destruct (0 <? remaining)%Z eqn:R; [discriminate|].
  apply Z.ltb_ge in R. intros H. split; [exact R|].
  apply firstSome_some in H. destruct H as [stmt [Hs H]].
  destruct (Js.includes (Sg.text stmt) "ToolNode") eqn:I; [|discriminate].
  cbn [negb] in H.
  apply firstSome_some in H. destruct H as [nameNode [Hn H]].
  exists stmt, nameNode. split; [exact Hs|]. split; [exact I|]. split; [exact Hn|].
  destruct (match Sg.find stmt UnwrapToolNodeInAgent.moduleName with
            | Some m => Sg.id m =? Sg.id nameNode
            | None => false
            end); [discriminate|].
  destruct (length (UnwrapToolNodeInAgent.importedNamesFrom false (Sg.children stmt)) =? 1)
    eqn:L.
  - left. apply Nat.eqb_eq in L. injection H as <-. now split.
  - right. apply Nat.eqb_neq in L. destruct (Sg.find nameNode _); [|discriminate].
    injection H as <-. now split.
Qed.

(** [importedNamesFrom] keeps the children of kind [dotted_name]: an aliased
    name is none of them. *)
Lemma counted_names_are_plain (cs : list SgNode) :
  forall seen n,
    In n (UnwrapToolNodeInAgent.importedNamesFrom seen cs) ->
    In n cs /\ Sg.kind n = "dotted_name".
Proof.
  induction cs as [|c cs IH]; intros seen n; simpl; [intros []|].
  destruct (Sg.kind c =? "import")%string.
  - intros H. destruct (IH _ _ H). now split; [right|].
  - destruct (seen && (Sg.kind c =? "dotted_name")%string) eqn:D.
    + intros [<-|H].
      * apply andb_prop in D. destruct D as [_ D]. apply String.eqb_eq in D.
        split; [now left | exact D].
      * destruct (IH _ _ H). now split; [right|].
    + intros H. destruct (IH _ _ H). now split; [right|].
Qed.



(** ** C3: removing one element of a comma-delimited list *)

(** *** Characters of a concatenation *)

Lemma get_app_r (a s : string) (i : nat) :
  String.get (String.length a + i) (a +++ s) = String.get i s.
Proof. induction a as [|c a IH]; simpl; [reflexivity | exact IH]. Qed.

Lemma get_app_l (a s : string) :
  forall i, i < String.length a -> String.get i (a +++ s) = String.get i a.
Proof.
  induction a as [|c a IH]; intros i H; simpl in *; [lia|].
  destruct i as [|i]; [reflexivity|]. apply IH. lia.
Qed.

Lemma length_spaces (g : nat) : String.length (spaces g) = g.
Proof. induction g as [|g IH]; simpl; [reflexivity | now rewrite IH]. Qed.

Lemma get_spaces (g : nat) (r : string) :
  forall k, k < g -> String.get k (spaces g +++ r) = Some SPACE.
Proof.
  induction g as [|g IH]; intros k H; [lia|]. simpl.
  destruct k as [|k]; [reflexivity|]. apply IH. lia.
Qed.

Lemma get_spaces_end (g : nat) (r : string) :
  String.get g (spaces g +++ r) = String.get 0 r.
Proof. induction g as [|g IH]; simpl; [reflexivity | exact IH]. Qed.

Lemma charIs_app_r (a s : string) (i : nat) (c : ascii) :
  Js.charIs (a +++ s) (String.length a + i) c = Js.charIs s i c.
Proof. unfold Js.charIs, Js.charAt. now rewrite get_app_r. Qed.

Lemma charIs_app_l (a s : string) (i : nat) (c : ascii) :
  i < String.length a -> Js.charIs (a +++ s) i c = Js.charIs a i c.
Proof. intros H. unfold Js.charIs, Js.charAt. now rewrite get_app_l. Qed.

Lemma not_space_at_name (r : string) :
  startsWithName r = true \/ r = EmptyString -> Js.charIs r 0 SPACE = false.
Proof.
  intros [H| ->]; [|reflexivity].
  destruct r as [|c r]; [discriminate|].
  unfold Js.charIs, Js.charAt. simpl in *. now apply negb_true_iff in H.
Qed.

(** *** The scans of [createImportRemovalEdit] *)

Lemma skipSpacesBack_unfold (t : string) (i : nat) :
  UnwrapToolNodeInAgent.skipSpacesBack t i =
  if Js.charIs t i SPACE then
    match i with
    | 0 => None
    | S j => UnwrapToolNodeInAgent.skipSpacesBack t j
    end
  else Some i.
Proof. destruct i; reflexivity. Qed.

Lemma skipSpacesBack_to_comma (a r : string) (g : nat) :
  forall k, k <= g ->
    UnwrapToolNodeInAgent.skipSpacesBack (a +++ "," +++ spaces g +++ r) (String.length a + k)
    = Some (String.length a).
Proof.
  induction k as [|k IH]; intros H; rewrite skipSpacesBack_unfold.
  - rewrite charIs_app_r. change (Js.charIs ("," +++ spaces g +++ r) 0 SPACE) with false.
    now rewrite Nat.add_0_r.
  - rewrite charIs_app_r.
    assert (E : Js.charIs ("," +++ spaces g +++ r) (S k) SPACE = true).
    { unfold Js.charIs, Js.charAt. simpl. rewrite get_spaces by lia. reflexivity. }
    rewrite E, Nat.add_succ_r. apply IH. lia.
Qed.

Lemma skipSpaces_stop (fuel : nat) (t : string) (i : nat) :
  Js.charIs t i SPACE = false -> UnwrapToolNodeInAgent.skipSpaces fuel t i = i.
Proof. intros H. destruct fuel; simpl; [reflexivity|]. now rewrite H, andb_false_r. Qed.

Lemma skipSpaces_run (p r : string) (g : nat) :
  Js.charIs r 0 SPACE = false ->
  forall n k fuel, n = g - k -> k <= g -> n <= fuel ->
    UnwrapToolNodeInAgent.skipSpaces fuel (p +++ spaces g +++ r) (String.length p + k)
    = String.length p + g.
Proof.
  intros Hr. induction n as [|n IH]; intros k fuel Hn Hk Hf.
  - assert (k = g) by lia. subst k. apply skipSpaces_stop.
    rewrite charIs_app_r. unfold Js.charIs, Js.charAt. rewrite get_spaces_end. exact Hr.
  - destruct fuel as [|fuel]; [lia|]. simpl.
    rewrite charIs_app_r.
    assert (E : Js.charIs (spaces g +++ r) k SPACE = true).
    { unfold Js.charIs, Js.charAt. rewrite get_spaces by lia. reflexivity. }
    rewrite E, andb_true_r.
    assert (L : (String.length p + k <? String.length (p +++ spaces g +++ r)) = true).
    { apply Nat.ltb_lt. rewrite !append_length, length_spaces. lia. }
    rewrite L. rewrite <- Nat.add_succ_r. apply IH; lia.
Qed.

Lemma skipSpacesBack_agrees (pre r : string) :
  forall i, i < String.length pre ->
    UnwrapToolNodeInAgent.skipSpacesBack (pre +++ r) i
    = UnwrapToolNodeInAgent.skipSpacesBack pre i.
Proof.
  induction i as [|i IH]; intros H.
  - rewrite (skipSpacesBack_unfold (pre +++ r) 0), (skipSpacesBack_unfold pre 0).
    now rewrite charIs_app_l.
  - rewrite (skipSpacesBack_unfold (pre +++ r) (S i)), (skipSpacesBack_unfold pre (S i)).
    rewrite charIs_app_l by exact H. rewrite IH by lia. reflexivity.
Qed.

Lemma skipSpacesBack_cons (c : ascii) (r : string) :
  forall j,
    UnwrapToolNodeInAgent.skipSpacesBack (String c r) (S j) =
    match UnwrapToolNodeInAgent.skipSpacesBack r j with
    | Some i => Some (S i)
    | None => if Ascii.eqb c SPACE then None else Some 0
    end.
Proof.
  induction j as [|j IH].
  - rewrite (skipSpacesBack_unfold (String c r) 1), (skipSpacesBack_unfold r 0).
    change (Js.charIs (String c r) 1 SPACE) with (Js.charIs r 0 SPACE).
    destruct (Js.charIs r 0 SPACE); [|reflexivity].
    rewrite skipSpacesBack_unfold. reflexivity.
  - rewrite (skipSpacesBack_unfold (String c r) (S (S j))), (skipSpacesBack_unfold r (S j)).
    change (Js.charIs (String c r) (S (S j)) SPACE) with (Js.charIs r (S j) SPACE).
    destruct (Js.charIs r (S j) SPACE); [exact IH | reflexivity].
Qed.

(** Scanning back from the end of [pre] finds its last character that is
    not a space. *)
Lemma lookBehind_lastSolid (pre : string) :
  match
    match String.length pre with
    | 0 => None
    | S i => UnwrapToolNodeInAgent.skipSpacesBack pre i
    end
  with
  | Some i => String.get i pre = lastSolid pre /\ lastSolid pre <> None
  | None => lastSolid pre = None
  end.
Proof.
  induction pre as [|c r IH]; [reflexivity|].
  simpl String.length. destruct (String.length r) as [|j] eqn:L.
  - destruct r; [|discriminate]. rewrite skipSpacesBack_unfold.
    unfold Js.charIs, Js.charAt. simpl.
    destruct (Ascii.eqb c SPACE); [reflexivity | split; [reflexivity | discriminate]].
  - rewrite skipSpacesBack_cons.
    destruct (UnwrapToolNodeInAgent.skipSpacesBack r j) as [i|].
    + destruct IH as [G N]. simpl. rewrite G.
      destruct (lastSolid r); [split; [reflexivity | discriminate] | contradiction].
    + simpl. rewrite IH.
      destruct (Ascii.eqb c SPACE); [reflexivity | split; [reflexivity | discriminate]].
Qed.

(** *** The two removals of a name *)

Lemma removeName_backward (a r element : string) (g : nat) (nameNode : SgNode) :
  Sg.rangeStart nameNode = String.length a + 1 + g ->
  Sg.rangeEnd nameNode = String.length a + 1 + g + String.length element ->
  UnwrapToolNodeInAgent.removeName (a +++ "," +++ spaces g +++ element +++ r) nameNode
  = {| startPos := String.length a;
       endPos := String.length a + 1 + g + String.length element;
       insertedText := "" |}.
Proof.
  intros Hs He. unfold UnwrapToolNodeInAgent.removeName. cbv zeta.
  rewrite Hs, He. replace (String.length a + 1 + g) with (S (String.length a + g)) by lia.
  rewrite (skipSpacesBack_to_comma a (element +++ r) g g (le_n g)).
  replace (String.length a) with (String.length a + 0) at 1 by lia.
  rewrite charIs_app_r. reflexivity.
Qed.

Lemma removeName_forward (pre first element r : string) (g : nat) (nameNode : SgNode) :
  noCommaBefore pre = true ->
  startsWithName element = true ->
  Sg.rangeStart nameNode = String.length pre ->
  Sg.rangeEnd nameNode = String.length pre + String.length first ->
  UnwrapToolNodeInAgent.removeName
    (pre +++ first +++ "," +++ spaces g +++ element +++ r) nameNode
  = {| startPos := String.length pre;
       endPos := String.length pre + String.length first + 1 + g;
       insertedText := "" |}.
Proof.
  intros Hpre Hel Hs He. unfold UnwrapToolNodeInAgent.removeName. cbv zeta.
  rewrite Hs, He.
  set (t := pre +++ first +++ "," +++ spaces g +++ element +++ r).
  assert (B : match
                match String.length pre with
                | 0 => None
                | S i => UnwrapToolNodeInAgent.skipSpacesBack t i
                end
              with
              | Some i => if Js.charIs t i COMMA then Some i else None
              | None => None
              end = None).
  { pose proof (lookBehind_lastSolid pre) as Q.
    destruct (String.length pre) as [|i] eqn:L; [reflexivity|].
    unfold t. rewrite skipSpacesBack_agrees by lia.
    destruct (UnwrapToolNodeInAgent.skipSpacesBack pre i) as [k|]; [|reflexivity].
    destruct Q as [G N].
    assert (K : k < String.length pre).
    { destruct (lastSolid pre) as [d|]; [|contradiction]. now apply get_some_lt in G. }
    rewrite charIs_app_l by exact K.
    unfold noCommaBefore in Hpre. unfold Js.charIs, Js.charAt. rewrite G.
    destruct (lastSolid pre) as [d|]; [|contradiction].
    apply negb_true_iff in Hpre. now rewrite Hpre. }
  rewrite B. clear B.
  assert (T : t = (pre +++ first) +++ "," +++ spaces g +++ element +++ r)
    by (unfold t; now rewrite append_assoc).
  assert (Lpf : String.length pre + String.length first = String.length (pre +++ first))
    by now rewrite append_length.
  assert (A : UnwrapToolNodeInAgent.skipSpacesFrom t
                (String.length pre + String.length first)
              = String.length pre + String.length first).
  { unfold UnwrapToolNodeInAgent.skipSpacesFrom. apply skipSpaces_stop.
    rewrite T, Lpf. replace (String.length (pre +++ first))
      with (String.length (pre +++ first) + 0) by lia.
    now rewrite charIs_app_r. }
  rewrite A.
  assert (C : Js.charIs t (String.length pre + String.length first) COMMA = true).
  { rewrite T, Lpf. replace (String.length (pre +++ first))
      with (String.length (pre +++ first) + 0) by lia.
    now rewrite charIs_app_r. }
  rewrite C.
  assert (L : (String.length pre + String.length first <? String.length t) = true).
  { apply Nat.ltb_lt. rewrite T, append_length, <- Lpf. simpl. lia. }
  rewrite L. simpl andb. cbv iota.
  f_equal.
  unfold UnwrapToolNodeInAgent.skipSpacesFrom.
  assert (T' : t = ((pre +++ first) +++ ",") +++ spaces g +++ element +++ r)
    by (rewrite T; now rewrite !append_assoc).
  assert (Lc : String.length pre + String.length first + 1
               = String.length ((pre +++ first) +++ ",") + 0).
  { rewrite append_length, <- Lpf. simpl. lia. }
  rewrite Lc, T'.
  rewrite (skipSpaces_run ((pre +++ first) +++ ",") (element +++ r) g) with (n := g).
  - rewrite append_length, <- Lpf. simpl. lia.
  - apply not_space_at_name. left. destruct element; [discriminate | exact Hel].
  - lia.
  - lia.
  - rewrite !append_length, length_spaces. lia.
Qed.

(** *** Deleting a span *)

Lemma slice_mid (x t y : string) :
  Js.slice (x +++ t +++ y) (String.length x) (String.length x + String.length t) = t.
Proof.
  unfold Js.slice. replace (String.length x + String.length t - String.length x)
    with (String.length t) by lia.
  rewrite substring_skip. apply substring_prefix.
Qed.

Lemma apply_delete (x d y : string) (from upto : nat) :
  from = String.length x ->
  upto = String.length x + String.length d ->
  Committer.apply (x +++ d +++ y)
    [{| startPos := from; endPos := upto; insertedText := "" |}]
  = Rewritten (x +++ y).
Proof.
  intros -> ->.
  rewrite apply_single; cbn [startPos endPos insertedText];
    [|lia | rewrite !append_length; lia].
  f_equal. f_equal.
  - unfold Js.slice. rewrite Nat.sub_0_r. apply substring_prefix.
  - simpl. unfold Js.sliceFrom.
    replace (String.length x + String.length d) with (String.length (x +++ d))
      by apply append_length.
    rewrite <- append_assoc, substring_skip.
    replace (String.length ((x +++ d) +++ y) - String.length (x +++ d))
      with (String.length y) by (rewrite (append_length (x +++ d)); lia).
    apply substring_all.
Qed.

Lemma renderRest_app (before after : list (nat * string)) :
  renderRest (before ++ after) = renderRest before +++ renderRest after.
Proof.
  induction before as [|[g a] b IH]; [reflexivity|].
  simpl. rewrite IH, !append_assoc. reflexivity.
Qed.

(** *** The neighbours [removeArgumentWithComma] looks at *)

Lemma at_of_nat {A : Type} (l : list A) (n : nat) : at_ l (Z.of_nat n) = nth_error l n.
Proof.
  unfold at_. destruct (Z.of_nat n <? 0)%Z eqn:E.
  - apply Z.ltb_lt in E. lia.
  - now rewrite Nat2Z.id.
Qed.

Lemma removeArgument_forward (arg argList next after : SgNode) (p : nat) :
  findIndex (fun child => Sg.id child =? Sg.id arg) (Sg.children argList) = Z.of_nat p ->
  nth_error (Sg.children argList) (p + 1) = Some next ->
  Sg.text next = "," ->
  nth_error (Sg.children argList) (p + 2) = Some after ->
  AIMessageExampleToKwargs.removeArgumentWithComma arg argList
  = {| startPos := Sg.rangeStart arg; endPos := Sg.rangeStart after; insertedText := "" |}.
Proof.
  intros Hi Hn Ht Ha. unfold AIMessageExampleToKwargs.removeArgumentWithComma. cbv zeta.
  rewrite Hi.
  replace (Z.of_nat p + 1)%Z with (Z.of_nat (p + 1)) by lia.
  replace (Z.of_nat p + 2)%Z with (Z.of_nat (p + 2)) by lia.
  rewrite !at_of_nat, Hn, Ht, Ha. reflexivity.
Qed.

Lemma removeArgument_backward (arg argList prev next : SgNode) (p : nat) :
  findIndex (fun child => Sg.id child =? Sg.id arg) (Sg.children argList)
    = Z.of_nat (S p) ->
  nth_error (Sg.children argList) (S p + 1) = Some next ->
  Sg.text next <> "," ->
  nth_error (Sg.children argList) p = Some prev ->
  Sg.text prev = "," ->
  AIMessageExampleToKwargs.removeArgumentWithComma arg argList
  = {| startPos := Sg.rangeStart prev; endPos := Sg.rangeEnd arg; insertedText := "" |}.
Proof.
  intros Hi Hn Ht Hp Hc. unfold AIMessageExampleToKwargs.removeArgumentWithComma. cbv zeta.
  rewrite Hi.
  replace (Z.of_nat (S p) + 1)%Z with (Z.of_nat (S p + 1)) by lia.
  replace (Z.of_nat (S p) - 1)%Z with (Z.of_nat p) by lia.
  rewrite !at_of_nat, Hn, Hp, Hc.
  apply String.eqb_neq in Ht. rewrite Ht. reflexivity.
Qed.

(** *** The laid-out argument list *)

Lemma restNodes_ids (rest : list (nat * string)) :
  forall i o n c, nth_error (restNodes i o rest) n = Some c -> id c = i + n.
Proof.
  induction rest as [|[g a] r IH]; intros i o n c H.
  - destruct n as [|[|n]]; simpl in H; try discriminate.
    injection H as <-. simpl. lia.
  - destruct n as [|[|n]]; simpl in H.
    + injection H as <-. simpl. lia.
    + injection H as <-. simpl. lia.
    + apply IH in H. lia.
Qed.

Lemma listNodes_ids (first : string) (rest : list (nat * string)) (i o n : nat) (c : Node) :
  nth_error (listNodes i o first rest) n = Some c -> id c = i + n.
Proof.
  unfold listNodes. destruct n as [|[|n]]; simpl; intros H.
  - injection H as <-. simpl. lia.
  - injection H as <-. simpl. lia.
  - apply restNodes_ids in H. lia.
Qed.

Lemma findIndexFrom_sequential (l : list SgNode) :
  forall i z p,
    (forall n c, nth_error l n = Some c -> Sg.id c = i + n) ->
    p < length l ->
    findIndexFrom (fun c => Sg.id c =? i + p) l z = (z + Z.of_nat p)%Z.
Proof.
  induction l as [|x l IH]; intros i z p Hid Hp; [simpl in Hp; lia|].
  simpl. pose proof (Hid 0 x eq_refl) as H0. rewrite H0, Nat.add_0_r.
  destruct p as [|p].
  - rewrite Nat.add_0_r, Nat.eqb_refl. lia.
  - replace (i =? i + S p) with false by (symmetry; apply Nat.eqb_neq; lia).
    replace (i + S p) with (S i + p) by lia.
    rewrite (IH (S i) (z + 1)%Z p).
    + lia.
    + intros n c Hn. rewrite (Hid (S n) c Hn). lia.
    + simpl in Hp. lia.
Qed.

Lemma restNodes_app (before r : list (nat * string)) :
  forall i o,
    exists seg,
      length seg = 2 * length before
      /\ restNodes i o (before ++ r)
         = seg ++ restNodes (i + 2 * length before)
                    (o + String.length (renderRest before)) r.
Proof.
  induction before as [|[g a] b IH]; intros i o.
  - exists []. split; [reflexivity|]. simpl. now rewrite !Nat.add_0_r.
  - destruct (IH (i + 2) (o + 1 + g + String.length a)) as [seg [L E]].
    exists (tok i "," o (o + 1)
              :: leaf (i + 1) "identifier" None (o + 1 + g) (o + 1 + g + String.length a)
              :: seg).
    split; [simpl length; clear - L; lia|].
    simpl app. simpl restNodes. rewrite E. clear. do 3 f_equal. f_equal.
    + simpl. lia.
    + simpl. rewrite !append_length, length_spaces. lia.
Qed.

Lemma children_of_argumentList (src : string) (i o : nat) (first : string)
  (rest : list (nat * string)) :
  Sg.children (argumentList src i o first rest)
  = map (Sg.child (argumentList src i o first rest)) (listNodes (i + 1) o first rest).
Proof. reflexivity. Qed.

Lemma index_in_argumentList (src : string) (i o : nat) (first : string)
  (rest : list (nat * string)) (p : nat) :
  p < length (listNodes (i + 1) o first rest) ->
  findIndex
    (fun child => Sg.id child =? Sg.id (childAt p (argumentList src i o first rest)))
    (Sg.children (argumentList src i o first rest))
  = Z.of_nat p.
Proof.
  intros Hp. set (argList := argumentList src i o first rest).
  assert (Hids : forall n c, nth_error (Sg.children argList) n = Some c -> Sg.id c = i + 1 + n).
  { intros n c H. unfold argList in H. rewrite children_of_argumentList in H.
    rewrite nth_error_map in H.
    destruct (nth_error (listNodes (i + 1) o first rest) n) as [c0|] eqn:E; [|discriminate].
    injection H as <-. unfold Sg.id. simpl. now apply listNodes_ids in E. }
  assert (Hlen : p < length (Sg.children argList)).
  { unfold argList. rewrite children_of_argumentList, length_map. exact Hp. }
  assert (Hp' : Sg.id (childAt p argList) = i + 1 + p).
  { unfold childAt. destruct (nth_error (Sg.children argList) p) as [c|] eqn:E.
    - rewrite (nth_error_nth _ _ _ E). now apply Hids.
    - apply nth_error_None in E. lia. }
  rewrite Hp'. unfold findIndex.
  rewrite (findIndexFrom_sequential _ (i + 1) 0%Z p Hids Hlen). lia.
Qed.

Lemma text_of_child (parent : SgNode) (c : Node) (x t y : string) :
  source parent = x +++ t +++ y ->
  startIndex c = String.length x ->
  endIndex c = String.length x + String.length t ->
  Sg.text (Sg.child parent c) = t.
Proof.
  intros Hs Ha Hb. unfold Sg.text, Sg.rangeStart, Sg.rangeEnd, Sg.child. simpl.
  rewrite Hs, Ha, Hb. apply slice_mid.
Qed.

Lemma length_paren (pre : string) : String.length (pre +++ "(") = String.length pre + 1.
Proof. now rewrite append_length. Qed.

(** The first element of an argument list goes with the comma after it and
    the spaces up to the next element. *)
Lemma removeArgument_first (pre first element post : string) (g i : nat)
  (r : list (nat * string)) :
  Committer.apply (pre +++ "(" +++ render first ((g, element) :: r) +++ ")" +++ post)
    [AIMessageExampleToKwargs.removeArgumentWithComma
       (childAt 1
          (argumentList (pre +++ "(" +++ render first ((g, element) :: r) +++ ")" +++ post)
             i (String.length pre) first ((g, element) :: r)))
       (argumentList (pre +++ "(" +++ render first ((g, element) :: r) +++ ")" +++ post)
          i (String.length pre) first ((g, element) :: r))]
  = Rewritten (pre +++ "(" +++ render element r +++ ")" +++ post).
Proof.
  set (t := pre +++ "(" +++ render first ((g, element) :: r) +++ ")" +++ post).
  set (argList := argumentList t i (String.length pre) first ((g, element) :: r)).
  assert (T1 : t = (pre +++ "(" +++ first) +++ "," +++ spaces g +++ element
                     +++ renderRest r +++ ")" +++ post).
  { unfold t, render. cbn [renderRest]. now rewrite !append_assoc. }
  assert (L1 : String.length (pre +++ "(" +++ first)
               = String.length pre + 1 + String.length first).
  { rewrite !append_length. simpl. lia. }
  rewrite (removeArgument_forward _ argList
             (Sg.child argList
                (tok (i + 1 + 2) "," (String.length pre + 1 + String.length first)
                   (String.length pre + 1 + String.length first + 1)))
             (Sg.child argList
                (leaf (i + 1 + 2 + 1) "identifier" None
                   (String.length pre + 1 + String.length first + 1 + g)
                   (String.length pre + 1 + String.length first + 1 + g
                    + String.length element)))
             1).
  - unfold childAt. cbn [argList argumentList Sg.children children node listNodes map nth
                           Sg.child Sg.rangeStart startIndex leaf tok].
    change t with (source argList) at 1.
    cbn [argList argumentList source].
    assert (T2 : t = (pre +++ "(") +++ (first +++ "," +++ spaces g)
                       +++ element +++ renderRest r +++ ")" +++ post).
    { rewrite T1. now rewrite !append_assoc. }
    rewrite T2 at 1. rewrite apply_delete with (x := pre +++ "(").
    + unfold render. now rewrite !append_assoc.
    + now rewrite length_paren.
    + rewrite length_paren, !append_length, length_spaces. simpl. lia.
  - apply index_in_argumentList. simpl. lia.
  - reflexivity.
  - apply (text_of_child argList _ (pre +++ "(" +++ first) ","
             (spaces g +++ element +++ renderRest r +++ ")" +++ post)).
    + exact T1.
    + unfold tok. cbn [startIndex]. now rewrite L1.
    + unfold tok. cbn [endIndex]. now rewrite L1.
  - reflexivity.
Qed.

Lemma child_after_prefix (src : string) (i o : nat) (first : string)
  (before tail : list (nat * string)) (k : nat) (c : Node) :
  nth_error
    (restNodes (i + 3 + 2 * length before)
       (o + 1 + String.length first + String.length (renderRest before)) tail) k = Some c ->
  nth_error (Sg.children (argumentList src i o first (before ++ tail)))
    (2 + 2 * length before + k)
  = Some (Sg.child (argumentList src i o first (before ++ tail)) c).
Proof.
  intros H. rewrite children_of_argumentList, nth_error_map. unfold listNodes.
  destruct (restNodes_app before tail (i + 1 + 2) (o + 1 + String.length first))
    as [seg [L E]].
  rewrite E.
  replace (2 + 2 * length before + k) with (S (S (length seg + k))) by lia.
  cbn [nth_error]. rewrite nth_error_app2 by lia.
  replace (length seg + k - length seg) with k by lia.
  replace (i + 1 + 2 + 2 * length before) with (i + 3 + 2 * length before) by lia.
  now rewrite H.
Qed.

Lemma child_index_bound (src : string) (i o : nat) (first : string)
  (rest : list (nat * string)) (p : nat) (c : SgNode) :
  nth_error (Sg.children (argumentList src i o first rest)) p = Some c ->
  p < length (listNodes (i + 1) o first rest).
Proof.
  intros H. assert (N : nth_error (Sg.children (argumentList src i o first rest)) p <> None)
    by (rewrite H; discriminate).
  apply nth_error_Some in N. now rewrite children_of_argumentList, length_map in N.
Qed.

(** An element between two commas goes with the comma after it and the
    spaces up to the next element. *)
Lemma removeArgument_middle (pre first element next post : string) (g g' i : nat)
  (before after : list (nat * string)) :
  Committer.apply
    (pre +++ "(" +++ render first (before ++ (g, element) :: (g', next) :: after)
         +++ ")" +++ post)
    [AIMessageExampleToKwargs.removeArgumentWithComma
       (childAt (3 + 2 * length before)
          (argumentList
             (pre +++ "(" +++ render first (before ++ (g, element) :: (g', next) :: after)
                  +++ ")" +++ post)
             i (String.length pre) first (before ++ (g, element) :: (g', next) :: after)))
       (argumentList
          (pre +++ "(" +++ render first (before ++ (g, element) :: (g', next) :: after)
               +++ ")" +++ post)
          i (String.length pre) first (before ++ (g, element) :: (g', next) :: after))]
  = Rewritten (pre +++ "(" +++ render first (before ++ (g, next) :: after) +++ ")" +++ post).
Proof.
  set (rest := before ++ (g, element) :: (g', next) :: after).
  set (t := pre +++ "(" +++ render first rest +++ ")" +++ post).
  set (argList := argumentList t i (String.length pre) first rest).
  set (o2 := String.length pre + 1 + String.length first + String.length (renderRest before)).
  set (x := pre +++ "(" +++ first +++ renderRest before +++ "," +++ spaces g).
  assert (Lx : String.length x = o2 + 1 + g).
  { unfold x, o2. rewrite !append_length, length_spaces. simpl. lia. }
  assert (T1 : t = x +++ (element +++ "," +++ spaces g')
                     +++ next +++ renderRest after +++ ")" +++ post).
  { unfold t, x, render, rest. rewrite renderRest_app. cbn [renderRest].
    now rewrite !append_assoc. }
  assert (T2 : t = (x +++ element) +++ "," +++ spaces g'
                     +++ next +++ renderRest after +++ ")" +++ post).
  { rewrite T1. now rewrite !append_assoc. }
  pose proof (child_after_prefix t i (String.length pre) first before
                ((g, element) :: (g', next) :: after) 1 _ eq_refl) as C1.
  pose proof (child_after_prefix t i (String.length pre) first before
                ((g, element) :: (g', next) :: after) 2 _ eq_refl) as C2.
  pose proof (child_after_prefix t i (String.length pre) first before
                ((g, element) :: (g', next) :: after) 3 _ eq_refl) as C3.
  fold rest in C1, C2, C3. fold argList in C1, C2, C3. fold o2 in C1, C2, C3.
  replace (2 + 2 * length before + 1) with (3 + 2 * length before) in C1 by lia.
  replace (2 + 2 * length before + 2) with (3 + 2 * length before + 1) in C2 by lia.
  replace (2 + 2 * length before + 3) with (3 + 2 * length before + 2) in C3 by lia.
  assert (Hcomma : Sg.text
                     (Sg.child argList
                        (tok (i + 3 + 2 * length before + 2) ","
                           (o2 + 1 + g + String.length element)
                           (o2 + 1 + g + String.length element + 1))) = ",").
  { apply (text_of_child argList _ (x +++ element) ","
             (spaces g' +++ next +++ renderRest after +++ ")" +++ post)).
    - exact T2.
    - unfold tok. cbn [startIndex]. rewrite append_length, Lx. reflexivity.
    - unfold tok. cbn [endIndex]. rewrite append_length, Lx. reflexivity. }
  pose proof (removeArgument_forward (childAt (3 + 2 * length before) argList) argList _ _
                (3 + 2 * length before)
                (index_in_argumentList t i (String.length pre) first rest _
                   (child_index_bound _ _ _ _ _ _ _ C1))
                C2 Hcomma C3) as E.
  rewrite E. clear E.
  unfold childAt. rewrite (nth_error_nth _ _ _ C1).
  unfold Sg.rangeStart, Sg.child, leaf. cbn [node startIndex].
  rewrite T1 at 1. rewrite apply_delete with (x := x).
  - unfold x, render. rewrite renderRest_app. cbn [renderRest].
    now rewrite !append_assoc.
  - now rewrite Lx.
  - rewrite Lx, !append_length, length_spaces. simpl. lia.
Qed.

(** The last element of an argument list goes with the comma before it and
    the spaces in between. *)
Lemma removeArgument_last (pre first element post : string) (g i : nat)
  (before : list (nat * string)) :
  Committer.apply
    (pre +++ "(" +++ render first (before ++ [(g, element)]) +++ ")" +++ post)
    [AIMessageExampleToKwargs.removeArgumentWithComma
       (childAt (3 + 2 * length before)
          (argumentList
             (pre +++ "(" +++ render first (before ++ [(g, element)]) +++ ")" +++ post)
             i (String.length pre) first (before ++ [(g, element)])))
       (argumentList
          (pre +++ "(" +++ render first (before ++ [(g, element)]) +++ ")" +++ post)
          i (String.length pre) first (before ++ [(g, element)]))]
  = Rewritten (pre +++ "(" +++ render first before +++ ")" +++ post).
Proof.
  set (rest := before ++ [(g, element)]).
  set (t := pre +++ "(" +++ render first rest +++ ")" +++ post).
  set (argList := argumentList t i (String.length pre) first rest).
  set (o2 := String.length pre + 1 + String.length first + String.length (renderRest before)).
  set (x := pre +++ "(" +++ first +++ renderRest before).
  assert (Lx : String.length x = o2).
  { unfold x, o2. rewrite !append_length. simpl. lia. }
  assert (T1 : t = x +++ ("," +++ spaces g +++ element) +++ ")" +++ post).
  { unfold t, x, render, rest. rewrite renderRest_app. cbn [renderRest].
    now rewrite !append_assoc. }
  assert (T2 : t = x +++ "," +++ spaces g +++ element +++ ")" +++ post).
  { rewrite T1. now rewrite !append_assoc. }
  assert (T3 : t = (x +++ "," +++ spaces g +++ element) +++ ")" +++ post).
  { rewrite T1. now rewrite !append_assoc. }
  pose proof (child_after_prefix t i (String.length pre) first before
                [(g, element)] 0 _ eq_refl) as C0.
  pose proof (child_after_prefix t i (String.length pre) first before
                [(g, element)] 1 _ eq_refl) as C1.
  pose proof (child_after_prefix t i (String.length pre) first before
                [(g, element)] 2 _ eq_refl) as C2.
  fold rest in C0, C1, C2. fold argList in C0, C1, C2. fold o2 in C0, C1, C2.
  replace (2 + 2 * length before + 0) with (2 + 2 * length before) in C0 by lia.
  replace (2 + 2 * length before + 1) with (S (2 + 2 * length before)) in C1 by lia.
  replace (2 + 2 * length before + 2) with (S (2 + 2 * length before) + 1) in C2 by lia.
  replace (3 + 2 * length before) with (S (2 + 2 * length before)) by lia.
  assert (Hparen : Sg.text
                     (Sg.child argList
                        (tok (i + 3 + 2 * length before + 2) ")"
                           (o2 + 1 + g + String.length element)
                           (o2 + 1 + g + String.length element + 1))) <> ",").
  { rewrite (text_of_child argList _ (x +++ "," +++ spaces g +++ element) ")" post).
    - discriminate.
    - exact T3.
    - unfold tok. cbn [startIndex]. rewrite !append_length, length_spaces, Lx. simpl. lia.
    - unfold tok. cbn [endIndex]. rewrite !append_length, length_spaces, Lx. simpl. lia. }
  assert (Hcomma : Sg.text
                     (Sg.child argList
                        (tok (i + 3 + 2 * length before) "," o2 (o2 + 1))) = ",").
  { apply (text_of_child argList _ x "," (spaces g +++ element +++ ")" +++ post)).
    - exact T2.
    - unfold tok. cbn [startIndex]. now rewrite Lx.
    - unfold tok. cbn [endIndex]. now rewrite Lx. }
  pose proof (removeArgument_backward (childAt (S (2 + 2 * length before)) argList) argList
                _ _ (2 + 2 * length before)
                (index_in_argumentList t i (String.length pre) first rest _
                   (child_index_bound _ _ _ _ _ _ _ C1))
                C2 Hparen C0 Hcomma) as E.
  rewrite E. clear E.
  unfold childAt. rewrite (nth_error_nth _ _ _ C1).
  unfold Sg.rangeStart, Sg.rangeEnd, Sg.child, leaf, tok. cbn [node startIndex endIndex].
  rewrite T1 at 1. rewrite apply_delete with (x := x).
  - unfold x, render. now rewrite !append_assoc.
  - now rewrite Lx.
  - rewrite Lx, !append_length, length_spaces. simpl. lia.
Qed.


(** A name on a line of its own, behind the last comma of a parenthesised
    list, is removed without any comma: only spaces count as white space in
    the scan, and the line break stops it. *)
Lemma name_on_its_own_line_leaves_the_comma :
  UnwrapToolNodeInAgent.importEdits (rootOf (parsed "agent.py" ownLine_src ownLine_tree))
  = [{| startPos := 61; endPos := 69; insertedText := "" |}]
  /\ UnwrapToolNodeInAgent.transform (parsed "agent.py" ownLine_src ownLine_tree)
     = Rewritten ("from langgraph.prebuilt import (" +++ nl
                    +++ "    create_react_agent," +++ nl
                    +++ "    " +++ nl
                    +++ ")" +++ nl
                    +++ "agent = create_react_agent(model, tools=tools)" +++ nl).
Proof. vm_compute. split; reflexivity. Qed.


(** * Further properties of the scripts *)

(** ** create-react-agent-to-create-agent *)

Lemma mapSet_not_nil (k : string) (v : bool) (m : CreateReactAgentToCreateAgent.NameMap) :
  CreateReactAgentToCreateAgent.mapSet k v m <> [].
Proof. destruct m as [|[k' v'] r]; simpl; [discriminate|]. destruct (k' =? k)%string; discriminate. Qed.

Lemma importStep_cases (st : CreateReactAgentToCreateAgent.Scan) (importStmt : SgNode) :
  (importsTheFunction importStmt = false
   /\ CreateReactAgentToCreateAgent.importStep st importStmt = st)
  \/ (importsTheFunction importStmt = true
      /\ exists k v e,
           CreateReactAgentToCreateAgent.importStep st importStmt
           = {| CreateReactAgentToCreateAgent.namesToRename :=
                  CreateReactAgentToCreateAgent.mapSet k v
                    (CreateReactAgentToCreateAgent.namesToRename st);
                CreateReactAgentToCreateAgent.importEdits :=
                  CreateReactAgentToCreateAgent.importEdits st ++ [e] |}).
Proof.
  unfold importsTheFunction, CreateReactAgentToCreateAgent.importStep.
  destruct (Sg.find importStmt CreateReactAgentToCreateAgent.directImport).
  - right. split; [reflexivity|]. eauto.
  - destruct (Sg.find importStmt CreateReactAgentToCreateAgent.aliasedImport) as [aliased|].
    + destruct (Sg.field aliased "alias"); simpl.
      * right. split; [reflexivity|]. eauto.
      * left. split; reflexivity.
    + left. split; reflexivity.
Qed.

Lemma scanImports_from (stmts : list SgNode) :
  forall st,
    (CreateReactAgentToCreateAgent.namesToRename st = [] <->
     CreateReactAgentToCreateAgent.importEdits st = []) ->
    let r := fold_left CreateReactAgentToCreateAgent.importStep stmts st in
    (CreateReactAgentToCreateAgent.namesToRename r = [] <->
     CreateReactAgentToCreateAgent.importEdits r = [])
    /\ (CreateReactAgentToCreateAgent.namesToRename r = [] <->
        CreateReactAgentToCreateAgent.namesToRename st = []
        /\ forall stmt, In stmt stmts -> importsTheFunction stmt = false).
Proof.
  induction stmts as [|s stmts IH]; intros st Hst; simpl.
  - split; [exact Hst|]. split; [intros H; split; [exact H | intros ? []] | intros [H _]; exact H].
  - destruct (importStep_cases st s) as [[Hf Hs] | [Ht (k & v & e & Hs)]].
    + rewrite Hs. destruct (IH st Hst) as [I1 I2]. split; [exact I1|].
      rewrite I2. split.
      * intros [H1 H2]. split; [exact H1|]. intros stmt [<-|Hin]; [exact Hf | now apply H2].
      * intros [H1 H2]. split; [exact H1|]. intros stmt Hin. apply H2. now right.
    + rewrite Hs.
      set (st' := {| CreateReactAgentToCreateAgent.namesToRename := _ |}).
      assert (Hst' : CreateReactAgentToCreateAgent.namesToRename st' = [] <->
                     CreateReactAgentToCreateAgent.importEdits st' = []).
      { unfold st'; simpl. split; intros H.
        - now apply mapSet_not_nil in H.
        - now destruct (CreateReactAgentToCreateAgent.importEdits st). }
      destruct (IH st' Hst') as [I1 I2]. split; [exact I1|].
      rewrite I2. unfold st'; simpl. split.
      * intros [H _]. now apply mapSet_not_nil in H.
      * intros [_ H]. specialize (H s (or_introl eq_refl)). congruence.
Qed.

(** The script returns [null] exactly when no import statement of
    [langgraph.prebuilt] brings in [create_react_agent], directly or under
    an alias; a file that only calls the function is left alone.  Once a
    name is tracked an import edit has been pushed with it, so the later
    test [edits.length === 0] never fires. *)
Theorem react_agent_untouched_without_its_import (root : SgRoot) :
  (CreateReactAgentToCreateAgent.transform root = Unchanged <->
   forall importStmt,
     In importStmt
        (Sg.findAll (rootOf root) CreateReactAgentToCreateAgent.prebuiltImport) ->
     importsTheFunction importStmt = false)
  /\ (CreateReactAgentToCreateAgent.namesToRename
        (CreateReactAgentToCreateAgent.scanImports (rootOf root)) = [] <->
      CreateReactAgentToCreateAgent.edits (rootOf root) = []).
Proof.
  pose proof (scanImports_from
                (Sg.findAll (rootOf root) CreateReactAgentToCreateAgent.prebuiltImport)
                {| CreateReactAgentToCreateAgent.namesToRename := [];
                   CreateReactAgentToCreateAgent.importEdits := [] |}) as H.
  simpl in H. specialize (H (conj (fun _ => eq_refl) (fun _ => eq_refl))).
  destruct H as [I1 I2].
  fold (CreateReactAgentToCreateAgent.scanImports (rootOf root)) in I1, I2.
  assert (E : CreateReactAgentToCreateAgent.namesToRename
                (CreateReactAgentToCreateAgent.scanImports (rootOf root)) = [] <->
              CreateReactAgentToCreateAgent.edits (rootOf root) = []).
  { unfold CreateReactAgentToCreateAgent.edits. split; intros H.
    - rewrite H. simpl. rewrite app_nil_r. now apply I1.
    - apply app_eq_nil in H. now apply I1. }
  split; [|exact E].
  unfold CreateReactAgentToCreateAgent.transform. cbv zeta.
  destruct (CreateReactAgentToCreateAgent.namesToRename
              (CreateReactAgentToCreateAgent.scanImports (rootOf root))) as [|n ns] eqn:Hn;
    simpl.
  - split; [intros _|reflexivity]. now apply I2.
  - split.
    + intros H. apply finish_unchanged_iff in H. apply E in H. discriminate.
    + intros H. assert (X : n :: ns = []) by (apply I2; split; [|exact H]; reflexivity || idtac).
      discriminate.
Qed.

Lemma mapSet_In (k : string) (v : bool) (m : CreateReactAgentToCreateAgent.NameMap)
  (x : string) (b : bool) :
  In (x, b) (CreateReactAgentToCreateAgent.mapSet k v m) -> (x, b) = (k, v) \/ In (x, b) m.
Proof.
  induction m as [|[k' v'] r IH]; simpl.
  - intros [H|[]]. left. now symmetry.
  - destruct (k' =? k)%string; simpl.
    + intros [H|H]; [left; now symmetry | right; now right].
    + intros [H|H]; [right; now left|]. destruct (IH H) as [E|E]; [now left | right; now right].
Qed.

Lemma mapSet_keys (k : string) (v : bool) (m : CreateReactAgentToCreateAgent.NameMap)
  (x : string) :
  In x (map fst (CreateReactAgentToCreateAgent.mapSet k v m)) -> x = k \/ In x (map fst m).
Proof.
  induction m as [|[k' v'] r IH]; simpl.
  - intros [H|[]]. left. now symmetry.
  - destruct (k' =? k)%string eqn:E; simpl.
    + intros [H|H]; [left; now symmetry | right; now right].
    + intros [H|H]; [right; now left|]. destruct (IH H) as [X|X]; [now left | right; now right].
Qed.

Lemma mapSet_NoDup (k : string) (v : bool) (m : CreateReactAgentToCreateAgent.NameMap) :
  NoDup (map fst m) -> NoDup (map fst (CreateReactAgentToCreateAgent.mapSet k v m)).
Proof.
  induction m as [|[k' v'] r IH]; simpl; intros H.
  - constructor; [intros []|constructor].
  - inversion H as [|? ? Hn Hr]; subst.
    destruct (k' =? k)%string eqn:E; simpl.
    + apply String.eqb_eq in E. subst k'. now constructor.
    + constructor; [|now apply IH].
      intros Hin. apply mapSet_keys in Hin. destruct Hin as [X|X]; [|contradiction].
      subst k'. now rewrite String.eqb_refl in E.
Qed.

Lemma importStep_invariant (stmts : list SgNode) (st : CreateReactAgentToCreateAgent.Scan)
  (importStmt : SgNode) :
  In importStmt stmts ->
  scanInvariant stmts st ->
  scanInvariant stmts (CreateReactAgentToCreateAgent.importStep st importStmt).
Proof.
  intros Hin (N & K & Q).
  assert (T : forall k v text,
             (v = false -> k = CreateReactAgentToCreateAgent.OLD_FUNCTION) ->
             importsTheFunction importStmt = true ->
             Js.startsWith text "from langchain.agents import create_agent" = true ->
             scanInvariant stmts
               {| CreateReactAgentToCreateAgent.namesToRename :=
                    CreateReactAgentToCreateAgent.mapSet k v
                      (CreateReactAgentToCreateAgent.namesToRename st);
                  CreateReactAgentToCreateAgent.importEdits :=
                    CreateReactAgentToCreateAgent.importEdits st ++
                    [{| startPos := Sg.rangeStart importStmt;
                        endPos := Sg.rangeEnd importStmt;
                        insertedText := text |}] |}).
  { intros k v text Hk Hf Ht. repeat split; simpl.
    - now apply mapSet_NoDup.
    - intros x Hx. apply mapSet_In in Hx. destruct Hx as [E|E]; [|now apply K].
      inversion E; subst. now apply Hk.
    - intros e He. apply in_app_or in He. destruct He as [He|[<-|[]]]; [now apply Q|].
      exists importStmt. repeat split; assumption. }
  unfold CreateReactAgentToCreateAgent.importStep.
  destruct (Sg.find importStmt CreateReactAgentToCreateAgent.directImport) eqn:D.
  - apply T; [reflexivity | unfold importsTheFunction; now rewrite D | reflexivity].
  - destruct (Sg.find importStmt CreateReactAgentToCreateAgent.aliasedImport) as [aliased|] eqn:A;
      [|repeat split; assumption].
    destruct (Sg.field aliased "alias") as [aliasNode|] eqn:F; [|repeat split; assumption].
    apply T.
    + discriminate.
    + unfold importsTheFunction. now rewrite D, A, F.
    + unfold Js.startsWith, CreateReactAgentToCreateAgent.NEW_MODULE,
        CreateReactAgentToCreateAgent.NEW_FUNCTION.
      apply (prefix_append "from langchain.agents import create_agent").
Qed.

Lemma scanImports_invariant (all stmts : list SgNode) :
  (forall s, In s stmts -> In s all) ->
  forall st,
    scanInvariant all st ->
    scanInvariant all (fold_left CreateReactAgentToCreateAgent.importStep stmts st).
Proof.
  induction stmts as [|s stmts IH]; intros Hsub st Hst; simpl; [exact Hst|].
  apply IH.
  - intros x Hx. apply Hsub. now right.
  - apply importStep_invariant; [apply Hsub; now left | exact Hst].
Qed.

Lemma scanImports_keeps (rootNode : SgNode) :
  scanInvariant (Sg.findAll rootNode CreateReactAgentToCreateAgent.prebuiltImport)
    (CreateReactAgentToCreateAgent.scanImports rootNode).
Proof.
  unfold CreateReactAgentToCreateAgent.scanImports.
  apply scanImports_invariant; [auto|].
  repeat split; simpl; [constructor | intros ? [] | intros ? []].
Qed.

(** [namesToRename] holds every name once, however many statements import
    it, so that the calls of a name are visited once; the one name in it
    that is not an alias is [create_react_agent]. *)
Lemma tracked_names_are_distinct (rootNode : SgNode) :
  NoDup (map fst (CreateReactAgentToCreateAgent.namesToRename
                    (CreateReactAgentToCreateAgent.scanImports rootNode)))
  /\ (forall name,
        In (name, false) (CreateReactAgentToCreateAgent.namesToRename
                            (CreateReactAgentToCreateAgent.scanImports rootNode)) ->
        name = "create_react_agent").
Proof.
  destruct (scanImports_keeps rootNode) as (N & K & _). split; [exact N | exact K].
Qed.

Lemma matched_function (rootNode call : SgNode) (name : string) :
  forallb (singleField "function") (Sg.dfs rootNode) = true ->
  In call (Sg.findAll rootNode (CreateReactAgentToCreateAgent.callOf name)) ->
  exists funcNode,
    Sg.field call "function" = Some funcNode
    /\ Sg.text funcNode = name
    /\ Sg.kind call = "call"
    /\ In call (Sg.dfs rootNode).
Proof.
  intros Hs Hin. apply findAll_in_dfs in Hin. destruct Hin as [Hd Hr].
  rewrite forallb_forall in Hs. specialize (Hs call Hd).
  unfold CreateReactAgentToCreateAgent.callOf, Sg.all in Hr. simpl in Hr.
  rewrite !andb_true_r in Hr. apply andb_prop in Hr. destruct Hr as [Hk Hf].
  unfold Sg.kindIs, Sg.isKind in Hk. apply String.eqb_eq in Hk.
  unfold Sg.hasField in Hf. unfold singleField in Hs. apply Nat.leb_le in Hs.
  unfold Sg.field.
  destruct (Sg.fieldChildren call "function") as [|f [|g r]]; simpl in *;
    [discriminate | | lia].
  rewrite orb_false_r in Hf. apply andb_prop in Hf. destruct Hf as [_ Hf].
  rewrite andb_true_r in Hf. unfold Sg.regex in Hf. simpl in Hf.
  rewrite orb_false_r in Hf. apply String.eqb_eq in Hf.
  exists f. repeat split; assumption.
Qed.

(** A call through an alias keeps its name: the loop over the calls of an
    alias pushes no edit. *)
Theorem aliased_calls_keep_their_name (rootNode : SgNode) (names : list (string * bool)) :
  forallb (singleField "function") (Sg.dfs rootNode) = true ->
  forallb snd names = true ->
  CreateReactAgentToCreateAgent.callEdits rootNode names = [].
Proof.
  intros Hs Ha. unfold CreateReactAgentToCreateAgent.callEdits.
  apply flat_map_nil_iff. intros [name isAlias] Hin.
  rewrite forallb_forall in Ha. specialize (Ha _ Hin). simpl in Ha. subst isAlias.
  apply flat_map_nil_iff. intros call Hc.
  destruct (matched_function rootNode call name Hs Hc) as (f & Hf & Ht & _).
  unfold CreateReactAgentToCreateAgent.renameCall. rewrite Hf, Ht.
  now rewrite String.eqb_refl.
Qed.

Lemma aliased_calls_example :
  CreateReactAgentToCreateAgent.namesToRename
    (CreateReactAgentToCreateAgent.scanImports
       (rootOf (parsed "agent.py" reactAliased_src reactAliased_tree)))
  = [("make", true)]
  /\ CreateReactAgentToCreateAgent.callEdits
       (rootOf (parsed "agent.py" reactAliased_src reactAliased_tree)) [("make", true)] = []
  /\ CreateReactAgentToCreateAgent.transform (parsed "agent.py" reactAliased_src reactAliased_tree)
     = Rewritten ("from langchain.agents import create_agent as make" +++ nl
                    +++ "agent = make(model, tools)" +++ nl).
Proof.
  split; [vm_compute; reflexivity|]. split; [|vm_compute; reflexivity].
  apply (aliased_calls_keep_their_name
           (rootOf (parsed "agent.py" reactAliased_src reactAliased_tree)) [("make", true)]);
    vm_compute; reflexivity.
Defined.

(** Every edit of the script is one of two: it rewrites a whole import
    statement of [langgraph.prebuilt] that brings in [create_react_agent]
    to an import of [create_agent] from [langchain.agents], whatever else
    the statement imports; or it replaces the function of a call, an
    identifier that reads [create_react_agent], by [create_agent]. *)
Theorem react_agent_edits_are_sound (rootNode : SgNode) (e : Edit) :
  forallb (singleField "function") (Sg.dfs rootNode) = true ->
  In e (CreateReactAgentToCreateAgent.edits rootNode) ->
  rewritesImport (Sg.findAll rootNode CreateReactAgentToCreateAgent.prebuiltImport) e
  \/ (exists call funcNode,
        In call (Sg.dfs rootNode)
        /\ Sg.kind call = "call"
        /\ Sg.field call "function" = Some funcNode
        /\ Sg.text funcNode = "create_react_agent"
        /\ e = Sg.replace funcNode "create_agent").
Proof.
  intros Hs He. unfold CreateReactAgentToCreateAgent.edits in He. cbv zeta in He.
  destruct (scanImports_keeps rootNode) as (_ & K & Q).
  apply in_app_or in He. destruct He as [He|He]; [left; now apply Q|].
  right. unfold CreateReactAgentToCreateAgent.callEdits in He.
  apply in_flat_map in He. destruct He as ([name isAlias] & Hn & He).
  apply in_flat_map in He. destruct He as (call & Hc & He).
  destruct (matched_function rootNode call name Hs Hc) as (f & Hf & Ht & Hk & Hd).
  unfold CreateReactAgentToCreateAgent.renameCall in He. rewrite Hf, Ht in He.
  destruct isAlias.
  - rewrite String.eqb_refl in He. destruct He.
  - apply K in Hn. subst name.
    destruct (negb _) in He; [|destruct He]. destruct He as [<-|[]].
    exists call, f. repeat split; assumption.
Qed.

Lemma react_agent_edits_example :
  CreateReactAgentToCreateAgent.edits
    (rootOf (parsed "agent.py" reactDirect_src reactDirect_tree))
  = [{| startPos := 0; endPos := 49;
        insertedText := "from langchain.agents import create_agent" |};
     {| startPos := 58; endPos := 76; insertedText := "create_agent" |}]
  /\ (rewritesImport
        (Sg.findAll (rootOf (parsed "agent.py" reactDirect_src reactDirect_tree))
           CreateReactAgentToCreateAgent.prebuiltImport)
        {| startPos := 58; endPos := 76; insertedText := "create_agent" |}
      \/ exists call funcNode,
           In call (Sg.dfs (rootOf (parsed "agent.py" reactDirect_src reactDirect_tree)))
           /\ Sg.kind call = "call"
           /\ Sg.field call "function" = Some funcNode
           /\ Sg.text funcNode = "create_react_agent"
           /\ {| startPos := 58; endPos := 76; insertedText := "create_agent" |}
              = Sg.replace funcNode "create_agent").
Proof.
  split; [vm_compute; reflexivity|].
  apply (react_agent_edits_are_sound
           (rootOf (parsed "agent.py" reactDirect_src reactDirect_tree))
           {| startPos := 58; endPos := 76; insertedText := "create_agent" |}).
  - vm_compute. reflexivity.
  - vm_compute. right. left. reflexivity.
Defined.

(** ** langchain-stream-event-agent-to-model *)

Lemma find_snoc {A : Type} (p : A -> bool) (l : list A) (x : A) :
  List.find p (l ++ [x]) =
  match List.find p l with
  | Some y => Some y
  | None => if p x then Some x else None
  end.
Proof.
  induction l as [|a l IH]; simpl; [reflexivity|]. destruct (p a); [reflexivity | exact IH].
Qed.

Lemma scanStrings_from (strings : list SgNode) :
  forall (h : bool) (a : option SgNode),
    fold_left
      (fun (st : bool * option SgNode) str =>
         let '(hasNameContext, agentStringNode) := st in
         let hasNameContext :=
           if StreamEventAgentToModel.isNameString str then true else hasNameContext in
         let agentStringNode :=
           if StreamEventAgentToModel.isAgentString str then Some str else agentStringNode in
         (hasNameContext, agentStringNode))
      strings (h, a)
    = (h || existsb StreamEventAgentToModel.isNameString strings,
       match List.find StreamEventAgentToModel.isAgentString (rev strings) with
       | Some x => Some x
       | None => a
       end).
Proof.
  induction strings as [|s strings IH]; intros h a; simpl.
  - now rewrite orb_false_r.
  - rewrite IH, find_snoc. f_equal.
    + destruct (StreamEventAgentToModel.isNameString s); simpl;
        [now rewrite orb_true_r | reflexivity].
    + destruct (List.find StreamEventAgentToModel.isAgentString (rev strings));
        [reflexivity|].
      destruct (StreamEventAgentToModel.isAgentString s); reflexivity.
Qed.

Lemma strings_below (c d s : SgNode) :
  In d (Sg.dfs c) ->
  In s (Sg.findAll d (Sg.kindIs "string")) ->
  In s (Sg.findAll c (Sg.kindIs "string")).
Proof.
  intros Hd Hs. apply findAll_in_dfs in Hs. destruct Hs as [Hs Hk].
  unfold Sg.findAll. apply filter_In. split; [|exact Hk].
  now apply (dfs_trans c d s).
Qed.

Lemma findAgentString_spec (comparison : SgNode) :
  StreamEventAgentToModel.findAgentStringInComparison comparison =
  if hasNameString comparison then lastAgentString comparison else None.
Proof.
  unfold StreamEventAgentToModel.findAgentStringInComparison,
    StreamEventAgentToModel.scanStrings, hasNameString, lastAgentString.
  rewrite scanStrings_from. simpl.
  set (strings := Sg.findAll comparison (Sg.kindIs "string")).
  destruct (existsb StreamEventAgentToModel.isNameString strings) eqn:Hn.
  - destruct (List.find StreamEventAgentToModel.isAgentString (rev strings)); reflexivity.
  - assert (Hbelow : forall d, In d (Sg.dfs comparison) ->
              existsb StreamEventAgentToModel.isNameString
                (Sg.findAll d (Sg.kindIs "string")) = false).
    { intros d Hd. apply not_true_is_false. intros H. apply existsb_exists in H.
      destruct H as (s & Hs & Hp).
      assert (X : existsb StreamEventAgentToModel.isNameString strings = true).
      { apply existsb_exists. exists s. split; [|exact Hp].
        now apply (strings_below comparison d s). }
      congruence. }
    assert (S1 : existsb
                   (fun sub => existsb StreamEventAgentToModel.isNameString
                                 (Sg.findAll sub (Sg.kindIs "string")))
                   (Sg.findAll comparison (Sg.kindIs "subscript")) = false).
    { apply not_true_is_false. intros H. apply existsb_exists in H.
      destruct H as (sub & Hs & Hp). apply findAll_in_dfs in Hs.
      rewrite (Hbelow sub (proj1 Hs)) in Hp. discriminate. }
    assert (S2 : existsb StreamEventAgentToModel.getsName
                   (Sg.findAll comparison (Sg.kindIs "call")) = false).
    { apply not_true_is_false. intros H. apply existsb_exists in H.
      destruct H as (call & Hs & Hp). apply findAll_in_dfs in Hs.
      unfold StreamEventAgentToModel.getsName in Hp.
      destruct (Sg.field call "function") as [attr|]; [|discriminate].
      destruct (Sg.isKind attr "attribute"); [|discriminate].
      destruct (Sg.field attr "attribute") as [methodName|]; [|discriminate].
      destruct (Sg.text methodName =? "get")%string; [|discriminate].
      destruct (Sg.field call "arguments") as [args|] eqn:Fa; [|discriminate].
      rewrite Hbelow in Hp; [discriminate|].
      apply (dfs_trans comparison call args); [exact (proj1 Hs)|].
      now apply (field_in_dfs call args "arguments"). }
    rewrite S1, S2. simpl.
    destruct (List.find StreamEventAgentToModel.isAgentString (rev strings)); reflexivity.
Qed.

(** [findAgentStringInComparison] answers the last string below the
    comparison that reads [agent], provided some string below the
    comparison, wherever it stands, reads [name].  The second look, at
    subscripts and at [.get(...)] calls, never changes the answer: whatever
    it finds, the first loop has found. *)
Theorem name_lookups_add_nothing (comparison : SgNode) :
  StreamEventAgentToModel.findAgentStringInComparison comparison
  = (if hasNameString comparison then lastAgentString comparison else None)
  /\ (forall sub,
        In sub (Sg.findAll comparison (Sg.kindIs "subscript")) ->
        existsb StreamEventAgentToModel.isNameString (Sg.findAll sub (Sg.kindIs "string"))
        = true ->
        hasNameString comparison = true)
  /\ (forall call,
        In call (Sg.findAll comparison (Sg.kindIs "call")) ->
        StreamEventAgentToModel.getsName call = true ->
        hasNameString comparison = true).
Proof.
  assert (Below : forall d,
             In d (Sg.dfs comparison) ->
             existsb StreamEventAgentToModel.isNameString (Sg.findAll d (Sg.kindIs "string"))
             = true ->
             hasNameString comparison = true).
  { intros d Hd H. apply existsb_exists in H. destruct H as (str & Hs & Hp).
    unfold hasNameString. apply existsb_exists. exists str. split; [|exact Hp].
    now apply (strings_below comparison d str). }
  split; [exact (findAgentString_spec comparison)|]. split.
  - intros sub Hs H. apply findAll_in_dfs in Hs. now apply (Below sub (proj1 Hs)).
  - intros call Hc H. apply findAll_in_dfs in Hc.
    unfold StreamEventAgentToModel.getsName in H.
    destruct (Sg.field call "function") as [attr|]; [|discriminate].
    destruct (Sg.isKind attr "attribute"); [|discriminate].
    destruct (Sg.field attr "attribute") as [methodName|]; [|discriminate].
    destruct (Sg.text methodName =? "get")%string; [|discriminate].
    destruct (Sg.field call "arguments") as [args|] eqn:FA; [|discriminate].
    apply (Below args); [|exact H].
    apply (dfs_trans comparison call args); [exact (proj1 Hc)|].
    now apply (field_in_dfs call args "arguments").
Qed.

Lemma lastAgentString_found (comparison t : SgNode) :
  lastAgentString comparison = Some t ->
  In t (Sg.dfs comparison)
  /\ Sg.kind t = "string"
  /\ StreamEventAgentToModel.isAgentString t = true.
Proof.
  unfold lastAgentString. intros H. apply find_some in H. destruct H as [Hin Hp].
  apply in_rev in Hin. apply findAll_in_dfs in Hin. destruct Hin as [Hd Hk].
  unfold Sg.kindIs, Sg.isKind in Hk. apply String.eqb_eq in Hk. now repeat split.
Qed.

Lemma NoDup_snoc {A : Type} (l : list A) (x : A) :
  NoDup l -> ~ In x l -> NoDup (l ++ [x]).
Proof.
  induction l as [|a l IH]; simpl; intros Hn Hx.
  - constructor; [intros []|constructor].
  - inversion Hn as [|? ? Ha Hl]; subst. constructor.
    + intros Hin. apply in_app_or in Hin. destruct Hin as [Hin|[E|[]]]; [contradiction|].
      apply Hx. now left.
    + apply IH; [exact Hl|]. intros Hin. apply Hx. now right.
Qed.

Lemma pass_from (rootNode : SgNode) (comparisons : list SgNode) :
  (forall c, In c comparisons ->
             In c (Sg.findAll rootNode (Sg.kindIs "comparison_operator"))) ->
  forall st,
    (exists targets,
        StreamEventAgentToModel.edits st
        = map StreamEventAgentToModel.createReplacement targets
        /\ StreamEventAgentToModel.processedNodeIds st = map Sg.id targets
        /\ NoDup (map Sg.id targets)
        /\ forall t, In t targets ->
             exists comparison,
               In comparison (Sg.findAll rootNode (Sg.kindIs "comparison_operator"))
               /\ hasNameString comparison = true
               /\ lastAgentString comparison = Some t) ->
    exists targets,
      StreamEventAgentToModel.edits (fold_left StreamEventAgentToModel.step comparisons st)
      = map StreamEventAgentToModel.createReplacement targets
      /\ StreamEventAgentToModel.processedNodeIds
           (fold_left StreamEventAgentToModel.step comparisons st)
         = map Sg.id targets
      /\ NoDup (map Sg.id targets)
      /\ forall t, In t targets ->
           exists comparison,
             In comparison (Sg.findAll rootNode (Sg.kindIs "comparison_operator"))
             /\ hasNameString comparison = true
             /\ lastAgentString comparison = Some t.
Proof.
  induction comparisons as [|c comparisons IH]; intros Hsub st Hst; simpl; [exact Hst|].
  apply IH; [intros x Hx; apply Hsub; now right|].
  destruct Hst as (targets & He & Hp & Hn & Ht).
  unfold StreamEventAgentToModel.step. rewrite findAgentString_spec.
  destruct (hasNameString c) eqn:Hname; [|exists targets; now repeat split].
  destruct (lastAgentString c) as [a|] eqn:Hlast; [|exists targets; now repeat split].
  destruct (existsb (Nat.eqb (Sg.id a)) (StreamEventAgentToModel.processedNodeIds st)) eqn:Hseen;
    simpl; [exists targets; now repeat split|].
  exists (targets ++ [a]). rewrite !map_app. simpl. repeat split.
  - now rewrite He.
  - now rewrite Hp.
  - apply NoDup_snoc; [exact Hn|].
    intros Hin. rewrite <- Hp in Hin.
    assert (X : existsb (Nat.eqb (Sg.id a)) (StreamEventAgentToModel.processedNodeIds st) = true).
    { apply existsb_exists. exists (Sg.id a). split; [exact Hin | apply Nat.eqb_refl]. }
    congruence.
  - intros t Hin. apply in_app_or in Hin. destruct Hin as [Hin|[<-|[]]]; [now apply Ht|].
    exists c. repeat split; [apply Hsub; now left | exact Hname | exact Hlast].
Qed.

(** No string is rewritten twice: the strings the pass replaces have
    pairwise distinct node ids, the ids kept in [processedNodeIds], also
    when nested comparisons lead to the same string.  Each of them is the
    last [agent] string of a comparison with a [name] string. *)
Theorem no_string_is_rewritten_twice (rootNode : SgNode) :
  exists targets,
    StreamEventAgentToModel.edits (StreamEventAgentToModel.pass rootNode)
    = map StreamEventAgentToModel.createReplacement targets
    /\ StreamEventAgentToModel.processedNodeIds (StreamEventAgentToModel.pass rootNode)
       = map Sg.id targets
    /\ NoDup (map Sg.id targets)
    /\ forall t, In t targets ->
         exists comparison,
           In comparison (Sg.findAll rootNode (Sg.kindIs "comparison_operator"))
           /\ hasNameString comparison = true
           /\ lastAgentString comparison = Some t.
Proof.
  unfold StreamEventAgentToModel.pass. apply pass_from; [auto|].
  exists []. simpl. repeat split; [constructor | intros ? []].
Qed.

Lemma pass_silent (comparisons : list SgNode) :
  forall st,
    length (StreamEventAgentToModel.processedNodeIds st)
    = length (StreamEventAgentToModel.edits st) ->
    (StreamEventAgentToModel.edits
       (fold_left StreamEventAgentToModel.step comparisons st) = [] <->
     StreamEventAgentToModel.edits st = []
     /\ forall c, In c comparisons ->
          StreamEventAgentToModel.findAgentStringInComparison c = None).
Proof.
  induction comparisons as [|c comparisons IH]; intros st Hst; simpl.
  - split; [intros H; split; [exact H | intros ? []] | intros [H _]; exact H].
  - unfold StreamEventAgentToModel.step at 2.
    destruct (StreamEventAgentToModel.findAgentStringInComparison c) as [a|] eqn:F.
    + destruct (negb (existsb (Nat.eqb (Sg.id a))
                        (StreamEventAgentToModel.processedNodeIds st))) eqn:E.
      * rewrite IH by (simpl; rewrite !length_app; simpl; lia). simpl. split.
        -- intros [H _]. now destruct (StreamEventAgentToModel.edits st).
        -- intros [_ H]. specialize (H c (or_introl eq_refl)). congruence.
      * rewrite (IH st Hst). split.
        -- intros [H _]. exfalso. rewrite H in Hst.
           destruct (StreamEventAgentToModel.processedNodeIds st); [|discriminate].
           discriminate.
        -- intros [_ H]. specialize (H c (or_introl eq_refl)). congruence.
    + rewrite (IH st Hst). split.
      * intros [H1 H2]. split; [exact H1|]. intros x [<-|Hx]; [exact F | now apply H2].
      * intros [H1 H2]. split; [exact H1|]. intros x Hx. apply H2. now right.
Qed.

(** A file is left alone exactly when no comparison holds both a string
    that reads [name] and a string that reads [agent]; a comparison on
    another key, an assignment or a call outside a comparison is never
    touched. *)
Theorem stream_event_untouched_without_context (root : SgRoot) :
  StreamEventAgentToModel.transform root = Unchanged <->
  forall comparison,
    In comparison (Sg.findAll (rootOf root) (Sg.kindIs "comparison_operator")) ->
    hasNameString comparison = false \/ lastAgentString comparison = None.
Proof.
  unfold StreamEventAgentToModel.transform. cbv zeta.
  rewrite finish_unchanged_iff. unfold StreamEventAgentToModel.pass.
  rewrite pass_silent by reflexivity. simpl. split.
  - intros [_ H] c Hc. specialize (H c Hc). rewrite findAgentString_spec in H.
    destruct (hasNameString c); [now right | now left].
  - intros H. split; [reflexivity|]. intros c Hc. rewrite findAgentString_spec.
    destruct (H c Hc) as [->| ->]; [reflexivity|].
    now destruct (hasNameString c).
Qed.

Lemma prefix_length (p s : string) :
  String.prefix p s = true -> String.length p <= String.length s.
Proof.
  revert s. induction p as [|a p IH]; intros s H; simpl; [lia|].
  destruct s as [|b s]; simpl in H; [discriminate|].
  destruct (ascii_dec a b); [|discriminate]. apply IH in H. simpl. lia.
Qed.

Lemma replaceAgent_length (text : string) :
  forall skip,
    String.length (StreamEventAgentToModel.replaceAgent skip text)
    = String.length text - skip.
Proof.
  induction text as [|c r IH]; intros skip; [reflexivity|].
  destruct skip as [|k].
  - cbn [StreamEventAgentToModel.replaceAgent].
    destruct (String.prefix "agent" (String c r)) eqn:P.
    + rewrite append_length, IH. apply prefix_length in P. simpl in *. lia.
    + cbn [String.length]. rewrite IH. lia.
  - cbn [StreamEventAgentToModel.replaceAgent String.length]. rewrite IH. lia.
Qed.

Lemma includes_cons (c : ascii) (s t : string) :
  Js.includes (String c s) t = String.prefix t (String c s) || Js.includes s t.
Proof.
  unfold Js.includes. cbn [String.index].
  destruct (String.prefix t (String c s)); [reflexivity|].
  destruct (String.index 0 t s); reflexivity.
Qed.

Lemma prefix_through_replaceAgent (p : string) :
  lacks "m" p = true ->
  forall text,
    String.prefix p (StreamEventAgentToModel.replaceAgent 0 text) = true ->
    String.prefix p text = true.
Proof.
  induction p as [|a p IH]; intros Hm text H; [destruct text; reflexivity|].
  simpl in Hm. apply andb_prop in Hm. destruct Hm as [Ha Hm].
  destruct text as [|c r]; [simpl in H; discriminate|].
  cbn [StreamEventAgentToModel.replaceAgent] in H.
  destruct (String.prefix "agent" (String c r)) eqn:P.
  - cbn [String.append String.prefix] in H.
    destruct (ascii_dec a "m") as [E|E]; [|discriminate H].
    subst a. discriminate Ha.
  - cbn [String.prefix] in H. cbn [String.prefix].
    destruct (ascii_dec a c); [|discriminate H]. now apply IH.
Qed.

Lemma replaceAgent_leaves_none (text : string) :
  forall skip,
    Js.includes (StreamEventAgentToModel.replaceAgent skip text) "agent" = false.
Proof.
  induction text as [|c r IH]; intros skip; [destruct skip; reflexivity|].
  destruct skip as [|k]; [|exact (IH k)].
  cbn [StreamEventAgentToModel.replaceAgent].
  destruct (String.prefix "agent" (String c r)) eqn:P.
  - change ("model" +++ StreamEventAgentToModel.replaceAgent 4 r)
      with (String "m" (String "o" (String "d" (String "e" (String "l"
              (StreamEventAgentToModel.replaceAgent 4 r)))))).
    rewrite !includes_cons. simpl. exact (IH 4).
  - rewrite includes_cons, IH, orb_false_r.
    apply not_true_is_false. intros H.
    assert (X : String.prefix "agent" (String c r) = true); [|congruence].
    cbn [String.prefix] in H. cbn [String.prefix].
    destruct (ascii_dec "a" c); [|discriminate H].
    now apply (prefix_through_replaceAgent "gent").
Qed.

(** [createReplacement] replaces the span of the string it is given by a
    text of the same length, so that no later offset moves, and leaves no
    [agent] in it: a second pass finds nothing to rewrite in that literal. *)
Theorem replacement_keeps_length_and_leaves_no_agent (agentNode : SgNode) :
  startPos (StreamEventAgentToModel.createReplacement agentNode) = Sg.rangeStart agentNode
  /\ endPos (StreamEventAgentToModel.createReplacement agentNode) = Sg.rangeEnd agentNode
  /\ String.length (insertedText (StreamEventAgentToModel.createReplacement agentNode))
     = String.length (Sg.text agentNode)
  /\ Js.includes (insertedText (StreamEventAgentToModel.createReplacement agentNode)) "agent"
     = false.
Proof.
  unfold StreamEventAgentToModel.createReplacement, Sg.replace. simpl.
  repeat split.
  - rewrite replaceAgent_length. lia.
  - apply replaceAgent_leaves_none.
Qed.

Lemma replaceAgent_passes (q s : string) :
  lacks "a" q = true ->
  StreamEventAgentToModel.replaceAgent 0 (q +++ s)
  = q +++ StreamEventAgentToModel.replaceAgent 0 s.
Proof.
  induction q as [|c q IH]; intros H; [reflexivity|].
  simpl in H. apply andb_prop in H. destruct H as [Hc Hq].
  cbn [String.append StreamEventAgentToModel.replaceAgent].
  assert (P : String.prefix "agent" (String c (q +++ s)) = false).
  { cbn [String.prefix]. destruct (ascii_dec "a" c) as [E|E]; [|reflexivity].
    subst c. discriminate Hc. }
  rewrite P. now rewrite IH.
Qed.

Lemma replaceAgent_hit (s : string) :
  StreamEventAgentToModel.replaceAgent 0 ("agent" +++ s)
  = "model" +++ StreamEventAgentToModel.replaceAgent 0 s.
Proof. destruct s; reflexivity. Qed.

Lemma replaceAgent_plain (q : string) :
  lacks "a" q = true -> StreamEventAgentToModel.replaceAgent 0 q = q.
Proof.
  intros H. rewrite <- (append_empty_r q) at 1. rewrite replaceAgent_passes; [|exact H].
  simpl. apply append_empty_r.
Qed.

(** The quote style is kept: a literal made of an opening, [agent] and a
    closing, the opening and the closing without the letter [a] (quotes of
    any style, a string prefix), becomes the same opening, [model] and the
    same closing. *)
Theorem replacement_keeps_the_quotes (agentNode : SgNode) (opening closing : string) :
  lacks "a" opening = true ->
  lacks "a" closing = true ->
  Sg.text agentNode = opening +++ "agent" +++ closing ->
  StreamEventAgentToModel.createReplacement agentNode
  = Sg.replace agentNode (opening +++ "model" +++ closing).
Proof.
  intros Ho Hc Ht. unfold StreamEventAgentToModel.createReplacement. cbv zeta.
  rewrite Ht, replaceAgent_passes by exact Ho.
  now rewrite replaceAgent_hit, replaceAgent_plain.
Qed.

Lemma replacement_keeps_single_quotes :
  Sg.text (nth 15 (Sg.dfs (rootOf (parsed "stream.py" streamEvent_src streamEvent_tree)))
             (rootOf (parsed "stream.py" streamEvent_src streamEvent_tree)))
  = "'agent'"
  /\ StreamEventAgentToModel.createReplacement
       (nth 15 (Sg.dfs (rootOf (parsed "stream.py" streamEvent_src streamEvent_tree)))
          (rootOf (parsed "stream.py" streamEvent_src streamEvent_tree)))
     = Sg.replace
         (nth 15 (Sg.dfs (rootOf (parsed "stream.py" streamEvent_src streamEvent_tree)))
            (rootOf (parsed "stream.py" streamEvent_src streamEvent_tree)))
         ("'" +++ "model" +++ "'")
  /\ StreamEventAgentToModel.transform (parsed "stream.py" streamEvent_src streamEvent_tree)
     = Rewritten ("ok = event[" +++ dq +++ "name" +++ dq +++ "] == 'model'" +++ nl).
Proof.
  split; [vm_compute; reflexivity|]. split; [|vm_compute; reflexivity].
  apply (replacement_keeps_the_quotes
           (nth 15 (Sg.dfs (rootOf (parsed "stream.py" streamEvent_src streamEvent_tree)))
              (rootOf (parsed "stream.py" streamEvent_src streamEvent_tree)))
           "'" "'");
    vm_compute; reflexivity.
Defined.

(** ** bind-tools-return-type *)

Lemma node_text_in_buffer (root : SgRoot) (n : SgNode) :
  wellFormed root = true ->
  In n (Sg.dfs (rootOf root)) ->
  buffer root =
  Js.slice (buffer root) 0 (Sg.rangeStart n) +++ Sg.text n
    +++ Js.sliceFrom (buffer root) (Sg.rangeEnd n).
Proof.
  intros W Hn. destruct (root_descendant_within root n W Hn) as [Hle Hlen].
  unfold Sg.text. rewrite (root_descendant_source root n Hn).
  now apply buffer_split3.
Qed.

Lemma regex_one (name : string) (n : SgNode) :
  Sg.regex [name] n = true -> Sg.text n = name.
Proof.
  unfold Sg.regex. simpl. rewrite orb_false_r. apply String.eqb_eq.
Qed.

Lemma kindIs_true (k : string) (n : SgNode) : Sg.kindIs k n = true -> Sg.kind n = k.
Proof. unfold Sg.kindIs, Sg.isKind. apply String.eqb_eq. Qed.

Lemma all_two (a b : Sg.Rule) (n : SgNode) :
  Sg.all [a; b] n = true -> a n = true /\ b n = true.
Proof.
  unfold Sg.all. simpl. rewrite andb_true_r. apply andb_prop.
Qed.

Lemma bind_tools_visit_sound (funcNode : SgNode) (e : Edit) :
  In e (BindToolsReturnType.visit funcNode) ->
  exists baseMessageNode,
    In baseMessageNode (Sg.dfs funcNode)
    /\ Sg.kind baseMessageNode = "identifier"
    /\ Sg.text baseMessageNode = "BaseMessage"
    /\ e = Sg.replace baseMessageNode "AIMessage".
Proof.
  unfold BindToolsReturnType.visit. intros He.
  destruct (Sg.find funcNode BindToolsReturnType.runnableGeneric) as [runnableType|] eqn:F1;
    [|destruct He].
  destruct (Sg.find runnableType (Sg.kindIs "type_parameter")) as [typeParam|] eqn:F2;
    [|destruct He].
  destruct (length (Sg.findAll typeParam (Sg.kindIs "type")) <? 2); [destruct He|].
  destruct (nth_error (Sg.findAll typeParam (Sg.kindIs "type")) 1) as [outputType|] eqn:F3;
    [|destruct He].
  destruct (Sg.find outputType BindToolsReturnType.baseMessageIdentifier)
    as [baseMessageNode|] eqn:F4; [|destruct He].
  destruct He as [<-|[]]. exists baseMessageNode.
  apply find_in_dfs in F1, F2, F4. apply nth_error_In in F3. apply findAll_in_dfs in F3.
  destruct F4 as [D4 R4]. apply all_two in R4. destruct R4 as [K4 T4].
  repeat split.
  - apply (dfs_trans _ runnableType); [exact (proj1 F1)|].
    apply (dfs_trans _ typeParam); [exact (proj1 F2)|].
    apply (dfs_trans _ outputType); [exact (proj1 F3) | exact D4].
  - now apply kindIs_true.
  - now apply regex_one.
Qed.

Lemma bind_tools_visit_short (funcNode : SgNode) :
  length (BindToolsReturnType.visit funcNode) <= 1.
Proof.
  unfold BindToolsReturnType.visit.
  repeat match goal with
         | |- context [match ?x with _ => _ end] => destruct x; simpl; try lia
         end.
Qed.

Lemma flat_map_length_le {A B : Type} (f : A -> list B) (l : list A) (k : nat) :
  (forall x, length (f x) <= k) -> length (flat_map f l) <= k * length l.
Proof.
  intros H. induction l as [|a l IH]; simpl; [lia|].
  rewrite length_app. specialize (H a). lia.
Qed.

(** Every edit of the loop over the [bind_tools] definitions replaces an
    identifier below such a definition that reads [BaseMessage] in the
    buffer by [AIMessage], and a definition gets one edit at most. *)
Theorem return_type_edit_replaces_BaseMessage (root : SgRoot) (e : Edit) :
  wellFormed root = true ->
  In e (BindToolsReturnType.returnTypeEdits (rootOf root)) ->
  length (BindToolsReturnType.returnTypeEdits (rootOf root))
    <= length (Sg.findAll (rootOf root) BindToolsReturnType.bindToolsFunction)
  /\ exists funcNode baseMessageNode,
       In funcNode (Sg.findAll (rootOf root) BindToolsReturnType.bindToolsFunction)
       /\ In baseMessageNode (Sg.dfs funcNode)
       /\ Sg.kind baseMessageNode = "identifier"
       /\ e = Sg.replace baseMessageNode "AIMessage"
       /\ buffer root =
          Js.slice (buffer root) 0 (startPos e) +++ "BaseMessage"
            +++ Js.sliceFrom (buffer root) (endPos e).
Proof.
  intros W He. split.
  - unfold BindToolsReturnType.returnTypeEdits.
    pose proof (flat_map_length_le BindToolsReturnType.visit
                  (Sg.findAll (rootOf root) BindToolsReturnType.bindToolsFunction) 1
                  bind_tools_visit_short). lia.
  - unfold BindToolsReturnType.returnTypeEdits in He. apply in_flat_map in He.
    destruct He as (funcNode & Hf & He).
    apply bind_tools_visit_sound in He. destruct He as (b & Hb & Hk & Ht & ->).
    exists funcNode, b. repeat split; try assumption.
    unfold Sg.replace. cbn [startPos endPos]. rewrite <- Ht.
    apply node_text_in_buffer; [exact W|].
    apply (dfs_trans _ funcNode); [|exact Hb]. now apply findAll_in_dfs in Hf.
Qed.

Lemma return_type_edit_example :
  BindToolsReturnType.returnTypeEdits (rootOf (parsed "model.py" bindTools_src bindTools_tree))
  = [{| startPos := 108; endPos := 119; insertedText := "AIMessage" |}]
  /\ bindTools_src =
     Js.slice bindTools_src 0 108 +++ "BaseMessage" +++ Js.sliceFrom bindTools_src 119
  /\ BindToolsReturnType.transform (parsed "model.py" bindTools_src bindTools_tree)
     = Rewritten ("from langchain_core.messages import AIMessage" +++ nl
                    +++ "def bind_tools(self, tools) -> Runnable[LanguageModelInput, AIMessage]:"
                    +++ nl +++ "    pass" +++ nl).
Proof.
  split; [vm_compute; reflexivity|]. split; [|vm_compute; reflexivity].
  destruct (return_type_edit_replaces_BaseMessage
              (parsed "model.py" bindTools_src bindTools_tree)
              {| startPos := 108; endPos := 119; insertedText := "AIMessage" |})
    as (_ & f & b & _ & _ & _ & _ & H).
  - vm_compute. reflexivity.
  - vm_compute. left. reflexivity.
  - exact H.
Defined.

Lemma bind_tools_import_table (rootNode : SgNode) :
  BindToolsReturnType.importEdits rootNode =
  match BindToolsReturnType.findBaseMessageImport rootNode with
  | Some (stmt, nameNode) =>
      if BindToolsReturnType.checkHasImport rootNode "AIMessage" then
        if BindToolsReturnType.hasOtherBaseMessageUsages rootNode then []
        else BindToolsReturnType.optionToList
               (BindToolsReturnType.createRemoveBaseMessageImportEdit rootNode
                  (stmt, nameNode))
      else
        if BindToolsReturnType.hasOtherBaseMessageUsages rootNode
        then [{| startPos := Sg.rangeEnd nameNode; endPos := Sg.rangeEnd nameNode;
                 insertedText := ", AIMessage" |}]
        else [Sg.replace nameNode "AIMessage"]
  | None =>
      if BindToolsReturnType.checkHasImport rootNode "AIMessage" then []
      else BindToolsReturnType.optionToList
             (BindToolsReturnType.createAIMessageImportEdit rootNode None)
  end.
Proof.
  unfold BindToolsReturnType.importEdits. cbv zeta.
  destruct (BindToolsReturnType.findBaseMessageImport rootNode) as [[stmt nameNode]|];
    destruct (BindToolsReturnType.checkHasImport rootNode "AIMessage");
    destruct (BindToolsReturnType.hasOtherBaseMessageUsages rootNode);
    cbn [negb andb app]; rewrite ?app_nil_r; reflexivity.
Qed.

(** The block "Handle import modifications" plans one edit at most.  With
    [AIMessage] not yet imported it is an insertion, or the renaming of the
    imported [BaseMessage] in place when that import has no other use; with
    [AIMessage] imported it is the removal of the unused [BaseMessage].
    The insertion next to [BaseMessage] and the removal of [BaseMessage]
    are never planned together. *)
Theorem bind_tools_plans_one_import_edit (rootNode : SgNode) :
  length (BindToolsReturnType.importEdits rootNode) <= 1
  /\ BindToolsReturnType.importEdits rootNode =
     match BindToolsReturnType.findBaseMessageImport rootNode with
     | Some (stmt, nameNode) =>
         if BindToolsReturnType.checkHasImport rootNode "AIMessage" then
           if BindToolsReturnType.hasOtherBaseMessageUsages rootNode then []
           else BindToolsReturnType.optionToList
                  (BindToolsReturnType.createRemoveBaseMessageImportEdit rootNode
                     (stmt, nameNode))
         else
           if BindToolsReturnType.hasOtherBaseMessageUsages rootNode
           then [{| startPos := Sg.rangeEnd nameNode; endPos := Sg.rangeEnd nameNode;
                    insertedText := ", AIMessage" |}]
           else [Sg.replace nameNode "AIMessage"]
     | None =>
         if BindToolsReturnType.checkHasImport rootNode "AIMessage" then []
         else BindToolsReturnType.optionToList
                (BindToolsReturnType.createAIMessageImportEdit rootNode None)
     end.
Proof.
  assert (L : forall (o : option Edit), length (BindToolsReturnType.optionToList o) <= 1)
    by (intros [x|]; simpl; lia).
  split; [|exact (bind_tools_import_table rootNode)].
  rewrite (bind_tools_import_table rootNode).
  destruct (BindToolsReturnType.findBaseMessageImport rootNode) as [[stmt nameNode]|];
    destruct (BindToolsReturnType.checkHasImport rootNode "AIMessage");
    destruct (BindToolsReturnType.hasOtherBaseMessageUsages rootNode);
    try apply L; simpl; lia.
Qed.

Lemma ai_message_insertion (rootNode : SgNode) :
  exists e,
    BindToolsReturnType.createAIMessageImportEdit rootNode None = Some e
    /\ startPos e = endPos e
    /\ Js.includes (insertedText e) "AIMessage" = true.
Proof.
  unfold BindToolsReturnType.createAIMessageImportEdit. cbv zeta.
  match goal with
  | |- context [firstSome ?f ?l] => destruct (firstSome f l) as [e'|] eqn:F
  end.
  - exists e'. split; [reflexivity|].
    apply firstSome_some in F. destruct F as (stmt & _ & F).
    destruct (existsb _ _); [|discriminate].
    match type of F with
    | context [BindToolsReturnType.lastOf ?l] =>
        destruct (BindToolsReturnType.lastOf l); [|discriminate]
    end.
    inversion F; subst. split; reflexivity.
  - match goal with
    | |- context [if ?c then BindToolsReturnType.lastOf ?l else None] =>
        destruct (if c then BindToolsReturnType.lastOf l else None)
    end; eexists; repeat split; reflexivity.
Qed.

(** A rewritten file always gets [AIMessage]: when no import statement
    brings it in, exactly one import edit is planned and it writes
    [AIMessage], either as an insertion that removes nothing or as the
    renaming in place of the imported [BaseMessage]. *)
Theorem ai_message_is_always_brought_in (rootNode : SgNode) :
  BindToolsReturnType.checkHasImport rootNode "AIMessage" = false ->
  exists e,
    BindToolsReturnType.importEdits rootNode = [e]
    /\ Js.includes (insertedText e) "AIMessage" = true
    /\ (startPos e = endPos e
        \/ exists stmt nameNode,
             BindToolsReturnType.findBaseMessageImport rootNode = Some (stmt, nameNode)
             /\ BindToolsReturnType.hasOtherBaseMessageUsages rootNode = false
             /\ e = Sg.replace nameNode "AIMessage").
Proof.
  intros H. rewrite bind_tools_import_table, H.
  destruct (BindToolsReturnType.findBaseMessageImport rootNode) as [[stmt nameNode]|] eqn:B.
  - destruct (BindToolsReturnType.hasOtherBaseMessageUsages rootNode) eqn:O.
    + eexists. split; [reflexivity|]. split; [reflexivity | now left].
    + eexists. split; [reflexivity|]. split; [reflexivity|].
      right. exists stmt, nameNode. now repeat split.
  - destruct (ai_message_insertion rootNode) as (e & E & S1 & I1).
    exists e. rewrite E. split; [reflexivity|]. split; [exact I1 | now left].
Qed.

Lemma ai_message_example :
  exists e,
    BindToolsReturnType.importEdits (rootOf (parsed "model.py" bindTools_src bindTools_tree))
    = [e]
    /\ Js.includes (insertedText e) "AIMessage" = true
    /\ (startPos e = endPos e
        \/ exists stmt nameNode,
             BindToolsReturnType.findBaseMessageImport
               (rootOf (parsed "model.py" bindTools_src bindTools_tree))
             = Some (stmt, nameNode)
             /\ BindToolsReturnType.hasOtherBaseMessageUsages
                  (rootOf (parsed "model.py" bindTools_src bindTools_tree)) = false
             /\ e = Sg.replace nameNode "AIMessage").
Proof.
  apply (ai_message_is_always_brought_in
           (rootOf (parsed "model.py" bindTools_src bindTools_tree))).
  vm_compute. reflexivity.
Defined.

Lemma substring_two (s : string) :
  forall i a b,
    String.substring i 2 s = String a (String b EmptyString) <->
    String.get i s = Some a /\ String.get (S i) s = Some b.
Proof.
  induction s as [|c s IH]; intros i a b.
  - destruct i; simpl; split; try discriminate; intros [H _]; discriminate.
  - destruct i as [|i].
    + cbn [String.substring String.get]. destruct s as [|d s]; simpl.
      * split; [discriminate | intros [_ H]; discriminate].
      * rewrite substring_none. split.
        -- intros H. inversion H. now split.
        -- intros [H1 H2]. inversion H1. inversion H2. reflexivity.
    + cbn [String.substring]. rewrite IH. reflexivity.
Qed.

Lemma slice_two (s : string) (i : nat) (a b : ascii) :
  Js.slice s i (i + 2) = String a (String b EmptyString) <->
  String.get i s = Some a /\ String.get (S i) s = Some b.
Proof.
  unfold Js.slice. replace (i + 2 - i) with 2 by lia. apply substring_two.
Qed.

Lemma charIs_get (s : string) (i : nat) (c : ascii) :
  Js.charIs s i c = true <-> String.get i s = Some c.
Proof.
  unfold Js.charIs, Js.charAt. destruct (String.get i s) as [d|].
  - rewrite Ascii.eqb_eq. split; [now intros -> | now intros [= ->]].
  - split; discriminate.
Qed.

Lemma skipBlanks_stop (fuel : nat) (source : string) (i : nat) :
  Js.charIs source i SPACE = false -> BindToolsReturnType.skipBlanks fuel source i = i.
Proof. intros H. destruct fuel; simpl; [reflexivity | now rewrite H]. Qed.

Lemma comma_without_space (source : string) (i : nat) :
  (Js.slice source i (i + 2) =? ", ")%string = false ->
  Js.charIs source i COMMA = true ->
  Js.charIs source (i + 1) SPACE = false.
Proof.
  intros Hs Hc. apply not_true_is_false. intros Hsp.
  apply charIs_get in Hc, Hsp. replace (i + 1) with (S i) in Hsp by lia.
  assert (X : Js.slice source i (i + 2) = ", ") by (apply slice_two; now split).
  rewrite X in Hs. discriminate.
Qed.

Lemma bind_tools_removeName_cases (source : string) (nameNode : SgNode) :
  BindToolsReturnType.removeName source nameNode =
  if (Js.slice source (Sg.rangeEnd nameNode) (Sg.rangeEnd nameNode + 2) =? ", ")%string then
    {| startPos := Sg.rangeStart nameNode; endPos := Sg.rangeEnd nameNode + 2;
       insertedText := "" |}
  else if Js.charIs source (Sg.rangeEnd nameNode) COMMA then
    {| startPos := Sg.rangeStart nameNode; endPos := Sg.rangeEnd nameNode + 1;
       insertedText := "" |}
  else if (Js.slice source (Sg.rangeStart nameNode - 2) (Sg.rangeStart nameNode) =? ", ")%string
  then
    {| startPos := Sg.rangeStart nameNode - 2; endPos := Sg.rangeEnd nameNode;
       insertedText := "" |}
  else if match Sg.rangeStart nameNode with
          | 0 => false
          | S before => Js.charIs source before COMMA
          end then
    {| startPos := Sg.rangeStart nameNode - 1; endPos := Sg.rangeEnd nameNode;
       insertedText := "" |}
  else
    {| startPos := Sg.rangeStart nameNode; endPos := Sg.rangeEnd nameNode;
       insertedText := "" |}.
Proof.
  unfold BindToolsReturnType.removeName. cbv zeta.
  destruct (Js.slice source (Sg.rangeEnd nameNode) (Sg.rangeEnd nameNode + 2) =? ", ")%string
    eqn:S1; [reflexivity|].
  destruct (Js.charIs source (Sg.rangeEnd nameNode) COMMA) eqn:C1; [|reflexivity].
  now rewrite skipBlanks_stop by now apply comma_without_space.
Qed.

Lemma bind_tools_removeName_bounds (source : string) (nameNode : SgNode) :
  startPos (BindToolsReturnType.removeName source nameNode) <= Sg.rangeStart nameNode
  /\ Sg.rangeEnd nameNode <= endPos (BindToolsReturnType.removeName source nameNode)
  /\ (Sg.rangeEnd nameNode <= String.length source ->
      endPos (BindToolsReturnType.removeName source nameNode) <= String.length source).
Proof.
  rewrite bind_tools_removeName_cases.
  destruct (Js.slice source (Sg.rangeEnd nameNode) (Sg.rangeEnd nameNode + 2) =? ", ")%string
    eqn:S1.
  { apply String.eqb_eq in S1. apply slice_two in S1. destruct S1 as [_ S1].
    apply get_some_lt in S1. cbn [startPos endPos]. lia. }
  destruct (Js.charIs source (Sg.rangeEnd nameNode) COMMA) eqn:C1.
  { apply charIs_get in C1. apply get_some_lt in C1. cbn [startPos endPos]. lia. }
  repeat match goal with
         | |- context [if ?c then _ else _] => destruct c
         end; cbn [startPos endPos]; lia.
Qed.

(** The removal of one imported name takes the name and at most two
    characters beside it, on one side only: the loop that skips blanks
    after a comma never turns, because a comma followed by a blank is taken
    by the test before it.  The removed span ends inside the buffer when the
    name does. *)
Theorem bind_tools_removal_is_tight (source : string) (nameNode : SgNode) :
  insertedText (BindToolsReturnType.removeName source nameNode) = ""
  /\ ((startPos (BindToolsReturnType.removeName source nameNode) = Sg.rangeStart nameNode
       /\ Sg.rangeEnd nameNode <= endPos (BindToolsReturnType.removeName source nameNode)
       /\ endPos (BindToolsReturnType.removeName source nameNode) <= Sg.rangeEnd nameNode + 2)
      \/ (endPos (BindToolsReturnType.removeName source nameNode) = Sg.rangeEnd nameNode
          /\ startPos (BindToolsReturnType.removeName source nameNode) <= Sg.rangeStart nameNode
          /\ Sg.rangeStart nameNode
             <= startPos (BindToolsReturnType.removeName source nameNode) + 2))
  /\ (Sg.rangeEnd nameNode <= String.length source ->
      endPos (BindToolsReturnType.removeName source nameNode) <= String.length source).
Proof.
  rewrite bind_tools_removeName_cases.
  destruct (Js.slice source (Sg.rangeEnd nameNode) (Sg.rangeEnd nameNode + 2) =? ", ")%string
    eqn:S1.
  { apply String.eqb_eq in S1. apply slice_two in S1. destruct S1 as [_ S1].
    apply get_some_lt in S1. cbn [startPos endPos insertedText].
    split; [reflexivity|]. split; [left; lia | lia]. }
  destruct (Js.charIs source (Sg.rangeEnd nameNode) COMMA) eqn:C1.
  { apply charIs_get in C1. apply get_some_lt in C1. cbn [startPos endPos insertedText].
    split; [reflexivity|]. split; [left; lia | lia]. }
  destruct (Js.slice source (Sg.rangeStart nameNode - 2) (Sg.rangeStart nameNode) =? ", ")%string.
  { cbn [startPos endPos insertedText]. split; [reflexivity|]. split; [right; lia | lia]. }
  destruct (match Sg.rangeStart nameNode with
            | 0 => false
            | S before => Js.charIs source before COMMA
            end).
  { cbn [startPos endPos insertedText]. split; [reflexivity|]. split; [right; lia | lia]. }
  cbn [startPos endPos insertedText]. split; [reflexivity|]. split; [left; lia | lia].
Qed.

Lemma spliced_delete (x d y : string) (from upto : nat) :
  from = String.length x ->
  upto = String.length x + String.length d ->
  spliced (x +++ d +++ y) {| startPos := from; endPos := upto; insertedText := "" |}
  = x +++ y.
Proof.
  intros -> ->. unfold spliced. cbn [startPos endPos insertedText].
  f_equal.
  - unfold Js.slice. rewrite Nat.sub_0_r. apply substring_prefix.
  - simpl. unfold Js.sliceFrom.
    replace (String.length x + String.length d) with (String.length (x +++ d))
      by apply append_length.
    rewrite <- append_assoc, substring_skip.
    replace (String.length ((x +++ d) +++ y) - String.length (x +++ d))
      with (String.length y) by (rewrite (append_length (x +++ d)); lia).
    apply substring_all.
Qed.

Lemma charIs_at_end (x y : string) (c : ascii) :
  Js.charIs (x +++ y) (String.length x) c = Js.charIs y 0 c.
Proof.
  rewrite <- (Nat.add_0_r (String.length x)) at 1. apply charIs_app_r.
Qed.

Lemma no_comma_no_pair (s : string) (i : nat) :
  Js.charIs s i COMMA = false -> (Js.slice s i (i + 2) =? ", ")%string = false.
Proof.
  intros H. apply not_true_is_false. intros E. apply String.eqb_eq in E.
  apply slice_two in E. destruct E as [E _]. apply charIs_get in E.
  unfold COMMA in H. congruence.
Qed.

Lemma charIs_space_not_comma (s : string) (i : nat) :
  Js.charIs s i SPACE = true -> Js.charIs s i COMMA = false.
Proof.
  intros H. apply charIs_get in H. unfold Js.charIs, Js.charAt. now rewrite H.
Qed.

Lemma charIs_in_spaces (x y : string) (g k : nat) :
  k < g -> Js.charIs (x +++ spaces g +++ y) (String.length x + k) SPACE = true.
Proof.
  intros H. rewrite charIs_app_r. apply charIs_get. now apply get_spaces.
Qed.

(** What the removal of one imported name leaves of the import list.  A
    name followed by a comma and a blank goes with both, in first and in
    middle position; a name that no comma follows goes with the comma and
    the blank before it; and when two or more blanks stand between that
    comma and the name, the name goes alone and the comma stays. *)
Theorem bind_tools_name_and_its_comma (pre name post : string) :
  (forall nameNode,
      Sg.rangeStart nameNode = String.length pre ->
      Sg.rangeEnd nameNode = String.length pre + String.length name ->
      spliced (pre +++ name +++ ", " +++ post)
        (BindToolsReturnType.removeName (pre +++ name +++ ", " +++ post) nameNode)
      = pre +++ post)
  /\ (forall nameNode,
        Js.charIs post 0 COMMA = false ->
        Sg.rangeStart nameNode = String.length pre + 2 ->
        Sg.rangeEnd nameNode = String.length pre + 2 + String.length name ->
        spliced (pre +++ ", " +++ name +++ post)
          (BindToolsReturnType.removeName (pre +++ ", " +++ name +++ post) nameNode)
        = pre +++ post)
  /\ (forall nameNode g,
        Js.charIs post 0 COMMA = false ->
        Sg.rangeStart nameNode = String.length pre + 1 + (g + 2) ->
        Sg.rangeEnd nameNode = String.length pre + 1 + (g + 2) + String.length name ->
        spliced (pre +++ "," +++ spaces (g + 2) +++ name +++ post)
          (BindToolsReturnType.removeName
             (pre +++ "," +++ spaces (g + 2) +++ name +++ post) nameNode)
        = pre +++ "," +++ spaces (g + 2) +++ post).
Proof.
  split; [|split].
  - intros nameNode Hs He. rewrite bind_tools_removeName_cases, Hs, He.
    assert (T : Js.slice (pre +++ name +++ ", " +++ post)
                  (String.length pre + String.length name)
                  (String.length pre + String.length name + 2) = ", ").
    { rewrite <- append_assoc, <- append_length. apply (slice_mid (pre +++ name) ", " post). }
    rewrite T. cbn [String.eqb Ascii.eqb Bool.eqb andb].
    rewrite <- append_assoc with (s := name).
    apply spliced_delete; [reflexivity | rewrite append_length; simpl; lia].
  - intros nameNode Hp Hs He. rewrite bind_tools_removeName_cases, Hs, He.
    assert (C : Js.charIs (pre +++ ", " +++ name +++ post)
                  (String.length pre + 2 + String.length name) COMMA = false).
    { replace (String.length pre + 2 + String.length name)
        with (String.length ((pre +++ ", ") +++ name))
        by (rewrite !append_length; simpl; lia).
      rewrite <- (append_assoc pre ", "), <- (append_assoc (pre +++ ", ") name).
      now rewrite charIs_at_end. }
    rewrite (no_comma_no_pair _ _ C), C.
    replace (String.length pre + 2 - 2) with (String.length pre) by lia.
    assert (T : Js.slice (pre +++ ", " +++ name +++ post)
                  (String.length pre) (String.length pre + 2) = ", ")
      by apply (slice_mid pre ", " (name +++ post)).
    rewrite T. cbn [String.eqb Ascii.eqb Bool.eqb andb].
    rewrite <- (append_assoc ", " name post).
    apply spliced_delete; [reflexivity | rewrite append_length; simpl; lia].
  - intros nameNode g Hp Hs He. rewrite bind_tools_removeName_cases, Hs, He.
    set (src := pre +++ "," +++ spaces (g + 2) +++ name +++ post).
    assert (Esrc : src = ((pre +++ ",") +++ spaces (g + 2)) +++ name +++ post)
      by (unfold src; now rewrite !append_assoc).
    assert (Lhead : String.length ((pre +++ ",") +++ spaces (g + 2))
                    = String.length pre + 1 + (g + 2))
      by (rewrite !append_length, length_spaces; simpl; lia).
    assert (C : Js.charIs src (String.length pre + 1 + (g + 2) + String.length name) COMMA
                = false).
    { rewrite Esrc, <- Lhead, <- append_length, <- append_assoc. now rewrite charIs_at_end. }
    rewrite (no_comma_no_pair _ _ C), C.
    assert (Sp : forall k, k < g + 2 ->
                   Js.charIs src (String.length pre + 1 + k) SPACE = true).
    { intros k Hk. unfold src. rewrite <- (append_assoc pre ",").
      replace (String.length pre + 1) with (String.length (pre +++ ","))
        by (rewrite append_length; simpl; lia).
      now apply charIs_in_spaces. }
    assert (T3 : (Js.slice src (String.length pre + 1 + (g + 2) - 2)
                    (String.length pre + 1 + (g + 2)) =? ", ")%string = false).
    { replace (String.length pre + 1 + (g + 2)) with (String.length pre + 1 + g + 2) at 2 by lia.
      replace (String.length pre + 1 + (g + 2) - 2) with (String.length pre + 1 + g) by lia.
      apply no_comma_no_pair, charIs_space_not_comma. apply Sp. lia. }
    rewrite T3.
    replace (String.length pre + 1 + (g + 2)) with (S (String.length pre + 1 + (g + 1))) at 1 by lia.
    rewrite (charIs_space_not_comma _ _ (Sp (g + 1) ltac:(lia))).
    rewrite Esrc, <- Lhead. rewrite <- !append_assoc.
    rewrite (append_assoc ((pre +++ ",") +++ spaces (g + 2)) name post).
    apply spliced_delete; reflexivity.
Qed.

Lemma bind_tools_last_name_example :
  BindToolsReturnType.importEdits
    (rootOf (parsed "model.py" bindToolsBoth_src bindToolsBoth_tree))
  = [BindToolsReturnType.removeName bindToolsBoth_src
       (nth 11 (Sg.dfs (rootOf (parsed "model.py" bindToolsBoth_src bindToolsBoth_tree)))
          (rootOf (parsed "model.py" bindToolsBoth_src bindToolsBoth_tree)))]
  /\ spliced bindToolsBoth_src
       (BindToolsReturnType.removeName bindToolsBoth_src
          (nth 11 (Sg.dfs (rootOf (parsed "model.py" bindToolsBoth_src bindToolsBoth_tree)))
             (rootOf (parsed "model.py" bindToolsBoth_src bindToolsBoth_tree))))
     = "from langchain_core.messages import AIMessage"
         +++ (nl +++ "def bind_tools(self, tools) -> Runnable[LanguageModelInput, BaseMessage]:"
                 +++ nl +++ "    pass" +++ nl).
Proof.
  split; [vm_compute; reflexivity|].
  apply (proj1 (proj2 (bind_tools_name_and_its_comma
                         "from langchain_core.messages import AIMessage" "BaseMessage"
                         (nl +++ "def bind_tools(self, tools) -> Runnable[LanguageModelInput, BaseMessage]:"
                             +++ nl +++ "    pass" +++ nl))));
    vm_compute; reflexivity.
Defined.

(** ** text-method-to-property *)

Lemma child_range_inside (root : SgRoot) (n c : SgNode) :
  faithful root = true ->
  In n (Sg.dfs (rootOf root)) ->
  In c (Sg.children n) ->
  Sg.rangeStart n <= Sg.rangeStart c
  /\ Sg.rangeStart c <= Sg.rangeEnd c
  /\ Sg.rangeEnd c <= Sg.rangeEnd n.
Proof.
  intros F Hn Hc. unfold faithful in F. apply andb_prop in F. destruct F as [W T].
  assert (Hcd : In c (Sg.dfs (rootOf root))).
  { apply (dfs_trans _ n); [exact Hn | now apply child_in_dfs]. }
  destruct (root_descendant_within root c W Hcd) as [Hle _].
  assert (Tn : tidy (buffer root) (node n) = true).
  { unfold Sg.dfs, rootOf, Sg.root in Hn. simpl in Hn.
    exact (preorder_tidy (buffer root) (tree root) T _ _ _ Hn). }
  unfold Sg.children in Hc. apply in_map_iff in Hc. destruct Hc as [c0 [<- Hc0]].
  destruct (tidy_child_inside _ _ _ Tn Hc0) as [A B].
  unfold Sg.rangeStart, Sg.rangeEnd, Sg.child in *. simpl in *. lia.
Qed.

Lemma field_range_inside (root : SgRoot) (n c : SgNode) (f : string) :
  faithful root = true ->
  In n (Sg.dfs (rootOf root)) ->
  Sg.field n f = Some c ->
  Sg.rangeStart n <= Sg.rangeStart c
  /\ Sg.rangeStart c <= Sg.rangeEnd c
  /\ Sg.rangeEnd c <= Sg.rangeEnd n.
Proof.
  intros F Hn Hc. apply (child_range_inside root n c F Hn).
  now apply field_is_child in Hc.
Qed.

(** The rewrite of a [.text()] call types nothing new.  Every edit replaces
    the span of a call whose argument list has no named child, and what it
    writes is the slice of the buffer under the function of that call, which
    lies inside the replaced span: the call loses characters and gains
    none, and a call with an argument is never touched. *)
Theorem text_method_rewrite_only_deletes (root : SgRoot) (e : Edit) :
  faithful root = true ->
  In e (TextMethodToProperty.edits (rootOf root)) ->
  keepsPartOf (buffer root) e
  /\ exists callNode argsNode attrNode,
       In callNode (Sg.dfs (rootOf root))
       /\ Sg.kind callNode = "call"
       /\ Sg.field callNode "arguments" = Some argsNode
       /\ filter Sg.isNamed (Sg.children argsNode) = []
       /\ Sg.field callNode "function" = Some attrNode
       /\ e = Sg.replace callNode (Sg.text attrNode).
Proof.
  intros F He. unfold TextMethodToProperty.edits in He. apply in_flat_map in He.
  destruct He as (callNode & Hc & He). apply findAll_in_dfs in Hc. destruct Hc as [Hd Hr].
  unfold TextMethodToProperty.textMethodCall in Hr. apply all_two in Hr.
  destruct Hr as [Hk _]. apply kindIs_true in Hk.
  unfold TextMethodToProperty.visit in He.
  destruct (Sg.field callNode "arguments") as [argsNode|] eqn:FA; [|destruct He].
  destruct (filter Sg.isNamed (Sg.children argsNode)) as [|x xs] eqn:Hargs;
    [|destruct He].
  simpl in He.
  destruct (Sg.field callNode "function") as [attrNode|] eqn:FF; [|destruct He].
  destruct He as [<-|[]].
  destruct (field_range_inside root callNode attrNode "function" F Hd FF) as (A & B & C).
  split.
  - exists (Sg.rangeStart attrNode), (Sg.rangeEnd attrNode).
    unfold Sg.replace. cbn [startPos endPos insertedText]. repeat split; try assumption.
    unfold Sg.text. f_equal.
    apply (root_descendant_source root attrNode).
    apply (dfs_trans _ callNode); [exact Hd | now apply field_in_dfs in FF].
  - exists callNode, argsNode, attrNode. repeat split; assumption.
Qed.

Lemma text_method_example :
  TextMethodToProperty.edits (rootOf (parsed "reply.py" calledOnce_src calledOnce_tree))
  = [{| startPos := 0; endPos := 8; insertedText := "x.text" |}]
  /\ keepsPartOf calledOnce_src {| startPos := 0; endPos := 8; insertedText := "x.text" |}.
Proof.
  split; [vm_compute; reflexivity|].
  apply (text_method_rewrite_only_deletes
           (parsed "reply.py" calledOnce_src calledOnce_tree)
           {| startPos := 0; endPos := 8; insertedText := "x.text" |}).
  - vm_compute. reflexivity.
  - vm_compute. left. reflexivity.
Defined.

(** ** unwrap-tool-node-in-agent *)

Lemma skipSpaces_blanks (fuel : nat) (t : string) :
  forall i,
    i <= UnwrapToolNodeInAgent.skipSpaces fuel t i
    /\ (i <= String.length t ->
        UnwrapToolNodeInAgent.skipSpaces fuel t i <= String.length t)
    /\ forall p, i <= p -> p < UnwrapToolNodeInAgent.skipSpaces fuel t i ->
                 Js.charIs t p SPACE = true.
Proof.
  induction fuel as [|fuel IH]; intros i; simpl.
  - repeat split; [lia.. | intros p A B; lia].
  - destruct ((i <? String.length t) && Js.charIs t i SPACE) eqn:E.
    + apply andb_prop in E. destruct E as [E1 E2]. apply Nat.ltb_lt in E1.
      destruct (IH (S i)) as (A & B & C). repeat split; [lia | intros _; apply B; lia |].
      intros p Hp Hq. destruct (Nat.eq_dec p i) as [->|Hne]; [exact E2|].
      apply C; lia.
    + repeat split; [lia.. | intros p A B; lia].
Qed.

Lemma skipSpacesBack_blanks (t : string) :
  forall i j,
    UnwrapToolNodeInAgent.skipSpacesBack t i = Some j ->
    j <= i /\ forall p, j < p -> p <= i -> Js.charIs t p SPACE = true.
Proof.
  induction i as [|i IH]; intros j H; rewrite skipSpacesBack_unfold in H.
  - destruct (Js.charIs t 0 SPACE); [discriminate|]. inversion H; subst.
    split; [lia | intros p A B; lia].
  - destruct (Js.charIs t (S i) SPACE) eqn:E.
    + destruct (IH j H) as [A B]. split; [lia|].
      intros p Hp Hq. destruct (Nat.eq_dec p (S i)) as [->|Hne]; [exact E|].
      apply B; lia.
    + inversion H; subst. split; [lia | intros p A B; lia].
Qed.

(** The removal of one imported name takes the name, one comma at most and
    blanks, nothing else: either the span starts at a comma before the
    name, with only blanks in between; or it runs from the name through
    blanks, one comma and the blanks after it; or it is the name alone.
    It stays inside the buffer when the name does. *)
Theorem unwrap_removal_takes_one_comma_and_blanks (fullText : string) (nameNode : SgNode) :
  insertedText (UnwrapToolNodeInAgent.removeName fullText nameNode) = ""
  /\ ((endPos (UnwrapToolNodeInAgent.removeName fullText nameNode) = Sg.rangeEnd nameNode
       /\ startPos (UnwrapToolNodeInAgent.removeName fullText nameNode) < Sg.rangeStart nameNode
       /\ Js.charIs fullText (startPos (UnwrapToolNodeInAgent.removeName fullText nameNode))
            COMMA = true
       /\ forall p,
            startPos (UnwrapToolNodeInAgent.removeName fullText nameNode) < p ->
            p < Sg.rangeStart nameNode ->
            Js.charIs fullText p SPACE = true)
      \/ (startPos (UnwrapToolNodeInAgent.removeName fullText nameNode) = Sg.rangeStart nameNode
          /\ exists comma,
               Sg.rangeEnd nameNode <= comma
               /\ comma < endPos (UnwrapToolNodeInAgent.removeName fullText nameNode)
               /\ Js.charIs fullText comma COMMA = true
               /\ forall p,
                    Sg.rangeEnd nameNode <= p ->
                    p < endPos (UnwrapToolNodeInAgent.removeName fullText nameNode) ->
                    p <> comma ->
                    Js.charIs fullText p SPACE = true)
      \/ (startPos (UnwrapToolNodeInAgent.removeName fullText nameNode) = Sg.rangeStart nameNode
          /\ endPos (UnwrapToolNodeInAgent.removeName fullText nameNode) = Sg.rangeEnd nameNode))
  /\ (Sg.rangeEnd nameNode <= String.length fullText ->
      endPos (UnwrapToolNodeInAgent.removeName fullText nameNode) <= String.length fullText).
Proof.
  unfold UnwrapToolNodeInAgent.removeName. cbv zeta.
  destruct (match
               match Sg.rangeStart nameNode with
               | 0 => None
               | S i => UnwrapToolNodeInAgent.skipSpacesBack fullText i
               end
             with
             | Some i => if Js.charIs fullText i COMMA then Some i else None
             | None => None
             end) as [i|] eqn:Back.
  - cbn [startPos endPos insertedText]. split; [reflexivity|]. split; [|lia].
    left. destruct (Sg.rangeStart nameNode) as [|s]; [discriminate|].
    destruct (UnwrapToolNodeInAgent.skipSpacesBack fullText s) as [j|] eqn:B; [|discriminate].
    destruct (Js.charIs fullText j COMMA) eqn:C; [|discriminate].
    inversion Back; subst j. destruct (skipSpacesBack_blanks fullText s i B) as [A Sp].
    repeat split; [lia | exact C |]. intros p Hp Hq. apply Sp; lia.
  - clear Back. unfold UnwrapToolNodeInAgent.skipSpacesFrom.
    set (lookAhead := UnwrapToolNodeInAgent.skipSpaces
                        (String.length fullText - Sg.rangeEnd nameNode) fullText
                        (Sg.rangeEnd nameNode)).
    destruct (skipSpaces_blanks (String.length fullText - Sg.rangeEnd nameNode) fullText
                (Sg.rangeEnd nameNode)) as (A1 & B1 & C1).
    fold lookAhead in A1, B1, C1.
    destruct ((lookAhead <? String.length fullText) && Js.charIs fullText lookAhead COMMA)
      eqn:E; cbn [startPos endPos insertedText].
    + apply andb_prop in E. destruct E as [E1 E2]. apply Nat.ltb_lt in E1.
      destruct (skipSpaces_blanks (String.length fullText - (lookAhead + 1)) fullText
                  (lookAhead + 1)) as (A2 & B2 & C2).
      split; [reflexivity|]. split; [|intros _; apply B2; lia].
      right. left. split; [reflexivity|]. exists lookAhead.
      repeat split; [exact A1 | lia | exact E2 |].
      intros p Hp Hq Hne. destruct (Nat.lt_ge_cases p lookAhead) as [L|L].
      * now apply C1.
      * apply C2; [lia | exact Hq].
    + split; [reflexivity|]. split; [|lia]. right. right. split; reflexivity.
Qed.

Lemma tools_match_found (call kwArg toolNodeCall : SgNode) :
  UnwrapToolNodeInAgent.findToolsArgWithToolNode call = Some (kwArg, toolNodeCall) ->
  exists argList,
    Sg.field call "arguments" = Some argList
    /\ In kwArg (Sg.findAll argList UnwrapToolNodeInAgent.toolsKeyword)
    /\ Sg.field kwArg "value" = Some toolNodeCall
    /\ Sg.isKind toolNodeCall "call" = true
    /\ UnwrapToolNodeInAgent.isToolNodeCall toolNodeCall = true
    /\ UnwrapToolNodeInAgent.hasSingleArgument toolNodeCall = true.
Proof.
  unfold UnwrapToolNodeInAgent.findToolsArgWithToolNode. intros H.
  destruct (Sg.field call "arguments") as [argList|]; [|discriminate].
  apply firstSome_some in H. destruct H as (kw & Hin & H).
  destruct (Sg.field kw "value") as [value|] eqn:FV; [|discriminate].
  destruct (Sg.isKind value "call") eqn:K; simpl in H; [|discriminate].
  destruct (UnwrapToolNodeInAgent.isToolNodeCall value) eqn:T; simpl in H; [|discriminate].
  destruct (UnwrapToolNodeInAgent.hasSingleArgument value) eqn:S1; [|discriminate].
  inversion H; subst. exists argList. now repeat split.
Qed.

Lemma single_argument_found (toolNodeCall : SgNode) :
  UnwrapToolNodeInAgent.hasSingleArgument toolNodeCall = true ->
  exists argList innerArg,
    Sg.field toolNodeCall "arguments" = Some argList
    /\ In innerArg (Sg.children argList)
    /\ Sg.isKind innerArg "keyword_argument" = false
    /\ UnwrapToolNodeInAgent.getSingleArgument toolNodeCall = Some innerArg.
Proof.
  unfold UnwrapToolNodeInAgent.hasSingleArgument, UnwrapToolNodeInAgent.getSingleArgument.
  intros H. destruct (Sg.field toolNodeCall "arguments") as [argList|]; [|discriminate].
  destruct (filter UnwrapToolNodeInAgent.notPunctuation (Sg.children argList))
    as [|a [|b r]] eqn:E; try discriminate.
  exists argList, a. repeat split.
  - assert (X : In a (filter UnwrapToolNodeInAgent.notPunctuation (Sg.children argList)))
      by (rewrite E; now left).
    now apply filter_In in X.
  - now apply negb_true_iff in H.
Qed.

Lemma visit_of_match (call kwArg toolNodeCall : SgNode) :
  UnwrapToolNodeInAgent.isAgentCreationCall call = true ->
  UnwrapToolNodeInAgent.findToolsArgWithToolNode call = Some (kwArg, toolNodeCall) ->
  exists innerArg,
    UnwrapToolNodeInAgent.getSingleArgument toolNodeCall = Some innerArg
    /\ UnwrapToolNodeInAgent.visit call = [Sg.replace toolNodeCall (Sg.text innerArg)].
Proof.
  intros Ha Hm. destruct (tools_match_found _ _ _ Hm) as (_ & _ & _ & _ & _ & _ & Hs).
  destruct (single_argument_found _ Hs) as (argList & innerArg & _ & _ & _ & Hg).
  exists innerArg. split; [exact Hg|].
  unfold UnwrapToolNodeInAgent.visit. now rewrite Ha, Hm, Hg.
Qed.

(** Every match is rewritten.  When [findToolsArgWithToolNode] answers a
    [ToolNode] call, [getSingleArgument] finds its argument, which is not a
    keyword argument, so that the test [if (!innerArg) continue] never
    fires; the number of rewritten calls, which the import pruning
    subtracts, is the number of agent creation calls with a match. *)
Theorem every_matched_tool_node_is_unwrapped (rootNode : SgNode) :
  (forall call kwArg toolNodeCall,
      UnwrapToolNodeInAgent.isAgentCreationCall call = true ->
      UnwrapToolNodeInAgent.findToolsArgWithToolNode call = Some (kwArg, toolNodeCall) ->
      exists innerArg,
        UnwrapToolNodeInAgent.getSingleArgument toolNodeCall = Some innerArg
        /\ Sg.isKind innerArg "keyword_argument" = false
        /\ Sg.field kwArg "value" = Some toolNodeCall
        /\ UnwrapToolNodeInAgent.visit call = [Sg.replace toolNodeCall (Sg.text innerArg)])
  /\ UnwrapToolNodeInAgent.transformedToolNodeCount rootNode
     = length (filter unwrappable (Sg.findAll rootNode (Sg.kindIs "call"))).
Proof.
  split.
  - intros call kwArg toolNodeCall Ha Hm.
    destruct (tools_match_found _ _ _ Hm) as (_ & _ & _ & Hv & _ & _ & Hs).
    destruct (single_argument_found _ Hs) as (argList & innerArg & _ & _ & Hk & Hg).
    exists innerArg. repeat split; try assumption.
    unfold UnwrapToolNodeInAgent.visit. now rewrite Ha, Hm, Hg.
  - unfold UnwrapToolNodeInAgent.transformedToolNodeCount,
      UnwrapToolNodeInAgent.unwrapEdits.
    induction (Sg.findAll rootNode (Sg.kindIs "call")) as [|call calls IH];
      [reflexivity|].
    cbn [flat_map filter]. rewrite length_app, IH. unfold unwrappable at 2.
    destruct (UnwrapToolNodeInAgent.isAgentCreationCall call) eqn:Ha.
    + destruct (UnwrapToolNodeInAgent.findToolsArgWithToolNode call) as [[kw tn]|] eqn:Hm.
      * destruct (visit_of_match call kw tn Ha Hm) as (a & _ & ->). reflexivity.
      * unfold UnwrapToolNodeInAgent.visit. now rewrite Ha, Hm.
    + unfold UnwrapToolNodeInAgent.visit. now rewrite Ha.
Qed.

Lemma removeName_ordered (fullText : string) (nameNode : SgNode) :
  Sg.rangeStart nameNode <= Sg.rangeEnd nameNode ->
  Sg.rangeEnd nameNode <= String.length fullText ->
  startPos (UnwrapToolNodeInAgent.removeName fullText nameNode)
  <= endPos (UnwrapToolNodeInAgent.removeName fullText nameNode)
  /\ endPos (UnwrapToolNodeInAgent.removeName fullText nameNode) <= String.length fullText.
Proof.
  intros Hle Hlen. unfold UnwrapToolNodeInAgent.removeName. cbv zeta.
  destruct (match
               match Sg.rangeStart nameNode with
               | 0 => None
               | S i => UnwrapToolNodeInAgent.skipSpacesBack fullText i
               end
             with
             | Some i => if Js.charIs fullText i COMMA then Some i else None
             | None => None
             end) as [i|] eqn:Back.
  - cbn [startPos endPos]. destruct (Sg.rangeStart nameNode) as [|s]; [discriminate|].
    destruct (UnwrapToolNodeInAgent.skipSpacesBack fullText s) as [j|] eqn:B; [|discriminate].
    destruct (Js.charIs fullText j COMMA); [|discriminate]. inversion Back; subst j.
    apply skipSpacesBack_blanks in B. lia.
  - unfold UnwrapToolNodeInAgent.skipSpacesFrom.
    set (lookAhead := UnwrapToolNodeInAgent.skipSpaces
                        (String.length fullText - Sg.rangeEnd nameNode) fullText
                        (Sg.rangeEnd nameNode)).
    destruct (skipSpaces_blanks (String.length fullText - Sg.rangeEnd nameNode) fullText
                (Sg.rangeEnd nameNode)) as (A1 & B1 & _).
    fold lookAhead in A1, B1.
    destruct ((lookAhead <? String.length fullText) && Js.charIs fullText lookAhead COMMA)
      eqn:E; cbn [startPos endPos]; [|lia].
    apply andb_prop in E. destruct E as [E _]. apply Nat.ltb_lt in E.
    destruct (skipSpaces_blanks (String.length fullText - (lookAhead + 1)) fullText
                (lookAhead + 1)) as (A2 & B2 & _).
    specialize (B2 ltac:(lia)). lia.
Qed.

Lemma removeStatement_ordered (fullText : string) (importStmt : SgNode) :
  Sg.rangeStart importStmt <= Sg.rangeEnd importStmt ->
  Sg.rangeEnd importStmt <= String.length fullText ->
  startPos (UnwrapToolNodeInAgent.removeStatement fullText importStmt)
  <= endPos (UnwrapToolNodeInAgent.removeStatement fullText importStmt)
  /\ endPos (UnwrapToolNodeInAgent.removeStatement fullText importStmt)
     <= String.length fullText.
Proof.
  intros Hle Hlen. unfold UnwrapToolNodeInAgent.removeStatement. cbv zeta.
  destruct (Sg.rangeEnd importStmt <? String.length fullText) eqn:L1;
    [apply Nat.ltb_lt in L1 | cbn [andb startPos endPos]; lia].
  destruct (Js.charIs fullText (Sg.rangeEnd importStmt) LF);
    cbn [andb startPos endPos]; [|lia].
  destruct (S (Sg.rangeEnd importStmt) <? String.length fullText) eqn:L2;
    [apply Nat.ltb_lt in L2 | cbn [andb startPos endPos]; lia].
  destruct (Js.charIs fullText (S (Sg.rangeEnd importStmt)) LF);
    cbn [andb startPos endPos]; lia.
Qed.

Lemma deletion_keeps_part (src : string) (e : Edit) :
  insertedText e = "" -> startPos e <= endPos e -> keepsPartOf src e.
Proof.
  intros Ht Hle. exists (startPos e), (startPos e). repeat split; try lia.
  rewrite Ht. unfold Js.slice. rewrite Nat.sub_diag. symmetry. apply substring_none.
Qed.

Lemma import_removal_cases (rootNode : SgNode) (remaining : Z) (e : Edit) :
  UnwrapToolNodeInAgent.createImportRemovalEdit rootNode remaining = Some e ->
  (exists stmt,
      In stmt (Sg.dfs rootNode)
      /\ e = UnwrapToolNodeInAgent.removeStatement (Sg.text rootNode) stmt)
  \/ (exists nameNode,
        In nameNode (Sg.dfs rootNode)
        /\ e = UnwrapToolNodeInAgent.removeName (Sg.text rootNode) nameNode).
Proof.
  unfold UnwrapToolNodeInAgent.createImportRemovalEdit. cbv zeta.
  destruct (0 <? remaining)%Z; [discriminate|].
  intros H. apply firstSome_some in H. destruct H as [stmt [Hs H]].
  apply findAll_in_dfs in Hs. destruct Hs as [Hs _].
  destruct (negb (Js.includes (Sg.text stmt) "ToolNode")); [discriminate|].
  apply firstSome_some in H. destruct H as [nameNode [Hn H]].
  apply findAll_in_dfs in Hn. destruct Hn as [Hn _].
  destruct (match Sg.find stmt UnwrapToolNodeInAgent.moduleName with
            | Some m => Sg.id m =? Sg.id nameNode
            | None => false
            end); [discriminate|].
  destruct (length (UnwrapToolNodeInAgent.importedNamesFrom false (Sg.children stmt)) =? 1).
  - left. exists stmt. injection H as <-. now split.
  - right. destruct (Sg.find nameNode _); [|discriminate].
    injection H as <-. exists nameNode. split; [|reflexivity].
    now apply (dfs_trans rootNode stmt nameNode).
Qed.

(** unwrap-tool-node-in-agent types nothing new.  An unwrap edit writes the
    text of the argument of the [ToolNode] call it replaces, a slice of the
    buffer inside the replaced span; the import edit writes nothing.  The
    output is the input with characters taken out. *)
Theorem unwrap_only_deletes (root : SgRoot) (e : Edit) :
  faithful root = true ->
  In e (UnwrapToolNodeInAgent.unwrapEdits (rootOf root)
          ++ UnwrapToolNodeInAgent.importEdits (rootOf root)) ->
  keepsPartOf (buffer root) e /\ inBuffer root e.
Proof.
  intros F He. pose proof F as F'. unfold faithful in F'. apply andb_prop in F'.
  destruct F' as [W _].
  apply in_app_or in He. destruct He as [He|He].
  - unfold UnwrapToolNodeInAgent.unwrapEdits in He. apply in_flat_map in He.
    destruct He as (call & Hc & He). apply findAll_in_dfs in Hc. destruct Hc as [Hc _].
    unfold UnwrapToolNodeInAgent.visit in He.
    destruct (negb (UnwrapToolNodeInAgent.isAgentCreationCall call)); [destruct He|].
    destruct (UnwrapToolNodeInAgent.findToolsArgWithToolNode call) as [[kw tn]|] eqn:Hm;
      [|destruct He].
    destruct (tools_match_found _ _ _ Hm) as (argList0 & FA & Hkw & FV & _ & _ & Hs).
    destruct (single_argument_found _ Hs) as (argList & innerArg & FA' & Hin & _ & Hg).
    rewrite Hg in He. destruct He as [<-|[]].
    assert (Dtn : In tn (Sg.dfs (rootOf root))).
    { apply (dfs_trans _ call); [exact Hc|].
      apply (dfs_trans _ argList0); [now apply field_in_dfs in FA|].
      apply (dfs_trans _ kw); [now apply findAll_in_dfs in Hkw|].
      now apply field_in_dfs in FV. }
    assert (Dal : In argList (Sg.dfs (rootOf root))).
    { apply (dfs_trans _ tn); [exact Dtn | now apply field_in_dfs in FA']. }
    destruct (field_range_inside root tn argList "arguments" F Dtn FA') as (A1 & _ & B1).
    destruct (child_range_inside root argList innerArg F Dal Hin) as (A2 & M2 & B2).
    split; [|exact (root_descendant_within root tn W Dtn)].
    exists (Sg.rangeStart innerArg), (Sg.rangeEnd innerArg).
    unfold Sg.replace. cbn [startPos endPos insertedText].
    repeat split; try lia.
    unfold Sg.text. f_equal. apply (root_descendant_source root innerArg).
    apply (dfs_trans _ argList); [exact Dal | now apply child_in_dfs].
  - unfold UnwrapToolNodeInAgent.importEdits in He.
    destruct (UnwrapToolNodeInAgent.createImportRemovalEdit (rootOf root)
                (UnwrapToolNodeInAgent.remainingUsages (rootOf root))) as [e'|] eqn:Hi;
      [|destruct He].
    destruct He as [<-|[]].
    apply import_removal_cases in Hi. rewrite (root_text root W) in Hi.
    destruct Hi as [(stmt & Hd & ->)|(n & Hd & ->)].
    + destruct (root_descendant_within root stmt W Hd) as [A B].
      destruct (removeStatement_ordered (buffer root) stmt A B) as [O L].
      split; [|split; assumption].
      apply deletion_keeps_part; [|exact O].
      unfold UnwrapToolNodeInAgent.removeStatement. reflexivity.
    + destruct (root_descendant_within root n W Hd) as [A B].
      destruct (removeName_ordered (buffer root) n A B) as [O L].
      split; [|split; assumption].
      apply deletion_keeps_part; [|exact O].
      unfold UnwrapToolNodeInAgent.removeName. cbv zeta.
      repeat match goal with
             | |- context [match ?c with _ => _ end] => destruct c
             end; reflexivity.
Qed.

Lemma unwrap_only_deletes_example :
  UnwrapToolNodeInAgent.unwrapEdits (rootOf (parsed "agent.py" stillUsed_src stillUsed_tree))
  = [{| startPos := 74; endPos := 89; insertedText := "tools" |}]
  /\ keepsPartOf stillUsed_src {| startPos := 74; endPos := 89; insertedText := "tools" |}
  /\ inBuffer (parsed "agent.py" stillUsed_src stillUsed_tree)
       {| startPos := 74; endPos := 89; insertedText := "tools" |}.
Proof.
  split; [vm_compute; reflexivity|].
  apply (unwrap_only_deletes (parsed "agent.py" stillUsed_src stillUsed_tree)
           {| startPos := 74; endPos := 89; insertedText := "tools" |}).
  - vm_compute. reflexivity.
  - vm_compute. left. reflexivity.
Defined.

(** ** prompt-to-system-prompt *)

Lemma scanKeywords_last_from (kws : list SgNode) :
  forall (st : option SgNode * bool),
    fold_left
      (fun (st : option SgNode * bool) kwArg =>
         let '(promptArg, hasSystemPrompt) := st in
         match Sg.field kwArg "name" with
         | None => st
         | Some nameNode =>
             let argName := Sg.text nameNode in
             if (argName =? "prompt")%string then (Some kwArg, hasSystemPrompt)
             else if (argName =? "system_prompt")%string then (promptArg, true)
             else st
         end)
      kws st
    = (match List.find (keywordIs "prompt") (rev kws) with
       | Some p => Some p
       | None => fst st
       end,
       snd st || existsb (keywordIs "system_prompt") kws).
Proof.
  induction kws as [|k kws IH]; intros [p h]; simpl.
  - now rewrite orb_false_r.
  - rewrite IH, find_snoc. unfold keywordIs at 2 4 5.
    destruct (Sg.field k "name") as [nameNode|]; simpl.
    + destruct (Sg.text nameNode =? "prompt")%string eqn:E1; simpl.
      * apply String.eqb_eq in E1. rewrite E1. simpl.
        destruct (List.find (keywordIs "prompt") (rev kws)); reflexivity.
      * destruct (Sg.text nameNode =? "system_prompt")%string; simpl;
          destruct (List.find (keywordIs "prompt") (rev kws));
          rewrite ?orb_true_r; reflexivity.
    + destruct (List.find (keywordIs "prompt") (rev kws)); reflexivity.
Qed.

(** The loop over the keyword arguments keeps the last [prompt=] it meets
    and notes whether a [system_prompt=] was met.  The keywords are those
    found anywhere below the argument list, so a call with several
    [prompt=] keywords, nested ones included, has the last of them in
    source order renamed and no other. *)
Theorem last_prompt_keyword_wins (definition : SgNode -> option DefinitionInfo)
  (file : string) :
  (forall keywordArgs,
      PromptToSystemPrompt.scanKeywords keywordArgs
      = (List.find (keywordIs "prompt") (rev keywordArgs),
         existsb (keywordIs "system_prompt") keywordArgs))
  /\ (forall call funcNode argList promptArg,
        Sg.field call "function" = Some funcNode ->
        PromptToSystemPrompt.fromOtherModule definition funcNode = false ->
        Sg.field call "arguments" = Some argList ->
        Sg.kind argList = "argument_list" ->
        existsb (keywordIs "system_prompt") (keywordsOf call) = false ->
        List.find (keywordIs "prompt") (rev (keywordsOf call)) = Some promptArg ->
        exists nameNode,
          Sg.field promptArg "name" = Some nameNode
          /\ Sg.text nameNode = "prompt"
          /\ PromptToSystemPrompt.visit definition file call
             = push [Sg.replace nameNode "system_prompt"]).
Proof.
  assert (S1 : forall keywordArgs,
             PromptToSystemPrompt.scanKeywords keywordArgs
             = (List.find (keywordIs "prompt") (rev keywordArgs),
                existsb (keywordIs "system_prompt") keywordArgs)).
  { intros kws. unfold PromptToSystemPrompt.scanKeywords.
    rewrite scanKeywords_last_from. simpl.
    destruct (List.find (keywordIs "prompt") (rev kws)); reflexivity. }
  split; [exact S1|].
  intros call funcNode argList promptArg FF Hm FA Hk Hs Hp.
  pose proof (find_some _ _ Hp) as [_ Hkw]. unfold keywordIs in Hkw.
  destruct (Sg.field promptArg "name") as [nameNode|] eqn:FN; [|discriminate].
  apply String.eqb_eq in Hkw. exists nameNode. repeat split; [exact Hkw|].
  unfold PromptToSystemPrompt.visit. rewrite FF, Hm, FA, Hk. simpl.
  unfold keywordsOf in Hs, Hp. rewrite FA in Hs, Hp.
  rewrite S1, Hp, Hs. now rewrite FN.
Qed.

Lemma nested_prompt_example :
  PromptToSystemPrompt.scanKeywords
    (keywordsOf (nth 0 (Sg.findAll (rootOf (parsed "agent.py" nestedPrompt_src nestedPrompt_tree))
                          PromptToSystemPrompt.agentCall)
                   (rootOf (parsed "agent.py" nestedPrompt_src nestedPrompt_tree))))
  = (List.find (keywordIs "prompt")
       (rev (keywordsOf
               (nth 0 (Sg.findAll (rootOf (parsed "agent.py" nestedPrompt_src nestedPrompt_tree))
                         PromptToSystemPrompt.agentCall)
                  (rootOf (parsed "agent.py" nestedPrompt_src nestedPrompt_tree))))),
     false)
  /\ PromptToSystemPrompt.transform unresolved
       (parsed "agent.py" nestedPrompt_src nestedPrompt_tree)
     = Rewritten ("agent = create_agent(m, tools=make(system_prompt=" +++ dq +++ "x" +++ dq
                    +++ "))" +++ nl).
Proof.
  split; [|vm_compute; reflexivity].
  rewrite (proj1 (last_prompt_keyword_wins unresolved "agent.py")).
  f_equal.
Defined.

(** ** system-message-to-prompt *)

Lemma preorder_inside (src0 : string) (t : Node) :
  tidy src0 t = true ->
  forall src ps d, In d (preorder src ps t) ->
    startIndex t <= startIndex (node d) /\ endIndex (node d) <= endIndex t.
Proof.
  induction t as [i k nm f s e cs IH] using Node_forall_ind.
  intros T src ps d. rewrite preorder_unfold. simpl children.
  intros [<-|H]; [simpl; lia|].
  apply in_flat_map in H. destruct H as [c [Hc Hd]].
  rewrite Forall_forall in IH.
  destruct (tidy_child_inside _ _ _ T Hc) as [A B]. simpl in A, B.
  assert (Tc : tidy src0 c = true).
  { simpl in T. apply andb_prop in T. destruct T as [_ T].
    rewrite forallb_forall in T. now apply T. }
  destruct (IH c Hc Tc _ _ _ Hd) as [A' B']. simpl. lia.
Qed.

Lemma descendant_range_inside (root : SgRoot) (n d : SgNode) :
  faithful root = true ->
  In n (Sg.dfs (rootOf root)) ->
  In d (Sg.dfs n) ->
  Sg.rangeStart n <= Sg.rangeStart d
  /\ Sg.rangeStart d <= Sg.rangeEnd d
  /\ Sg.rangeEnd d <= Sg.rangeEnd n.
Proof.
  intros F Hn Hd. pose proof F as F'. unfold faithful in F'. apply andb_prop in F'.
  destruct F' as [W T].
  assert (Tn : tidy (buffer root) (node n) = true).
  { unfold Sg.dfs, rootOf, Sg.root in Hn. simpl in Hn.
    exact (preorder_tidy (buffer root) (tree root) T _ _ _ Hn). }
  destruct (preorder_inside _ _ Tn _ _ _ Hd) as [A B].
  destruct (root_descendant_within root d W (dfs_trans _ _ _ Hn Hd)) as [C _].
  unfold Sg.rangeStart, Sg.rangeEnd in *. lia.
Qed.

Lemma content_arg_found (callNode contentNode call : SgNode) :
  SystemMessageToPrompt.findSystemMessageContentArg callNode = Some (contentNode, call) ->
  call = callNode
  /\ In contentNode (Sg.dfs callNode)
  /\ exists funcNode kwarg nameNode,
       Sg.field callNode "function" = Some funcNode
       /\ ((Sg.text funcNode =? "SystemMessage")%string
           || Js.endsWith (Sg.text funcNode) ".SystemMessage" = true)
       /\ Sg.kind kwarg = "keyword_argument"
       /\ Sg.field kwarg "name" = Some nameNode
       /\ Sg.text nameNode = "content"
       /\ Sg.field kwarg "value" = Some contentNode.
Proof.
  unfold SystemMessageToPrompt.findSystemMessageContentArg. intros H.
  destruct (Sg.field callNode "function") as [funcNode|] eqn:FF; [|discriminate].
  destruct (negb (Sg.text funcNode =? "SystemMessage")%string
            && negb (Js.endsWith (Sg.text funcNode) ".SystemMessage")) eqn:E;
    [discriminate|].
  destruct (Sg.field callNode "arguments") as [argList|] eqn:FA; [|discriminate].
  apply firstSome_some in H. destruct H as (kwarg & Hin & H).
  destruct (Sg.field kwarg "name") as [nameNode|] eqn:FN; [|discriminate].
  destruct (Sg.text nameNode =? "content")%string eqn:EN; [|discriminate].
  destruct (Sg.field kwarg "value") as [valueNode|] eqn:FV; [|discriminate].
  inversion H; subst. apply findAll_in_dfs in Hin. destruct Hin as [Hd Hk].
  split; [reflexivity|]. split.
  - apply (dfs_trans _ argList); [now apply field_in_dfs in FA|].
    apply (dfs_trans _ kwarg); [exact Hd | now apply field_in_dfs in FV].
  - exists funcNode, kwarg, nameNode. repeat split; try assumption.
    + apply andb_false_iff in E. destruct E as [E|E]; apply negb_false_iff in E;
        rewrite E; [reflexivity | apply orb_true_r].
    + now apply kindIs_true.
    + now apply String.eqb_eq.
Qed.

Lemma targetOf_sound (kwarg : SgNode) (t : SystemMessageToPrompt.TransformInfo) :
  In t (SystemMessageToPrompt.targetOf kwarg) ->
  SystemMessageToPrompt.keywordArg t = kwarg
  /\ Sg.field kwarg "name" = Some (SystemMessageToPrompt.keywordName t)
  /\ (Sg.text (SystemMessageToPrompt.keywordName t) = "prompt"
      \/ Sg.text (SystemMessageToPrompt.keywordName t) = "system_prompt")
  /\ SystemMessageToPrompt.needsRename t
     = (Sg.text (SystemMessageToPrompt.keywordName t) =? "prompt")%string
  /\ Sg.field kwarg "value" = Some (SystemMessageToPrompt.systemMessageCall t)
  /\ Sg.kind (SystemMessageToPrompt.systemMessageCall t) = "call"
  /\ SystemMessageToPrompt.findSystemMessageContentArg
       (SystemMessageToPrompt.systemMessageCall t)
     = Some (SystemMessageToPrompt.contentExpr t, SystemMessageToPrompt.systemMessageCall t).
Proof.
  unfold SystemMessageToPrompt.targetOf. intros H.
  destruct (Sg.field kwarg "name") as [nameNode|] eqn:FN; [|destruct H].
  destruct (negb (Sg.text nameNode =? "prompt")%string
            && negb (Sg.text nameNode =? "system_prompt")%string) eqn:E; [destruct H|].
  destruct (Sg.field kwarg "value") as [valueNode|] eqn:FV; [|destruct H].
  destruct (negb (Sg.kind valueNode =? "call")%string) eqn:K; [destruct H|].
  destruct (SystemMessageToPrompt.findSystemMessageContentArg valueNode)
    as [[content call]|] eqn:C; [|destruct H].
  destruct H as [<-|[]]. cbn.
  destruct (content_arg_found _ _ _ C) as (-> & _).
  repeat split; try assumption; try reflexivity.
  - apply andb_false_iff in E. destruct E as [E|E]; apply negb_false_iff in E;
      apply String.eqb_eq in E; [now left | now right].
  - apply negb_false_iff in K. now apply String.eqb_eq.
Qed.

Lemma targets_found (rootNode : SgNode) (t : SystemMessageToPrompt.TransformInfo) :
  In t (SystemMessageToPrompt.findTransformTargets rootNode) ->
  SystemMessageToPrompt.hasLangchainSystemMessageImport rootNode = true
  /\ exists agentCallNode argList,
       In agentCallNode (Sg.findAll rootNode SystemMessageToPrompt.agentCall)
       /\ Sg.field agentCallNode "arguments" = Some argList
       /\ In (SystemMessageToPrompt.keywordArg t)
            (Sg.findAll argList (Sg.kindIs "keyword_argument"))
       /\ In t (SystemMessageToPrompt.targetOf (SystemMessageToPrompt.keywordArg t)).
Proof.
  unfold SystemMessageToPrompt.findTransformTargets. intros H.
  destruct (SystemMessageToPrompt.hasLangchainSystemMessageImport rootNode);
    [|destruct H]. simpl in H. split; [reflexivity|].
  apply in_flat_map in H. destruct H as (agentCallNode & Ha & H).
  destruct (Sg.field agentCallNode "arguments") as [argList|] eqn:FA; [|destruct H].
  apply in_flat_map in H. destruct H as (kwarg & Hk & H).
  pose proof (targetOf_sound kwarg t H) as (E & _). subst kwarg.
  exists agentCallNode, argList. now repeat split.
Qed.

(** Whenever there is something to rewrite the import statement is found:
    [findTransformTargets] answers no target without an import statement
    that names a langchain messages module and [SystemMessage], and
    [findSystemMessageImport] answers the first such statement. *)
Theorem targets_come_with_the_import (rootNode : SgNode) :
  SystemMessageToPrompt.findTransformTargets rootNode <> [] ->
  exists importStmt otherImportsExist,
    SystemMessageToPrompt.findSystemMessageImport rootNode
    = (Some importStmt, otherImportsExist)
    /\ In importStmt (Sg.findAll rootNode (Sg.kindIs "import_from_statement"))
    /\ SystemMessageToPrompt.fromLangchainMessages (Sg.text importStmt) = true
    /\ Js.includes (Sg.text importStmt) "SystemMessage" = true.
Proof.
  intros H.
  destruct (SystemMessageToPrompt.findTransformTargets rootNode) as [|t ts] eqn:E;
    [contradiction|].
  assert (Ht : In t (SystemMessageToPrompt.findTransformTargets rootNode))
    by (rewrite E; now left).
  apply targets_found in Ht. destruct Ht as [Hi _].
  unfold SystemMessageToPrompt.hasLangchainSystemMessageImport in Hi.
  apply existsb_exists in Hi. destruct Hi as (imp & Hin & Hp).
  destruct (find_found
              (fun imp =>
                 let impText := Sg.text imp in
                 SystemMessageToPrompt.fromLangchainMessages impText
                 && Js.includes impText "SystemMessage")
              _ imp Hin Hp) as (first & Hf).
  unfold SystemMessageToPrompt.findSystemMessageImport.
  cbv zeta. cbv zeta in Hf. rewrite Hf.
  apply find_some in Hf. destruct Hf as [Hin' Hp'].
  apply andb_prop in Hp'. destruct Hp' as [P1 P2].
  eexists first, _. repeat split; assumption.
Qed.

Lemma targets_come_with_the_import_example :
  exists importStmt otherImportsExist,
    SystemMessageToPrompt.findSystemMessageImport
      (rootOf (parsed "agent.py" contentRef_src contentRef_tree))
    = (Some importStmt, otherImportsExist)
    /\ In importStmt
         (Sg.findAll (rootOf (parsed "agent.py" contentRef_src contentRef_tree))
            (Sg.kindIs "import_from_statement"))
    /\ SystemMessageToPrompt.fromLangchainMessages (Sg.text importStmt) = true
    /\ Js.includes (Sg.text importStmt) "SystemMessage" = true.
Proof.
  apply (targets_come_with_the_import
           (rootOf (parsed "agent.py" contentRef_src contentRef_tree))).
  vm_compute. discriminate.
Defined.

Lemma content_inside_call (rootNode : SgNode) (t : SystemMessageToPrompt.TransformInfo) :
  In t (SystemMessageToPrompt.findTransformTargets rootNode) ->
  In (SystemMessageToPrompt.keywordArg t) (Sg.dfs rootNode)
  /\ In (SystemMessageToPrompt.systemMessageCall t)
       (Sg.children (SystemMessageToPrompt.keywordArg t))
  /\ In (SystemMessageToPrompt.contentExpr t)
       (Sg.dfs (SystemMessageToPrompt.systemMessageCall t)).
Proof.
  intros Ht. apply targets_found in Ht.
  destruct Ht as (_ & agentCallNode & argList & Ha & FA & Hk & Ht).
  apply targetOf_sound in Ht. destruct Ht as (_ & _ & _ & _ & FV & _ & C).
  apply content_arg_found in C. destruct C as (_ & Hc & _).
  apply findAll_in_dfs in Ha, Hk. repeat split.
  - apply (dfs_trans _ agentCallNode); [exact (proj1 Ha)|].
    apply (dfs_trans _ argList); [now apply field_in_dfs in FA | exact (proj1 Hk)].
  - now apply field_is_child in FV.
  - exact Hc.
Qed.

(** Every target is a [prompt=] or [system_prompt=] keyword whose value is
    a call of [SystemMessage] with a [content=] keyword, and its edit keeps
    the content expression verbatim: a [prompt=] keyword is replaced as a
    whole by [system_prompt=] and the content, and under [system_prompt=]
    only the call is replaced, by the content.  The content is a slice of
    the buffer inside the replaced span. *)
Theorem system_message_edit_keeps_the_content (root : SgRoot)
  (t : SystemMessageToPrompt.TransformInfo) :
  faithful root = true ->
  In t (SystemMessageToPrompt.findTransformTargets (rootOf root)) ->
  Sg.field (SystemMessageToPrompt.keywordArg t) "name"
    = Some (SystemMessageToPrompt.keywordName t)
  /\ Sg.field (SystemMessageToPrompt.keywordArg t) "value"
     = Some (SystemMessageToPrompt.systemMessageCall t)
  /\ Sg.kind (SystemMessageToPrompt.systemMessageCall t) = "call"
  /\ (exists kwarg nameNode,
        Sg.kind kwarg = "keyword_argument"
        /\ Sg.field kwarg "name" = Some nameNode
        /\ Sg.text nameNode = "content"
        /\ Sg.field kwarg "value" = Some (SystemMessageToPrompt.contentExpr t))
  /\ ((Sg.text (SystemMessageToPrompt.keywordName t) = "prompt"
       /\ SystemMessageToPrompt.targetEdit t
          = Sg.replace (SystemMessageToPrompt.keywordArg t)
              ("system_prompt=" +++ Sg.text (SystemMessageToPrompt.contentExpr t)))
      \/ (Sg.text (SystemMessageToPrompt.keywordName t) = "system_prompt"
          /\ SystemMessageToPrompt.targetEdit t
             = Sg.replace (SystemMessageToPrompt.systemMessageCall t)
                 (Sg.text (SystemMessageToPrompt.contentExpr t))))
  /\ Sg.text (SystemMessageToPrompt.contentExpr t)
     = Js.slice (buffer root)
         (Sg.rangeStart (SystemMessageToPrompt.contentExpr t))
         (Sg.rangeEnd (SystemMessageToPrompt.contentExpr t))
  /\ startPos (SystemMessageToPrompt.targetEdit t)
     <= Sg.rangeStart (SystemMessageToPrompt.contentExpr t)
  /\ Sg.rangeEnd (SystemMessageToPrompt.contentExpr t)
     <= endPos (SystemMessageToPrompt.targetEdit t).
Proof.
  intros F Ht.
  destruct (content_inside_call (rootOf root) t Ht) as (Dk & Hc & Dc).
  pose proof (targets_found _ _ Ht) as (_ & _ & _ & _ & _ & _ & Hs).
  apply targetOf_sound in Hs. destruct Hs as (_ & FN & Hn & Hr & FV & K & C).
  apply content_arg_found in C. destruct C as (_ & _ & funcNode & kwarg & nameNode & C).
  destruct C as (_ & _ & Kk & FN' & Tn & FV').
  assert (Dcall : In (SystemMessageToPrompt.systemMessageCall t) (Sg.dfs (rootOf root))).
  { apply (dfs_trans _ (SystemMessageToPrompt.keywordArg t)); [exact Dk|].
    now apply child_in_dfs. }
  destruct (child_range_inside root _ _ F Dk Hc) as (A1 & _ & B1).
  destruct (descendant_range_inside root _ _ F Dcall Dc) as (A2 & _ & B2).
  split; [exact FN|]. split; [exact FV|]. split; [exact K|].
  split; [exists kwarg, nameNode; now repeat split|].
  assert (Hsrc : source (SystemMessageToPrompt.contentExpr t) = buffer root).
  { apply (root_descendant_source root). now apply (dfs_trans _ _ _ Dcall). }
  unfold SystemMessageToPrompt.targetEdit. rewrite Hr.
  destruct Hn as [Hn|Hn]; rewrite Hn; simpl.
  - split; [left; now split|]. split; [unfold Sg.text; now rewrite Hsrc|]. lia.
  - split; [right; now split|]. split; [unfold Sg.text; now rewrite Hsrc|]. lia.
Qed.

Lemma system_message_edit_example :
  map SystemMessageToPrompt.targetEdit
    (SystemMessageToPrompt.findTransformTargets
       (rootOf (parsed "agent.py" contentRef_src contentRef_tree)))
  = [{| startPos := 88; endPos := 124; insertedText := "SystemMessage" |}]
  /\ Sg.text (SystemMessageToPrompt.contentExpr
                (nth 0 (SystemMessageToPrompt.findTransformTargets
                          (rootOf (parsed "agent.py" contentRef_src contentRef_tree)))
                   (SystemMessageToPrompt.mkTransformInfo
                      (rootOf (parsed "agent.py" contentRef_src contentRef_tree))
                      (rootOf (parsed "agent.py" contentRef_src contentRef_tree))
                      (rootOf (parsed "agent.py" contentRef_src contentRef_tree))
                      (rootOf (parsed "agent.py" contentRef_src contentRef_tree))
                      false)))
     = Js.slice contentRef_src 110 123.
Proof.
  split; [vm_compute; reflexivity|].
  destruct (system_message_edit_keeps_the_content
              (parsed "agent.py" contentRef_src contentRef_tree)
              (nth 0 (SystemMessageToPrompt.findTransformTargets
                        (rootOf (parsed "agent.py" contentRef_src contentRef_tree)))
                 (SystemMessageToPrompt.mkTransformInfo
                    (rootOf (parsed "agent.py" contentRef_src contentRef_tree))
                    (rootOf (parsed "agent.py" contentRef_src contentRef_tree))
                    (rootOf (parsed "agent.py" contentRef_src contentRef_tree))
                    (rootOf (parsed "agent.py" contentRef_src contentRef_tree))
                    false)))
    as (_ & _ & _ & _ & _ & H & _).
  - vm_compute. reflexivity.
  - vm_compute. left. reflexivity.
  - exact H.
Defined.

Lemma index_passes (c0 : ascii) (p a s : string) :
  lacks c0 a = true ->
  String.index 0 (String c0 p) (a +++ s)
  = match String.index 0 (String c0 p) s with
    | Some n => Some (String.length a + n)
    | None => None
    end.
Proof.
  induction a as [|c a IH]; intros H.
  - simpl. now destruct (String.index 0 (String c0 p) s).
  - simpl in H. apply andb_prop in H. destruct H as [Hc Ha].
    cbn [String.append String.index String.prefix].
    destruct (ascii_dec c0 c) as [E|E].
    + subst c. now rewrite Ascii.eqb_refl in Hc.
    + rewrite (IH Ha). now destruct (String.index 0 (String c0 p) s).
Qed.

Lemma index_here (c0 : ascii) (p x : string) :
  String.index 0 (String c0 p) (String c0 p +++ x) = Some 0.
Proof.
  cbn [String.append String.index].
  change (String c0 (p +++ x)) with (String c0 p +++ x).
  now rewrite prefix_append.
Qed.

Lemma sliceFrom_app (x y : string) : Js.sliceFrom (x +++ y) (String.length x) = y.
Proof.
  unfold Js.sliceFrom. rewrite substring_skip, append_length.
  replace (String.length x + String.length y - String.length x) with (String.length y) by lia.
  apply substring_all.
Qed.

Lemma slice_head (x y : string) : Js.slice (x +++ y) 0 (String.length x) = x.
Proof. unfold Js.slice. rewrite Nat.sub_0_r. apply substring_prefix. Qed.

Lemma eqb_by_length (s t : string) :
  String.length s <> String.length t -> (s =? t)%string = false.
Proof.
  intros H. apply String.eqb_neq. intros E. apply H. now rewrite E.
Qed.

Lemma blank_lacks (c : ascii) (ws : string) :
  Js.isSpace c = false -> blank ws = true -> lacks c ws = true.
Proof.
  intros Hc. induction ws as [|d ws IH]; simpl; [reflexivity|].
  intros H. apply andb_prop in H. destruct H as [Hd Hw]. rewrite (IH Hw), andb_true_r.
  apply negb_true_iff. apply Ascii.eqb_neq. intros E. subst d. congruence.
Qed.

Lemma lacks_app (c : ascii) (a b : string) :
  lacks c a = true -> lacks c b = true -> lacks c (a +++ b) = true.
Proof.
  induction a as [|d a IH]; simpl; intros Ha Hb; [exact Hb|].
  apply andb_prop in Ha. destruct Ha as [Hd Ha]. now rewrite Hd, IH.
Qed.

Lemma no_name_after_other_commas (a x : string) :
  lacks "S" a = true ->
  String.prefix "SystemMessage" (Js.trimStart (a +++ "," +++ x)) = false.
Proof.
  induction a as [|c a IH]; intros H; [reflexivity|].
  simpl in H. apply andb_prop in H. destruct H as [Hc Ha].
  cbn [String.append Js.trimStart].
  destruct (Js.isSpace c); [now apply IH|].
  cbn [String.prefix]. destruct (ascii_dec "S" c) as [E|E]; [|reflexivity].
  subst c. discriminate Hc.
Qed.

Lemma dropCommaName_at_comma (r : string) :
  String.prefix "SystemMessage" (Js.trimStart r) = true ->
  SystemMessageToPrompt.dropCommaName (String "," r) = Js.sliceFrom (Js.trimStart r) 13.
Proof. intros H. cbn [SystemMessageToPrompt.dropCommaName]. now rewrite H. Qed.

Lemma dropCommaName_step (c : ascii) (r : string) :
  String.prefix "SystemMessage" (Js.trimStart r) = false ->
  SystemMessageToPrompt.dropCommaName (String c r)
  = String c (SystemMessageToPrompt.dropCommaName r).
Proof.
  intros H. cbn [SystemMessageToPrompt.dropCommaName]. now rewrite H, andb_false_r.
Qed.

Lemma dropCommaName_last (pre ws tail : string) :
  lacks "S" pre = true ->
  blank ws = true ->
  SystemMessageToPrompt.dropCommaName (pre +++ "," +++ ws +++ "SystemMessage" +++ tail)
  = pre +++ tail.
Proof.
  intros Hp Hw.
  assert (T : Js.trimStart (ws +++ "SystemMessage" +++ tail) = "SystemMessage" +++ tail).
  { rewrite trimStart_blank by exact Hw. now apply trimStart_solid. }
  induction pre as [|c pre IH].
  - change ("" +++ "," +++ ws +++ "SystemMessage" +++ tail)
      with (String "," (ws +++ "SystemMessage" +++ tail)).
    rewrite dropCommaName_at_comma; rewrite T; [|apply prefix_append].
    apply (sliceFrom_app "SystemMessage" tail).
  - simpl in Hp. apply andb_prop in Hp. destruct Hp as [Hc Hp].
    change (String c pre +++ "," +++ ws +++ "SystemMessage" +++ tail)
      with (String c (pre +++ "," +++ ws +++ "SystemMessage" +++ tail)).
    rewrite dropCommaName_step by now apply no_name_after_other_commas.
    now rewrite (IH Hp).
Qed.

Lemma prefix_cons_eq (a : ascii) (p s : string) :
  String.prefix (String a p) (String a s) = String.prefix p s.
Proof. cbn [String.prefix]. destruct (ascii_dec a a); [reflexivity | contradiction]. Qed.

Lemma prefix_cons_neq (a c : ascii) (p s : string) :
  a <> c -> String.prefix (String a p) (String c s) = false.
Proof. intros H. cbn [String.prefix]. destruct (ascii_dec a c); [contradiction | reflexivity]. Qed.

Lemma no_name_with_comma (pre ws tail : string) :
  lacks "S" pre = true ->
  blank ws = true ->
  lacks "S" tail = true ->
  Js.charIs tail 0 COMMA = false ->
  String.index 0 "SystemMessage," (pre +++ "," +++ ws +++ "SystemMessage" +++ tail) = None.
Proof.
  intros Hp Hw Ht Hc.
  assert (Ha : lacks "S" (pre +++ "," +++ ws) = true).
  { apply lacks_app; [exact Hp|]. apply (lacks_app "S" ","); [reflexivity|].
    now apply blank_lacks. }
  replace (pre +++ "," +++ ws +++ "SystemMessage" +++ tail)
    with ((pre +++ "," +++ ws) +++ "SystemMessage" +++ tail)
    by now rewrite !append_assoc.
  rewrite (index_passes "S" "ystemMessage," _ _ Ha).
  assert (N : String.index 0 "SystemMessage," ("SystemMessage" +++ tail) = None);
    [|now rewrite N].
  assert (P : String.prefix "SystemMessage," ("SystemMessage" +++ tail) = false).
  { destruct tail as [|d tail]; [reflexivity|].
    unfold Js.charIs, Js.charAt in Hc. simpl in Hc. apply Ascii.eqb_neq in Hc.
    cbn [String.append]. rewrite !prefix_cons_eq. apply prefix_cons_neq.
    intros E. apply Hc. now symmetry. }
  change ("SystemMessage" +++ tail) with (String "S" ("ystemMessage" +++ tail)) in *.
  cbn [String.index]. rewrite P.
  rewrite (index_passes "S" "ystemMessage," "ystemMessage" tail eq_refl).
  rewrite <- (append_empty_r tail).
  rewrite (index_passes "S" "ystemMessage," tail "" Ht). reflexivity.
Qed.

(** The removal of [SystemMessage] from an import list that keeps other
    names.  Where a comma follows the name, the name goes with that comma
    and the white space after it; where the name is the last one, it goes
    with the comma before it and the white space in between.  What
    precedes has no capital [S], what follows the last name neither. *)
Theorem system_message_name_leaves_the_list (importStmt rootNode : SgNode)
  (pre ws : string) :
  lacks "S" pre = true ->
  blank ws = true ->
  (forall rest,
      startsSolid rest = true ->
      Sg.text importStmt = pre +++ "SystemMessage," +++ ws +++ rest ->
      SystemMessageToPrompt.buildImportEdit importStmt true rootNode
      = Some (Sg.replace importStmt (pre +++ rest)))
  /\ (forall tail,
        lacks "S" tail = true ->
        Js.charIs tail 0 COMMA = false ->
        Sg.text importStmt = pre +++ "," +++ ws +++ "SystemMessage" +++ tail ->
        SystemMessageToPrompt.buildImportEdit importStmt true rootNode
        = Some (Sg.replace importStmt (pre +++ tail))).
Proof.
  intros Hp Hw. split.
  - intros rest Hr Ht.
    assert (D : SystemMessageToPrompt.dropNameComma (Sg.text importStmt) = pre +++ rest).
    { unfold SystemMessageToPrompt.dropNameComma. rewrite Ht.
      rewrite (index_passes "S" "ystemMessage," pre _ Hp).
      rewrite (index_here "S" "ystemMessage," (ws +++ rest)).
      rewrite Nat.add_0_r, slice_head.
      replace (pre +++ "SystemMessage," +++ ws +++ rest)
        with ((pre +++ "SystemMessage,") +++ ws +++ rest) by now rewrite !append_assoc.
      replace (String.length pre + 14) with (String.length (pre +++ "SystemMessage,"))
        by (rewrite append_length; reflexivity).
      rewrite sliceFrom_app, trimStart_blank by exact Hw.
      now rewrite trimStart_solid. }
    assert (N : (pre +++ rest =? Sg.text importStmt)%string = false).
    { apply eqb_by_length. rewrite Ht, !append_length. simpl. lia. }
    unfold SystemMessageToPrompt.buildImportEdit. cbv zeta. simpl negb. cbv iota.
    rewrite D, N, N, N. reflexivity.
  - intros tail Htl Hc Ht.
    assert (D1 : SystemMessageToPrompt.dropNameComma (Sg.text importStmt)
                 = Sg.text importStmt).
    { unfold SystemMessageToPrompt.dropNameComma. rewrite Ht.
      now rewrite no_name_with_comma. }
    assert (D2 : SystemMessageToPrompt.dropCommaName (Sg.text importStmt) = pre +++ tail).
    { rewrite Ht. now apply dropCommaName_last. }
    assert (N : (pre +++ tail =? Sg.text importStmt)%string = false).
    { apply eqb_by_length. rewrite Ht, !append_length. simpl. lia. }
    unfold SystemMessageToPrompt.buildImportEdit. cbv zeta. simpl negb. cbv iota.
    rewrite D1, String.eqb_refl, D2, N, N. reflexivity.
Qed.

Lemma system_message_last_name_example :
  SystemMessageToPrompt.buildImportEdit
    (nth 1 (Sg.dfs (rootOf (parsed "agent.py" mixedImport_src mixedImport_tree)))
       (rootOf (parsed "agent.py" mixedImport_src mixedImport_tree)))
    true (rootOf (parsed "agent.py" mixedImport_src mixedImport_tree))
  = Some (Sg.replace
            (nth 1 (Sg.dfs (rootOf (parsed "agent.py" mixedImport_src mixedImport_tree)))
               (rootOf (parsed "agent.py" mixedImport_src mixedImport_tree)))
            ("from langchain.messages import HumanMessage" +++ ""))
  /\ SystemMessageToPrompt.transform (parsed "agent.py" mixedImport_src mixedImport_tree)
     = Rewritten ("from langchain.messages import HumanMessage" +++ nl +++ nl
                    +++ "agent = create_agent(model, system_prompt=" +++ dq +++ "hi" +++ dq
                    +++ ")" +++ nl).
Proof.
  split; [|vm_compute; reflexivity].
  apply (proj2 (system_message_name_leaves_the_list
                  (nth 1 (Sg.dfs (rootOf (parsed "agent.py" mixedImport_src mixedImport_tree)))
                     (rootOf (parsed "agent.py" mixedImport_src mixedImport_tree)))
                  (rootOf (parsed "agent.py" mixedImport_src mixedImport_tree))
                  "from langchain.messages import HumanMessage" " "
                  ltac:(vm_compute; reflexivity) ltac:(vm_compute; reflexivity)) "");
    vm_compute; reflexivity.
Defined.

(** ** langchain-classic-imports *)

Lemma prefix_split (p s : string) :
  String.prefix p s = true -> exists r, s = p +++ r.
Proof.
  revert s. induction p as [|a p IH]; intros s H; [now exists s|].
  destruct s as [|c s]; cbn [String.prefix] in H; [discriminate|].
  destruct (ascii_dec a c) as [<-|]; [|discriminate].
  destruct (IH s H) as (r & ->). now exists r.
Qed.

Lemma final_name_keeps_the_rest (x : string) :
  LangchainClassicImports.finalModuleName ("langchain." +++ x) = "langchain_classic." +++ x.
Proof.
  unfold LangchainClassicImports.finalModuleName, Js.startsWith.
  rewrite prefix_append.
  replace (Js.sliceFrom ("langchain." +++ x) 10) with x
    by (symmetry; apply (sliceFrom_app "langchain." x)).
  rewrite eqb_by_length; [reflexivity|].
  rewrite append_length. simpl. lia.
Qed.

(** An import is rewritten in its module name only, and the path below the
    package is kept: [langchain] itself becomes [langchain_classic], and a
    legacy module [langchain.M], alone or followed by [.] and a path,
    becomes [langchain_classic.M] followed by the same path. *)
Theorem classic_import_keeps_the_path (importNode : SgNode) (e : Edit) :
  In e (LangchainClassicImports.visit importNode) ->
  exists moduleNameNode,
    Sg.field importNode "module_name" = Some moduleNameNode
    /\ startPos e = Sg.rangeStart moduleNameNode
    /\ endPos e = Sg.rangeEnd moduleNameNode
    /\ ((Sg.text moduleNameNode = "langchain" /\ insertedText e = "langchain_classic")
        \/ exists legacyModule rest,
             In legacyModule LangchainClassicImports.LEGACY_MODULES
             /\ (rest = "" \/ String.prefix "." rest = true)
             /\ Sg.text moduleNameNode = "langchain." +++ legacyModule +++ rest
             /\ insertedText e = "langchain_classic." +++ legacyModule +++ rest).
Proof.
  unfold LangchainClassicImports.visit. intros H.
  destruct (LangchainClassicImports.isAlreadyMigrated importNode); [destruct H|].
  destruct (LangchainClassicImports.isHubImport importNode
            || LangchainClassicImports.isLegacyModuleImport importNode) eqn:E;
    [|destruct H].
  unfold LangchainClassicImports.createImportEdit in H.
  unfold LangchainClassicImports.isHubImport,
    LangchainClassicImports.isLegacyModuleImport in E.
  destruct (Sg.field importNode "module_name") as [m|]; [|destruct H].
  destruct H as [<-|[]]. exists m. cbn [startPos endPos insertedText].
  repeat split. apply orb_prop in E. destruct E as [E|E].
  - left. destruct (negb (Sg.text m =? "langchain")%string) eqn:N; [discriminate|].
    apply negb_false_iff in N. apply String.eqb_eq in N. rewrite N. now split.
  - right. apply existsb_exists in E. destruct E as (legacy & Hl & E).
    apply orb_prop in E. destruct E as [E|E].
    + apply String.eqb_eq in E. exists legacy, "". rewrite append_empty_r.
      repeat split; [exact Hl | now left | exact E |].
      rewrite E. apply final_name_keeps_the_rest.
    + unfold Js.startsWith in E. apply prefix_split in E. destruct E as (r & E).
      exists legacy, ("." +++ r).
      assert (X : Sg.text m = "langchain." +++ legacy +++ "." +++ r)
        by (rewrite E; now rewrite !append_assoc).
      repeat split; [exact Hl | right; apply prefix_append | exact X |].
      rewrite X. apply final_name_keeps_the_rest.
Qed.

Lemma classic_import_example :
  LangchainClassicImports.visit
    (nth 1 (Sg.dfs (rootOf (parsed "rag.py" legacy_src legacy_tree)))
       (rootOf (parsed "rag.py" legacy_src legacy_tree)))
  = [{| startPos := 5; endPos := 25; insertedText := "langchain_classic.retrievers" |}]
  /\ exists moduleNameNode,
       Sg.field (nth 1 (Sg.dfs (rootOf (parsed "rag.py" legacy_src legacy_tree)))
                   (rootOf (parsed "rag.py" legacy_src legacy_tree)))
         "module_name" = Some moduleNameNode
       /\ 5 = Sg.rangeStart moduleNameNode
       /\ 25 = Sg.rangeEnd moduleNameNode
       /\ ((Sg.text moduleNameNode = "langchain"
            /\ "langchain_classic.retrievers" = "langchain_classic")
           \/ exists legacyModule rest,
                In legacyModule LangchainClassicImports.LEGACY_MODULES
                /\ (rest = "" \/ String.prefix "." rest = true)
                /\ Sg.text moduleNameNode = "langchain." +++ legacyModule +++ rest
                /\ "langchain_classic.retrievers"
                   = "langchain_classic." +++ legacyModule +++ rest).
Proof.
  split; [vm_compute; reflexivity|].
  apply (classic_import_keeps_the_path
           (nth 1 (Sg.dfs (rootOf (parsed "rag.py" legacy_src legacy_tree)))
              (rootOf (parsed "rag.py" legacy_src legacy_tree)))
           {| startPos := 5; endPos := 25; insertedText := "langchain_classic.retrievers" |}).
  vm_compute. left. reflexivity.
Defined.

(** ** The spans handed to the committer *)

Lemma replace_in_buffer (root : SgRoot) (n : SgNode) (t : string) :
  wellFormed root = true ->
  In n (Sg.dfs (rootOf root)) ->
  inBuffer root (Sg.replace n t).
Proof.
  intros W Hn. unfold inBuffer, Sg.replace. cbn [startPos endPos].
  exact (root_descendant_within root n W Hn).
Qed.

Lemma span_in_buffer (root : SgRoot) (n : SgNode) (e : Edit) :
  wellFormed root = true ->
  In n (Sg.dfs (rootOf root)) ->
  startPos e = Sg.rangeStart n ->
  endPos e = Sg.rangeEnd n ->
  inBuffer root e.
Proof.
  intros W Hn Hs He. unfold inBuffer. rewrite Hs, He.
  exact (root_descendant_within root n W Hn).
Qed.

Lemma insertion_in_buffer (root : SgRoot) (n : SgNode) (t : string) :
  wellFormed root = true ->
  In n (Sg.dfs (rootOf root)) ->
  inBuffer root {| startPos := Sg.rangeEnd n; endPos := Sg.rangeEnd n; insertedText := t |}.
Proof.
  intros W Hn. unfold inBuffer. cbn [startPos endPos].
  destruct (root_descendant_within root n W Hn). lia.
Qed.

Lemma text_method_edit_node (rootNode : SgNode) (e : Edit) :
  In e (TextMethodToProperty.edits rootNode) ->
  exists callNode t, In callNode (Sg.dfs rootNode) /\ e = Sg.replace callNode t.
Proof.
  unfold TextMethodToProperty.edits. intros H. apply in_flat_map in H.
  destruct H as (callNode & Hc & H). apply findAll_in_dfs in Hc.
  unfold TextMethodToProperty.visit in H.
  destruct (Sg.field callNode "arguments") as [argsNode|]; [|destruct H].
  destruct (0 <? length (filter Sg.isNamed (Sg.children argsNode))); [destruct H|].
  destruct (Sg.field callNode "function") as [attrNode|]; [|destruct H].
  destruct H as [<-|[]]. exists callNode, (Sg.text attrNode). split; [apply Hc | reflexivity].
Qed.

Lemma prompt_edit_node (definition : SgNode -> option DefinitionInfo) (root : SgRoot)
  (e : Edit) :
  In e (PromptToSystemPrompt.edits definition root) ->
  exists nameNode, In nameNode (Sg.dfs (rootOf root)) /\ e = Sg.replace nameNode "system_prompt".
Proof.
  unfold PromptToSystemPrompt.edits, PromptToSystemPrompt.visits. intros H.
  apply in_flat_map in H. destruct H as (v & Hv & H).
  apply in_map_iff in Hv. destruct Hv as (call & <- & Hc).
  apply findAll_in_dfs in Hc. destruct Hc as [Hc _].
  unfold PromptToSystemPrompt.visit in H.
  destruct (Sg.field call "function") as [funcNode|]; [|destruct H].
  destruct (PromptToSystemPrompt.fromOtherModule definition funcNode); [destruct H|].
  destruct (Sg.field call "arguments") as [argList|] eqn:FA; [|destruct H].
  destruct (negb (Sg.kind argList =? "argument_list")%string); [destruct H|].
  destruct (PromptToSystemPrompt.scanKeywords _) as [[promptArg|] [|]] eqn:SK;
    try (destruct H; fail).
  apply scanKeywords_prompt in SK. destruct SK as [Hin _].
  destruct (Sg.field promptArg "name") as [nameNode|] eqn:FN; [|destruct H].
  simpl in H. destruct H as [<-|[]]. exists nameNode. split; [|reflexivity].
  apply (dfs_trans _ call); [exact Hc|].
  apply (dfs_trans _ argList); [now apply field_in_dfs in FA|].
  apply (dfs_trans _ promptArg); [now apply findAll_in_dfs in Hin|].
  now apply field_in_dfs in FN.
Qed.

Lemma stream_edit_node (rootNode : SgNode) (e : Edit) :
  In e (StreamEventAgentToModel.edits (StreamEventAgentToModel.pass rootNode)) ->
  exists n t, In n (Sg.dfs rootNode) /\ e = Sg.replace n t.
Proof.
  intros H.
  destruct (pass_from rootNode (Sg.findAll rootNode (Sg.kindIs "comparison_operator"))
              (fun c Hc => Hc)
              {| StreamEventAgentToModel.processedNodeIds := [];
                 StreamEventAgentToModel.edits := [] |})
    as (targets & He & _ & _ & Ht).
  { exists []. simpl. repeat split; [constructor | intros ? []]. }
  fold (StreamEventAgentToModel.pass rootNode) in He. rewrite He in H.
  apply in_map_iff in H. destruct H as (t & <- & Hin).
  destruct (Ht t Hin) as (c & Hc & _ & Hl).
  apply lastAgentString_found in Hl. destruct Hl as (Hd & _).
  apply findAll_in_dfs in Hc.
  exists t, (StreamEventAgentToModel.replaceAgent 0 (Sg.text t)). split; [|reflexivity].
  now apply (dfs_trans _ c).
Qed.

(** The scripts that only replace nodes hand the committer spans that are
    ordered and lie inside the buffer, whatever the tree, as long as the
    nodes of the tree do. *)
Theorem replaced_spans_lie_in_the_buffer (definition : SgNode -> option DefinitionInfo)
  (root : SgRoot) :
  wellFormed root = true ->
  (forall e, In e (TextMethodToProperty.edits (rootOf root)) -> inBuffer root e)
  /\ (forall e, In e (PromptToSystemPrompt.edits definition root) -> inBuffer root e)
  /\ (forall e, In e (LangchainClassicImports.edits (rootOf root)) -> inBuffer root e)
  /\ (forall e,
        In e (StreamEventAgentToModel.edits (StreamEventAgentToModel.pass (rootOf root))) ->
        inBuffer root e).
Proof.
  intros W. repeat split.
  - apply text_method_edit_node in H. destruct H as (n & t & Hn & ->).
    now apply (root_descendant_within root n W Hn).
  - apply text_method_edit_node in H. destruct H as (n & t & Hn & ->).
    now apply (root_descendant_within root n W Hn).
  - apply prompt_edit_node in H. destruct H as (n & Hn & ->).
    now apply (root_descendant_within root n W Hn).
  - apply prompt_edit_node in H. destruct H as (n & Hn & ->).
    now apply (root_descendant_within root n W Hn).
  - unfold LangchainClassicImports.edits in H. apply in_flat_map in H.
    destruct H as (imp & Hi & H). apply findAll_in_dfs in Hi.
    unfold LangchainClassicImports.visit in H.
    destruct (LangchainClassicImports.isAlreadyMigrated imp); [destruct H|].
    destruct (_ || _); [|destruct H].
    unfold LangchainClassicImports.createImportEdit in H.
    destruct (Sg.field imp "module_name") as [m|] eqn:FM; [|destruct H].
    destruct H as [<-|[]]. cbn [startPos endPos].
    apply (root_descendant_within root m W).
    apply (dfs_trans _ imp); [apply Hi | now apply field_in_dfs in FM].
  - unfold LangchainClassicImports.edits in H. apply in_flat_map in H.
    destruct H as (imp & Hi & H). apply findAll_in_dfs in Hi.
    unfold LangchainClassicImports.visit in H.
    destruct (LangchainClassicImports.isAlreadyMigrated imp); [destruct H|].
    destruct (_ || _); [|destruct H].
    unfold LangchainClassicImports.createImportEdit in H.
    destruct (Sg.field imp "module_name") as [m|] eqn:FM; [|destruct H].
    destruct H as [<-|[]]. cbn [startPos endPos].
    apply (root_descendant_within root m W).
    apply (dfs_trans _ imp); [apply Hi | now apply field_in_dfs in FM].
  - apply stream_edit_node in H. destruct H as (n & t & Hn & ->).
    now apply (root_descendant_within root n W Hn).
  - apply stream_edit_node in H. destruct H as (n & t & Hn & ->).
    now apply (root_descendant_within root n W Hn).
Qed.

Lemma replaced_spans_example :
  StreamEventAgentToModel.edits
    (StreamEventAgentToModel.pass
       (rootOf (parsed "stream.py" streamEvent_src streamEvent_tree)))
  = [{| startPos := 22; endPos := 29; insertedText := "'model'" |}]
  /\ inBuffer (parsed "stream.py" streamEvent_src streamEvent_tree)
       {| startPos := 22; endPos := 29; insertedText := "'model'" |}.
Proof.
  split; [vm_compute; reflexivity|].
  apply (proj2 (proj2 (proj2
           (replaced_spans_lie_in_the_buffer unresolved
              (parsed "stream.py" streamEvent_src streamEvent_tree)
              ltac:(vm_compute; reflexivity))))).
  vm_compute. left. reflexivity.
Defined.

Lemma wrap_edit_node (root : SgRoot) (e : Edit) :
  In e (ResponseFormatToolStrategy.wrapEdits root) ->
  exists valueNode t, In valueNode (Sg.dfs (rootOf root)) /\ e = Sg.replace valueNode t.
Proof.
  unfold ResponseFormatToolStrategy.wrapEdits, ResponseFormatToolStrategy.visits. intros H.
  apply in_flat_map in H. destruct H as (v & Hv & H).
  apply in_map_iff in Hv. destruct Hv as (call & <- & Hc).
  apply findAll_in_dfs in Hc. destruct Hc as [Hc _].
  unfold ResponseFormatToolStrategy.visit in H.
  destruct (Sg.field call "arguments") as [argsNode|] eqn:FA; [|destruct H].
  destruct (Sg.find argsNode ResponseFormatToolStrategy.responseFormatKeyword)
    as [arg|] eqn:FR; [|destruct H].
  destruct (Sg.field arg "value") as [valueNode|] eqn:FV; [|destruct H].
  destruct (ResponseFormatToolStrategy.isTupleForm valueNode); [destruct H|].
  destruct (ResponseFormatToolStrategy.isAlreadyWrapped valueNode); [destruct H|].
  destruct H as [<-|[]]. eexists valueNode, _. split; [|reflexivity].
  apply (dfs_trans _ call); [exact Hc|].
  apply (dfs_trans _ argsNode); [now apply field_in_dfs in FA|].
  apply (dfs_trans _ arg); [now apply find_in_dfs in FR | now apply field_in_dfs in FV].
Qed.

Lemma insert_position_in_buffer (root : SgRoot) :
  wellFormed root = true ->
  ResponseFormatToolStrategy.findImportInsertPosition (rootOf root)
  <= String.length (buffer root).
Proof.
  intros W. unfold ResponseFormatToolStrategy.findImportInsertPosition. cbv zeta.
  destruct (length (Sg.findAll (rootOf root) ResponseFormatToolStrategy.anyImport) =? 0);
    [lia|].
  destruct (last_end_spec (Sg.findAll (rootOf root) ResponseFormatToolStrategy.anyImport) 0)
    as (_ & _ & [E|(imp & Hi & E)]).
  - cbv zeta in E. rewrite E. lia.
  - cbv zeta in E. rewrite <- E. apply findAll_in_dfs in Hi.
    now apply (root_descendant_within root imp W).
Qed.

Lemma response_format_in_buffer (root : SgRoot) (e : Edit) :
  wellFormed root = true ->
  In e (ResponseFormatToolStrategy.edits root) ->
  inBuffer root e.
Proof.
  intros W H.
  assert (X : In e (ResponseFormatToolStrategy.wrapEdits root)
              \/ In e (ResponseFormatToolStrategy.importEdits root)).
  { unfold ResponseFormatToolStrategy.edits in H.
    destruct (ResponseFormatToolStrategy.wrapEdits root) eqn:E; [destruct H|].
    now apply in_app_or in H. }
  destruct X as [X|X].
  - apply wrap_edit_node in X. destruct X as (n & t & Hn & ->).
    now apply replace_in_buffer.
  - unfold ResponseFormatToolStrategy.importEdits in X. cbv zeta in X.
    destruct (_ && _); [|destruct X].
    pose proof (insert_position_in_buffer root W) as P.
    destruct (ResponseFormatToolStrategy.findImportInsertPosition (rootOf root) =? 0);
      destruct X as [<-|[]]; unfold inBuffer; cbn [startPos endPos]; lia.
Qed.

Lemma react_agent_in_buffer (root : SgRoot) (e : Edit) :
  wellFormed root = true ->
  In e (CreateReactAgentToCreateAgent.edits (rootOf root)) ->
  inBuffer root e.
Proof.
  intros W H. unfold CreateReactAgentToCreateAgent.edits in H. cbv zeta in H.
  apply in_app_or in H. destruct H as [H|H].
  - destruct (scanImports_keeps (rootOf root)) as (_ & _ & Q).
    destruct (Q e H) as (stmt & Hs & _ & S1 & S2 & _).
    apply findAll_in_dfs in Hs. now apply (span_in_buffer root stmt e W (proj1 Hs)).
  - unfold CreateReactAgentToCreateAgent.callEdits in H.
    apply in_flat_map in H. destruct H as ([name isAlias] & _ & H).
    apply in_flat_map in H. destruct H as (call & Hc & H).
    apply findAll_in_dfs in Hc. unfold CreateReactAgentToCreateAgent.renameCall in H.
    destruct (Sg.field call "function") as [funcNode|] eqn:FF; [|destruct H].
    destruct (negb _); [|destruct H]. destruct H as [<-|[]].
    apply replace_in_buffer; [exact W|].
    apply (dfs_trans _ call); [apply Hc | now apply field_in_dfs in FF].
Qed.

Lemma build_import_edit_in_buffer (root : SgRoot) (importStmt : SgNode) (others : bool)
  (e : Edit) :
  wellFormed root = true ->
  In importStmt (Sg.dfs (rootOf root)) ->
  SystemMessageToPrompt.buildImportEdit importStmt others (rootOf root) = Some e ->
  inBuffer root e.
Proof.
  intros W Hs H. destruct (root_descendant_within root importStmt W Hs) as [A B].
  unfold SystemMessageToPrompt.buildImportEdit in H. cbv zeta in H.
  rewrite (root_text root W) in H.
  destruct (negb others).
  - inversion H; subst. unfold inBuffer. cbn [startPos endPos].
    destruct ((Sg.rangeEnd importStmt <? String.length (buffer root))
              && Js.charIs (buffer root) (Sg.rangeEnd importStmt) LF) eqn:E; [|lia].
    apply andb_prop in E. destruct E as [E _]. apply Nat.ltb_lt in E. lia.
  - match type of H with
    | (if ?c then _ else _) = _ => destruct c; [discriminate|]
    end.
    inversion H; subst. unfold inBuffer. cbn [startPos endPos]. lia.
Qed.

Lemma system_message_in_buffer (root : SgRoot) (e : Edit) :
  wellFormed root = true ->
  In e (SystemMessageToPrompt.edits (rootOf root)) ->
  inBuffer root e.
Proof.
  intros W H. unfold SystemMessageToPrompt.edits in H. cbv zeta in H.
  destruct (SystemMessageToPrompt.findTransformTargets (rootOf root)) as [|t0 ts] eqn:E;
    [destruct H|].
  apply in_app_or in H. destruct H as [H|H].
  - apply in_map_iff in H. destruct H as (t & <- & Ht). rewrite <- E in Ht.
    destruct (content_inside_call (rootOf root) t Ht) as (Dk & Hc & _).
    unfold SystemMessageToPrompt.targetEdit.
    destruct (SystemMessageToPrompt.needsRename t); apply replace_in_buffer; try assumption.
    apply (dfs_trans _ (SystemMessageToPrompt.keywordArg t)); [exact Dk|].
    now apply child_in_dfs.
  - unfold SystemMessageToPrompt.importEdits in H.
    destruct (negb _); [|destruct H].
    unfold SystemMessageToPrompt.findSystemMessageImport in H.
    match type of H with
    | context [List.find ?p ?l] => destruct (List.find p l) as [imp|] eqn:F; [|destruct H]
    end.
    apply find_some in F. destruct F as [Hi _]. apply findAll_in_dfs in Hi.
    match type of H with
    | context [SystemMessageToPrompt.buildImportEdit ?s ?o ?r] =>
        destruct (SystemMessageToPrompt.buildImportEdit s o r) as [e'|] eqn:B;
        [|destruct H]
    end.
    destruct H as [<-|[]].
    exact (build_import_edit_in_buffer root imp _ e' W (proj1 Hi) B).
Qed.

Lemma base_message_import_found (rootNode stmt nameNode : SgNode) :
  BindToolsReturnType.findBaseMessageImport rootNode = Some (stmt, nameNode) ->
  In stmt (Sg.dfs rootNode)
  /\ In nameNode (Sg.dfs rootNode)
  /\ Sg.kind nameNode = "dotted_name"
  /\ Sg.text nameNode = "BaseMessage".
Proof.
  unfold BindToolsReturnType.findBaseMessageImport. intros H.
  apply firstSome_some in H. destruct H as (s & Hs & H).
  apply firstSome_some in H. destruct H as (n & Hn & H).
  destruct (Sg.text n =? "BaseMessage")%string eqn:E; [|discriminate].
  inversion H; subst. apply findAll_in_dfs in Hs, Hn.
  destruct Hs as [Hs _]. destruct Hn as [Hn Hk].
  repeat split; [exact Hs | now apply (dfs_trans _ stmt) | now apply kindIs_true
                | now apply String.eqb_eq].
Qed.

Lemma lastOf_In {A : Type} (l : list A) (x : A) :
  BindToolsReturnType.lastOf l = Some x -> In x l.
Proof.
  unfold BindToolsReturnType.lastOf. destruct (length l); [discriminate|].
  apply nth_error_In.
Qed.

Lemma ai_message_import_in_buffer (root : SgRoot) (e : Edit) :
  wellFormed root = true ->
  BindToolsReturnType.createAIMessageImportEdit (rootOf root) None = Some e ->
  inBuffer root e.
Proof.
  intros W H. unfold BindToolsReturnType.createAIMessageImportEdit in H. cbv zeta in H.
  match type of H with
  | context [firstSome ?f ?l] => destruct (firstSome f l) as [e'|] eqn:F
  end.
  - inversion H; subst e'. apply firstSome_some in F. destruct F as (stmt & Hs & F).
    apply findAll_in_dfs in Hs.
    destruct (existsb _ _); [|discriminate].
    match type of F with
    | context [BindToolsReturnType.lastOf ?l] =>
        destruct (BindToolsReturnType.lastOf l) as [lastName|] eqn:L; [|discriminate]
    end.
    inversion F; subst. apply lastOf_In in L. apply filter_In in L. destruct L as [L _].
    apply findAll_in_dfs in L. apply insertion_in_buffer; [exact W|].
    apply (dfs_trans _ stmt); [apply Hs | apply L].
  - match type of H with
    | context [if ?c then BindToolsReturnType.lastOf ?l else None] =>
        destruct (if c then BindToolsReturnType.lastOf l else None) as [lastImport|] eqn:L
    end.
    + inversion H; subst.
      destruct (0 <? _); [|discriminate]. apply lastOf_In in L.
      apply findAll_in_dfs in L. apply insertion_in_buffer; [exact W | apply L].
    + inversion H; subst. unfold inBuffer. cbn [startPos endPos]. lia.
Qed.

Lemma remove_base_message_in_buffer (root : SgRoot) (stmt nameNode : SgNode) (e : Edit) :
  wellFormed root = true ->
  In stmt (Sg.dfs (rootOf root)) ->
  In nameNode (Sg.dfs (rootOf root)) ->
  BindToolsReturnType.createRemoveBaseMessageImportEdit (rootOf root) (stmt, nameNode)
  = Some e ->
  inBuffer root e.
Proof.
  intros W Hs Hn H.
  destruct (root_descendant_within root stmt W Hs) as [A1 B1].
  destruct (root_descendant_within root nameNode W Hn) as [A2 B2].
  unfold BindToolsReturnType.createRemoveBaseMessageImportEdit in H. cbv zeta in H.
  rewrite (root_text root W) in H.
  destruct (length _ =? 1).
  - inversion H; subst. unfold inBuffer. cbn [startPos endPos].
    destruct (Js.charIs (buffer root) (Sg.rangeEnd stmt) LF) eqn:C; [|lia].
    apply charIs_get in C. apply get_some_lt in C. lia.
  - inversion H; subst.
    destruct (bind_tools_removeName_bounds (buffer root) nameNode) as (S0 & S1 & S2).
    unfold inBuffer. specialize (S2 B2). lia.
Qed.

Lemma bind_tools_in_buffer (root : SgRoot) (e : Edit) :
  wellFormed root = true ->
  In e (BindToolsReturnType.returnTypeEdits (rootOf root)
          ++ BindToolsReturnType.importEdits (rootOf root)) ->
  inBuffer root e.
Proof.
  intros W H. apply in_app_or in H. destruct H as [H|H].
  - unfold BindToolsReturnType.returnTypeEdits in H. apply in_flat_map in H.
    destruct H as (f & Hf & H). apply findAll_in_dfs in Hf.
    apply bind_tools_visit_sound in H. destruct H as (b & Hb & _ & _ & ->).
    apply replace_in_buffer; [exact W|]. apply (dfs_trans _ f); [apply Hf | exact Hb].
  - rewrite (bind_tools_import_table (rootOf root)) in H.
    destruct (BindToolsReturnType.findBaseMessageImport (rootOf root))
      as [[stmt nameNode]|] eqn:B.
    + destruct (base_message_import_found _ _ _ B) as (Ds & Dn & _).
      destruct (BindToolsReturnType.checkHasImport (rootOf root) "AIMessage");
        destruct (BindToolsReturnType.hasOtherBaseMessageUsages (rootOf root));
        try (destruct H; fail).
      * destruct (BindToolsReturnType.createRemoveBaseMessageImportEdit _ _) as [e'|] eqn:R;
          [|destruct H].
        destruct H as [<-|[]]. now apply (remove_base_message_in_buffer root stmt nameNode).
      * destruct H as [<-|[]]. now apply insertion_in_buffer.
      * destruct H as [<-|[]]. now apply replace_in_buffer.
    + destruct (BindToolsReturnType.checkHasImport (rootOf root) "AIMessage");
        [destruct H|].
      destruct (BindToolsReturnType.createAIMessageImportEdit (rootOf root) None)
        as [e'|] eqn:A; [|destruct H].
      destruct H as [<-|[]]. now apply ai_message_import_in_buffer.
Qed.

(** The scripts that also touch imports hand the committer spans that are
    ordered and lie inside the buffer: the wrapped values and the inserted
    import line of response-format-tool-strategy, the rewritten statements
    and calls of create-react-agent-to-create-agent, the targets and the
    pruned import of system-message-to-prompt, the return types and the
    import edit of bind-tools-return-type. *)
Theorem planned_spans_lie_in_the_buffer (root : SgRoot) :
  wellFormed root = true ->
  (forall e, In e (ResponseFormatToolStrategy.edits root) -> inBuffer root e)
  /\ (forall e, In e (CreateReactAgentToCreateAgent.edits (rootOf root)) -> inBuffer root e)
  /\ (forall e, In e (SystemMessageToPrompt.edits (rootOf root)) -> inBuffer root e)
  /\ (forall e,
        In e (BindToolsReturnType.returnTypeEdits (rootOf root)
                ++ BindToolsReturnType.importEdits (rootOf root)) ->
        inBuffer root e).
Proof.
  intros W. split; [|split; [|split]]; intros e H.
  - now apply response_format_in_buffer.
  - now apply react_agent_in_buffer.
  - now apply system_message_in_buffer.
  - now apply bind_tools_in_buffer.
Qed.

Lemma planned_spans_example :
  BindToolsReturnType.returnTypeEdits
    (rootOf (parsed "model.py" bindToolsBoth_src bindToolsBoth_tree))
  ++ BindToolsReturnType.importEdits
       (rootOf (parsed "model.py" bindToolsBoth_src bindToolsBoth_tree))
  = [{| startPos := 119; endPos := 130; insertedText := "AIMessage" |};
     {| startPos := 45; endPos := 58; insertedText := "" |}]
  /\ inBuffer (parsed "model.py" bindToolsBoth_src bindToolsBoth_tree)
       {| startPos := 45; endPos := 58; insertedText := "" |}.
Proof.
  split; [vm_compute; reflexivity|].
  apply (proj2 (proj2 (proj2
           (planned_spans_lie_in_the_buffer
              (parsed "model.py" bindToolsBoth_src bindToolsBoth_tree)
              ltac:(vm_compute; reflexivity))))).
  vm_compute. right. left. reflexivity.
Defined.

(** ** The semantic check of prompt-to-system-prompt *)

Lemma visit_with_analysis (definition : SgNode -> option DefinitionInfo) (file : string)
  (call : SgNode) :
  PromptToSystemPrompt.visit definition file call =
  match Sg.field call "function" with
  | Some funcNode =>
      if PromptToSystemPrompt.fromOtherModule definition funcNode then skip
      else PromptToSystemPrompt.visit unresolved file call
  | None => skip
  end.
Proof.
  unfold PromptToSystemPrompt.visit.
  destruct (Sg.field call "function") as [funcNode|]; [|reflexivity].
  destruct (PromptToSystemPrompt.fromOtherModule definition funcNode); reflexivity.
Qed.

Lemma incl_flat_map {A B : Type} (f g : A -> list B) (l : list A) :
  (forall x, incl (f x) (g x)) -> incl (flat_map f l) (flat_map g l).
Proof.
  intros H y Hy. apply in_flat_map in Hy. destruct Hy as (x & Hx & Hy).
  apply in_flat_map. exists x. split; [exact Hx | now apply H].
Qed.

(** The semantic analysis can only veto.  Whatever [definition] answers,
    a call is either skipped, when its function resolves to an import from
    a module other than [langchain.agents] and [langgraph.prebuilt], or
    treated as if nothing had been resolved: every edit and every warning
    of a run with the analysis is one of the run without it. *)
Theorem semantic_analysis_only_vetoes (definition : SgNode -> option DefinitionInfo)
  (root : SgRoot) :
  (forall call,
      PromptToSystemPrompt.visit definition (filename root) call = skip
      \/ PromptToSystemPrompt.visit definition (filename root) call
         = PromptToSystemPrompt.visit unresolved (filename root) call)
  /\ incl (PromptToSystemPrompt.edits definition root)
          (PromptToSystemPrompt.edits unresolved root)
  /\ incl (PromptToSystemPrompt.warnings definition root)
          (PromptToSystemPrompt.warnings unresolved root).
Proof.
  assert (V : forall call,
             PromptToSystemPrompt.visit definition (filename root) call = skip
             \/ PromptToSystemPrompt.visit definition (filename root) call
                = PromptToSystemPrompt.visit unresolved (filename root) call).
  { intros call. rewrite visit_with_analysis.
    destruct (Sg.field call "function") as [funcNode|]; [|now left].
    destruct (PromptToSystemPrompt.fromOtherModule definition funcNode);
      [now left | now right]. }
  split; [exact V|]. split.
  - unfold PromptToSystemPrompt.edits, PromptToSystemPrompt.visits.
    rewrite !flat_map_map. apply incl_flat_map. intros call.
    destruct (V call) as [E|E]; rewrite E; [intros ? [] | apply incl_refl].
  - unfold PromptToSystemPrompt.warnings, PromptToSystemPrompt.visits.
    rewrite !flat_map_map. apply incl_flat_map. intros call.
    destruct (V call) as [E|E]; rewrite E; [intros ? [] | apply incl_refl].
Qed.

(** ** The detector of aimessage-example-to-kwargs *)

Lemma keyword_with_identifier (name : string) (kwArg c : SgNode) :
  Sg.kind kwArg = "keyword_argument" ->
  In c (Sg.children kwArg) ->
  Sg.kind c = "identifier" ->
  Sg.text c = name ->
  AIMessageExampleToKwargs.keywordNamed name kwArg = true.
Proof.
  intros Hk Hc Hi Ht. unfold AIMessageExampleToKwargs.keywordNamed, Sg.all. simpl.
  rewrite andb_true_r. apply andb_true_intro. split.
  - unfold Sg.kindIs, Sg.isKind. now apply String.eqb_eq.
  - unfold Sg.has. apply existsb_exists. exists c. split; [exact Hc|].
    rewrite andb_true_r. apply andb_true_intro. split.
    + unfold Sg.kindIs, Sg.isKind. now apply String.eqb_eq.
    + unfold Sg.regex. simpl. rewrite orb_false_r. now apply String.eqb_eq.
Qed.

(** The [example] keyword is recognised by any direct identifier child that
    reads [example], not by the name of the keyword: a keyword argument
    whose value is the bare identifier [example] is taken for it, whatever
    its name.  When the call has no [additional_kwargs] keyword, the
    keyword found is replaced as a whole by
    [additional_kwargs={"example": VALUE}], VALUE being the child after
    [=]. *)
Theorem keyword_valued_example_is_rewritten (call argList kwArg valueNode : SgNode) :
  (forall keyword value,
      Sg.kind keyword = "keyword_argument" ->
      Sg.field keyword "value" = Some value ->
      Sg.kind value = "identifier" ->
      Sg.text value = "example" ->
      AIMessageExampleToKwargs.keywordNamed "example" keyword = true)
  /\ (Sg.field call "arguments" = Some argList ->
      Sg.find argList (AIMessageExampleToKwargs.keywordNamed "example") = Some kwArg ->
      AIMessageExampleToKwargs.getKeywordArgumentValue kwArg = Some valueNode ->
      Sg.find argList (AIMessageExampleToKwargs.keywordNamed "additional_kwargs") = None ->
      AIMessageExampleToKwargs.visit call
      = [Sg.replace kwArg
           ("additional_kwargs={" +++ dq +++ "example" +++ dq +++ ": "
              +++ Sg.text valueNode +++ "}")]).
Proof.
  split.
  - intros keyword value Hk Hv Hi Ht.
    apply (keyword_with_identifier "example" keyword value); try assumption.
    now apply field_is_child in Hv.
  - intros FA FE FV FK. unfold AIMessageExampleToKwargs.visit. rewrite FA, FE.
    assert (N : exists n,
               Sg.find kwArg (Sg.all [Sg.kindIs "identifier"; Sg.regex ["example"]])
               = Some n).
    { apply find_in_dfs in FE. destruct FE as [_ R].
      unfold AIMessageExampleToKwargs.keywordNamed in R. apply all_two in R.
      destruct R as [_ R]. unfold Sg.has in R. apply existsb_exists in R.
      destruct R as (c & Hc & Rc).
      apply (find_found _ _ c); [now apply child_in_dfs | exact Rc]. }
    destruct N as (n & ->). now rewrite FV, FK.
Qed.

Lemma keyword_valued_example :
  AIMessageExampleToKwargs.edits
    (rootOf (parsed "msg.py" valueNamedExample_src valueNamedExample_tree))
  = [{| startPos := 14; endPos := 29;
        insertedText := "additional_kwargs={" +++ dq +++ "example" +++ dq +++ ": example}" |}]
  /\ AIMessageExampleToKwargs.keywordNamed "example"
       (nth 9 (Sg.dfs (rootOf (parsed "msg.py" valueNamedExample_src valueNamedExample_tree)))
          (rootOf (parsed "msg.py" valueNamedExample_src valueNamedExample_tree)))
     = true
  /\ AIMessageExampleToKwargs.transform
       (parsed "msg.py" valueNamedExample_src valueNamedExample_tree)
     = Rewritten ("m = AIMessage(additional_kwargs={" +++ dq +++ "example" +++ dq
                    +++ ": example})" +++ nl).
Proof.
  split; [vm_compute; reflexivity|]. split; [|vm_compute; reflexivity].
  apply (proj1 (keyword_valued_example_is_rewritten
                  (rootOf (parsed "msg.py" valueNamedExample_src valueNamedExample_tree))
                  (rootOf (parsed "msg.py" valueNamedExample_src valueNamedExample_tree))
                  (rootOf (parsed "msg.py" valueNamedExample_src valueNamedExample_tree))
                  (rootOf (parsed "msg.py" valueNamedExample_src valueNamedExample_tree)))
           (nth 9 (Sg.dfs (rootOf (parsed "msg.py" valueNamedExample_src valueNamedExample_tree)))
              (rootOf (parsed "msg.py" valueNamedExample_src valueNamedExample_tree)))
           (nth 12 (Sg.dfs (rootOf (parsed "msg.py" valueNamedExample_src valueNamedExample_tree)))
              (rootOf (parsed "msg.py" valueNamedExample_src valueNamedExample_tree))));
    vm_compute; reflexivity.
Defined.
